(** * tk-houdini-arnoldnode: the node handler over a model of the host session

    The handler (python/tk_houdini_arnoldnode/handler.py) is glue between two
    services it does not define: the host's node graph (the [hou] module) and
    the pipeline toolkit (the [sgtk] module: templates, context, settings,
    logging).  The session of the host is an explicit state here; every
    handler function is a computation over it that either returns or raises,
    and a raise keeps whatever was written before it, as in Python.  What the
    two services compute on their own (expression expansion, the node types,
    template parsing and resolution) is taken as a parameter. *)

From Stdlib Require Import ZArith String Ascii List.
From Stdlib Require QArith.
From stdpp Require Import gmap strings list fin_maps pretty.

Local Open Scope string_scope.

(** ** Python values and exceptions *)

(** The values that parameters, dictionaries and arguments carry. *)
Inductive Value :=
  | VNone
  | VBool (b : bool)
  | VInt (z : Z)
  | VStr (s : string).

Global Instance Value_eq_dec : EqDecision Value.
Proof. solve_decision. Defined.

(** Truth value of an object ([if x:], [not x]). *)
Definition truthy (v : Value) : bool :=
  match v with
  | VNone => false
  | VBool b => b
  | VInt z => negb (z =? 0)%Z
  | VStr s => negb (String.eqb s "")
  end.

Definition py_not (v : Value) : bool := negb (truthy v).

(** [x == y]; a bool is an int, a string equals only a string. *)
Definition py_eq (x y : Value) : bool :=
  match x, y with
  | VNone, VNone => true
  | VStr a, VStr b => String.eqb a b
  | VInt a, VInt b => (a =? b)%Z
  | VBool a, VBool b => Bool.eqb a b
  | VBool a, VInt b | VInt b, VBool a => ((if a then 1 else 0) =? b)%Z
  | _, _ => false
  end.

(** [str(x)] as [%s] prints it. *)
Definition py_str (v : Value) : string :=
  match v with
  | VNone => "None"
  | VBool true => "True"
  | VBool false => "False"
  | VInt z => pretty z
  | VStr s => s
  end.

Inductive Exn :=
  | TankError (msg : string)         (* sgtk.TankError *)
  | InvalidInput (msg : string)      (* hou.InvalidInput *)
  | OperationFailed                  (* hou.OperationFailed *)
  | PermissionError                  (* hou.PermissionError *)
  | ObjectWasDeleted                 (* hou.ObjectWasDeleted *)
  | TypeError
  | AttributeError
  | KeyError
  | IndexError
  | ValueError.

Inductive Outcome (A : Type) :=
  | Ok (a : A)
  | Raise (e : Exn).
Arguments Ok {A} a.
Arguments Raise {A} e.

(** [l[i]] for a Python list: negative indices count from the end. *)
Definition py_index {A} (l : list A) (v : Value) : Outcome A :=
  let at_ (z : Z) :=
    let z' := (if z <? 0 then z + Z.of_nat (length l) else z)%Z in
    if (z' <? 0)%Z then Raise IndexError
    else match l !! Z.to_nat z' with
         | Some a => Ok a
         | None => Raise IndexError
         end in
  match v with
  | VInt z => at_ z
  | VBool b => at_ (if b then 1 else 0)%Z
  | _ => Raise TypeError
  end.

(** [l.index(x)]: first position, or ValueError. *)
Fixpoint py_list_index (l : list string) (x : string) : option nat :=
  match l with
  | [] => None
  | y :: l' => if String.eqb y x then Some 0
               else S <$> py_list_index l' x
  end.

(** [s.replace(old, new)] for a one-character [old]. *)
Fixpoint replace_char (old : ascii) (new : string) (s : string) : string :=
  match s with
  | EmptyString => EmptyString
  | String c s' =>
      if Ascii.eqb c old then new +:+ replace_char old new s'
      else String c (replace_char old new s')
  end.

(** ** The host session *)

Abbreviation NodeId := nat.

(** Position of a node in the network editor (hou.Vector2). *)
Definition Vector2 : Type := QArith_base.Q * QArith_base.Q.
Definition origin : Vector2 := (QArith_base.Qmake 0 1, QArith_base.Qmake 0 1).

(** The classes of parameter template the handler distinguishes. *)
Inductive ParmTemplate :=
  | StringParmTemplate
  | IntParmTemplate
  | MenuParmTemplate
  | ToggleParmTemplate
  | FolderSetParmTemplate.

Global Instance ParmTemplate_eq_dec : EqDecision ParmTemplate.
Proof. solve_decision. Defined.

(** A parameter: the value as typed (unexpanded for a string), its keyframes
    by frame (an expression on a parameter is a keyframe), the lock and the
    labels of its menu. *)
Record Parm := mkParm {
  parm_template : ParmTemplate;
  parm_raw : Value;
  parm_keys : gmap Z string;
  parm_locked : bool;
  parm_menu_labels : list string
}.

(** A node.  The parameters are an ordered tuple ([node.parms()]); the inputs
    map a slot index to the node wired into it; [node_connectors] is what
    [len(node.inputConnectors())] reports. *)
Record Node := mkNode {
  node_type : string;
  node_name : string;
  node_parent : string;
  node_pos : Vector2;
  node_parms : list (string * Parm);
  node_user_data : gmap string string;
  node_inputs : gmap nat NodeId;
  node_connectors : nat
}.

Inductive LogLevel := LDebug | LWarning | LError.

Record Session := mkSession {
  nodes : gmap NodeId Node;
  next_id : NodeId;
  hip_path : string;          (* hou.hipFile.path() *)
  pwd : NodeId;               (* hou.pwd() *)
  log : list (LogLevel * string)
}.

(** What the host decides by itself. *)
Record NodeTypeDef := mkNodeTypeDef {
  nt_parms : list (string * Parm);
  nt_connectors : nat
}.

Record Host := mkHost {
  expand : string -> string;               (* evaluation of a string value *)
  eval_keys : gmap Z string -> Value;      (* evaluation of keyframes *)
  os_sep : ascii;                          (* os.path.sep *)
  node_types : string -> option NodeTypeDef   (* hou.nodeType(category, name) *)
}.

(** ** The toolkit application *)

(** An output profile of the [output_profiles] setting. *)
Record Profile := mkProfile {
  prof_name : string;
  prof_settings : list (string * Value);
  prof_templates : gmap string string
}.

Record App := mkApp {
  Template : Type;
  get_template : string -> option Template;          (* by setting name *)
  get_template_by_name : string -> option Template;
  validate : Template -> string -> bool;
  get_fields : Template -> string -> gmap string Value;
  apply_fields : Template -> gmap string Value -> string + string;
                                      (* inl msg: sgtk.TankError(msg) *)
  as_template_fields : Template -> gmap string Value;
  output_profiles : list Profile
}.

(** ** Computations over the session *)

Definition M (A : Type) : Type := Session -> Outcome A * Session.

Definition ret {A} (a : A) : M A := fun st => (Ok a, st).
Definition raise {A} (e : Exn) : M A := fun st => (Raise e, st).
Definition bind {A B} (m : M A) (k : A -> M B) : M B :=
  fun st => match m st with
            | (Ok a, st') => k a st'
            | (Raise e, st') => (Raise e, st')
            end.
Definition lift {A} (o : Outcome A) : M A := fun st => (o, st).

Declare Scope handler_scope.
Delimit Scope handler_scope with M.
Notation "x <- m ;; k" := (bind m (fun x => k))
  (at level 100, m at next level, right associativity) : handler_scope.
Notation "m ;;; k" := (bind m (fun _ => k))
  (at level 100, right associativity) : handler_scope.
Local Open Scope handler_scope.

(** [try: m except handler]: [handler e] is [None] when no clause matches. *)
Definition try_except {A} (m : M A) (handler : Exn -> option (M A)) : M A :=
  fun st => match m st with
            | (Ok a, st') => (Ok a, st')
            | (Raise e, st') =>
                match handler e with
                | Some h => h st'
                | None => (Raise e, st')
                end
            end.

(** [for x in l: body x]. *)
Fixpoint for_each {A} (l : list A) (body : A -> M unit) : M unit :=
  match l with
  | [] => ret tt
  | x :: l' => body x ;;; for_each l' body
  end.

Definition get_session : M Session := fun st => (Ok st, st).
Definition modify (f : Session -> Session) : M unit := fun st => (Ok tt, f st).

(** ** The host's object model ([hou])

    A [hou.Node] is a reference to a node of the session, a [hou.Parm] a
    reference to a parameter of a node; a method called on a reference whose
    node is gone raises [hou.ObjectWasDeleted]. *)

Abbreviation ParmRef := (nat * string)%type.

Fixpoint lookup_parm (ps : list (string * Parm)) (name : string) : option Parm :=
  match ps with
  | [] => None
  | (k, p) :: ps' => if String.eqb k name then Some p else lookup_parm ps' name
  end.

Fixpoint update_parm (ps : list (string * Parm)) (name : string)
    (f : Parm -> Parm) : list (string * Parm) :=
  match ps with
  | [] => []
  | (k, p) :: ps' =>
      if String.eqb k name then (k, f p) :: ps'
      else (k, p) :: update_parm ps' name f
  end.

Definition set_parms (ps : list (string * Parm)) (nd : Node) : Node :=
  mkNode (node_type nd) (node_name nd) (node_parent nd) (node_pos nd) ps
         (node_user_data nd) (node_inputs nd) (node_connectors nd).
Definition set_user_data (ud : gmap string string) (nd : Node) : Node :=
  mkNode (node_type nd) (node_name nd) (node_parent nd) (node_pos nd)
         (node_parms nd) ud (node_inputs nd) (node_connectors nd).
Definition set_inputs (ins : gmap nat NodeId) (nd : Node) : Node :=
  mkNode (node_type nd) (node_name nd) (node_parent nd) (node_pos nd)
         (node_parms nd) (node_user_data nd) ins (node_connectors nd).
Definition set_name (name : string) (nd : Node) : Node :=
  mkNode (node_type nd) name (node_parent nd) (node_pos nd)
         (node_parms nd) (node_user_data nd) (node_inputs nd) (node_connectors nd).
Definition set_pos (pos : Vector2) (nd : Node) : Node :=
  mkNode (node_type nd) (node_name nd) (node_parent nd) pos
         (node_parms nd) (node_user_data nd) (node_inputs nd) (node_connectors nd).

Definition set_nodes (ns : gmap NodeId Node) (st : Session) : Session :=
  mkSession ns (next_id st) (hip_path st) (pwd st) (log st).
Definition add_log (lvl : LogLevel) (msg : string) (st : Session) : Session :=
  mkSession (nodes st) (next_id st) (hip_path st) (pwd st) (log st ++ [(lvl, msg)]).

Definition set_raw (v : Value) (p : Parm) : Parm :=
  mkParm (parm_template p) v (parm_keys p) (parm_locked p) (parm_menu_labels p).
Definition set_locked (b : bool) (p : Parm) : Parm :=
  mkParm (parm_template p) (parm_raw p) (parm_keys p) b (parm_menu_labels p).
Definition set_key (frame : Z) (expr : string) (p : Parm) : Parm :=
  mkParm (parm_template p) (parm_raw p) (<[frame := expr]> (parm_keys p))
         (parm_locked p) (parm_menu_labels p).

(** Which values [hou.Parm.set] takes for a parameter of a given template;
    anything else is a TypeError. *)
Definition accepts (t : ParmTemplate) (v : Value) : bool :=
  match t, v with
  | StringParmTemplate, VStr _ => true
  | StringParmTemplate, _ => false
  | _, VInt _ | _, VBool _ => true
  | _, _ => false
  end.

Section HostModel.
Context (host : Host).

Definition the_node (n : NodeId) : M Node :=
  fun st => match nodes st !! n with
            | Some nd => (Ok nd, st)
            | None => (Raise ObjectWasDeleted, st)
            end.

Definition update_node (n : NodeId) (f : Node -> Node) : M unit :=
  nd <- the_node n ;;
  modify (fun st => set_nodes (<[n := f nd]> (nodes st)) st).

(** [node.name()], [node.position()], [node.parent()], [str(node)]. *)
Definition hou_name (n : NodeId) : M string :=
  nd <- the_node n ;; ret (node_name nd).
Definition hou_position (n : NodeId) : M Vector2 :=
  nd <- the_node n ;; ret (node_pos nd).
Definition hou_parent (n : NodeId) : M string :=
  nd <- the_node n ;; ret (node_parent nd).
Definition node_path (nd : Node) : string :=
  node_parent nd +:+ "/" +:+ node_name nd.
Definition hou_str (n : NodeId) : M string :=
  nd <- the_node n ;; ret (node_path nd).

(** [node.setName(name)], [node.setPosition(pos)]. *)
Definition hou_setName (n : NodeId) (name : string) : M unit :=
  update_node n (set_name name).
Definition hou_setPosition (n : NodeId) (pos : Vector2) : M unit :=
  update_node n (set_pos pos).

(** [node.parms()] and [node.parm(path)]: the latter is None when the node
    has no such parameter and refuses a path that is not a string. *)
Definition hou_parms (n : NodeId) : M (list ParmRef) :=
  nd <- the_node n ;; ret (map (fun kp => (n, fst kp)) (node_parms nd)).

Definition hou_parm (n : NodeId) (path : Value) : M (option ParmRef) :=
  nd <- the_node n ;;
  match path with
  | VStr name =>
      match lookup_parm (node_parms nd) name with
      | Some _ => ret (Some (n, name))
      | None => ret None
      end
  | _ => raise TypeError
  end.

(** Fetching a method of what [node.parm] returned: None has none. *)
Definition hou_getattr (r : option ParmRef) : M unit :=
  match r with
  | None => raise AttributeError
  | Some _ => ret tt
  end.

(** The parameter behind a reference; calling a method on None is an
    AttributeError. *)
Definition the_parm (r : option ParmRef) : M Parm :=
  match r with
  | None => raise AttributeError
  | Some (n, name) =>
      nd <- the_node n ;;
      match lookup_parm (node_parms nd) name with
      | Some p => ret p
      | None => raise ObjectWasDeleted
      end
  end.

Definition update_the_parm (r : option ParmRef) (f : Parm -> Parm) : M unit :=
  match r with
  | None => raise AttributeError
  | Some (n, name) =>
      update_node n (fun nd => set_parms (update_parm (node_parms nd) name f) nd)
  end.

(** [parm.eval()]. *)
Definition parm_value (p : Parm) : Value :=
  if decide (parm_keys p = ∅) then
    match parm_raw p with
    | VStr s => VStr (expand host s)
    | v => v
    end
  else eval_keys host (parm_keys p).

Definition parm_eval (r : option ParmRef) : M Value :=
  p <- the_parm r ;; ret (parm_value p).

(** [parm.unexpandedString()]: only a string parameter has one. *)
Definition parm_unexpandedString (r : option ParmRef) : M string :=
  p <- the_parm r ;;
  match parm_template p, parm_raw p with
  | StringParmTemplate, VStr s => ret s
  | _, _ => raise OperationFailed
  end.

(** [parm.set(value)]. *)
Definition parm_set (r : option ParmRef) (v : Value) : M unit :=
  p <- the_parm r ;;
  if parm_locked p then raise PermissionError
  else if accepts (parm_template p) v then update_the_parm r (set_raw v)
  else raise TypeError.

(** [parm.lock(on)]. *)
Definition parm_lock (r : option ParmRef) (on : bool) : M unit :=
  _ <- the_parm r ;; update_the_parm r (set_locked on).

(** [parm.keyframes()] and [parm.setKeyframe(key)]. *)
Definition parm_keyframes (r : option ParmRef) : M (list (Z * string)) :=
  p <- the_parm r ;; ret (map_to_list (parm_keys p)).

Definition parm_setKeyframe (r : option ParmRef) (key : Z * string) : M unit :=
  p <- the_parm r ;;
  if parm_locked p then raise PermissionError
  else update_the_parm r (set_key (fst key) (snd key)).

Definition parm_menuLabels (r : option ParmRef) : M (list string) :=
  p <- the_parm r ;; ret (parm_menu_labels p).

Definition parm_parmTemplate (r : option ParmRef) : M ParmTemplate :=
  p <- the_parm r ;; ret (parm_template p).

(** [node.userDataDict()], [node.setUserData(name, value)]. *)
Definition hou_userDataDict (n : NodeId) : M (gmap string string) :=
  nd <- the_node n ;; ret (node_user_data nd).

Definition hou_setUserData (n : NodeId) (name : string) (v : Value) : M unit :=
  match v with
  | VStr s =>
      update_node n (fun nd => set_user_data (<[name := s]> (node_user_data nd)) nd)
  | _ => _ <- the_node n ;; raise TypeError
  end.

(** [node.inputConnections()] as (inputIndex, inputNode) pairs,
    [len(node.inputConnectors())], and [node.setInput(index, input)].  The
    nodes handled here are render nodes, which take an input at any index;
    what was wired at the index is replaced. *)
Definition hou_inputConnections (n : NodeId) : M (list (nat * NodeId)) :=
  nd <- the_node n ;; ret (map_to_list (node_inputs nd)).

Definition hou_inputConnectors_len (n : NodeId) : M nat :=
  nd <- the_node n ;; ret (node_connectors nd).

Definition hou_setInput (n : NodeId) (index : nat) (input : NodeId) : M unit :=
  update_node n (fun nd => set_inputs (<[index := input]> (node_inputs nd)) nd).

(** [node.outputConnections()] as (outputNode, inputIndex) pairs: every
    slot of every node that [n] is wired into. *)
Definition outputs_of (ns : gmap NodeId Node) (n : NodeId) : list (NodeId * nat) :=
  '(d, nd) ← map_to_list ns;
  '(i, up) ← map_to_list (node_inputs nd);
  if decide (up = n) then [(d, i)] else [].

Definition hou_outputConnections (n : NodeId) : M (list (NodeId * nat)) :=
  _ <- the_node n ;; st <- get_session ;; ret (outputs_of (nodes st) n).

(** [node.destroy()]: the node goes, and with it every wire from it. *)
Definition unwire (n : NodeId) (nd : Node) : Node :=
  set_inputs (filter (fun kv => snd kv ≠ n) (node_inputs nd)) nd.

Definition hou_destroy (n : NodeId) : M unit :=
  _ <- the_node n ;;
  modify (fun st => set_nodes (unwire n <$> delete n (nodes st)) st).

(** [parent.createNode(type)]: a node with the parameters its type
    defines, under a name of the host's choosing. *)
Definition hou_createNode (parent : string) (ty : string) : M NodeId :=
  match node_types host ty with
  | None => raise OperationFailed
  | Some def =>
      fun st =>
        let n := next_id st in
        let nd := mkNode ty (ty +:+ pretty n) parent origin (nt_parms def)
                         ∅ ∅ (nt_connectors def) in
        (Ok n, mkSession (<[n := nd]> (nodes st)) (S n) (hip_path st)
                         (pwd st) (log st))
  end.

(** [hou.nodeType(category, ty).instances()]. *)
Definition instances (ty : string) (st : Session) : list NodeId :=
  (filter (fun kv => node_type (snd kv) = ty) (map_to_list (nodes st))).*1.

Definition hou_instances (ty : string) : M (list NodeId) :=
  match node_types host ty with
  | None => raise AttributeError      (* hou.nodeType(...) is None *)
  | Some _ => st <- get_session ;; ret (instances ty st)
  end.

Definition hou_pwd : M NodeId := st <- get_session ;; ret (pwd st).
Definition hou_hipFile_path : M string := st <- get_session ;; ret (hip_path st).

(** [app.log_debug], [app.log_warning]. *)
Definition log_debug (msg : string) : M unit := modify (add_log LDebug msg).
Definition log_warning (msg : string) : M unit := modify (add_log LWarning msg).

End HostModel.

(** ** The handler: class data *)

Definition HOU_ARNOLD_NODE_TYPE := "ifd".
Definition NODE_OUTPUT_PATH_PARM := "sgtk_ar_filename".
Definition TK_EXTRA_PLANE_COUNT_PARM := "ar_aovs".
Definition TK_EXTRA_PLANE_TEMPLATE_MAPPING : list (string * string) :=
  [("sgtk_ar_aov_separate_file#", "output_extra_plane_template")].
Definition TK_INIT_PARM_NAME := "sgtk_initialized".
Definition TK_HIP_PATH_PARM_NAME := "sgtk_hip_path".
Definition TK_ARNOLD_NODE_TYPE := "sgtk_arnold".
Definition TK_OUTPUT_PROFILE_PARM := "sgtk_output_profile".
Definition TK_OUTPUT_PROFILE_NAME_KEY := "tk_output_profile_name".
Definition TK_RENDER_TEMPLATE_MAPPING : list (string * string) :=
  [("sgtk_ass_diskfile", "output_ifd_template");
   ("sgtk_ar_filename", "output_render_template")].
Definition TK_DEFAULT_UPDATE_PARM_MAPPING : list (string * string) :=
  [("sgtk_ass_diskfile", "ar_ass_file");
   ("sgtk_ar_picture", "ar_picture")].

(** [TK_EXTRA_PLANES_NAME % (plane_number,)]. *)
Definition TK_EXTRA_PLANES_NAME (plane_number : Z) : string :=
  "ar_aov_label" +:+ pretty plane_number.

(** An element of the [excludes] list of [_copy_parm_values]: the docstring
    asks for parameter names, [convert_to_regular_arnold_nodes] passes
    parameter objects. *)
Inductive PyObj :=
  | ObjStr (s : string)
  | ObjParm (r : ParmRef).

(** [name in excludes]: a string equals no parameter object. *)
Definition name_in (name : string) (excludes : list PyObj) : bool :=
  existsb (fun o => match o with
                    | ObjStr s => String.eqb name s
                    | ObjParm _ => false
                    end) excludes.

(** The handler instance: [self._output_profiles], in insertion order. *)
Record Handler := mkHandler {
  _output_profiles : list (string * Profile)
}.

Fixpoint lookup_profile (ps : list (string * Profile)) (name : string)
    : option Profile :=
  match ps with
  | [] => None
  | (k, p) :: ps' => if String.eqb k name then Some p else lookup_profile ps' name
  end.

(** ** Utility methods *)

Section UtilityMethods.
Context (host : Host).

(** [_copy_inputs(source_node, target_node)]. *)
Definition _copy_inputs (source_node target_node : NodeId) : M unit :=
  input_connections <- hou_inputConnections source_node ;;
  num_target_inputs <- hou_inputConnectors_len target_node ;;
  (if (num_target_inputs <? length input_connections)%nat then
     s <- hou_str source_node ;;
     t <- hou_str target_node ;;
     raise (InvalidInput
       ("Not enough inputs on target node. Cannot copy inputs from '"
          +:+ s +:+ "' to '" +:+ t +:+ "'"))
   else ret tt) ;;;
  for_each input_connections (fun connection =>
    hou_setInput target_node (fst connection) (snd connection)).

(** The body of the loop of [_copy_parm_values] over the source
    parameters. *)
Definition copy_parm_value (target_node : NodeId) (source_parm : ParmRef)
    : M unit :=
  source_parm_template <- parm_parmTemplate (Some source_parm) ;;
  if decide (source_parm_template = FolderSetParmTemplate) then ret tt
  else
    target_parm <- hou_parm target_node (VStr (snd source_parm)) ;;
    match target_parm with
    | None => ret tt
    | Some _ =>
        keys <- parm_keyframes (Some source_parm) ;;
        match keys with
        | _ :: _ =>
            keys' <- parm_keyframes (Some source_parm) ;;
            for_each keys' (fun key => parm_setKeyframe target_parm key)
        | [] =>
            if decide (source_parm_template = StringParmTemplate) then
              s <- parm_unexpandedString (Some source_parm) ;;
              parm_set target_parm (VStr s)
            else
              try_except
                (v <- parm_eval host (Some source_parm) ;; parm_set target_parm v)
                (fun e =>
                   match e with
                   | TypeError =>
                       Some (if String.prefix "lpre" (snd source_parm)
                                || String.prefix "lpost" (snd source_parm)
                             then
                               let value_map := ["hscript"; "python"] in
                               v <- parm_eval host (Some source_parm) ;;
                               s <- lift (py_index value_map v) ;;
                               parm_set target_parm (VStr s)
                             else raise TypeError)
                   | _ => None
                   end)
        end
    end.

(** [_copy_parm_values(source_node, target_node, excludes=None)]. *)
Definition _copy_parm_values (source_node target_node : NodeId)
    (excludes : option (list PyObj)) : M unit :=
  let excludes := match excludes with
                  | Some (x :: l) => x :: l
                  | _ => []
                  end in
  parms <- hou_parms source_node ;;
  let source_parms :=
    filter (fun parm => name_in (snd parm) excludes = false) parms in
  for_each source_parms (copy_parm_value target_node).

(** [_get_extra_plane_numbers(node)]: [range(1, count + 1)]. *)
Definition _get_extra_plane_numbers (node : NodeId) : M (list Z) :=
  p <- hou_parm node (VStr TK_EXTRA_PLANE_COUNT_PARM) ;;
  v <- parm_eval host p ;;
  match v with
  | VInt k => ret (seqZ 1 k)
  | VBool b => ret (seqZ 1 (if b then 1 else 0))
  | _ => raise TypeError
  end.

(** [_move_outputs(source_node, target_node)]. *)
Definition _move_outputs (source_node target_node : NodeId) : M unit :=
  connections <- hou_outputConnections source_node ;;
  for_each connections (fun connection =>
    let output_node := fst connection in
    hou_setInput output_node (snd connection) target_node).

End UtilityMethods.

(** ** The handler class *)

Section TkArnoldNodeHandler.
Context (host : Host) (app : App).

(** *** Class methods *)

(** The body of the loop of [convert_back_to_tk_arnold_nodes]. *)
Definition convert_back_node (arnold_node : NodeId) : M unit :=
  user_dict <- hou_userDataDict arnold_node ;;
  let tk_output_profile_name := user_dict !! TK_OUTPUT_PROFILE_NAME_KEY in
  match tk_output_profile_name with
  | None | Some "" =>
      name <- hou_name arnold_node ;;
      log_warning ("Arnold node '" +:+ name
        +:+ "' does not have an output profile name. "
        +:+ "Can't convert to Tk Arnold node. Continuing.")
  | Some tk_output_profile_name =>
      let tk_node_type := TK_ARNOLD_NODE_TYPE in
      parent <- hou_parent arnold_node ;;
      tk_arnold_node <- hou_createNode host parent tk_node_type ;;
      try_except
        (output_profile_parm <-
           hou_parm tk_arnold_node (VStr TK_OUTPUT_PROFILE_PARM) ;;
         labels <- parm_menuLabels output_profile_parm ;;
         match py_list_index labels tk_output_profile_name with
         | None => raise ValueError
         | Some output_profile_index =>
             parm_set output_profile_parm
                      (VInt (Z.of_nat output_profile_index))
         end)
        (fun e =>
           match e with
           | ValueError =>
               Some (log_warning ("No output profile found named: "
                                    +:+ tk_output_profile_name))
           | _ => None
           end) ;;;
      _copy_parm_values host arnold_node tk_arnold_node (Some []) ;;;
      plane_numbers <- _get_extra_plane_numbers host arnold_node ;;
      for_each plane_numbers (fun plane_number =>
        let plane_parm_name := TK_EXTRA_PLANES_NAME plane_number in
        let aov_name := match user_dict !! plane_parm_name with
                        | Some s => VStr s
                        | None => VNone
                        end in
        p <- hou_parm tk_arnold_node (VStr plane_parm_name) ;;
        parm_set p aov_name) ;;;
      _copy_inputs arnold_node tk_arnold_node ;;;
      _move_outputs arnold_node tk_arnold_node ;;;
      arnold_node_name <- hou_name arnold_node ;;
      arnold_node_pos <- hou_position arnold_node ;;
      hou_destroy arnold_node ;;;
      hou_setName tk_arnold_node arnold_node_name ;;;
      hou_setPosition tk_arnold_node arnold_node_pos ;;;
      log_debug ("Converted: Arnold node '" +:+ arnold_node_name
                   +:+ "' to TK Arnold node.")
  end.

(** [convert_back_to_tk_arnold_nodes(cls, app)]. *)
Definition convert_back_to_tk_arnold_nodes : M unit :=
  arnold_nodes <- hou_instances host HOU_ARNOLD_NODE_TYPE ;;
  match arnold_nodes with
  | [] => log_debug "No Arnold Nodes found for conversion."
  | _ => for_each arnold_nodes convert_back_node
  end.

(** The body of the loop of [convert_to_regular_arnold_nodes]. *)
Definition convert_to_regular_node (tk_arnold_node : NodeId) : M unit :=
  parent <- hou_parent tk_arnold_node ;;
  arnold_node <- hou_createNode host parent HOU_ARNOLD_NODE_TYPE ;;
  parms <- hou_parms tk_arnold_node ;;
  let exclude_parms :=
    map ObjParm (filter (fun parm => String.prefix "sgtk_" (snd parm) = true)
                        parms) in
  _copy_parm_values host tk_arnold_node arnold_node (Some exclude_parms) ;;;
  output_profile_parm <- hou_parm tk_arnold_node (VStr TK_OUTPUT_PROFILE_PARM) ;;
  labels <- parm_menuLabels output_profile_parm ;;
  index <- parm_eval host output_profile_parm ;;
  tk_output_profile_name <- lift (py_index labels index) ;;
  hou_setUserData arnold_node TK_OUTPUT_PROFILE_NAME_KEY
                  (VStr tk_output_profile_name) ;;;
  plane_numbers <- _get_extra_plane_numbers host tk_arnold_node ;;
  for_each plane_numbers (fun plane_number =>
    let plane_parm_name := TK_EXTRA_PLANES_NAME plane_number in
    p <- hou_parm tk_arnold_node (VStr plane_parm_name) ;;
    v <- parm_eval host p ;;
    hou_setUserData arnold_node plane_parm_name v) ;;;
  _copy_inputs tk_arnold_node arnold_node ;;;
  _move_outputs tk_arnold_node arnold_node ;;;
  tk_arnold_node_name <- hou_name tk_arnold_node ;;
  tk_arnold_node_pos <- hou_position tk_arnold_node ;;
  hou_destroy tk_arnold_node ;;;
  hou_setName arnold_node tk_arnold_node_name ;;;
  hou_setPosition arnold_node tk_arnold_node_pos ;;;
  log_debug ("Converted: Tk Arnold node '" +:+ tk_arnold_node_name
               +:+ "' to Arnold node.").

(** [convert_to_regular_arnold_nodes(cls, app)]. *)
Definition convert_to_regular_arnold_nodes : M unit :=
  let tk_node_type := TK_ARNOLD_NODE_TYPE in
  tk_arnold_nodes <- hou_instances host tk_node_type ;;
  match tk_arnold_nodes with
  | [] => log_debug "No Toolkit Arnold Nodes found for conversion."
  | _ => for_each tk_arnold_nodes convert_to_regular_node
  end.

(** *** Instance methods *)

(** [__init__(self, app)]: the first profile of a name is kept. *)
Fixpoint cache_profiles (cached : list (string * Profile))
    (profiles : list Profile) : M (list (string * Profile)) :=
  match profiles with
  | [] => ret cached
  | output_profile :: rest =>
      let output_profile_name := prof_name output_profile in
      match lookup_profile cached output_profile_name with
      | Some _ =>
          log_warning ("Found multiple output profiles named '"
            +:+ output_profile_name +:+ "' for the "
            +:+ "Tk Arnold node! Only the first one will be available.") ;;;
          cache_profiles cached rest
      | None =>
          log_debug ("Caching arnold output profile: '"
                       +:+ output_profile_name +:+ "'") ;;;
          cache_profiles (cached ++ [(output_profile_name, output_profile)]) rest
      end
  end.

Definition __init__ : M Handler :=
  ps <- cache_profiles [] (output_profiles app) ;; ret (mkHandler ps).

Context (self : Handler).

(** [if not node: node = hou.pwd()]. *)
Definition node_or_pwd (node : option NodeId) : M NodeId :=
  match node with
  | None => hou_pwd
  | Some n => ret n
  end.

(** [_get_output_profile(self, node=None)]. *)
Definition _get_output_profile (node : option NodeId) : M Profile :=
  node <- node_or_pwd node ;;
  output_profile_parm <- hou_parm node (VStr TK_OUTPUT_PROFILE_PARM) ;;
  labels <- parm_menuLabels output_profile_parm ;;
  index <- parm_eval host output_profile_parm ;;
  output_profile_name <- lift (py_index labels index) ;;
  match lookup_profile (_output_profiles self) output_profile_name with
  | Some p => ret p
  | None => raise KeyError
  end.

(** [_get_hipfile_fields(self)]. *)
Definition _get_hipfile_fields : M (gmap string Value) :=
  current_file_path <- hou_hipFile_path ;;
  let work_fields : gmap string Value := ∅ in
  let work_file_template := get_template app "work_file_template" in
  match work_file_template with
  | Some t =>
      if validate app t current_file_path
      then ret (get_fields app t current_file_path)
      else ret work_fields
  | None => ret work_fields
  end.

(** [_compute_output_path(self, node, template_name, aov_name=None)]. *)
Definition _compute_output_path (node : NodeId) (template_name : string)
    (aov_name : Value) : M string :=
  work_file_fields <- _get_hipfile_fields ;;
  if decide (work_file_fields = ∅) then
    let msg := "This Houdini file is not a Shotgun Toolkit work file!" in
    raise (TankError msg)
  else
    output_profile <- _get_output_profile (Some node) ;;
    match prof_templates output_profile !! template_name with
    | None => raise KeyError
    | Some name =>
        let output_template := get_template_by_name app name in
        node_name <- hou_name node ;;
        let fields : gmap string Value :=
          {[ "name" := default VNone (work_file_fields !! "name");
             "node" := VStr node_name;
             "renderpass" := VStr node_name;
             "SEQ" := VStr "FORMAT: $F";
             "version" := default VNone (work_file_fields !! "version") ]} in
        let fields := <["eye" := VStr "%V"]> fields in
        let fields := if truthy aov_name
                      then <["aov_name" := aov_name]> fields else fields in
        match output_template with
        | None => raise AttributeError
        | Some output_template =>
            let fields := as_template_fields app output_template ∪ fields in
            match apply_fields app output_template fields with
            | inl err => raise (TankError err)
            | inr path => ret (replace_char (os_sep host) "/" path)
            end
        end
    end.

(** [_compute_and_set(self, node, parm_name, template_name, aov_name=None)]. *)
Definition _compute_and_set (node : NodeId) (parm_name template_name : string)
    (aov_name : Value) : M unit :=
  path <- try_except (_compute_output_path node template_name aov_name)
            (fun e =>
               match e with
               | TankError err =>
                   Some (name <- hou_name node ;;
                         log_warning (name +:+ ": " +:+ err) ;;;
                         ret ("ERROR: " +:+ err))
               | _ => None
               end) ;;
  p <- hou_parm node (VStr parm_name) ;;
  parm_lock p false ;;;
  p <- hou_parm node (VStr parm_name) ;;
  parm_set p (VStr path) ;;;
  p <- hou_parm node (VStr parm_name) ;;
  parm_lock p true.

(** [update_parms(self, node=None)]. *)
Definition update_parms (node : option NodeId) : M unit :=
  node <- node_or_pwd node ;;
  let copy_parm (p1 p2 : string) : M unit :=
    r2 <- hou_parm node (VStr p2) ;;
    hou_getattr r2 ;;;
    r1 <- hou_parm node (VStr p1) ;;
    s <- parm_unexpandedString r1 ;;
    parm_set r2 (VStr s) in
  for_each TK_DEFAULT_UPDATE_PARM_MAPPING (fun m => copy_parm (fst m) (snd m)) ;;;
  plane_numbers <- _get_extra_plane_numbers host node ;;
  for_each plane_numbers (fun plane_number =>
    let parm1 := "sgtk_ar_aov_separate_file" +:+ pretty plane_number in
    let parm2 := "ar_aov_separate_file" +:+ pretty plane_number in
    copy_parm parm1 parm2).

(** [reset_render_path(self, node=None)]. *)
Definition reset_render_path (node : option NodeId) : M unit :=
  node <- node_or_pwd node ;;
  name <- hou_name node ;;
  if String.prefix "original0" name then ret tt
  else
    for_each TK_RENDER_TEMPLATE_MAPPING (fun m =>
      _compute_and_set node (fst m) (snd m) VNone) ;;;
    plane_numbers <- _get_extra_plane_numbers host node ;;
    for_each plane_numbers (fun plane_number =>
      usefile_parm <-
        hou_parm node (VStr ("ar_aov_separate" +:+ pretty plane_number)) ;;
      usefile <- parm_eval host usefile_parm ;;
      if truthy usefile then
        for_each TK_EXTRA_PLANE_TEMPLATE_MAPPING (fun m =>
          let parm_name := replace_char "#" (pretty plane_number) (fst m) in
          label_parm <-
            hou_parm node (VStr (TK_EXTRA_PLANES_NAME plane_number)) ;;
          aov_name <- parm_eval host label_parm ;;
          _compute_and_set node parm_name (snd m) aov_name)
      else ret tt) ;;;
    p <- hou_parm node (VStr NODE_OUTPUT_PATH_PARM) ;;
    path <- parm_unexpandedString p ;;
    p <- hou_parm node (VStr "sgtk_ar_picture") ;;
    parm_set p (VStr path) ;;;
    p <- hou_parm node (VStr "ar_picture") ;;
    parm_set p (VStr path) ;;;
    update_parms (Some node).

(** [get_output_path_menu(self, node=None)]; the rest of the method once
    [node] is bound is [output_path_menu_of]. *)
Definition output_path_menu_of (node : NodeId) : M (list string) :=
  init_parm <- hou_parm node (VStr TK_INIT_PARM_NAME) ;;
  init <- parm_eval host init_parm ;;
  let is_first_run := py_eq init (VStr "True") in
  (if is_first_run then
     p <- hou_parm node (VBool is_first_run) ;;
     parm_set p (VStr "False")
   else ret tt) ;;;
  hip <- hou_hipFile_path ;;
  hip_parm <- hou_parm node (VStr TK_HIP_PATH_PARM_NAME) ;;
  cached <- parm_eval host hip_parm ;;
  let hip_path_changed := negb (py_eq (VStr hip) cached) in
  (if is_first_run || hip_path_changed then
     reset_render_path (Some node) ;;;
     hip_parm <- hou_parm node (VStr TK_HIP_PATH_PARM_NAME) ;;
     hip <- hou_hipFile_path ;;
     parm_set hip_parm (VStr hip)
   else ret tt) ;;;
  p <- hou_parm node (VStr NODE_OUTPUT_PATH_PARM) ;;
  path <- parm_unexpandedString p ;;
  let menu := ["sgtk"; path;
               "ip"; "mplay (interactive)";
               "md"; "mplay (non-interactive)"] in
  ret menu.

Definition get_output_path_menu (node : option NodeId) : M (list string) :=
  node <- (if py_not VNone then n <- hou_pwd ;; ret (Some n) else ret node) ;;
  match node with
  | Some node => output_path_menu_of node
  | None => raise AttributeError
  end.

(** *** The other methods of the class *)

(** [get_all_tk_arnold_nodes(cls)]. *)
Definition get_all_tk_arnold_nodes : M (list NodeId) :=
  let tk_node_type := TK_ARNOLD_NODE_TYPE in
  hou_instances host tk_node_type.

(** [get_output_path(cls, node)]. *)
Definition get_output_path (node : NodeId) : M Value :=
  output_parm <- hou_parm node (VStr NODE_OUTPUT_PATH_PARM) ;;
  parm_eval host output_parm.

(** [enumerate(l)]. *)
Definition py_enumerate {A} (l : list A) : list (nat * A) :=
  zip (seq 0 (length l)) l.

(** [get_output_profile_menu_labels(self)]: the count and the name of
    every cached profile, in turn. *)
Definition get_output_profile_menu_labels : list Value :=
  foldl (fun menu_labels entry =>
           (menu_labels ++ [VInt (Z.of_nat (fst entry)); VStr (snd entry)])%list)
        [] (py_enumerate (map fst (_output_profiles self))).

(** [_get_render_path(self, node)]. *)
Definition _get_render_path (node : NodeId) : M string :=
  output_parm <- hou_parm node (VStr NODE_OUTPUT_PATH_PARM) ;;
  parm_unexpandedString output_parm.

(** [re.findall(r'\d+', s)]: the maximal runs of digits of [s], from left
    to right; [run] is the run being read. *)
Definition is_digit (c : ascii) : bool :=
  (48 <=? nat_of_ascii c)%nat && (nat_of_ascii c <=? 57)%nat.

Fixpoint findall_digits (s : string) (run : string) : list string :=
  match s with
  | EmptyString => match run with
                   | EmptyString => []
                   | _ => [run]
                   end
  | String c s' =>
      if is_digit c then findall_digits s' (run +:+ String c EmptyString)
      else match run with
           | EmptyString => findall_digits s' EmptyString
           | _ => run :: findall_digits s' EmptyString
           end
  end.

(** [parm.name()]. *)
Definition parm_name (r : ParmRef) : M string :=
  _ <- the_parm (Some r) ;; ret (snd r).

(** [use_file_plane(self, **kwargs)]; [node] and [parm] are
    [kwargs["node"]] and [kwargs["parm"]], [None] when the key is not
    there. *)
Definition use_file_plane (node : option NodeId) (parm : option ParmRef)
    : M unit :=
  node <- lift (match node with
                | Some n => Ok n
                | None => Raise KeyError
                end) ;;
  parm <- lift (match parm with
                | Some r => Ok r
                | None => Raise KeyError
                end) ;;
  name <- parm_name parm ;;
  plane_number <- lift (py_index (findall_digits name "") (VInt (-1))) ;;
  usefile_parm <- hou_parm node (VStr ("ar_aov_separate" +:+ plane_number)) ;;
  usefile <- parm_eval host usefile_parm ;;
  if truthy usefile then reset_render_path (Some node)
  else
    path_parm <-
      hou_parm node (VStr ("sgtk_ar_aov_separate_file" +:+ plane_number)) ;;
    parm_lock path_parm false ;;;
    parm_set path_parm (VStr "Disabled") ;;;
    parm_lock path_parm true.

(** [_get_rendered_files(self, node)]; what the toolkit finds on disk for
    a template, fields and fields to skip is the toolkit's business. *)
Context (paths_from_template :
           Template app -> gmap string Value -> list string -> list string).

Definition _get_rendered_files (node : NodeId) : M (list string) :=
  file_name <- _get_render_path node ;;
  output_profile <- _get_output_profile (Some node) ;;
  match prof_templates output_profile !! "output_render_template" with
  | None => raise KeyError
  | Some name =>
      match get_template_by_name app name with
      | None => raise AttributeError
      | Some output_render_template =>
          if negb (validate app output_render_template file_name) then
            node_name <- hou_name node ;;
            let msg := "Unable to validate files on disk for node "
                         +:+ node_name +:+ ".The path '" +:+ file_name
                         +:+ "' is not recognized by Shotgun." in
            modify (add_log LError msg) ;;;
            ret []
          else
            let fields := get_fields app output_render_template file_name in
            ret (paths_from_template output_render_template fields
                                     ["SEQ"; "eye"])
      end
  end.

End TkArnoldNodeHandler.

(** * A small session to run the handler on

    One toolkit node and one native node under [/out], a Windows-style
    separator, and a toolkit whose work files live under [/proj/]. *)

Module Demo.

Definition str_parm (s : string) : Parm :=
  mkParm StringParmTemplate (VStr s) ∅ false [].
Definition int_parm (z : Z) : Parm :=
  mkParm IntParmTemplate (VInt z) ∅ false [].
Definition menu_parm (z : Z) (labels : list string) : Parm :=
  mkParm MenuParmTemplate (VInt z) ∅ false labels.

Definition native_parms : list (string * Parm) :=
  [("ar_picture", str_parm "");
   ("ar_ass_file", str_parm "");
   ("ar_aovs", int_parm 0);
   ("ar_aov_label1", str_parm "");
   ("ar_aov_separate1", mkParm ToggleParmTemplate (VInt 0) ∅ false []);
   ("ar_aov_separate_file1", str_parm "");
   ("lprerender", int_parm 0)].

Definition tk_parms : list (string * Parm) :=
  [("sgtk_output_profile", menu_parm 0 ["Exr"; "Jpeg"]);
   ("sgtk_initialized", str_parm "False");
   ("sgtk_hip_path", str_parm "");
   ("sgtk_ass_diskfile", str_parm "");
   ("sgtk_ar_filename", str_parm "");
   ("sgtk_ar_picture", str_parm "");
   ("sgtk_ar_aov_separate_file1", str_parm "")] ++ native_parms.

Definition host : Host :=
  mkHost (fun s => s) (fun _ => VInt 0) "\"%char
         (fun ty => if String.eqb ty "ifd" then Some (mkNodeTypeDef native_parms 4)
                    else if String.eqb ty "sgtk_arnold"
                         then Some (mkNodeTypeDef tk_parms 4)
                    else None).

Definition exr : Profile :=
  mkProfile "Exr" []
    {[ "output_render_template" := "render";
       "output_ifd_template" := "ass";
       "output_extra_plane_template" := "aov" ]}.
Definition jpeg : Profile :=
  mkProfile "Jpeg" [("ar_picture_format", VStr "jpeg")]
    {[ "output_render_template" := "render";
       "output_ifd_template" := "ass";
       "output_extra_plane_template" := "aov" ]}.

(** Templates are known by name; a path is a work file when it lies
    under [/proj/]; a resolved path is the renders folder, the template
    name and the node name, with the separators of the platform. *)
Definition app : App :=
  {| Template := string;
     get_template := fun setting =>
       if String.eqb setting "work_file_template" then Some "work" else None;
     get_template_by_name := fun name => Some name;
     validate := fun _ path => String.prefix "/proj/" path;
     get_fields := fun _ _ => {[ "name" := VStr "shot"; "version" := VInt 3 ]};
     apply_fields := fun t fields =>
       match fields !! "node" with
       | Some (VStr n) => inr ("C:\renders\" +:+ t +:+ "\" +:+ n)
       | _ => inl "missing field: node"
       end;
     as_template_fields := fun _ => {[ "Shot" := VStr "sh010" ]};
     output_profiles := [exr; jpeg] |}.

Definition self : Handler := mkHandler [("Exr", exr); ("Jpeg", jpeg)].

Definition tk_node (name : string) (parms : list (string * Parm)) : Node :=
  mkNode "sgtk_arnold" name "/out" origin parms ∅ ∅ 4.

Definition session (hip : string) (nd : Node) : Session :=
  mkSession {[ 1 := nd ]} 2 hip 1 [].

(** The toolkit parameters with the initialized flag reading [True]. *)
Definition first_run_parms : list (string * Parm) :=
  update_parm tk_parms TK_INIT_PARM_NAME (set_raw (VStr "True")).

(** A wired session: the toolkit node 1 takes nodes 3 and 4 in slots 0 and
    2 and feeds slot 1 of node 5; node 2 is a native node with [slots]
    input connectors and nothing wired. *)
Definition arnold1 : Node :=
  mkNode "sgtk_arnold" "arnold1" "/out" origin tk_parms ∅
         {[ 0%nat := 3; 2%nat := 4 ]} 4.
Definition ifd1 (slots : nat) : Node :=
  mkNode "ifd" "ifd1" "/out" origin native_parms ∅ ∅ slots.
Definition down1 : Node :=
  mkNode "ifd" "down1" "/out" origin native_parms ∅ {[ 1%nat := 1 ]} 4.

Definition wired_session (slots : nat) : Session :=
  mkSession
    {[ 1 := arnold1;
       2 := ifd1 slots;
       3 := mkNode "ifd" "up1" "/out" origin native_parms ∅ ∅ 4;
       4 := mkNode "ifd" "up2" "/out" origin native_parms ∅ ∅ 4;
       5 := down1 ]}
    6 "/proj/shot.v003.hip" 1 [].

(** A toolkit node whose pre-render script language is the index 1, next to
    a native node of a host release where that parameter is a string. *)
Definition indexed : Node :=
  mkNode "sgtk_arnold" "arnold1" "/out" origin
         [("lprerender", int_parm 1); ("ar_threads", int_parm 8)] ∅ ∅ 4.
Definition named : Node :=
  mkNode "ifd" "ifd1" "/out" origin
         [("lprerender", str_parm "hscript"); ("ar_threads", str_parm "")] ∅ ∅ 4.
Definition script_session : Session :=
  mkSession {[ 1 := indexed; 2 := named ]} 3 "/proj/shot.v003.hip" 1 [].

(** A session for the round trip: the toolkit node 1 has the second
    profile selected, one extra plane with its label and a keyframe on the
    pre-render script language, and takes the native node 2, which bears
    no profile name, as its input. *)
Definition round_parms : list (string * Parm) :=
  update_parm
    (update_parm
       (update_parm
          (update_parm tk_parms "sgtk_output_profile" (set_raw (VInt 1)))
          "ar_aovs" (set_raw (VInt 1)))
       "ar_aov_label1" (set_raw (VStr "diffuse")))
    "lprerender" (set_key 1 "$F").
Definition beauty : Node :=
  mkNode "sgtk_arnold" "beauty" "/out"
         (QArith_base.Qmake 3 1, QArith_base.Qmake (-2) 1)
         round_parms ∅ {[ 0%nat := 2 ]} 4.
Definition round_session : Session :=
  mkSession
    {[ 1 := beauty;
       2 := mkNode "ifd" "up1" "/out" origin native_parms ∅ ∅ 4 ]}
    3 "/proj/shot.v003.hip" 1 [].

(** A host whose toolkit is configured with a profile of an empty name,
    and a toolkit node that has this profile selected. *)
Definition unnamed_parms : list (string * Parm) :=
  update_parm tk_parms "sgtk_output_profile"
              (fun _ => menu_parm 0 [""; "Jpeg"]).
Definition unnamed_host : Host :=
  mkHost (fun s => s) (fun _ => VInt 0) "\"%char
         (fun ty => if String.eqb ty "ifd" then Some (mkNodeTypeDef native_parms 4)
                    else if String.eqb ty "sgtk_arnold"
                         then Some (mkNodeTypeDef unnamed_parms 4)
                    else None).
Definition unnamed : Node :=
  mkNode "sgtk_arnold" "arnold1" "/out" origin unnamed_parms ∅ ∅ 4.
Definition unnamed_session : Session :=
  mkSession {[ 1 := unnamed ]} 2 "/proj/shot.v003.hip" 1 [].

(** The toolkit parameters of a node that has cached the scene path
    [/proj/shot.v003.hip]. *)
Definition cached_parms : list (string * Parm) :=
  update_parm tk_parms TK_HIP_PATH_PARM_NAME
              (set_raw (VStr "/proj/shot.v003.hip")).

(** A session whose node has nothing but a profile menu. *)
Definition profile_only (z : Z) (labels : list string) : Session :=
  session "" (tk_node "arnold1" [("sgtk_output_profile", menu_parm z labels)]).

End Demo.

(** * Vocabulary of the properties *)

(** The node a method works on when called with [node] ([None]: the
    host's current node). *)
Definition node_or_pwd_of (node : option NodeId) (st : Session) : NodeId :=
  match node with
  | Some n => n
  | None => pwd st
  end.

(** The scene file is one the work-file template parses. *)
Definition is_work_file (app : App) (path : string) : bool :=
  match get_template app "work_file_template" with
  | Some t => validate app t path
  | None => false
  end.

Definition NOT_A_WORK_FILE : string :=
  "This Houdini file is not a Shotgun Toolkit work file!".

(** Every separator of the platform that occurs in the path is a forward
    slash. *)
Definition only_forward_slashes (host : Host) (path : string) : Prop :=
  forall c : ascii,
    In c (list_ascii_of_string path) -> c = os_sep host -> c = "/"%char.

(** The session with one parameter of one node changed. *)
Definition with_parm (n : NodeId) (name : string) (f : Parm -> Parm)
    (st : Session) : Session :=
  match nodes st !! n with
  | Some nd =>
      set_nodes (<[n := set_parms (update_parm (node_parms nd) name f) nd]>
                   (nodes st)) st
  | None => st
  end.

(** What unlock, set, lock leaves of a parameter. *)
Definition written_locked (v : Value) (p : Parm) : Parm :=
  mkParm (parm_template p) v (parm_keys p) true (parm_menu_labels p).

(** The parameter [name] of node [n] holds [v] and is locked. *)
Definition holds_locked (n : NodeId) (name : string) (v : Value)
    (st : Session) : Prop :=
  exists nd p,
    nodes st !! n = Some nd /\
    lookup_parm (node_parms nd) name = Some p /\
    parm_raw p = v /\ parm_locked p = true.

(** The session with the inputs of one node changed. *)
Definition with_inputs (n : NodeId)
    (f : gmap nat NodeId -> gmap nat NodeId) (st : Session) : Session :=
  match nodes st !! n with
  | Some nd =>
      set_nodes (<[n := set_inputs (f (node_inputs nd)) nd]> (nodes st)) st
  | None => st
  end.

(** Slot [i] of node [d] is wired to node [up]. *)
Definition wired (st : Session) (d : NodeId) (i : nat) (up : NodeId) : Prop :=
  exists nd, nodes st !! d = Some nd /\ node_inputs nd !! i = Some up.

(** The message of the [hou.InvalidInput] that [_copy_inputs] raises. *)
Definition not_enough_inputs (source target : string) : string :=
  "Not enough inputs on target node. Cannot copy inputs from '"
    +:+ source +:+ "' to '" +:+ target +:+ "'".

(** Moving the outputs of [source] to [target], as the specification puts
    it: every slot that was wired to the source is wired to the target, and
    nothing is wired to the source any more. *)
Definition moves_outputs (source target : NodeId) (st : Session) : Prop :=
  let st' := snd (_move_outputs source target st) in
  fst (_move_outputs source target st) = Ok tt /\
  (forall d i, wired st d i source -> wired st' d i target) /\
  outputs_of (nodes st') source = [].

(** The session after each slot of a list is wired to [target]. *)
Definition rewire (l : list (NodeId * nat)) (target : NodeId)
    (st : Session) : Session :=
  foldl (fun st c => with_inputs (fst c) (insert (snd c) target) st) st l.

(** A node without its wiring: type, name, parent, position, parameters,
    user data and connectors. *)
Definition attrs (nd : Node) : Node := set_inputs ∅ nd.

(** Node [n] is still there, as [nd] but for its wiring, and its id will
    not be given to a new node. *)
Definition node_kept (n : NodeId) (nd : Node) (st : Session) : Prop :=
  (n < next_id st)%nat /\
  exists nd', nodes st !! n = Some nd' /\ attrs nd' = attrs nd.

(** A reference that is not to a parameter of node [n]. *)
Definition off_node (n : NodeId) (r : option ParmRef) : Prop :=
  match r with
  | Some (m, _) => m <> n
  | None => True
  end.

(** The warning of [convert_back_to_tk_arnold_nodes] for a node it
    skips. *)
Definition no_profile_warning (name : string) : string :=
  "Arnold node '" +:+ name +:+ "' does not have an output profile name. "
    +:+ "Can't convert to Tk Arnold node. Continuing.".

(** The session with one node changed. *)
Definition with_node (n : NodeId) (f : Node -> Node) (st : Session) : Session :=
  match nodes st !! n with
  | Some nd => set_nodes (<[n := f nd]> (nodes st)) st
  | None => st
  end.

(** A parameter whose value is of the kind its template takes. *)
Definition well_typed (p : Parm) : bool :=
  accepts (parm_template p) (parm_raw p).

(** What the loop body of [_copy_parm_values] makes of the target
    parameter [tp] when it copies the source parameter [sp] onto it: a
    folder is skipped, keyframes are set one by one, a string is copied
    unexpanded, anything else evaluated. *)
Definition copied (host : Host) (sp tp : Parm) : Parm :=
  if decide (parm_template sp = FolderSetParmTemplate) then tp
  else match map_to_list (parm_keys sp) with
       | _ :: _ =>
           foldl (fun p key => set_key (fst key) (snd key) p) tp
                 (map_to_list (parm_keys sp))
       | [] =>
           if decide (parm_template sp = StringParmTemplate)
           then set_raw (parm_raw sp) tp
           else set_raw (parm_value host sp) tp
       end.

(** When that copy goes through without the fallback: the target is
    unlocked and takes the value. *)
Definition can_copy (host : Host) (sp tp : Parm) : bool :=
  if decide (parm_template sp = FolderSetParmTemplate) then true
  else negb (parm_locked tp) &&
       match map_to_list (parm_keys sp) with
       | _ :: _ => true
       | [] =>
           if decide (parm_template sp = StringParmTemplate)
           then match parm_raw sp with
                | VStr _ => accepts (parm_template tp) (parm_raw sp)
                | _ => false
                end
           else accepts (parm_template tp) (parm_value host sp)
       end.

(** The parameters of the target once every parameter of the source has
    been copied onto the one of its name. *)
Definition copy_parms (host : Host) (src tgt : list (string * Parm))
    : list (string * Parm) :=
  foldl (fun tgt name =>
           match lookup_parm src name with
           | Some sp => update_parm tgt name (copied host sp)
           | None => tgt
           end) tgt src.*1.

Definition all_can_copy (host : Host) (src tgt : list (string * Parm)) : Prop :=
  forall name sp tp,
    lookup_parm src name = Some sp ->
    lookup_parm tgt name = Some tp ->
    can_copy host sp tp = true.

(** An [excludes] argument that excludes nothing. *)
Definition excludes_nothing (excludes : option (list PyObj)) : Prop :=
  match excludes with
  | Some l => forall name, name_in name l = false
  | None => True
  end.

(** A node of the session, without its wiring. *)
Definition attrs_lookup (st : Session) (x : NodeId) : option Node :=
  attrs <$> nodes st !! x.

(** No node bears an id that [createNode] has still to give. *)
Definition fresh (st : Session) : Prop :=
  forall x, (next_id st <= x)%nat -> nodes st !! x = None.

(** No node has more than [c] inputs wired. *)
Definition deg_ok (c : nat) (st : Session) : Prop :=
  forall x nd, nodes st !! x = Some nd -> (size (node_inputs nd) <= c)%nat.

(** The session after [createNode] and after [destroy]. *)
Definition created (ty parent : string) (def : NodeTypeDef) (st : Session)
    : Session :=
  mkSession
    (<[next_id st := mkNode ty (ty +:+ pretty (next_id st)) parent origin
                            (nt_parms def) ∅ ∅ (nt_connectors def)]>
       (nodes st))
    (S (next_id st)) (hip_path st) (pwd st) (log st).

Definition destroyed (m : NodeId) (st : Session) : Session :=
  set_nodes (unwire m <$> delete m (nodes st)) st.

(** What the conversions read off a node: the label of the selected menu
    entry of the profile parameter, the plane numbers
    ([_get_extra_plane_numbers]) and the label of a plane. *)
Definition selected_profile (host : Host) (nd : Node) : option string :=
  match lookup_parm (node_parms nd) TK_OUTPUT_PROFILE_PARM with
  | Some p =>
      match py_index (parm_menu_labels p) (parm_value host p) with
      | Ok s => Some s
      | Raise _ => None
      end
  | None => None
  end.

Definition plane_numbers (host : Host) (nd : Node) : option (list Z) :=
  match lookup_parm (node_parms nd) TK_EXTRA_PLANE_COUNT_PARM with
  | Some p =>
      match parm_value host p with
      | VInt k => Some (seqZ 1 k)
      | VBool b => Some (seqZ 1 (if b then 1 else 0))
      | _ => None
      end
  | None => None
  end.

Definition aov_label (host : Host) (nd : Node) (plane_number : Z)
    : option string :=
  match lookup_parm (node_parms nd) (TK_EXTRA_PLANES_NAME plane_number) with
  | Some p =>
      match parm_value host p with
      | VStr s => Some s
      | _ => None
      end
  | None => None
  end.

(** The user data [convert_to_regular_arnold_nodes] leaves on the native
    node: the labels of the planes, over the profile name. *)
Definition stamp (host : Host) (nd : Node) (planes : list Z)
    (ud : gmap string string) : gmap string string :=
  foldl (fun ud i =>
           match aov_label host nd i with
           | Some s => <[TK_EXTRA_PLANES_NAME i := s]> ud
           | None => ud
           end) ud planes.

(** The native node that replaces a toolkit node, without its wiring. *)
Definition native_of (host : Host) (def : NodeTypeDef) (nd : Node) : Node :=
  mkNode HOU_ARNOLD_NODE_TYPE (node_name nd) (node_parent nd) (node_pos nd)
         (copy_parms host (node_parms nd) (nt_parms def))
         (stamp host nd (default [] (plane_numbers host nd))
                {[ TK_OUTPUT_PROFILE_NAME_KEY :=
                     default "" (selected_profile host nd) ]})
         ∅ (nt_connectors def).

(** Template and lock of a parameter: what decides whether it can be
    written. *)
Definition shape (p : Parm) : ParmTemplate * bool :=
  (parm_template p, parm_locked p).

Definition same_shape (ps ps' : list (string * Parm)) : Prop :=
  forall name, shape <$> lookup_parm ps' name = shape <$> lookup_parm ps name.

(** The parameters of the new toolkit node once the stored profile name is
    selected (when the menu has it) and once the stored plane labels are
    restored. *)
Definition select_profile (prof : string) (ps : list (string * Parm))
    : list (string * Parm) :=
  match lookup_parm ps TK_OUTPUT_PROFILE_PARM with
  | Some pp =>
      match py_list_index (parm_menu_labels pp) prof with
      | Some index =>
          update_parm ps TK_OUTPUT_PROFILE_PARM (set_raw (VInt (Z.of_nat index)))
      | None => ps
      end
  | None => ps
  end.

Definition stored_label (ud : gmap string string) (plane_number : Z) : Value :=
  match ud !! TK_EXTRA_PLANES_NAME plane_number with
  | Some s => VStr s
  | None => VNone
  end.

Definition restore_labels (ud : gmap string string) (planes : list Z)
    (ps : list (string * Parm)) : list (string * Parm) :=
  foldl (fun ps i =>
           update_parm ps (TK_EXTRA_PLANES_NAME i) (set_raw (stored_label ud i)))
        ps planes.

(** The toolkit node that replaces a native node, without its wiring. *)
Definition tk_of (host : Host) (def : NodeTypeDef) (ad : Node) : Node :=
  mkNode TK_ARNOLD_NODE_TYPE (node_name ad) (node_parent ad) (node_pos ad)
         (restore_labels (node_user_data ad)
            (default [] (plane_numbers host ad))
            (copy_parms host (node_parms ad)
               (select_profile
                  (default "" (node_user_data ad !! TK_OUTPUT_PROFILE_NAME_KEY))
                  (nt_parms def))))
         ∅ ∅ (nt_connectors def).

(** The plane labels can be restored: each plane has a stored label and an
    unlocked string parameter to take it. *)
Definition labels_restorable (ud : gmap string string) (planes : list Z)
    (ps : list (string * Parm)) : Prop :=
  forall i, In i planes ->
    is_Some (ud !! TK_EXTRA_PLANES_NAME i) /\
    exists lp, lookup_parm ps (TK_EXTRA_PLANES_NAME i) = Some lp /\
               shape lp = (StringParmTemplate, false).

(** The session with messages added to the log. *)
Definition with_log (msgs : list (LogLevel * string)) (st : Session) : Session :=
  mkSession (nodes st) (next_id st) (hip_path st) (pwd st) (log st ++ msgs).

(** ** The round trip of the conversions *)

(** A parameter name with the toolkit prefix. *)
Definition is_tk_name (name : string) : bool := String.prefix "sgtk_" name.

(** Parameters as a node type defines them: unlocked, without keyframes,
    holding a value of their kind. *)
Definition plain (defs : list (string * Parm)) : bool :=
  forallb (fun kp => negb (parm_locked kp.2)
                     && bool_decide (parm_keys kp.2 = ∅)
                     && well_typed kp.2) defs.

(** Every parameter of [ps] is one of [defs], of the same template. *)
Definition conforms (ps defs : list (string * Parm)) : bool :=
  forallb (fun kp => match lookup_parm defs kp.1 with
                     | Some t => bool_decide (parm_template t = parm_template kp.2)
                     | None => false
                     end) ps.

(** A parameter that both [ps] and [defs] have is of the same template in
    both. *)
Definition agree (ps defs : list (string * Parm)) : bool :=
  forallb (fun kp => match lookup_parm defs kp.1 with
                     | Some t => bool_decide (parm_template t = parm_template kp.2)
                     | None => true
                     end) ps.

(** The native type has every parameter of the toolkit type but those with
    the toolkit prefix. *)
Definition covers (native tk : list (string * Parm)) : bool :=
  forallb (fun kp => is_tk_name kp.1
                     || match lookup_parm native kp.1 with
                        | Some _ => true
                        | None => false
                        end) tk.

(** What the round trip asks of the two node types of the host: the
    toolkit type is the native type with toolkit parameters added, among
    them the profile menu, and the plane count is an integer. *)
Definition compatible (NT TT : NodeTypeDef) : bool :=
  plain (nt_parms NT) && plain (nt_parms TT)
  && agree (nt_parms NT) (nt_parms TT)
  && covers (nt_parms NT) (nt_parms TT)
  && match lookup_parm (nt_parms NT) TK_OUTPUT_PROFILE_PARM with
     | Some _ => false
     | None => true
     end
  && match lookup_parm (nt_parms TT) TK_OUTPUT_PROFILE_PARM with
     | Some pp => bool_decide (parm_template pp = MenuParmTemplate)
     | None => false
     end
  && match lookup_parm (nt_parms TT) TK_EXTRA_PLANE_COUNT_PARM with
     | Some p => bool_decide (parm_template p = IntParmTemplate)
     | None => false
     end.

(** The label of a plane as a string parameter whose value is a string
    with nothing left to expand. *)
Definition label_settled (host : Host) (ps : list (string * Parm)) (i : Z)
    : bool :=
  match lookup_parm ps (TK_EXTRA_PLANES_NAME i) with
  | Some lp =>
      bool_decide (parm_template lp = StringParmTemplate)
      && match parm_value host lp with
         | VStr s => String.eqb (expand host s) s
         | _ => false
         end
  | None => false
  end.

(** A toolkit node as the host keeps it: the parameters of its type, each
    with a value of its kind, a plane count and a label for every plane. *)
Definition well_formed (host : Host) (TT : NodeTypeDef) (nd : Node) : bool :=
  conforms (node_parms nd) (nt_parms TT)
  && forallb (fun kp => well_typed kp.2) (node_parms nd)
  && match plane_numbers host nd with
     | Some planes => forallb (label_settled host (node_parms nd)) planes
     | None => false
     end.

(** The selected profile of the node is still among the profiles that the
    menu of a new toolkit node offers. *)
Definition profile_configured (host : Host) (TT : NodeTypeDef) (nd : Node)
    : bool :=
  match selected_profile host nd,
        lookup_parm (nt_parms TT) TK_OUTPUT_PROFILE_PARM with
  | Some prof, Some pp =>
      match py_list_index (parm_menu_labels pp) prof with
      | Some _ => true
      | None => false
      end
  | _, _ => false
  end.

(** The node [nd'] is the node [nd] again: name, position, value of every
    parameter without the toolkit prefix (a folder set has tabs, not a
    value), planes and their labels, selected profile. *)
Definition equivalent (host : Host) (nd nd' : Node) : Prop :=
  node_name nd' = node_name nd /\
  node_pos nd' = node_pos nd /\
  (forall name p,
      is_tk_name name = false ->
      lookup_parm (node_parms nd) name = Some p ->
      parm_template p <> FolderSetParmTemplate ->
      exists p', lookup_parm (node_parms nd') name = Some p' /\
                 parm_value host p' = parm_value host p) /\
  plane_numbers host nd' = plane_numbers host nd /\
  (forall i, In i (default [] (plane_numbers host nd)) ->
             aov_label host nd' i = aov_label host nd i) /\
  selected_profile host nd' = selected_profile host nd.

(** The session has a toolkit node that is [nd] again. *)
Definition reconstructed (host : Host) (nd : Node) (st : Session) : Prop :=
  exists y nd', nodes st !! y = Some nd' /\
                node_type nd' = TK_ARNOLD_NODE_TYPE /\
                equivalent host nd nd'.

(** A native node that bears no profile name; one that bears a name and
    everything [convert_back_to_tk_arnold_nodes] needs to turn it into a
    toolkit node. *)
Definition unstamped (nd : Node) : Prop :=
  node_user_data nd !! TK_OUTPUT_PROFILE_NAME_KEY = None \/
  node_user_data nd !! TK_OUTPUT_PROFILE_NAME_KEY = Some "".

Definition to_tk_ok (host : Host) (TT : NodeTypeDef) (nd : Node) : Prop :=
  exists prof pp planes,
    node_user_data nd !! TK_OUTPUT_PROFILE_NAME_KEY = Some prof /\
    prof <> "" /\
    lookup_parm (nt_parms TT) TK_OUTPUT_PROFILE_PARM = Some pp /\
    parm_locked pp = false /\
    parm_template pp <> StringParmTemplate /\
    all_can_copy host (node_parms nd) (nt_parms TT) /\
    plane_numbers host nd = Some planes /\
    labels_restorable (node_user_data nd) planes (nt_parms TT).

(** A toolkit node with everything [convert_to_regular_arnold_nodes]
    needs to turn it into a native node. *)
Definition to_native_ok (host : Host) (NT : NodeTypeDef) (nd : Node) : Prop :=
  all_can_copy host (node_parms nd) (nt_parms NT) /\
  is_Some (selected_profile host nd) /\
  exists planes, plane_numbers host nd = Some planes /\
                 forall i, In i planes -> is_Some (aov_label host nd i).

(** A check that every node of the session passes. *)
Definition all_nodes (f : NodeId -> Node -> bool) (st : Session) : bool :=
  forallb (fun kv => f kv.1 kv.2) (map_to_list (nodes st)).

(** The round trip: every toolkit node to a native node, then every
    native node that bears a profile name back to a toolkit node. *)
Definition round_trip (host : Host) : M unit :=
  convert_to_regular_arnold_nodes host ;;;
  convert_back_to_tk_arnold_nodes host.

(** A node that is no toolkit node, or a toolkit node that is well formed
    and has a profile selected that is configured and has a name. *)
Definition round_trip_ready (host : Host) (TT : NodeTypeDef) (x : NodeId)
    (nd : Node) : bool :=
  negb (String.eqb (node_type nd) TK_ARNOLD_NODE_TYPE)
  || (well_formed host TT nd && profile_configured host TT nd
      && negb (bool_decide (selected_profile host nd = Some ""))).

(** ** Further vocabulary: the profiles and their menu *)

(** The warnings among logged messages. *)
Definition warnings (msgs : list (LogLevel * string)) : list string :=
  omap (fun m => match fst m with
                 | LWarning => Some (snd m)
                 | _ => None
                 end) msgs.

(** The first profile of a name in the setting. *)
Definition first_named (name : string) (profiles : list Profile)
    : option Profile :=
  find (fun p => String.eqb (prof_name p) name) profiles.

(** The labels of a menu given by its items, a flat list of token and
    label in turn. *)
Fixpoint menu_labels_of (items : list Value) : list string :=
  match items with
  | _ :: label :: items' => py_str label :: menu_labels_of items'
  | _ => []
  end.

(** The items of a menu that counts names from [k]. *)
Fixpoint menu_items (k : nat) (names : list string) : list Value :=
  match names with
  | [] => []
  | name :: names' =>
      VInt (Z.of_nat k) :: VStr name :: menu_items (S k) names'
  end.

(** ** Further vocabulary: the parameters of a session *)

(** The parameter [name] of node [n], and the value it holds unexpanded,
    if the session has them. *)
Definition parm_at (st : Session) (n : NodeId) (name : string)
    : option Parm :=
  match nodes st !! n with
  | Some nd => lookup_parm (node_parms nd) name
  | None => None
  end.

Definition raw_at (st : Session) (n : NodeId) (name : string)
    : option Value :=
  parm_raw <$> parm_at st n name.

(** The plane numbers of a node of the session. *)
Definition planes_at (host : Host) (st : Session) (n : NodeId)
    : option (list Z) :=
  match nodes st !! n with
  | Some nd => plane_numbers host nd
  | None => None
  end.

(** The pairs of parameters that [update_parms] copies, first onto
    second: the default mapping, then one pair for every plane. *)
Definition update_pairs (planes : list Z) : list (string * string) :=
  (TK_DEFAULT_UPDATE_PARM_MAPPING
   ++ map (fun plane_number : Z =>
             ("sgtk_ar_aov_separate_file" +:+ pretty plane_number,
              "ar_aov_separate_file" +:+ pretty plane_number)) planes)%list.

(** The [copy_parm] of [update_parms]: the unexpanded string of [p1] onto
    [p2]; the target is looked up first, its [set] fetched before the
    source is read. *)
Definition copy_parm_of (node : NodeId) (p1 p2 : string) : M unit :=
  r2 <- hou_parm node (VStr p2) ;;
  hou_getattr r2 ;;;
  r1 <- hou_parm node (VStr p1) ;;
  s <- parm_unexpandedString r1 ;;
  parm_set r2 (VStr s).

(** ** Further vocabulary: a node in the place of another *)

(** The session once node [a] has taken the place of node [m], which was
    [nd]: the inputs of [m] on [a], the outputs of [m] moved to [a], [m]
    destroyed, its name and position given to [a]. *)
Definition replaced (m a : NodeId) (nd : Node) (st : Session) : Session :=
  let st4 := with_inputs a (fun i => node_inputs nd ∪ i) st in
  with_node a (set_pos (node_pos nd))
    (with_node a (set_name (node_name nd))
       (destroyed m (rewire (outputs_of (nodes st4) m) a st4))).

(** The id of a node once [a] has taken the place of [m]. *)
Definition renamed (m a : NodeId) (x : NodeId) : NodeId :=
  if decide (x = m) then a else x.

(** ** Further vocabulary: digits in a parameter name *)

(** A string of decimal digits only, and a string without any. *)
Fixpoint all_digits (s : string) : bool :=
  match s with
  | EmptyString => true
  | String c s' => is_digit c && all_digits s'
  end.

Fixpoint no_digit (s : string) : bool :=
  match s with
  | EmptyString => true
  | String c s' => negb (is_digit c) && no_digit s'
  end.

(** What selecting the stored profile name on a new toolkit node logs:
    a warning when the menu of [pp] has no entry of that name. *)
Definition profile_warnings (pp : Parm) (prof : string)
    : list (LogLevel * string) :=
  match py_list_index (parm_menu_labels pp) prof with
  | Some _ => []
  | None => [(LWarning, "No output profile found named: " +:+ prof)]
  end.

(** A reference that is not to the parameter [x] of any node. *)
Definition off_parm (x : string) (r : option ParmRef) : Prop :=
  match r with
  | Some (_, name) => name <> x
  | None => True
  end.

(** A computation that keeps a property of the session, whatever it
    returns or raises. *)
Definition preserves {A} (P : Session -> Prop) (m : M A) : Prop :=
  forall st, P st -> P (snd (m st)).

(** A computation whose exceptions all satisfy [Q]. *)
Definition raises_only {A} (Q : Exn -> Prop) (m : M A) : Prop :=
  forall st e, fst (m st) = Raise e -> Q e.

Definition not_TankError (e : Exn) : Prop :=
  match e with
  | TankError _ => False
  | _ => True
  end.

(** A computation that leaves the session as it found it, whatever it
    returns or raises. *)
Definition readonly {A} (m : M A) : Prop :=
  forall st, snd (m st) = st.

(** * Properties *)

(** ** Running a computation *)

Lemma bind_Ok {A B} (m : M A) (k : A -> M B) st a st' :
  m st = (Ok a, st') -> bind m k st = k a st'.
Proof. unfold bind. intros ->. reflexivity. Qed.

Lemma bind_Raise {A B} (m : M A) (k : A -> M B) st e st' :
  m st = (Raise e, st') -> bind m k st = (Raise e, st').
Proof. unfold bind. intros ->. reflexivity. Qed.

Lemma the_node_Some n nd st :
  nodes st !! n = Some nd -> the_node n st = (Ok nd, st).
Proof. unfold the_node. intros ->. reflexivity. Qed.

Lemma the_node_None n st :
  nodes st !! n = None -> the_node n st = (Raise ObjectWasDeleted, st).
Proof. unfold the_node. intros ->. reflexivity. Qed.

Lemma hou_name_Some n nd st :
  nodes st !! n = Some nd -> hou_name n st = (Ok (node_name nd), st).
Proof. intros H. unfold hou_name. rewrite (bind_Ok _ _ _ _ _ (the_node_Some _ _ _ H)). reflexivity. Qed.

Lemma node_or_pwd_run node st :
  node_or_pwd node st = (Ok (node_or_pwd_of node st), st).
Proof. destruct node; reflexivity. Qed.

Lemma hou_parm_run n nd name st :
  nodes st !! n = Some nd ->
  hou_parm n (VStr name) st
    = (Ok (match lookup_parm (node_parms nd) name with
           | Some _ => Some (n, name)
           | None => None
           end), st).
Proof.
  intros H. unfold hou_parm.
  rewrite (bind_Ok _ _ _ _ _ (the_node_Some _ _ _ H)).
  destruct (lookup_parm (node_parms nd) name); reflexivity.
Qed.

Lemma hou_parm_Some n nd name p st :
  nodes st !! n = Some nd ->
  lookup_parm (node_parms nd) name = Some p ->
  hou_parm n (VStr name) st = (Ok (Some (n, name)), st).
Proof. intros H Hp. rewrite (hou_parm_run _ _ _ _ H), Hp. reflexivity. Qed.

Lemma hou_parm_not_a_path n nd b st :
  nodes st !! n = Some nd ->
  hou_parm n (VBool b) st = (Raise TypeError, st).
Proof.
  intros H. unfold hou_parm.
  rewrite (bind_Ok _ _ _ _ _ (the_node_Some _ _ _ H)). reflexivity.
Qed.

Lemma the_parm_Some n nd name p st :
  nodes st !! n = Some nd ->
  lookup_parm (node_parms nd) name = Some p ->
  the_parm (Some (n, name)) st = (Ok p, st).
Proof.
  intros H Hp. unfold the_parm.
  rewrite (bind_Ok _ _ _ _ _ (the_node_Some _ _ _ H)), Hp. reflexivity.
Qed.

Lemma parm_eval_Some host n nd name p st :
  nodes st !! n = Some nd ->
  lookup_parm (node_parms nd) name = Some p ->
  parm_eval host (Some (n, name)) st = (Ok (parm_value host p), st).
Proof.
  intros H Hp. unfold parm_eval.
  rewrite (bind_Ok _ _ _ _ _ (the_parm_Some _ _ _ _ _ H Hp)). reflexivity.
Qed.

(** ** Computations that only read *)

Lemma readonly_ret {A} (a : A) : readonly (ret a).
Proof. intros st. reflexivity. Qed.

Lemma readonly_raise {A} e : readonly (@raise A e).
Proof. intros st. reflexivity. Qed.

Lemma readonly_lift {A} (o : Outcome A) : readonly (lift o).
Proof. intros st. reflexivity. Qed.

Lemma readonly_bind {A B} (m : M A) (k : A -> M B) :
  readonly m -> (forall a, readonly (k a)) -> readonly (bind m k).
Proof.
  intros Hm Hk st. unfold bind. specialize (Hm st).
  destruct (m st) as [[a|e] st']; simpl in *; subst.
  - apply Hk.
  - reflexivity.
Qed.

Lemma readonly_the_node n : readonly (the_node n).
Proof. intros st. unfold the_node. destruct (nodes st !! n); reflexivity. Qed.

Lemma readonly_get_session : readonly get_session.
Proof. intros st. reflexivity. Qed.

Create HintDb readonly.
#[export] Hint Resolve readonly_ret readonly_raise readonly_lift
  readonly_the_node readonly_get_session : readonly.

Ltac readonly_tac :=
  repeat first
    [ solve [auto with readonly]
    | apply readonly_bind; [|intros ?]
    | match goal with
      | |- readonly (match ?x with _ => _ end) => destruct x
      | |- readonly (if ?x then _ else _) => destruct x
      end ].

Lemma readonly_hou_name n : readonly (hou_name n).
Proof. unfold hou_name. readonly_tac. Qed.

Lemma readonly_hou_parm n path : readonly (hou_parm n path).
Proof. unfold hou_parm. readonly_tac. Qed.

Lemma readonly_the_parm r : readonly (the_parm r).
Proof. unfold the_parm. readonly_tac. Qed.

#[export] Hint Resolve readonly_hou_name readonly_hou_parm readonly_the_parm
  : readonly.

Lemma readonly_parm_eval host r : readonly (parm_eval host r).
Proof. unfold parm_eval. readonly_tac. Qed.

Lemma readonly_parm_menuLabels r : readonly (parm_menuLabels r).
Proof. unfold parm_menuLabels. readonly_tac. Qed.

Lemma readonly_hou_pwd : readonly hou_pwd.
Proof. unfold hou_pwd. readonly_tac. Qed.

Lemma readonly_hou_hipFile_path : readonly hou_hipFile_path.
Proof. unfold hou_hipFile_path. readonly_tac. Qed.

#[export] Hint Resolve readonly_parm_eval readonly_parm_menuLabels
  readonly_hou_pwd readonly_hou_hipFile_path : readonly.

Lemma readonly_state {A} (m : M A) st o st' :
  readonly m -> m st = (o, st') -> st' = st.
Proof. intros H E. specialize (H st). rewrite E in H. exact H. Qed.

(** [s.replace(sep, "/")] leaves no [sep] behind unless [sep] is the
    slash. *)
Lemma replace_char_slash (sep c : ascii) (s : string) :
  In c (list_ascii_of_string (replace_char sep "/" s)) ->
  c = sep -> c = "/"%char.
Proof.
  induction s as [|c0 s IH]; simpl; [tauto|].
  destruct (Ascii.eqb c0 sep) eqn:E; simpl.
  - intros [H|H] Hc; [congruence | auto].
  - intros [H|H] Hc; [|auto]. subst c0 c.
    rewrite Ascii.eqb_refl in E. discriminate.
Qed.

Lemma readonly_parm_unexpandedString r : readonly (parm_unexpandedString r).
Proof. unfold parm_unexpandedString. readonly_tac. Qed.

Lemma readonly_hou_getattr r : readonly (hou_getattr r).
Proof. unfold hou_getattr. readonly_tac. Qed.

(** ** What a computation may raise *)

Lemma raises_only_ret {A} Q (a : A) : raises_only Q (ret a).
Proof. intros st e H. discriminate H. Qed.

Lemma raises_only_raise {A} (Q : Exn -> Prop) e :
  Q e -> raises_only Q (@raise A e).
Proof. intros H st e' [= <-]. exact H. Qed.

Lemma raises_only_lift {A} (Q : Exn -> Prop) (o : Outcome A) :
  (forall e, o = Raise e -> Q e) -> raises_only Q (lift o).
Proof. intros H st e E. apply H. exact E. Qed.

Lemma raises_only_bind {A B} Q (m : M A) (k : A -> M B) :
  raises_only Q m -> (forall a, raises_only Q (k a)) ->
  raises_only Q (bind m k).
Proof.
  intros Hm Hk st e. unfold bind. specialize (Hm st).
  destruct (m st) as [[a|e'] st']; simpl in *.
  - apply Hk.
  - intros [= <-]. apply Hm. reflexivity.
Qed.

Lemma raises_only_for_each {A} Q (l : list A) (body : A -> M unit) :
  (forall a, raises_only Q (body a)) -> raises_only Q (for_each l body).
Proof.
  intros Hb. induction l as [|a l IH]; simpl.
  - apply raises_only_ret.
  - apply raises_only_bind; [apply Hb | intros _; exact IH].
Qed.

Lemma raises_only_try_except {A} Q (m : M A) handler :
  (forall e, match handler e with
             | Some h => raises_only Q h
             | None => Q e
             end) ->
  raises_only Q (try_except m handler).
Proof.
  intros Hh st e. unfold try_except.
  destruct (m st) as [[a|e'] st']; simpl; [discriminate|].
  specialize (Hh e'). destruct (handler e') as [h|].
  - apply Hh.
  - intros [= <-]. exact Hh.
Qed.

Lemma raises_only_modify Q f : raises_only Q (modify f).
Proof. intros st e H. discriminate H. Qed.

Lemma raises_only_get_session Q : raises_only Q get_session.
Proof. intros st e H. discriminate H. Qed.

Lemma no_tank_the_node n : raises_only not_TankError (the_node n).
Proof.
  intros st e. unfold the_node. destruct (nodes st !! n); simpl.
  - discriminate.
  - intros [= <-]. exact I.
Qed.

Create HintDb no_tank.
#[export] Hint Resolve raises_only_ret raises_only_modify
  raises_only_get_session no_tank_the_node : no_tank.

Ltac no_tank_tac :=
  repeat first
    [ solve [auto with no_tank]
    | apply raises_only_bind; [|intros ?]
    | apply raises_only_raise; exact I
    | apply raises_only_for_each; intros ?
    | match goal with
      | |- raises_only _ (match ?x with _ => _ end) => destruct x
      | |- raises_only _ (if ?x then _ else _) => destruct x
      | |- raises_only _ (let (_, _) := ?x in _) => destruct x
      end ].

Lemma no_tank_update_node n f : raises_only not_TankError (update_node n f).
Proof. unfold update_node. no_tank_tac. Qed.

Lemma no_tank_hou_name n : raises_only not_TankError (hou_name n).
Proof. unfold hou_name. no_tank_tac. Qed.

Lemma no_tank_hou_parm n path : raises_only not_TankError (hou_parm n path).
Proof. unfold hou_parm. no_tank_tac. Qed.

Lemma no_tank_the_parm r : raises_only not_TankError (the_parm r).
Proof. unfold the_parm. no_tank_tac. Qed.

#[export] Hint Resolve no_tank_update_node no_tank_hou_name no_tank_hou_parm
  no_tank_the_parm : no_tank.

Lemma no_tank_update_the_parm r f :
  raises_only not_TankError (update_the_parm r f).
Proof. unfold update_the_parm. no_tank_tac. Qed.

#[export] Hint Resolve no_tank_update_the_parm : no_tank.

Lemma no_tank_parm_eval host r : raises_only not_TankError (parm_eval host r).
Proof. unfold parm_eval. no_tank_tac. Qed.

Lemma no_tank_parm_unexpandedString r :
  raises_only not_TankError (parm_unexpandedString r).
Proof. unfold parm_unexpandedString. no_tank_tac. Qed.

Lemma no_tank_parm_set r v : raises_only not_TankError (parm_set r v).
Proof. unfold parm_set. no_tank_tac. Qed.

Lemma no_tank_parm_lock r on : raises_only not_TankError (parm_lock r on).
Proof. unfold parm_lock. no_tank_tac. Qed.

Lemma no_tank_hou_getattr r : raises_only not_TankError (hou_getattr r).
Proof. unfold hou_getattr. no_tank_tac. Qed.

Lemma no_tank_log_warning msg : raises_only not_TankError (log_warning msg).
Proof. unfold log_warning. no_tank_tac. Qed.

Lemma no_tank_hou_pwd : raises_only not_TankError hou_pwd.
Proof. unfold hou_pwd. no_tank_tac. Qed.

#[export] Hint Resolve no_tank_parm_eval no_tank_parm_unexpandedString
  no_tank_parm_set no_tank_parm_lock no_tank_hou_getattr no_tank_log_warning
  no_tank_hou_pwd : no_tank.

Lemma no_tank__get_extra_plane_numbers host node :
  raises_only not_TankError (_get_extra_plane_numbers host node).
Proof. unfold _get_extra_plane_numbers. no_tank_tac. Qed.

#[export] Hint Resolve no_tank__get_extra_plane_numbers : no_tank.

(** ** Writing a parameter *)

Lemma lookup_update_parm ps name name' f :
  lookup_parm (update_parm ps name f) name'
    = if String.eqb name name' then f <$> lookup_parm ps name
      else lookup_parm ps name'.
Proof.
  induction ps as [|[k p] ps IH]; simpl.
  - destruct (String.eqb name name'); reflexivity.
  - destruct (String.eqb k name) eqn:Ek; simpl.
    + apply String.eqb_eq in Ek. subst k.
      destruct (String.eqb name name'); reflexivity.
    + destruct (String.eqb k name') eqn:Ek'.
      * apply String.eqb_eq in Ek'. subst k.
        rewrite String.eqb_sym in Ek. rewrite Ek. reflexivity.
      * exact IH.
Qed.

Lemma lookup_update_parm_eq ps name f :
  lookup_parm (update_parm ps name f) name = f <$> lookup_parm ps name.
Proof. rewrite lookup_update_parm, String.eqb_refl. reflexivity. Qed.

Lemma lookup_update_parm_ne ps name name' f :
  name <> name' ->
  lookup_parm (update_parm ps name f) name' = lookup_parm ps name'.
Proof.
  intros H. rewrite lookup_update_parm.
  apply String.eqb_neq in H. rewrite H. reflexivity.
Qed.

Lemma update_update_parm ps name f g :
  update_parm (update_parm ps name f) name g
    = update_parm ps name (fun p => g (f p)).
Proof.
  induction ps as [|[k p] ps IH]; simpl; [reflexivity|].
  destruct (String.eqb k name) eqn:Ek; simpl; rewrite Ek.
  - reflexivity.
  - rewrite IH. reflexivity.
Qed.

Lemma with_parm_with_parm n name f g st :
  with_parm n name g (with_parm n name f st)
    = with_parm n name (fun p => g (f p)) st.
Proof.
  unfold with_parm. destruct (nodes st !! n) as [nd|] eqn:E; simpl.
  - rewrite lookup_insert_eq. unfold set_nodes; simpl.
    rewrite insert_insert_eq, update_update_parm. reflexivity.
  - rewrite E. reflexivity.
Qed.

Lemma update_node_run n f nd st :
  nodes st !! n = Some nd ->
  update_node n f st = (Ok tt, set_nodes (<[n := f nd]> (nodes st)) st).
Proof.
  intros H. unfold update_node.
  rewrite (bind_Ok _ _ _ _ _ (the_node_Some _ _ _ H)). reflexivity.
Qed.

Lemma update_the_parm_run n name f nd st :
  nodes st !! n = Some nd ->
  update_the_parm (Some (n, name)) f st = (Ok tt, with_parm n name f st).
Proof.
  intros H. unfold update_the_parm, with_parm.
  rewrite (update_node_run _ _ _ _ H), H. reflexivity.
Qed.

Lemma parm_set_run n name v nd p st :
  nodes st !! n = Some nd ->
  lookup_parm (node_parms nd) name = Some p ->
  parm_locked p = false ->
  accepts (parm_template p) v = true ->
  parm_set (Some (n, name)) v st = (Ok tt, with_parm n name (set_raw v) st).
Proof.
  intros H Hp Hl Ha. unfold parm_set.
  rewrite (bind_Ok _ _ _ _ _ (the_parm_Some _ _ _ _ _ H Hp)), Hl, Ha.
  apply (update_the_parm_run _ _ _ _ _ H).
Qed.

Lemma parm_lock_run n name on nd p st :
  nodes st !! n = Some nd ->
  lookup_parm (node_parms nd) name = Some p ->
  parm_lock (Some (n, name)) on st
    = (Ok tt, with_parm n name (set_locked on) st).
Proof.
  intros H Hp. unfold parm_lock.
  rewrite (bind_Ok _ _ _ _ _ (the_parm_Some _ _ _ _ _ H Hp)).
  apply (update_the_parm_run _ _ _ _ _ H).
Qed.

Lemma with_parm_lookup n name f nd st :
  nodes st !! n = Some nd ->
  nodes (with_parm n name f st) !! n
    = Some (set_parms (update_parm (node_parms nd) name f) nd).
Proof.
  intros H. unfold with_parm. rewrite H. simpl. apply lookup_insert_eq.
Qed.

Lemma with_parm_lookup_ne n m name f st :
  n <> m -> nodes (with_parm n name f st) !! m = nodes st !! m.
Proof.
  intros H. unfold with_parm. destruct (nodes st !! n); [|reflexivity].
  simpl. apply lookup_insert_ne. exact H.
Qed.

(** ** What a computation keeps *)

Lemma preserves_readonly {A} P (m : M A) : readonly m -> preserves P m.
Proof. intros H st HP. rewrite H. exact HP. Qed.

Lemma preserves_ret {A} P (a : A) : preserves P (ret a).
Proof. intros st HP. exact HP. Qed.

Lemma preserves_raise {A} P e : preserves P (@raise A e).
Proof. intros st HP. exact HP. Qed.

Lemma preserves_bind {A B} P (m : M A) (k : A -> M B) :
  preserves P m ->
  (forall a st st', m st = (Ok a, st') -> preserves P (k a)) ->
  preserves P (bind m k).
Proof.
  intros Hm Hk st HP. unfold bind. specialize (Hm st HP).
  destruct (m st) as [[a|e] st'] eqn:E; simpl in *.
  - apply (Hk a st st' E). exact Hm.
  - exact Hm.
Qed.

Lemma preserves_for_each {A} P (l : list A) (body : A -> M unit) :
  (forall a, In a l -> preserves P (body a)) -> preserves P (for_each l body).
Proof.
  intros Hb. induction l as [|a l IH]; simpl.
  - apply preserves_ret.
  - apply preserves_bind; [apply Hb; left; reflexivity|].
    intros. apply IH. intros b Hin. apply Hb. right. exact Hin.
Qed.

Lemma preserves_try_except {A} P (m : M A) handler :
  preserves P m ->
  (forall e h, handler e = Some h -> preserves P h) ->
  preserves P (try_except m handler).
Proof.
  intros Hm Hh st HP. unfold try_except. specialize (Hm st HP).
  destruct (m st) as [[a|e] st']; simpl in *; [exact Hm|].
  destruct (handler e) as [h|] eqn:E; [|exact Hm].
  apply (Hh e h E). exact Hm.
Qed.

Lemma preserves_modify P f :
  (forall st, P st -> P (f st)) -> preserves P (modify f).
Proof. intros H st HP. apply H. exact HP. Qed.

Lemma hou_parm_ref n name st r st' :
  hou_parm n (VStr name) st = (Ok r, st') ->
  r = None \/ r = Some (n, name).
Proof.
  unfold hou_parm, bind, the_node.
  destruct (nodes st !! n) as [nd|]; [|discriminate].
  destruct (lookup_parm (node_parms nd) name); intros [= <- _]; auto.
Qed.

Lemma holds_locked_add_log n x v lvl msg st :
  holds_locked n x v st -> holds_locked n x v (add_log lvl msg st).
Proof. intros H. exact H. Qed.

Lemma holds_locked_with_parm_ne n x v m name f st :
  name <> x ->
  holds_locked n x v st -> holds_locked n x v (with_parm m name f st).
Proof.
  intros Hne (nd & p & Hnd & Hp & Hv & Hl).
  destruct (decide (m = n)) as [->|Hm].
  - exists (set_parms (update_parm (node_parms nd) name f) nd), p.
    rewrite (with_parm_lookup _ _ _ _ _ Hnd). simpl.
    rewrite (lookup_update_parm_ne _ _ _ _ Hne). auto.
  - exists nd, p. rewrite (with_parm_lookup_ne _ _ _ _ _ Hm). auto.
Qed.

Lemma keeps_update_the_parm n x v r f :
  off_parm x r -> preserves (holds_locked n x v) (update_the_parm r f).
Proof.
  intros Hr st HP. destruct r as [[m name]|]; [|exact HP].
  destruct (nodes st !! m) as [nd|] eqn:E.
  - rewrite (update_the_parm_run _ _ _ _ _ E). simpl.
    apply holds_locked_with_parm_ne; assumption.
  - unfold update_the_parm, update_node.
    rewrite (bind_Raise _ _ _ _ _ (the_node_None _ _ E)). exact HP.
Qed.

Lemma keeps_parm_set n x v r w :
  off_parm x r -> preserves (holds_locked n x v) (parm_set r w).
Proof.
  intros Hr. unfold parm_set.
  apply preserves_bind; [apply preserves_readonly, readonly_the_parm|].
  intros p _ _ _. destruct (parm_locked p); [apply preserves_raise|].
  destruct (accepts _ _); [|apply preserves_raise].
  apply keeps_update_the_parm, Hr.
Qed.

Lemma keeps_parm_lock n x v r on :
  off_parm x r -> preserves (holds_locked n x v) (parm_lock r on).
Proof.
  intros Hr. unfold parm_lock.
  apply preserves_bind; [apply preserves_readonly, readonly_the_parm|].
  intros p _ _ _. apply keeps_update_the_parm, Hr.
Qed.

Lemma keeps_log_warning n x v msg :
  preserves (holds_locked n x v) (log_warning msg).
Proof. apply preserves_modify. intros st H. exact H. Qed.

(** [node.parm(name).method(...)] keeps the parameter [x] when [name] is
    another one. *)
Lemma keeps_hou_parm_bind {B} n x v node name (k : option ParmRef -> M B) :
  name <> x ->
  (forall r, off_parm x r -> preserves (holds_locked n x v) (k r)) ->
  preserves (holds_locked n x v) (r <- hou_parm node (VStr name) ;; k r).
Proof.
  intros Hne Hk. apply preserves_bind.
  - apply preserves_readonly, readonly_hou_parm.
  - intros r st st' E. apply Hk.
    destruct (hou_parm_ref _ _ _ _ _ E) as [->| ->]; simpl; auto.
Qed.

(** ** Wiring *)

(** Inserting the entries of a map one by one gives its union with what
    was there. *)
Lemma foldl_insert_list `{Countable K} {V} (l : list (K * V)) (acc : gmap K V) i :
  NoDup l.*1 ->
  foldl (fun a kv => <[fst kv := snd kv]> a) acc l !! i
    = match (list_to_map l : gmap K V) !! i with
      | Some v => Some v
      | None => acc !! i
      end.
Proof.
  revert acc. induction l as [|[k v] l IH]; intros acc Hnd; simpl.
  - rewrite lookup_empty. reflexivity.
  - inversion Hnd as [|? ? Hk Hl]; subst. rewrite (IH _ Hl).
    destruct (decide (k = i)) as [->|Hne].
    + rewrite (not_elem_of_list_to_map_1 l i Hk), !lookup_insert_eq.
      reflexivity.
    + rewrite !(lookup_insert_ne _ k i) by exact Hne. reflexivity.
Qed.

Lemma foldl_insert_map_to_list `{Countable K} {V} (m acc : gmap K V) :
  foldl (fun a kv => <[fst kv := snd kv]> a) acc (map_to_list m) = m ∪ acc.
Proof.
  apply map_eq. intros i.
  rewrite foldl_insert_list by apply NoDup_fst_map_to_list.
  rewrite list_to_map_to_list, lookup_union.
  destruct (m !! i), (acc !! i); reflexivity.
Qed.

Lemma set_inputs_same nd : set_inputs (node_inputs nd) nd = nd.
Proof. destruct nd; reflexivity. Qed.

Lemma with_inputs_lookup n f nd st :
  nodes st !! n = Some nd ->
  nodes (with_inputs n f st) !! n = Some (set_inputs (f (node_inputs nd)) nd).
Proof.
  intros H. unfold with_inputs. rewrite H. simpl. apply lookup_insert_eq.
Qed.

Lemma with_inputs_lookup_ne n m f st :
  n <> m -> nodes (with_inputs n f st) !! m = nodes st !! m.
Proof.
  intros H. unfold with_inputs. destruct (nodes st !! n); [|reflexivity].
  simpl. apply lookup_insert_ne. exact H.
Qed.

Lemma with_inputs_with_inputs n f g st :
  with_inputs n g (with_inputs n f st) = with_inputs n (fun m => g (f m)) st.
Proof.
  unfold with_inputs. destruct (nodes st !! n) as [nd|] eqn:E; simpl.
  - rewrite lookup_insert_eq. unfold set_nodes; simpl.
    rewrite insert_insert_eq. reflexivity.
  - rewrite E. reflexivity.
Qed.

Lemma with_inputs_id n st : with_inputs n (fun m => m) st = st.
Proof.
  unfold with_inputs. destruct (nodes st !! n) as [nd|] eqn:E; [|reflexivity].
  rewrite set_inputs_same, (insert_id _ _ _ E). destruct st; reflexivity.
Qed.

Lemma hou_setInput_run n i up nd st :
  nodes st !! n = Some nd ->
  hou_setInput n i up st = (Ok tt, with_inputs n (insert i up) st).
Proof.
  intros H. unfold hou_setInput, with_inputs.
  rewrite (update_node_run _ _ _ _ H), H. reflexivity.
Qed.

(** Wiring a list of connections into one node. *)
Lemma for_each_setInput_run n (l : list (nat * NodeId)) nd st :
  nodes st !! n = Some nd ->
  for_each l (fun c => hou_setInput n (fst c) (snd c)) st
    = (Ok tt,
       with_inputs n (fun m => foldl (fun a kv => <[fst kv := snd kv]> a) m l) st).
Proof.
  revert nd st. induction l as [|[i up] l IH]; intros nd st H; simpl.
  - rewrite with_inputs_id. reflexivity.
  - rewrite (bind_Ok _ _ _ _ _ (hou_setInput_run _ i up _ _ H)).
    rewrite (IH _ _ (with_inputs_lookup _ _ _ _ H)).
    rewrite with_inputs_with_inputs. reflexivity.
Qed.

Lemma hou_str_Some n nd st :
  nodes st !! n = Some nd -> hou_str n st = (Ok (node_path nd), st).
Proof.
  intros H. unfold hou_str.
  rewrite (bind_Ok _ _ _ _ _ (the_node_Some _ _ _ H)). reflexivity.
Qed.

Lemma hou_inputConnections_run n nd st :
  nodes st !! n = Some nd ->
  hou_inputConnections n st = (Ok (map_to_list (node_inputs nd)), st).
Proof.
  intros H. unfold hou_inputConnections.
  rewrite (bind_Ok _ _ _ _ _ (the_node_Some _ _ _ H)). reflexivity.
Qed.

Lemma hou_inputConnectors_len_run n nd st :
  nodes st !! n = Some nd ->
  hou_inputConnectors_len n st = (Ok (node_connectors nd), st).
Proof.
  intros H. unfold hou_inputConnectors_len.
  rewrite (bind_Ok _ _ _ _ _ (the_node_Some _ _ _ H)). reflexivity.
Qed.

(** What [_copy_inputs] does, in both cases. *)
Lemma _copy_inputs_run source target snd_ tnd st :
  nodes st !! source = Some snd_ ->
  nodes st !! target = Some tnd ->
  _copy_inputs source target st
    = if (node_connectors tnd <? size (node_inputs snd_))%nat
      then (Raise (InvalidInput
                     (not_enough_inputs (node_path snd_) (node_path tnd))), st)
      else (Ok tt, with_inputs target (fun m => node_inputs snd_ ∪ m) st).
Proof.
  intros Hs Ht. unfold _copy_inputs.
  rewrite (bind_Ok _ _ _ _ _ (hou_inputConnections_run _ _ _ Hs)).
  rewrite (bind_Ok _ _ _ _ _ (hou_inputConnectors_len_run _ _ _ Ht)).
  rewrite length_map_to_list.
  destruct (node_connectors tnd <? size (node_inputs snd_))%nat.
  - apply bind_Raise.
    rewrite (bind_Ok _ _ _ _ _ (hou_str_Some _ _ _ Hs)).
    rewrite (bind_Ok _ _ _ _ _ (hou_str_Some _ _ _ Ht)). reflexivity.
  - rewrite (bind_Ok _ _ st tt st) by reflexivity.
    rewrite (for_each_setInput_run _ _ _ _ Ht).
    f_equal. unfold with_inputs. rewrite Ht.
    rewrite foldl_insert_map_to_list. reflexivity.
Qed.

Lemma elem_of_outputs_of ns n d i :
  (d, i) ∈ outputs_of ns n <->
  exists nd, ns !! d = Some nd /\ node_inputs nd !! i = Some n.
Proof.
  unfold outputs_of. rewrite list_elem_of_bind. split.
  - intros ([d' nd] & Hin & Hd). apply elem_of_map_to_list in Hd.
    apply list_elem_of_bind in Hin as ([i' up] & Hin & Hi).
    apply elem_of_map_to_list in Hi.
    destruct (decide (up = n)) as [->|]; [|inversion Hin].
    apply list_elem_of_singleton in Hin. injection Hin as -> ->. eauto.
  - intros (nd & Hd & Hi). exists (d, nd). split.
    + apply list_elem_of_bind. exists (i, n). split.
      * rewrite decide_True by reflexivity. apply list_elem_of_singleton.
        reflexivity.
      * apply elem_of_map_to_list. exact Hi.
    + apply elem_of_map_to_list. exact Hd.
Qed.

Lemma with_inputs_is_Some n f st d :
  is_Some (nodes (with_inputs n f st) !! d) <-> is_Some (nodes st !! d).
Proof.
  destruct (decide (n = d)) as [->|Hne].
  - unfold with_inputs. destruct (nodes st !! d) as [nd|] eqn:E.
    + simpl. rewrite lookup_insert_eq. split; eauto.
    + rewrite E. reflexivity.
  - rewrite with_inputs_lookup_ne by exact Hne. reflexivity.
Qed.

Lemma wired_with_inputs_insert d0 i0 t st d i up :
  wired (with_inputs d0 (insert i0 t) st) d i up <->
  if decide ((d, i) = (d0, i0))
  then is_Some (nodes st !! d0) /\ up = t
  else wired st d i up.
Proof.
  unfold wired. destruct (decide ((d, i) = (d0, i0))) as [[= -> ->]|Hne].
  - destruct (nodes st !! d0) as [nd|] eqn:E.
    + rewrite (with_inputs_lookup _ _ _ _ E). split.
      * intros (nd' & [= <-] & Hi). simpl in Hi.
        rewrite lookup_insert_eq in Hi. injection Hi as <-. eauto.
      * intros [_ ->]. eexists. split; [reflexivity|]. simpl.
        apply lookup_insert_eq.
    + unfold with_inputs. rewrite E. split.
      * intros (nd' & Hnd & _). congruence.
      * intros [[x [=]] _].
  - destruct (decide (d0 = d)) as [->|Hd].
    + destruct (nodes st !! d) as [nd|] eqn:E.
      * rewrite (with_inputs_lookup _ _ _ _ E). split.
        -- intros (nd' & [= <-] & Hi). simpl in Hi.
           rewrite lookup_insert_ne in Hi by congruence. eauto.
        -- intros (nd' & [= <-] & Hi). eexists. split; [reflexivity|].
           simpl. rewrite lookup_insert_ne by congruence. exact Hi.
      * unfold with_inputs. rewrite E. cbn. rewrite E. reflexivity.
    + rewrite with_inputs_lookup_ne by exact Hd. reflexivity.
Qed.

Lemma rewire_is_Some l t st d :
  is_Some (nodes (rewire l t st) !! d) <-> is_Some (nodes st !! d).
Proof.
  unfold rewire. revert st.
  induction l as [|c l IH]; intros st; simpl; [reflexivity|].
  rewrite IH. apply with_inputs_is_Some.
Qed.

(** Where each slot points once a list of slots is wired to [t]. *)
Lemma wired_rewire l t st d i up :
  wired (rewire l t st) d i up <->
  ((d, i) ∈ l /\ is_Some (nodes st !! d) /\ up = t) \/
(((d, i) ∉ l) /\ wired st d i up).
Proof.
  unfold rewire. revert st.
  induction l as [|[d0 i0] l IH]; intros st; simpl.
  - split.
    + intros H. right. split; [apply not_elem_of_nil | exact H].
    + intros [[Hin _]|[_ H]]; [inversion Hin | exact H].
  - rewrite IH. clear IH.
    rewrite with_inputs_is_Some, wired_with_inputs_insert.
    rewrite !elem_of_cons.
    destruct (decide ((d, i) = (d0, i0))) as [E|Hne].
    + destruct (decide ((d, i) ∈ l)); injection E as -> ->; tauto.
    + tauto.
Qed.

Lemma for_each_rewire_run (l : list (NodeId * nat)) t st :
  (forall c, c ∈ l -> is_Some (nodes st !! fst c)) ->
  for_each l (fun c => hou_setInput (fst c) (snd c) t) st
    = (Ok tt, rewire l t st).
Proof.
  unfold rewire. revert st.
  induction l as [|[d i] l IH]; intros st Hl; simpl.
  - reflexivity.
  - destruct (Hl (d, i)) as [nd Hnd]; [left|].
    rewrite (bind_Ok _ _ _ _ _ (hou_setInput_run _ i t _ _ Hnd)).
    apply IH. intros c Hc. apply with_inputs_is_Some, Hl. right. exact Hc.
Qed.

Lemma _move_outputs_run source target nd st :
  nodes st !! source = Some nd ->
  _move_outputs source target st
    = (Ok tt, rewire (outputs_of (nodes st) source) target st).
Proof.
  intros H. unfold _move_outputs, hou_outputConnections.
  rewrite (bind_Ok _ _ st (outputs_of (nodes st) source) st).
  2: { rewrite (bind_Ok _ _ _ _ _ (the_node_Some _ _ _ H)). reflexivity. }
  apply for_each_rewire_run. intros [d i] Hc.
  apply elem_of_outputs_of in Hc as (dn & Hd & _). simpl. eauto.
Qed.

(** ** Copying a parameter value *)

Lemma parm_parmTemplate_Some n nd name p st :
  nodes st !! n = Some nd ->
  lookup_parm (node_parms nd) name = Some p ->
  parm_parmTemplate (Some (n, name)) st = (Ok (parm_template p), st).
Proof.
  intros H Hp. unfold parm_parmTemplate.
  rewrite (bind_Ok _ _ _ _ _ (the_parm_Some _ _ _ _ _ H Hp)). reflexivity.
Qed.

Lemma parm_keyframes_Some n nd name p st :
  nodes st !! n = Some nd ->
  lookup_parm (node_parms nd) name = Some p ->
  parm_keyframes (Some (n, name)) st = (Ok (map_to_list (parm_keys p)), st).
Proof.
  intros H Hp. unfold parm_keyframes.
  rewrite (bind_Ok _ _ _ _ _ (the_parm_Some _ _ _ _ _ H Hp)). reflexivity.
Qed.

Lemma parm_set_TypeError n name v nd p st :
  nodes st !! n = Some nd ->
  lookup_parm (node_parms nd) name = Some p ->
  parm_locked p = false ->
  accepts (parm_template p) v = false ->
  parm_set (Some (n, name)) v st = (Raise TypeError, st).
Proof.
  intros H Hp Hl Ha. unfold parm_set.
  rewrite (bind_Ok _ _ _ _ _ (the_parm_Some _ _ _ _ _ H Hp)), Hl, Ha.
  reflexivity.
Qed.

Lemma for_each_app {A} (l1 l2 : list A) (body : A -> M unit) st :
  for_each (l1 ++ l2) body st = (for_each l1 body ;;; for_each l2 body) st.
Proof.
  revert st. induction l1 as [|a l1 IH]; intros st; simpl.
  - reflexivity.
  - unfold bind in *. destruct (body a st) as [[[]|e] st1].
    + apply IH.
    + reflexivity.
Qed.

(** A loop stops at the first iteration that raises. *)
Lemma for_each_raises {A} (l1 l2 : list A) (a : A) (body : A -> M unit)
    st st1 e st2 :
  for_each l1 body st = (Ok tt, st1) ->
  body a st1 = (Raise e, st2) ->
  for_each (l1 ++ a :: l2) body st = (Raise e, st2).
Proof.
  intros H1 Ha. rewrite for_each_app, (bind_Ok _ _ _ _ _ H1). simpl.
  apply bind_Raise. exact Ha.
Qed.

(** ** What a conversion leaves of another node *)

Lemma preserves_bind_inv {A B} (P : Session -> Prop) (m : M A) (k : A -> M B) :
  preserves P m ->
  (forall a st st', P st -> m st = (Ok a, st') -> preserves P (k a)) ->
  preserves P (bind m k).
Proof.
  intros Hm Hk st HP. unfold bind. pose proof (Hm st HP) as HP'.
  destruct (m st) as [[a|e] st'] eqn:E; simpl in *.
  - apply (Hk a st st' HP E). exact HP'.
  - exact HP'.
Qed.

Lemma kept_update_node n nd t f :
  (t = n -> forall x, attrs (f x) = attrs x) ->
  preserves (node_kept n nd) (update_node t f).
Proof.
  intros Hf st [Hlt (nd' & Hn & Ha)].
  destruct (nodes st !! t) as [td|] eqn:E.
  - rewrite (update_node_run _ _ _ _ E). unfold node_kept. simpl.
    split; [exact Hlt|].
    destruct (decide (t = n)) as [->|Hne].
    + exists (f td). rewrite lookup_insert_eq. split; [reflexivity|].
      rewrite Hf by reflexivity. congruence.
    + exists nd'. rewrite lookup_insert_ne by exact Hne. auto.
  - unfold update_node.
    rewrite (bind_Raise _ _ _ _ _ (the_node_None _ _ E)). simpl.
    split; eauto.
Qed.

Lemma kept_hou_setInput n nd d i up :
  preserves (node_kept n nd) (hou_setInput d i up).
Proof. apply kept_update_node. intros _ x. reflexivity. Qed.

Lemma kept_hou_setName n nd t name :
  t <> n -> preserves (node_kept n nd) (hou_setName t name).
Proof. intros H. apply kept_update_node. intros E. congruence. Qed.

Lemma kept_hou_setPosition n nd t pos :
  t <> n -> preserves (node_kept n nd) (hou_setPosition t pos).
Proof. intros H. apply kept_update_node. intros E. congruence. Qed.

Lemma kept_update_the_parm n nd r f :
  off_node n r -> preserves (node_kept n nd) (update_the_parm r f).
Proof.
  intros Hr. destruct r as [[m name]|]; [|apply preserves_raise].
  apply kept_update_node. simpl in Hr. intros E. congruence.
Qed.

Lemma kept_parm_set n nd r v :
  off_node n r -> preserves (node_kept n nd) (parm_set r v).
Proof.
  intros Hr. unfold parm_set.
  apply preserves_bind; [apply preserves_readonly, readonly_the_parm|].
  intros p _ _ _. destruct (parm_locked p); [apply preserves_raise|].
  destruct (accepts _ _); [|apply preserves_raise].
  apply kept_update_the_parm, Hr.
Qed.

Lemma kept_parm_setKeyframe n nd r key :
  off_node n r -> preserves (node_kept n nd) (parm_setKeyframe r key).
Proof.
  intros Hr. unfold parm_setKeyframe.
  apply preserves_bind; [apply preserves_readonly, readonly_the_parm|].
  intros p _ _ _. destruct (parm_locked p); [apply preserves_raise|].
  apply kept_update_the_parm, Hr.
Qed.

Lemma kept_log n nd lvl msg :
  preserves (node_kept n nd) (modify (add_log lvl msg)).
Proof. apply preserves_modify. intros st H. exact H. Qed.

Lemma kept_hou_parm_bind {B} n nd t name (k : option ParmRef -> M B) :
  t <> n ->
  (forall r, off_node n r -> preserves (node_kept n nd) (k r)) ->
  preserves (node_kept n nd) (r <- hou_parm t (VStr name) ;; k r).
Proof.
  intros Hne Hk. apply preserves_bind.
  - apply preserves_readonly, readonly_hou_parm.
  - intros r st st' E. apply Hk.
    destruct (hou_parm_ref _ _ _ _ _ E) as [->| ->]; simpl; auto.
Qed.

Lemma kept_hou_createNode host n nd parent ty :
  preserves (node_kept n nd) (hou_createNode host parent ty).
Proof.
  intros st [Hlt (nd' & Hn & Ha)]. unfold hou_createNode.
  destruct (node_types host ty); unfold node_kept; simpl; [|split; eauto].
  split; [lia|]. exists nd'. rewrite lookup_insert_ne by lia. auto.
Qed.

Lemma hou_createNode_fresh host n nd parent ty st t st' :
  node_kept n nd st ->
  hou_createNode host parent ty st = (Ok t, st') -> t <> n.
Proof.
  intros [Hlt _]. unfold hou_createNode.
  destruct (node_types host ty); [|discriminate].
  intros [= <- _]. lia.
Qed.

Lemma attrs_unwire m nd : attrs (unwire m nd) = attrs nd.
Proof. reflexivity. Qed.

Lemma kept_hou_destroy n nd m :
  m <> n -> preserves (node_kept n nd) (hou_destroy m).
Proof.
  intros Hne st [Hlt (nd' & Hn & Ha)]. unfold hou_destroy.
  destruct (nodes st !! m) as [md|] eqn:E.
  - rewrite (bind_Ok _ _ _ _ _ (the_node_Some _ _ _ E)).
    unfold node_kept. simpl.
    split; [exact Hlt|]. exists (unwire m nd').
    rewrite lookup_fmap, lookup_delete_ne by exact Hne. rewrite Hn.
    split; [reflexivity|]. rewrite attrs_unwire. exact Ha.
  - rewrite (bind_Raise _ _ _ _ _ (the_node_None _ _ E)). simpl.
    split; eauto.
Qed.

Lemma readonly_hou_inputConnections n : readonly (hou_inputConnections n).
Proof. unfold hou_inputConnections. readonly_tac. Qed.

Lemma readonly_hou_inputConnectors_len n : readonly (hou_inputConnectors_len n).
Proof. unfold hou_inputConnectors_len. readonly_tac. Qed.

Lemma readonly_hou_str n : readonly (hou_str n).
Proof. unfold hou_str. readonly_tac. Qed.

Lemma readonly_hou_outputConnections n : readonly (hou_outputConnections n).
Proof. unfold hou_outputConnections. readonly_tac. Qed.

Lemma readonly_hou_parms n : readonly (hou_parms n).
Proof. unfold hou_parms. readonly_tac. Qed.

Lemma readonly_hou_userDataDict n : readonly (hou_userDataDict n).
Proof. unfold hou_userDataDict. readonly_tac. Qed.

Lemma readonly_hou_parent n : readonly (hou_parent n).
Proof. unfold hou_parent. readonly_tac. Qed.

Lemma readonly_hou_position n : readonly (hou_position n).
Proof. unfold hou_position. readonly_tac. Qed.

Lemma readonly_parm_parmTemplate r : readonly (parm_parmTemplate r).
Proof. unfold parm_parmTemplate. readonly_tac. Qed.

Lemma readonly_parm_keyframes r : readonly (parm_keyframes r).
Proof. unfold parm_keyframes. readonly_tac. Qed.

Lemma kept__copy_inputs n nd source target :
  preserves (node_kept n nd) (_copy_inputs source target).
Proof.
  unfold _copy_inputs.
  apply preserves_bind;
    [apply preserves_readonly, readonly_hou_inputConnections|].
  intros conns _ _ _.
  apply preserves_bind;
    [apply preserves_readonly, readonly_hou_inputConnectors_len|].
  intros k _ _ _. apply preserves_bind.
  - destruct (k <? length conns)%nat; [|apply preserves_ret].
    apply preserves_readonly. apply readonly_bind; [apply readonly_hou_str|].
    intros s. apply readonly_bind; [apply readonly_hou_str|].
    intros t. apply readonly_raise.
  - intros _ _ _ _. apply preserves_for_each. intros c _.
    apply kept_hou_setInput.
Qed.

Lemma kept__move_outputs n nd source target :
  preserves (node_kept n nd) (_move_outputs source target).
Proof.
  unfold _move_outputs.
  apply preserves_bind;
    [apply preserves_readonly, readonly_hou_outputConnections|].
  intros conns _ _ _. apply preserves_for_each. intros c _.
  apply kept_hou_setInput.
Qed.

Lemma kept_copy_parm_value host n nd target source_parm :
  target <> n ->
  preserves (node_kept n nd) (copy_parm_value host target source_parm).
Proof.
  intros Hne. unfold copy_parm_value.
  apply preserves_bind;
    [apply preserves_readonly, readonly_parm_parmTemplate|].
  intros tmpl _ _ _.
  destruct (decide (tmpl = FolderSetParmTemplate)); [apply preserves_ret|].
  apply kept_hou_parm_bind; [exact Hne|]. intros r Hr.
  destruct r as [r|]; [|apply preserves_ret].
  apply preserves_bind;
    [apply preserves_readonly, readonly_parm_keyframes|].
  intros keys _ _ _. destruct keys as [|key keys].
  - destruct (decide (tmpl = StringParmTemplate)).
    + apply preserves_bind;
        [apply preserves_readonly, readonly_parm_unexpandedString|].
      intros s _ _ _. apply kept_parm_set, Hr.
    + apply preserves_try_except.
      * apply preserves_bind;
          [apply preserves_readonly, readonly_parm_eval|].
        intros v _ _ _. apply kept_parm_set, Hr.
      * intros e h Hh. destruct e; try discriminate Hh.
        injection Hh as <-.
        destruct (String.prefix "lpre" source_parm.2
                  || String.prefix "lpost" source_parm.2);
          [|apply preserves_raise].
        apply preserves_bind;
          [apply preserves_readonly, readonly_parm_eval|].
        intros v _ _ _.
        apply preserves_bind; [apply preserves_readonly, readonly_lift|].
        intros s _ _ _. apply kept_parm_set, Hr.
  - apply preserves_bind;
      [apply preserves_readonly, readonly_parm_keyframes|].
    intros keys' _ _ _. apply preserves_for_each. intros k _.
    apply kept_parm_setKeyframe, Hr.
Qed.

Lemma kept__copy_parm_values host n nd source target excludes :
  target <> n ->
  preserves (node_kept n nd) (_copy_parm_values host source target excludes).
Proof.
  intros Hne. unfold _copy_parm_values.
  apply preserves_bind; [apply preserves_readonly, readonly_hou_parms|].
  intros parms _ _ _. apply preserves_for_each. intros p _.
  apply kept_copy_parm_value, Hne.
Qed.

(** ** Changing one node *)

Lemma set_parms_same nd : set_parms (node_parms nd) nd = nd.
Proof. destruct nd; reflexivity. Qed.

Lemma session_eta st : set_nodes (nodes st) st = st.
Proof. destruct st; reflexivity. Qed.

Lemma with_node_lookup n f nd st :
  nodes st !! n = Some nd -> nodes (with_node n f st) !! n = Some (f nd).
Proof.
  intros H. unfold with_node. rewrite H. simpl. apply lookup_insert_eq.
Qed.

Lemma with_node_lookup_ne n m f st :
  n <> m -> nodes (with_node n f st) !! m = nodes st !! m.
Proof.
  intros H. unfold with_node. destruct (nodes st !! n); [|reflexivity].
  simpl. apply lookup_insert_ne. exact H.
Qed.

Lemma with_node_with_node n f g st :
  with_node n g (with_node n f st) = with_node n (fun nd => g (f nd)) st.
Proof.
  unfold with_node. destruct (nodes st !! n) as [nd|] eqn:E; simpl.
  - rewrite lookup_insert_eq. unfold set_nodes; simpl.
    rewrite insert_insert_eq. reflexivity.
  - rewrite E. reflexivity.
Qed.

Lemma with_node_id n f st :
  (forall nd, nodes st !! n = Some nd -> f nd = nd) -> with_node n f st = st.
Proof.
  intros Hf. unfold with_node.
  destruct (nodes st !! n) as [nd|] eqn:E; [|reflexivity].
  rewrite (Hf nd eq_refl), (insert_id _ _ _ E). apply session_eta.
Qed.

Lemma with_node_ext n f g st :
  (forall nd, nodes st !! n = Some nd -> f nd = g nd) ->
  with_node n f st = with_node n g st.
Proof.
  intros Hf. unfold with_node.
  destruct (nodes st !! n) as [nd|] eqn:E; [|reflexivity].
  rewrite (Hf nd eq_refl). reflexivity.
Qed.

Lemma update_node_with n f nd st :
  nodes st !! n = Some nd -> update_node n f st = (Ok tt, with_node n f st).
Proof.
  intros H. rewrite (update_node_run _ _ _ _ H). unfold with_node.
  rewrite H. reflexivity.
Qed.

Lemma with_parm_as_node n name f st :
  with_parm n name f st
    = with_node n (fun nd => set_parms (update_parm (node_parms nd) name f) nd) st.
Proof. reflexivity. Qed.

Lemma with_inputs_as_node n f st :
  with_inputs n f st
    = with_node n (fun nd => set_inputs (f (node_inputs nd)) nd) st.
Proof. reflexivity. Qed.

Lemma update_parm_id ps name f :
  (forall p, lookup_parm ps name = Some p -> f p = p) ->
  update_parm ps name f = ps.
Proof.
  induction ps as [|[k p] ps IH]; simpl; intros Hf; [reflexivity|].
  destruct (String.eqb k name) eqn:E.
  - rewrite (Hf p eq_refl). reflexivity.
  - rewrite IH by exact Hf. reflexivity.
Qed.

Lemma with_parm_id n name f st :
  (forall nd p, nodes st !! n = Some nd ->
                lookup_parm (node_parms nd) name = Some p -> f p = p) ->
  with_parm n name f st = st.
Proof.
  intros Hf. rewrite with_parm_as_node. apply with_node_id.
  intros nd H. rewrite update_parm_id by eauto. apply set_parms_same.
Qed.

(** ** The copy of one parameter *)

Lemma parm_setKeyframe_run n name key nd p st :
  nodes st !! n = Some nd ->
  lookup_parm (node_parms nd) name = Some p ->
  parm_locked p = false ->
  parm_setKeyframe (Some (n, name)) key st
    = (Ok tt, with_parm n name (set_key (fst key) (snd key)) st).
Proof.
  intros H Hp Hl. unfold parm_setKeyframe.
  rewrite (bind_Ok _ _ _ _ _ (the_parm_Some _ _ _ _ _ H Hp)), Hl.
  apply (update_the_parm_run _ _ _ _ _ H).
Qed.

Lemma for_each_setKeyframe_run n name (keys : list (Z * string)) nd p st :
  nodes st !! n = Some nd ->
  lookup_parm (node_parms nd) name = Some p ->
  parm_locked p = false ->
  for_each keys (fun key => parm_setKeyframe (Some (n, name)) key) st
    = (Ok tt,
       with_parm n name
         (fun p => foldl (fun p key => set_key (fst key) (snd key) p) p keys) st).
Proof.
  revert nd p st. induction keys as [|key keys IH]; intros nd p st H Hp Hl.
  - simpl. rewrite with_parm_id by reflexivity. reflexivity.
  - simpl.
    rewrite (bind_Ok _ _ _ _ _ (parm_setKeyframe_run _ _ key _ _ _ H Hp Hl)).
    erewrite IH.
    + rewrite with_parm_with_parm. reflexivity.
    + apply (with_parm_lookup _ _ _ _ _ H).
    + simpl. rewrite lookup_update_parm_eq, Hp. reflexivity.
    + exact Hl.
Qed.

Lemma parm_unexpandedString_Some n nd name p s st :
  nodes st !! n = Some nd ->
  lookup_parm (node_parms nd) name = Some p ->
  parm_template p = StringParmTemplate ->
  parm_raw p = VStr s ->
  parm_unexpandedString (Some (n, name)) st = (Ok s, st).
Proof.
  intros H Hp Ht Hr. unfold parm_unexpandedString.
  rewrite (bind_Ok _ _ _ _ _ (the_parm_Some _ _ _ _ _ H Hp)), Ht, Hr.
  reflexivity.
Qed.

(** The loop body of [_copy_parm_values] on a parameter it can copy. *)
Lemma copy_parm_value_ok host s t name snd_ tnd sp st :
  nodes st !! s = Some snd_ ->
  lookup_parm (node_parms snd_) name = Some sp ->
  nodes st !! t = Some tnd ->
  (forall tp, lookup_parm (node_parms tnd) name = Some tp ->
              can_copy host sp tp = true) ->
  copy_parm_value host t (s, name) st
    = (Ok tt, with_parm t name (copied host sp) st).
Proof.
  intros Hs Hsp Ht Hcan. unfold copy_parm_value. cbn [fst snd].
  rewrite (bind_Ok _ _ _ _ _ (parm_parmTemplate_Some _ _ _ _ _ Hs Hsp)).
  unfold copied, can_copy in *.
  destruct (decide (parm_template sp = FolderSetParmTemplate)) as [Hf|Hf].
  { rewrite with_parm_id by reflexivity. reflexivity. }
  rewrite (bind_Ok _ _ _ _ _ (hou_parm_run _ _ _ _ Ht)).
  destruct (lookup_parm (node_parms tnd) name) as [tp|] eqn:Htp.
  2: { rewrite with_parm_id; [reflexivity|].
       intros nd p Hnd Hp. congruence. }
  specialize (Hcan tp eq_refl). apply andb_prop in Hcan as [Hl Hcan].
  apply negb_true_iff in Hl.
  rewrite (bind_Ok _ _ _ _ _ (parm_keyframes_Some _ _ _ _ _ Hs Hsp)).
  destruct (map_to_list (parm_keys sp)) as [|key keys] eqn:Hkeys.
  - destruct (decide (parm_template sp = StringParmTemplate)) as [Hstr|Hstr].
    + destruct (parm_raw sp) as [| | |raw] eqn:Hraw; try discriminate Hcan.
      rewrite (bind_Ok _ _ _ _ _
                 (parm_unexpandedString_Some _ _ _ _ _ _ Hs Hsp Hstr Hraw)).
      apply (parm_set_run _ _ _ _ _ _ Ht Htp Hl Hcan).
    + unfold try_except.
      assert (Hplain :
        (v <- parm_eval host (Some (s, name)) ;;
         parm_set (Some (t, name)) v) st
        = (Ok tt, with_parm t name (set_raw (parm_value host sp)) st)).
      { rewrite (bind_Ok _ _ _ _ _ (parm_eval_Some host _ _ _ _ _ Hs Hsp)).
        apply (parm_set_run _ _ _ _ _ _ Ht Htp Hl Hcan). }
      rewrite Hplain. reflexivity.
  - rewrite (bind_Ok _ _ _ _ _ (parm_keyframes_Some _ _ _ _ _ Hs Hsp)).
    rewrite Hkeys.
    apply (for_each_setKeyframe_run _ _ _ _ _ _ Ht Htp Hl).
Qed.

(** ** The copy of all parameters *)

Lemma foldl_set_key_shape (keys : list (Z * string)) p :
  let p' := foldl (fun p key => set_key (fst key) (snd key) p) p keys in
  parm_template p' = parm_template p /\
  parm_locked p' = parm_locked p /\
  parm_raw p' = parm_raw p /\
  parm_menu_labels p' = parm_menu_labels p /\
  parm_keys p' = foldl (fun a kv => <[fst kv := snd kv]> a) (parm_keys p) keys.
Proof.
  revert p. induction keys as [|key keys IH]; intros p; simpl.
  - auto.
  - destruct (IH (set_key (fst key) (snd key) p)) as (H1 & H2 & H3 & H4 & H5).
    simpl in *. auto.
Qed.

Lemma copied_shape host sp tp :
  parm_template (copied host sp tp) = parm_template tp /\
  parm_locked (copied host sp tp) = parm_locked tp /\
  parm_menu_labels (copied host sp tp) = parm_menu_labels tp.
Proof.
  unfold copied.
  destruct (decide (parm_template sp = FolderSetParmTemplate)); [auto|].
  destruct (map_to_list (parm_keys sp)) as [|key keys].
  - destruct (decide (parm_template sp = StringParmTemplate)); auto.
  - pose proof (foldl_set_key_shape (key :: keys) tp) as (H1 & H2 & _ & H4 & _).
    auto.
Qed.

Lemma can_copy_shape host sp tp tp' :
  parm_template tp' = parm_template tp ->
  parm_locked tp' = parm_locked tp ->
  can_copy host sp tp' = can_copy host sp tp.
Proof. intros Ht Hl. unfold can_copy. rewrite Ht, Hl. reflexivity. Qed.

Lemma all_can_copy_step host src tgt name sp :
  all_can_copy host src tgt ->
  all_can_copy host src (update_parm tgt name (copied host sp)).
Proof.
  intros Hall name' sp' tp' Hs Ht.
  rewrite lookup_update_parm in Ht.
  destruct (String.eqb name name') eqn:E.
  - destruct (lookup_parm tgt name) as [tp|] eqn:Htp; [|discriminate].
    injection Ht as <-. apply String.eqb_eq in E. subst name'.
    destruct (copied_shape host sp tp) as (H1 & H2 & _).
    rewrite (can_copy_shape _ _ _ _ H1 H2). eauto.
  - eauto.
Qed.

Lemma filter_excludes_nothing (l : list ParmRef) (excl : list PyObj) :
  (forall name, name_in name excl = false) ->
  filter (fun parm : ParmRef => name_in (snd parm) excl = false) l = l.
Proof.
  intros H. induction l as [|x l IH]; [reflexivity|].
  rewrite filter_cons_True by apply H. rewrite IH. reflexivity.
Qed.

Lemma hou_parms_run n nd st :
  nodes st !! n = Some nd ->
  hou_parms n st = (Ok (map (fun kp => (n, fst kp)) (node_parms nd)), st).
Proof.
  intros H. unfold hou_parms.
  rewrite (bind_Ok _ _ _ _ _ (the_node_Some _ _ _ H)). reflexivity.
Qed.

(** The loop of [_copy_parm_values] over parameters of the source. *)
Lemma copy_loop_run host s t snd_ (names : list string) tnd st :
  s <> t ->
  nodes st !! s = Some snd_ ->
  nodes st !! t = Some tnd ->
  (forall name, In name names ->
                is_Some (lookup_parm (node_parms snd_) name)) ->
  all_can_copy host (node_parms snd_) (node_parms tnd) ->
  for_each (map (fun name => (s, name)) names) (copy_parm_value host t) st
    = (Ok tt,
       with_node t
         (fun nd =>
            set_parms
              (foldl (fun tgt name =>
                        match lookup_parm (node_parms snd_) name with
                        | Some sp => update_parm tgt name (copied host sp)
                        | None => tgt
                        end) (node_parms nd) names) nd) st).
Proof.
  intros Hne. revert tnd st.
  induction names as [|name names IH]; intros tnd st Hs Ht Hin Hall.
  - simpl. rewrite with_node_id; [reflexivity|].
    intros nd _. apply set_parms_same.
  - simpl. destruct (Hin name) as [sp Hsp]; [left; reflexivity|].
    rewrite (bind_Ok _ _ _ _ _
               (copy_parm_value_ok host s t name snd_ tnd sp st Hs Hsp Ht
                  (fun tp Htp => Hall name sp tp Hsp Htp))).
    rewrite with_parm_as_node.
    erewrite IH.
    + rewrite with_node_with_node. f_equal.
      apply with_node_ext. intros nd _. simpl. rewrite Hsp. reflexivity.
    + rewrite with_node_lookup_ne by auto. exact Hs.
    + apply (with_node_lookup _ _ _ _ Ht).
    + intros name' Hin'. apply Hin. right. exact Hin'.
    + simpl. apply all_can_copy_step, Hall.
Qed.

Lemma lookup_parm_Some_In ps name :
  In name ps.*1 -> is_Some (lookup_parm ps name).
Proof.
  induction ps as [|[k p] ps IH]; simpl; [tauto|].
  intros [->|H].
  - rewrite String.eqb_refl. eauto.
  - destruct (String.eqb k name); eauto.
Qed.

(** [_copy_parm_values] when nothing is excluded and every parameter can
    be copied. *)
Lemma _copy_parm_values_run host s t excludes snd_ tnd st :
  s <> t ->
  nodes st !! s = Some snd_ ->
  nodes st !! t = Some tnd ->
  excludes_nothing excludes ->
  all_can_copy host (node_parms snd_) (node_parms tnd) ->
  _copy_parm_values host s t excludes st
    = (Ok tt,
       with_node t
         (fun nd => set_parms
                      (copy_parms host (node_parms snd_) (node_parms nd)) nd)
         st).
Proof.
  intros Hne Hs Ht Hex Hall. unfold _copy_parm_values.
  rewrite (bind_Ok _ _ _ _ _ (hou_parms_run _ _ _ Hs)).
  rewrite filter_excludes_nothing.
  2: { destruct excludes as [[|x l]|]; simpl in *; auto. }
  replace (map (fun kp : string * Parm => (s, fst kp)) (node_parms snd_))
    with (map (fun name => (s, name)) (node_parms snd_).*1)
    by (rewrite map_map; reflexivity).
  apply (copy_loop_run host s t snd_ _ tnd st Hne Hs Ht); [|exact Hall].
  intros name. apply lookup_parm_Some_In.
Qed.

(** ** Nodes without their wiring, through the changes of a session *)

Lemma attrs_lookup_Some st x nd :
  nodes st !! x = Some nd -> attrs_lookup st x = Some (attrs nd).
Proof. unfold attrs_lookup. intros ->. reflexivity. Qed.

Lemma attrs_lookup_inv st x A :
  attrs_lookup st x = Some A ->
  exists nd, nodes st !! x = Some nd /\ attrs nd = A.
Proof.
  unfold attrs_lookup. destruct (nodes st !! x) as [nd|]; [|discriminate].
  intros [= <-]. eauto.
Qed.

Lemma attrs_lookup_None st x :
  attrs_lookup st x = None <-> nodes st !! x = None.
Proof.
  unfold attrs_lookup. destruct (nodes st !! x); simpl; split;
    intros H; (discriminate H || reflexivity).
Qed.

Lemma attrs_idem nd : attrs (attrs nd) = attrs nd.
Proof. reflexivity. Qed.

Lemma attrs_lookup_with_node n f g st x :
  (forall nd, attrs (f nd) = g (attrs nd)) ->
  attrs_lookup (with_node n f st) x
    = if decide (x = n) then g <$> attrs_lookup st x else attrs_lookup st x.
Proof.
  intros Hf. unfold attrs_lookup. destruct (decide (x = n)) as [->|Hne].
  - destruct (nodes st !! n) as [nd|] eqn:E.
    + rewrite (with_node_lookup _ _ _ _ E). simpl. rewrite Hf. reflexivity.
    + unfold with_node. rewrite E, E. reflexivity.
  - rewrite with_node_lookup_ne by auto. reflexivity.
Qed.

Lemma attrs_lookup_with_inputs n f st x :
  attrs_lookup (with_inputs n f st) x = attrs_lookup st x.
Proof.
  rewrite with_inputs_as_node.
  rewrite (attrs_lookup_with_node n _ (fun A => A)) by reflexivity.
  destruct (decide (x = n)); [|reflexivity].
  destruct (attrs_lookup st x); reflexivity.
Qed.

Lemma attrs_lookup_rewire l t st x :
  attrs_lookup (rewire l t st) x = attrs_lookup st x.
Proof.
  unfold rewire. revert st. induction l as [|c l IH]; intros st; simpl.
  - reflexivity.
  - rewrite IH. apply attrs_lookup_with_inputs.
Qed.

Lemma attrs_lookup_destroyed m st x :
  attrs_lookup (destroyed m st) x
    = if decide (x = m) then None else attrs_lookup st x.
Proof.
  unfold attrs_lookup, destroyed. simpl. rewrite lookup_fmap.
  destruct (decide (x = m)) as [->|Hne].
  - rewrite lookup_delete_eq. reflexivity.
  - rewrite lookup_delete_ne by auto.
    destruct (nodes st !! x); reflexivity.
Qed.

Lemma attrs_lookup_created ty parent def st x :
  attrs_lookup (created ty parent def st) x
    = if decide (x = next_id st)
      then Some (mkNode ty (ty +:+ pretty (next_id st)) parent origin
                        (nt_parms def) ∅ ∅ (nt_connectors def))
      else attrs_lookup st x.
Proof.
  unfold attrs_lookup, created. simpl.
  destruct (decide (x = next_id st)) as [->|Hne].
  - rewrite lookup_insert_eq. reflexivity.
  - rewrite lookup_insert_ne by auto. reflexivity.
Qed.

Lemma attrs_lookup_add_log lvl msg st x :
  attrs_lookup (add_log lvl msg st) x = attrs_lookup st x.
Proof. reflexivity. Qed.

(** ** The number of inputs, through the changes of a session *)

Lemma deg_ok_with_node c n f st :
  (forall nd, node_inputs (f nd) = node_inputs nd) ->
  deg_ok c st -> deg_ok c (with_node n f st).
Proof.
  intros Hf Hd x nd. destruct (decide (n = x)) as [->|Hne].
  - destruct (nodes st !! x) as [xd|] eqn:E.
    + rewrite (with_node_lookup _ _ _ _ E). intros [= <-]. rewrite Hf. eauto.
    + unfold with_node. rewrite E. intros H. congruence.
  - rewrite with_node_lookup_ne by auto. apply Hd.
Qed.

Lemma deg_ok_with_inputs c n f st :
  (forall nd, nodes st !! n = Some nd -> (size (f (node_inputs nd)) <= c)%nat) ->
  deg_ok c st -> deg_ok c (with_inputs n f st).
Proof.
  intros Hf Hd x nd. destruct (decide (n = x)) as [->|Hne].
  - destruct (nodes st !! x) as [xd|] eqn:E.
    + rewrite (with_inputs_lookup _ _ _ _ E). intros [= <-]. simpl. eauto.
    + unfold with_inputs. rewrite E. intros H. congruence.
  - rewrite with_inputs_lookup_ne by auto. apply Hd.
Qed.

Lemma deg_ok_rewire c l t st :
  (forall d i, (d, i) ∈ l -> exists up, wired st d i up) ->
  deg_ok c st -> deg_ok c (rewire l t st).
Proof.
  unfold rewire. revert st. induction l as [|[d i] l IH]; intros st Hl Hd.
  - exact Hd.
  - simpl. apply IH.
    + intros d' i' Hin. destruct (Hl d' i') as [up Hw]; [right; exact Hin|].
      destruct (decide ((d', i') = (d, i))) as [E|Hne].
      * exists t. apply wired_with_inputs_insert. rewrite decide_True by exact E.
        injection E as -> ->. destruct Hw as (nd & Hnd & _). eauto.
      * exists up. apply wired_with_inputs_insert.
        rewrite decide_False by exact Hne. exact Hw.
    + apply deg_ok_with_inputs; [|exact Hd]. intros nd Hnd.
      destruct (Hl d i) as [up (nd' & Hnd' & Hi)]; [left|].
      rewrite Hnd in Hnd'. injection Hnd' as <-.
      rewrite map_size_insert_Some by eauto. eauto.
Qed.

Lemma deg_ok_destroyed c m st : deg_ok c st -> deg_ok c (destroyed m st).
Proof.
  intros Hd x nd. unfold destroyed. simpl. rewrite lookup_fmap.
  destruct (decide (x = m)) as [->|Hne].
  - rewrite lookup_delete_eq. discriminate.
  - rewrite lookup_delete_ne by auto.
    destruct (nodes st !! x) as [xd|] eqn:E; [|discriminate].
    intros [= <-]. simpl.
    etransitivity; [apply map_subseteq_size, map_filter_subseteq|]. eauto.
Qed.

Lemma deg_ok_created c ty parent def st :
  deg_ok c st -> deg_ok c (created ty parent def st).
Proof.
  intros Hd x nd. unfold created. simpl.
  destruct (decide (x = next_id st)) as [->|Hne].
  - rewrite lookup_insert_eq. intros [= <-]. simpl.
    rewrite map_size_empty. lia.
  - rewrite lookup_insert_ne by auto. apply Hd.
Qed.

Lemma deg_ok_add_log c lvl msg st : deg_ok c st -> deg_ok c (add_log lvl msg st).
Proof. intros H. exact H. Qed.

(** ** Host calls on a node known without its wiring *)

Lemma hou_userDataDict_Some n nd st :
  nodes st !! n = Some nd ->
  hou_userDataDict n st = (Ok (node_user_data nd), st).
Proof.
  intros H. unfold hou_userDataDict.
  rewrite (bind_Ok _ _ _ _ _ (the_node_Some _ _ _ H)). reflexivity.
Qed.


Lemma hou_name_attrs st x A :
  attrs_lookup st x = Some A -> hou_name x st = (Ok (node_name A), st).
Proof.
  intros H. apply attrs_lookup_inv in H as (nd & Hnd & <-).
  apply (hou_name_Some _ _ _ Hnd).
Qed.

Lemma hou_position_attrs st x A :
  attrs_lookup st x = Some A -> hou_position x st = (Ok (node_pos A), st).
Proof.
  intros H. apply attrs_lookup_inv in H as (nd & Hnd & <-).
  unfold hou_position.
  rewrite (bind_Ok _ _ _ _ _ (the_node_Some _ _ _ Hnd)). reflexivity.
Qed.

Lemma hou_parent_Some st x nd :
  nodes st !! x = Some nd -> hou_parent x st = (Ok (node_parent nd), st).
Proof.
  intros H. unfold hou_parent.
  rewrite (bind_Ok _ _ _ _ _ (the_node_Some _ _ _ H)). reflexivity.
Qed.

Lemma hou_destroy_run st m :
  is_Some (attrs_lookup st m) -> hou_destroy m st = (Ok tt, destroyed m st).
Proof.
  intros [A H]. apply attrs_lookup_inv in H as (nd & Hnd & _).
  unfold hou_destroy.
  rewrite (bind_Ok _ _ _ _ _ (the_node_Some _ _ _ Hnd)). reflexivity.
Qed.

Lemma update_node_attrs st x f :
  is_Some (attrs_lookup st x) -> update_node x f st = (Ok tt, with_node x f st).
Proof.
  intros [A H]. apply attrs_lookup_inv in H as (nd & Hnd & _).
  apply (update_node_with _ _ _ _ Hnd).
Qed.

Lemma hou_createNode_run host parent ty def st :
  node_types host ty = Some def ->
  hou_createNode host parent ty st = (Ok (next_id st), created ty parent def st).
Proof. intros H. unfold hou_createNode. rewrite H. reflexivity. Qed.

Lemma created_lookup ty parent def st :
  nodes (created ty parent def st) !! next_id st
    = Some (mkNode ty (ty +:+ pretty (next_id st)) parent origin
                   (nt_parms def) ∅ ∅ (nt_connectors def)).
Proof. unfold created. simpl. apply lookup_insert_eq. Qed.

Lemma created_lookup_ne ty parent def st x :
  x <> next_id st -> nodes (created ty parent def st) !! x = nodes st !! x.
Proof. intros H. unfold created. simpl. apply lookup_insert_ne. auto. Qed.

Lemma name_in_ObjParm name (l : list ParmRef) :
  name_in name (map ObjParm l) = false.
Proof. induction l as [|r l IH]; simpl; auto. Qed.

Lemma _get_extra_plane_numbers_run host n nd planes st :
  nodes st !! n = Some nd ->
  plane_numbers host nd = Some planes ->
  _get_extra_plane_numbers host n st = (Ok planes, st).
Proof.
  intros H Hp. unfold plane_numbers in Hp. unfold _get_extra_plane_numbers.
  destruct (lookup_parm (node_parms nd) TK_EXTRA_PLANE_COUNT_PARM)
    as [p|] eqn:E; [|discriminate].
  rewrite (bind_Ok _ _ _ _ _ (hou_parm_Some _ _ _ _ _ H E)).
  rewrite (bind_Ok _ _ _ _ _ (parm_eval_Some host _ _ _ _ _ H E)).
  destruct (parm_value host p); try discriminate; injection Hp as <-;
    reflexivity.
Qed.

Lemma parm_menuLabels_Some n nd name p st :
  nodes st !! n = Some nd ->
  lookup_parm (node_parms nd) name = Some p ->
  parm_menuLabels (Some (n, name)) st = (Ok (parm_menu_labels p), st).
Proof.
  intros H Hp. unfold parm_menuLabels.
  rewrite (bind_Ok _ _ _ _ _ (the_parm_Some _ _ _ _ _ H Hp)). reflexivity.
Qed.

(** Reading the selected profile name, as both conversions and
    [_get_output_profile] do. *)
Lemma read_selected_profile host n nd prof st {B} (k : string -> M B) :
  nodes st !! n = Some nd ->
  selected_profile host nd = Some prof ->
  (output_profile_parm <- hou_parm n (VStr TK_OUTPUT_PROFILE_PARM) ;;
   labels <- parm_menuLabels output_profile_parm ;;
   index <- parm_eval host output_profile_parm ;;
   name <- lift (py_index labels index) ;;
   k name) st = k prof st.
Proof.
  intros H Hp. unfold selected_profile in Hp.
  destruct (lookup_parm (node_parms nd) TK_OUTPUT_PROFILE_PARM)
    as [p|] eqn:E; [|discriminate].
  rewrite (bind_Ok _ _ _ _ _ (hou_parm_Some _ _ _ _ _ H E)).
  rewrite (bind_Ok _ _ _ _ _ (parm_menuLabels_Some _ _ _ _ _ H E)).
  rewrite (bind_Ok _ _ _ _ _ (parm_eval_Some host _ _ _ _ _ H E)).
  destruct (py_index (parm_menu_labels p) (parm_value host p)) as [s|e] eqn:Ei;
    [|discriminate].
  injection Hp as <-.
  unfold bind at 1, lift. reflexivity.
Qed.

Lemma hou_setUserData_run n name s st :
  is_Some (attrs_lookup st n) ->
  hou_setUserData n name (VStr s) st
    = (Ok tt,
       with_node n (fun nd => set_user_data (<[name := s]> (node_user_data nd)) nd)
                 st).
Proof. intros H. apply update_node_attrs, H. Qed.

(** The loop that stores the plane labels in the user data. *)
Lemma stamp_loop_run host m a nd (planes : list Z) st :
  m <> a ->
  nodes st !! m = Some nd ->
  is_Some (attrs_lookup st a) ->
  (forall i, In i planes -> is_Some (aov_label host nd i)) ->
  for_each planes (fun plane_number =>
    p <- hou_parm m (VStr (TK_EXTRA_PLANES_NAME plane_number)) ;;
    v <- parm_eval host p ;;
    hou_setUserData a (TK_EXTRA_PLANES_NAME plane_number) v) st
  = (Ok tt,
     with_node a (fun ad => set_user_data
                              (stamp host nd planes (node_user_data ad)) ad) st).
Proof.
  intros Hne. revert st.
  induction planes as [|i planes IH]; intros st Hm Ha Hl.
  - simpl. rewrite with_node_id; [reflexivity|].
    intros ad _. destruct ad; reflexivity.
  - cbn [for_each]. destruct (Hl i) as [s Hs]; [left; reflexivity|].
    unfold aov_label in Hs.
    destruct (lookup_parm (node_parms nd) (TK_EXTRA_PLANES_NAME i))
      as [p|] eqn:E; [|discriminate].
    destruct (parm_value host p) as [| | |s'] eqn:Ev; try discriminate.
    injection Hs as ->.
    assert (Hbody :
      (p <- hou_parm m (VStr (TK_EXTRA_PLANES_NAME i)) ;;
       v <- parm_eval host p ;;
       hou_setUserData a (TK_EXTRA_PLANES_NAME i) v) st
      = (Ok tt,
         with_node a (fun nd => set_user_data
                        (<[TK_EXTRA_PLANES_NAME i := s]> (node_user_data nd)) nd)
                   st)).
    { rewrite (bind_Ok _ _ _ _ _ (hou_parm_Some _ _ _ _ _ Hm E)).
      rewrite (bind_Ok _ _ _ _ _ (parm_eval_Some host _ _ _ _ _ Hm E)).
      rewrite Ev. apply (hou_setUserData_run a _ s st Ha). }
    rewrite (bind_Ok _ _ _ _ _ Hbody).
    rewrite IH.
    + rewrite with_node_with_node. f_equal. apply with_node_ext.
      intros ad _. unfold stamp. cbn [foldl node_user_data set_user_data].
      assert (Hlab : aov_label host nd i = Some s)
        by (unfold aov_label; rewrite E, Ev; reflexivity).
      rewrite Hlab. reflexivity.
    + rewrite with_node_lookup_ne by auto. exact Hm.
    + rewrite (attrs_lookup_with_node a _
                 (fun A => set_user_data
                             (<[TK_EXTRA_PLANES_NAME i := s]> (node_user_data A)) A))
        by reflexivity.
      rewrite decide_True by reflexivity. destruct Ha as [A ->]. simpl. eauto.
    + intros j Hj. apply Hl. right. exact Hj.
Qed.

(** ** The next id, through the changes of a session *)

Lemma next_id_with_node n f st : next_id (with_node n f st) = next_id st.
Proof. unfold with_node. destruct (nodes st !! n); reflexivity. Qed.

Lemma next_id_with_inputs n f st : next_id (with_inputs n f st) = next_id st.
Proof. unfold with_inputs. destruct (nodes st !! n); reflexivity. Qed.

Lemma next_id_rewire l t st : next_id (rewire l t st) = next_id st.
Proof.
  unfold rewire. revert st. induction l as [|c l IH]; intros st; simpl.
  - reflexivity.
  - rewrite IH. apply next_id_with_inputs.
Qed.

Lemma next_id_destroyed m st : next_id (destroyed m st) = next_id st.
Proof. reflexivity. Qed.

Lemma next_id_created ty parent def st :
  next_id (created ty parent def st) = S (next_id st).
Proof. reflexivity. Qed.

Lemma next_id_add_log lvl msg st : next_id (add_log lvl msg st) = next_id st.
Proof. reflexivity. Qed.

Ltac next_id_tac :=
  repeat first
    [ rewrite next_id_with_node | rewrite next_id_with_inputs
    | rewrite next_id_rewire | rewrite next_id_destroyed
    | rewrite next_id_created | rewrite next_id_add_log ].

(** ** One toolkit node becomes a native node *)

Lemma convert_to_regular_node_run host def c m nd prof planes st :
  node_types host HOU_ARNOLD_NODE_TYPE = Some def ->
  nodes st !! m = Some nd ->
  fresh st ->
  deg_ok c st ->
  (c <= nt_connectors def)%nat ->
  all_can_copy host (node_parms nd) (nt_parms def) ->
  selected_profile host nd = Some prof ->
  plane_numbers host nd = Some planes ->
  (forall i, In i planes -> is_Some (aov_label host nd i)) ->
  exists st',
    convert_to_regular_node host m st = (Ok tt, st') /\
    next_id st' = S (next_id st) /\
    fresh st' /\
    deg_ok c st' /\
    forall x,
      attrs_lookup st' x
        = if decide (x = next_id st) then Some (native_of host def nd)
          else if decide (x = m) then None
          else attrs_lookup st x.
Proof.
  intros Hreg Hm Hfresh Hdeg Hc Hcan Hprof Hplanes Hlabels.
  set (a := next_id st).
  assert (Hma : m <> a).
  { intros ->. rewrite (Hfresh a) in Hm by (unfold a; lia). discriminate. }
  unfold convert_to_regular_node.
  rewrite (bind_Ok _ _ _ _ _ (hou_parent_Some _ _ _ Hm)).
  rewrite (bind_Ok _ _ _ _ _ (hou_createNode_run host _ _ _ st Hreg)).
  fold a.
  set (s0 := created HOU_ARNOLD_NODE_TYPE (node_parent nd) def st).
  set (nd0 := mkNode HOU_ARNOLD_NODE_TYPE (HOU_ARNOLD_NODE_TYPE +:+ pretty a)
                     (node_parent nd) origin (nt_parms def) ∅ ∅
                     (nt_connectors def)).
  assert (Ha0 : nodes s0 !! a = Some nd0) by apply created_lookup.
  assert (Hm0 : nodes s0 !! m = Some nd)
    by (unfold s0; rewrite created_lookup_ne by exact Hma; exact Hm).
  rewrite (bind_Ok _ _ _ _ _ (hou_parms_run _ _ _ Hm0)).
  rewrite (bind_Ok _ _ _ _ _
             (_copy_parm_values_run host m a (Some (map ObjParm _)) nd nd0 s0
                Hma Hm0 Ha0 (fun name => name_in_ObjParm name _) Hcan)).
  set (s1 := with_node a _ s0).
  assert (Hm1 : nodes s1 !! m = Some nd)
    by (unfold s1; rewrite with_node_lookup_ne by auto; exact Hm0).
  rewrite (read_selected_profile host m nd prof s1 _ Hm1 Hprof).
  assert (Ha1 : nodes s1 !! a
            = Some (set_parms (copy_parms host (node_parms nd) (node_parms nd0))
                              nd0))
    by (unfold s1; rewrite (with_node_lookup a _ nd0 s0 Ha0); reflexivity).
  rewrite (bind_Ok _ _ _ _ _
             (hou_setUserData_run a TK_OUTPUT_PROFILE_NAME_KEY prof s1
                ltac:(rewrite (attrs_lookup_Some _ _ _ Ha1); eauto))).
  set (s2 := with_node a _ s1).
  assert (Ha2 : nodes s2 !! a
            = Some (set_user_data {[TK_OUTPUT_PROFILE_NAME_KEY := prof]}
                      (set_parms (copy_parms host (node_parms nd) (nt_parms def))
                                 nd0))).
  { unfold s2. rewrite (with_node_lookup a _ _ s1 Ha1). simpl.
    rewrite insert_empty. reflexivity. }
  assert (Hm2 : nodes s2 !! m = Some nd)
    by (unfold s2; rewrite with_node_lookup_ne by auto; exact Hm1).
  rewrite (bind_Ok _ _ _ _ _
             (_get_extra_plane_numbers_run host m nd planes s2 Hm2 Hplanes)).
  rewrite (bind_Ok _ _ _ _ _
             (stamp_loop_run host m a nd planes s2 Hma Hm2
                ltac:(rewrite (attrs_lookup_Some _ _ _ Ha2); eauto) Hlabels)).
  set (s3 := with_node a _ s2).
  assert (Ha3 : nodes s3 !! a
            = Some (mkNode HOU_ARNOLD_NODE_TYPE
                      (HOU_ARNOLD_NODE_TYPE +:+ pretty a) (node_parent nd) origin
                      (copy_parms host (node_parms nd) (nt_parms def))
                      (stamp host nd planes {[TK_OUTPUT_PROFILE_NAME_KEY := prof]})
                      ∅ (nt_connectors def))).
  { unfold s3. rewrite (with_node_lookup a _ _ s2 Ha2). reflexivity. }
  assert (Hm3 : nodes s3 !! m = Some nd)
    by (unfold s3; rewrite with_node_lookup_ne by auto; exact Hm2).
  assert (Hguard : (nt_connectors def <? size (node_inputs nd))%nat = false).
  { apply Nat.ltb_ge. specialize (Hdeg m nd Hm). lia. }
  assert (Hcopy : _copy_inputs m a s3
            = (Ok tt, with_inputs a (fun i => node_inputs nd ∪ i) s3)).
  { rewrite (_copy_inputs_run m a _ _ s3 Hm3 Ha3). simpl. rewrite Hguard.
    reflexivity. }
  rewrite (bind_Ok _ _ _ _ _ Hcopy).
  set (s4 := with_inputs a _ s3).
  assert (Hm4 : nodes s4 !! m = Some nd)
    by (unfold s4; rewrite with_inputs_lookup_ne by auto; exact Hm3).
  rewrite (bind_Ok _ _ _ _ _ (_move_outputs_run m a nd s4 Hm4)).
  set (s5 := rewire _ a s4).
  assert (Hm5 : attrs_lookup s5 m = Some (attrs nd)).
  { unfold s5. rewrite attrs_lookup_rewire. apply attrs_lookup_Some, Hm4. }
  rewrite (bind_Ok _ _ _ _ _ (hou_name_attrs s5 m _ Hm5)).
  rewrite (bind_Ok _ _ _ _ _ (hou_position_attrs s5 m _ Hm5)).
  rewrite (bind_Ok _ _ _ _ _ (hou_destroy_run s5 m ltac:(rewrite Hm5; eauto))).
  cbn [attrs node_name node_pos set_inputs].
  assert (Ha5 : is_Some (attrs_lookup s5 a)).
  { unfold s5, s4. rewrite attrs_lookup_rewire, attrs_lookup_with_inputs.
    rewrite (attrs_lookup_Some _ _ _ Ha3). eauto. }
  assert (Ha6 : is_Some (attrs_lookup (destroyed m s5) a)).
  { rewrite attrs_lookup_destroyed, decide_False by auto. exact Ha5. }
  unfold hou_setName, hou_setPosition.
  rewrite (bind_Ok _ _ _ _ _ (update_node_attrs _ a _ Ha6)).
  set (s7 := with_node a _ (destroyed m s5)).
  assert (Ha7 : is_Some (attrs_lookup s7 a)).
  { unfold s7.
    rewrite (attrs_lookup_with_node a _ (set_name (node_name nd))) by reflexivity.
    rewrite decide_True by reflexivity. destruct Ha6 as [A ->]. simpl. eauto. }
  rewrite (bind_Ok _ _ _ _ _ (update_node_attrs _ a _ Ha7)).
  set (s8 := with_node a _ s7).
  eexists. split; [reflexivity|].
  assert (Hattrs : forall x,
    attrs_lookup s8 x
      = if decide (x = a) then Some (native_of host def nd)
        else if decide (x = m) then None else attrs_lookup st x).
  { intros x. unfold s8, s7.
    rewrite (attrs_lookup_with_node a _ (set_pos (node_pos nd))) by reflexivity.
    rewrite (attrs_lookup_with_node a _ (set_name (node_name nd))) by reflexivity.
    rewrite attrs_lookup_destroyed. unfold s5.
    rewrite attrs_lookup_rewire. unfold s4.
    rewrite attrs_lookup_with_inputs.
    destruct (decide (x = a)) as [->|Hxa].
    - rewrite decide_False by auto.
      rewrite (attrs_lookup_Some _ _ _ Ha3). simpl. f_equal.
      unfold native_of. rewrite Hplanes, Hprof. reflexivity.
    - destruct (decide (x = m)) as [->|Hxm]; [reflexivity|].
      unfold attrs_lookup, s3, s2, s1, s0.
      rewrite !with_node_lookup_ne by auto.
      rewrite created_lookup_ne by exact Hxa. reflexivity. }
  assert (Hnext : next_id s8 = S a).
  { unfold s8, s7, s5, s4, s3, s2, s1, s0. next_id_tac.
    reflexivity. }
  split; [exact Hnext|]. split; [|split].
  - intros x Hx. apply attrs_lookup_None.
    change (attrs_lookup s8 x = None). rewrite Hattrs.
    change (next_id s8 <= x)%nat in Hx. rewrite Hnext in Hx.
    rewrite decide_False by lia.
    destruct (decide (x = m)); [reflexivity|].
    apply attrs_lookup_None, Hfresh. unfold a in Hx. lia.
  - apply deg_ok_add_log. unfold s8, s7.
    apply deg_ok_with_node; [reflexivity|].
    apply deg_ok_with_node; [reflexivity|].
    apply deg_ok_destroyed. unfold s5. apply deg_ok_rewire.
    { intros d i Hin. apply elem_of_outputs_of in Hin as (dn & Hd & Hi).
      exists m, dn. auto. }
    unfold s4. apply deg_ok_with_inputs.
    { intros ad Had. rewrite Ha3 in Had. injection Had as <-. simpl.
      rewrite (right_id_L ∅ (∪)). apply (Hdeg m nd Hm). }
    unfold s3, s2, s1.
    apply deg_ok_with_node; [reflexivity|].
    apply deg_ok_with_node; [reflexivity|].
    apply deg_ok_with_node; [reflexivity|].
    apply deg_ok_created, Hdeg.
  - exact Hattrs.
Qed.


(** ** Parameters that keep their template and lock *)

Lemma same_shape_refl ps : same_shape ps ps.
Proof. intros name. reflexivity. Qed.

Lemma same_shape_trans ps1 ps2 ps3 :
  same_shape ps1 ps2 -> same_shape ps2 ps3 -> same_shape ps1 ps3.
Proof. intros H1 H2 name. rewrite H2, H1. reflexivity. Qed.

Lemma same_shape_update_parm ps name f :
  (forall p, shape (f p) = shape p) ->
  same_shape ps (update_parm ps name f).
Proof.
  intros Hf name'. rewrite lookup_update_parm.
  destruct (String.eqb name name') eqn:E; [|reflexivity].
  apply String.eqb_eq in E. subst name'.
  destruct (lookup_parm ps name); simpl; [|reflexivity].
  rewrite Hf. reflexivity.
Qed.

Lemma shape_copied host sp tp : shape (copied host sp tp) = shape tp.
Proof.
  unfold shape. destruct (copied_shape host sp tp) as (-> & -> & _).
  reflexivity.
Qed.

Lemma same_shape_copy_parms host src tgt :
  same_shape tgt (copy_parms host src tgt).
Proof.
  unfold copy_parms. generalize (src.*1). intros names. revert tgt.
  induction names as [|name names IH]; intros tgt; simpl.
  - apply same_shape_refl.
  - eapply same_shape_trans; [|apply IH].
    destruct (lookup_parm src name); [|apply same_shape_refl].
    apply same_shape_update_parm. intros q. apply shape_copied.
Qed.

Lemma same_shape_select_profile prof ps : same_shape ps (select_profile prof ps).
Proof.
  unfold select_profile.
  destruct (lookup_parm ps TK_OUTPUT_PROFILE_PARM) as [pp|];
    [|apply same_shape_refl].
  destruct (py_list_index _ _); [|apply same_shape_refl].
  apply same_shape_update_parm. reflexivity.
Qed.

Lemma same_shape_lookup ps ps' name p :
  same_shape ps ps' ->
  lookup_parm ps name = Some p ->
  exists p', lookup_parm ps' name = Some p' /\ shape p' = shape p.
Proof.
  intros H Hp. specialize (H name). rewrite Hp in H.
  destruct (lookup_parm ps' name) as [p'|]; [|discriminate].
  simpl in H. exists p'. split; [reflexivity | congruence].
Qed.

Lemma same_shape_lookup_rev ps ps' name p' :
  same_shape ps ps' ->
  lookup_parm ps' name = Some p' ->
  exists p, lookup_parm ps name = Some p /\ shape p' = shape p.
Proof.
  intros H Hp. specialize (H name). rewrite Hp in H.
  destruct (lookup_parm ps name) as [p|]; [|discriminate].
  simpl in H. exists p. split; [reflexivity | congruence].
Qed.

Lemma all_can_copy_same_shape host src tgt tgt' :
  same_shape tgt tgt' ->
  all_can_copy host src tgt -> all_can_copy host src tgt'.
Proof.
  intros Hsh Hall name sp tp' Hs Ht.
  destruct (same_shape_lookup_rev _ _ _ _ Hsh Ht) as (tp & Htp & Hshape).
  injection Hshape as H1 H2.
  rewrite (can_copy_shape _ _ _ _ H1 H2). eauto.
Qed.

Lemma labels_restorable_same_shape ud planes ps ps' :
  same_shape ps ps' ->
  labels_restorable ud planes ps -> labels_restorable ud planes ps'.
Proof.
  intros Hsh Hl i Hi. destruct (Hl i Hi) as (Hud & lp & Hlp & Hshape).
  split; [exact Hud|].
  destruct (same_shape_lookup _ _ _ _ Hsh Hlp) as (lp' & Hlp' & Hs').
  exists lp'. split; [exact Hlp'|]. congruence.
Qed.

(** The loop that restores the plane labels from the user data. *)
Lemma restore_loop_run t ud (planes : list Z) td st :
  nodes st !! t = Some td ->
  labels_restorable ud planes (node_parms td) ->
  for_each planes (fun plane_number =>
    p <- hou_parm t (VStr (TK_EXTRA_PLANES_NAME plane_number)) ;;
    parm_set p match ud !! TK_EXTRA_PLANES_NAME plane_number with
               | Some s => VStr s
               | None => VNone
               end) st
  = (Ok tt,
     with_node t (fun nd => set_parms
                              (restore_labels ud planes (node_parms nd)) nd) st).
Proof.
  revert td st. induction planes as [|i planes IH]; intros td st Ht Hl.
  - simpl. rewrite with_node_id; [reflexivity|].
    intros nd _. apply set_parms_same.
  - cbn [for_each].
    destruct (Hl i) as ([s Hs] & lp & Hlp & Hshape); [left; reflexivity|].
    injection Hshape as Htmpl Hlock.
    assert (Hbody :
      (p <- hou_parm t (VStr (TK_EXTRA_PLANES_NAME i)) ;;
       parm_set p match ud !! TK_EXTRA_PLANES_NAME i with
                  | Some s => VStr s
                  | None => VNone
                  end) st
      = (Ok tt, with_parm t (TK_EXTRA_PLANES_NAME i)
                  (set_raw (stored_label ud i)) st)).
    { rewrite (bind_Ok _ _ _ _ _ (hou_parm_Some _ _ _ _ _ Ht Hlp)).
      apply (parm_set_run _ _ (stored_label ud i) _ _ _ Ht Hlp Hlock).
      unfold stored_label. rewrite Hs, Htmpl. reflexivity. }
    rewrite (bind_Ok _ _ _ _ _ Hbody). rewrite with_parm_as_node.
    erewrite IH.
    + rewrite with_node_with_node. reflexivity.
    + apply (with_node_lookup _ _ _ _ Ht).
    + simpl. eapply labels_restorable_same_shape.
      * apply same_shape_update_parm. reflexivity.
      * intros j Hj. apply Hl. right. exact Hj.
Qed.

(** Selecting the stored profile on the new toolkit node: the menu entry
    of that label when there is one, a warning otherwise. *)
Lemma select_profile_run t td pp prof st :
  nodes st !! t = Some td ->
  lookup_parm (node_parms td) TK_OUTPUT_PROFILE_PARM = Some pp ->
  parm_locked pp = false ->
  parm_template pp <> StringParmTemplate ->
  exists msgs,
    try_except
      (output_profile_parm <- hou_parm t (VStr TK_OUTPUT_PROFILE_PARM) ;;
       labels <- parm_menuLabels output_profile_parm ;;
       match py_list_index labels prof with
       | None => raise ValueError
       | Some output_profile_index =>
           parm_set output_profile_parm (VInt (Z.of_nat output_profile_index))
       end)
      (fun e =>
         match e with
         | ValueError =>
             Some (log_warning ("No output profile found named: " +:+ prof))
         | _ => None
         end) st
    = (Ok tt,
       with_node t (fun nd => set_parms (select_profile prof (node_parms nd)) nd)
         (with_log msgs st)).
Proof.
  intros Ht Hpp Hlock Htmpl. unfold try_except.
  destruct (py_list_index (parm_menu_labels pp) prof) as [index|] eqn:Ei.
  - exists [].
    assert (Hset :
      (output_profile_parm <- hou_parm t (VStr TK_OUTPUT_PROFILE_PARM) ;;
       labels <- parm_menuLabels output_profile_parm ;;
       match py_list_index labels prof with
       | None => raise ValueError
       | Some output_profile_index =>
           parm_set output_profile_parm (VInt (Z.of_nat output_profile_index))
       end) st
      = (Ok tt, with_parm t TK_OUTPUT_PROFILE_PARM
                  (set_raw (VInt (Z.of_nat index))) st)).
    { rewrite (bind_Ok _ _ _ _ _ (hou_parm_Some _ _ _ _ _ Ht Hpp)).
      rewrite (bind_Ok _ _ _ _ _ (parm_menuLabels_Some _ _ _ _ _ Ht Hpp)).
      rewrite Ei. apply (parm_set_run _ _ _ _ _ _ Ht Hpp Hlock).
      destruct (parm_template pp); simpl; congruence. }
    rewrite Hset. f_equal. unfold with_log. rewrite app_nil_r.
    replace (mkSession (nodes st) (next_id st) (hip_path st) (pwd st) (log st))
      with st by (destruct st; reflexivity).
    rewrite with_parm_as_node. apply with_node_ext. intros nd Hnd.
    rewrite Ht in Hnd. injection Hnd as <-.
    unfold select_profile. rewrite Hpp, Ei. reflexivity.
  - exists [(LWarning, "No output profile found named: " +:+ prof)].
    assert (Hset :
      (output_profile_parm <- hou_parm t (VStr TK_OUTPUT_PROFILE_PARM) ;;
       labels <- parm_menuLabels output_profile_parm ;;
       match py_list_index labels prof with
       | None => raise ValueError
       | Some output_profile_index =>
           parm_set output_profile_parm (VInt (Z.of_nat output_profile_index))
       end) st
      = (Raise ValueError, st)).
    { rewrite (bind_Ok _ _ _ _ _ (hou_parm_Some _ _ _ _ _ Ht Hpp)).
      rewrite (bind_Ok _ _ _ _ _ (parm_menuLabels_Some _ _ _ _ _ Ht Hpp)).
      rewrite Ei. reflexivity. }
    rewrite Hset. unfold log_warning, modify. f_equal.
    rewrite with_node_id; [reflexivity|].
    intros nd Hnd. simpl in Hnd. rewrite Ht in Hnd. injection Hnd as <-.
    unfold select_profile. rewrite Hpp, Ei. apply set_parms_same.
Qed.

(** ** One native node becomes a toolkit node *)

Lemma convert_back_node_run host def c x ad pp prof planes st :
  node_types host TK_ARNOLD_NODE_TYPE = Some def ->
  nodes st !! x = Some ad ->
  fresh st ->
  deg_ok c st ->
  (c <= nt_connectors def)%nat ->
  node_user_data ad !! TK_OUTPUT_PROFILE_NAME_KEY = Some prof ->
  prof <> "" ->
  lookup_parm (nt_parms def) TK_OUTPUT_PROFILE_PARM = Some pp ->
  parm_locked pp = false ->
  parm_template pp <> StringParmTemplate ->
  all_can_copy host (node_parms ad) (nt_parms def) ->
  plane_numbers host ad = Some planes ->
  labels_restorable (node_user_data ad) planes (nt_parms def) ->
  exists st',
    convert_back_node host x st = (Ok tt, st') /\
    next_id st' = S (next_id st) /\
    fresh st' /\
    deg_ok c st' /\
    forall y,
      attrs_lookup st' y
        = if decide (y = next_id st) then Some (tk_of host def ad)
          else if decide (y = x) then None
          else attrs_lookup st y.
Proof.
  intros Hreg Hx Hfresh Hdeg Hc Hud Hne Hpp Hlock Htmpl Hcan Hplanes Hlabels.
  set (a := next_id st).
  assert (Hxa : x <> a).
  { intros ->. rewrite (Hfresh a) in Hx by (unfold a; lia). discriminate. }
  unfold convert_back_node.
  rewrite (bind_Ok _ _ _ _ _ (hou_userDataDict_Some _ _ _ Hx)), Hud.
  destruct prof as [|ch prof]; [congruence|].
  set (name := String ch prof) in *.
  rewrite (bind_Ok _ _ _ _ _ (hou_parent_Some _ _ _ Hx)).
  rewrite (bind_Ok _ _ _ _ _ (hou_createNode_run host _ _ _ st Hreg)).
  fold a.
  set (s0 := created TK_ARNOLD_NODE_TYPE (node_parent ad) def st).
  set (nd0 := mkNode TK_ARNOLD_NODE_TYPE (TK_ARNOLD_NODE_TYPE +:+ pretty a)
                     (node_parent ad) origin (nt_parms def) ∅ ∅
                     (nt_connectors def)).
  assert (Ha0 : nodes s0 !! a = Some nd0) by apply created_lookup.
  assert (Hx0 : nodes s0 !! x = Some ad)
    by (unfold s0; rewrite created_lookup_ne by exact Hxa; exact Hx).
  destruct (select_profile_run a nd0 pp name s0 Ha0 Hpp Hlock Htmpl)
    as [msgs Hsel].
  rewrite (bind_Ok _ _ _ _ _ Hsel).
  set (s1 := with_node a _ (with_log msgs s0)).
  assert (Ha1 : nodes s1 !! a
            = Some (set_parms (select_profile name (nt_parms def)) nd0)).
  { unfold s1. rewrite (with_node_lookup a _ nd0 (with_log msgs s0) Ha0).
    reflexivity. }
  assert (Hx1 : nodes s1 !! x = Some ad)
    by (unfold s1; rewrite with_node_lookup_ne by auto; exact Hx0).
  assert (Hcan1 : all_can_copy host (node_parms ad)
                    (node_parms (set_parms (select_profile name (nt_parms def))
                                           nd0))).
  { simpl. eapply all_can_copy_same_shape; [|exact Hcan].
    apply same_shape_select_profile. }
  rewrite (bind_Ok _ _ _ _ _
             (_copy_parm_values_run host x a (Some []) ad _ s1 Hxa Hx1 Ha1
                (fun _ => eq_refl) Hcan1)).
  set (s2 := with_node a _ s1).
  assert (Ha2 : nodes s2 !! a
            = Some (set_parms
                      (copy_parms host (node_parms ad)
                         (select_profile name (nt_parms def))) nd0)).
  { unfold s2. rewrite (with_node_lookup a _ _ s1 Ha1). reflexivity. }
  assert (Hx2 : nodes s2 !! x = Some ad)
    by (unfold s2; rewrite with_node_lookup_ne by auto; exact Hx1).
  rewrite (bind_Ok _ _ _ _ _
             (_get_extra_plane_numbers_run host x ad planes s2 Hx2 Hplanes)).
  assert (Hl2 : labels_restorable (node_user_data ad) planes
                  (node_parms (set_parms
                      (copy_parms host (node_parms ad)
                         (select_profile name (nt_parms def))) nd0))).
  { simpl. eapply labels_restorable_same_shape; [|exact Hlabels].
    eapply same_shape_trans;
      [apply same_shape_select_profile | apply same_shape_copy_parms]. }
  rewrite (bind_Ok _ _ _ _ _
             (restore_loop_run a (node_user_data ad) planes _ s2 Ha2 Hl2)).
  set (s3 := with_node a _ s2).
  assert (Ha3 : nodes s3 !! a
            = Some (mkNode TK_ARNOLD_NODE_TYPE
                      (TK_ARNOLD_NODE_TYPE +:+ pretty a) (node_parent ad) origin
                      (restore_labels (node_user_data ad) planes
                         (copy_parms host (node_parms ad)
                            (select_profile name (nt_parms def))))
                      ∅ ∅ (nt_connectors def))).
  { unfold s3. rewrite (with_node_lookup a _ _ s2 Ha2). reflexivity. }
  assert (Hx3 : nodes s3 !! x = Some ad)
    by (unfold s3; rewrite with_node_lookup_ne by auto; exact Hx2).
  assert (Hguard : (nt_connectors def <? size (node_inputs ad))%nat = false).
  { apply Nat.ltb_ge. specialize (Hdeg x ad Hx). lia. }
  assert (Hcopy : _copy_inputs x a s3
            = (Ok tt, with_inputs a (fun i => node_inputs ad ∪ i) s3)).
  { rewrite (_copy_inputs_run x a _ _ s3 Hx3 Ha3). simpl. rewrite Hguard.
    reflexivity. }
  rewrite (bind_Ok _ _ _ _ _ Hcopy).
  set (s4 := with_inputs a _ s3).
  assert (Hx4 : nodes s4 !! x = Some ad)
    by (unfold s4; rewrite with_inputs_lookup_ne by auto; exact Hx3).
  rewrite (bind_Ok _ _ _ _ _ (_move_outputs_run x a ad s4 Hx4)).
  set (s5 := rewire _ a s4).
  assert (Hx5 : attrs_lookup s5 x = Some (attrs ad)).
  { unfold s5. rewrite attrs_lookup_rewire. apply attrs_lookup_Some, Hx4. }
  rewrite (bind_Ok _ _ _ _ _ (hou_name_attrs s5 x _ Hx5)).
  rewrite (bind_Ok _ _ _ _ _ (hou_position_attrs s5 x _ Hx5)).
  rewrite (bind_Ok _ _ _ _ _ (hou_destroy_run s5 x ltac:(rewrite Hx5; eauto))).
  cbn [attrs node_name node_pos set_inputs].
  assert (Ha5 : is_Some (attrs_lookup s5 a)).
  { unfold s5, s4. rewrite attrs_lookup_rewire, attrs_lookup_with_inputs.
    rewrite (attrs_lookup_Some _ _ _ Ha3). eauto. }
  assert (Ha6 : is_Some (attrs_lookup (destroyed x s5) a)).
  { rewrite attrs_lookup_destroyed, decide_False by auto. exact Ha5. }
  unfold hou_setName, hou_setPosition.
  rewrite (bind_Ok _ _ _ _ _ (update_node_attrs _ a _ Ha6)).
  set (s7 := with_node a _ (destroyed x s5)).
  assert (Ha7 : is_Some (attrs_lookup s7 a)).
  { unfold s7.
    rewrite (attrs_lookup_with_node a _ (set_name (node_name ad))) by reflexivity.
    rewrite decide_True by reflexivity. destruct Ha6 as [A ->]. simpl. eauto. }
  rewrite (bind_Ok _ _ _ _ _ (update_node_attrs _ a _ Ha7)).
  set (s8 := with_node a _ s7).
  eexists. split; [reflexivity|].
  assert (Hattrs : forall y,
    attrs_lookup s8 y
      = if decide (y = a) then Some (tk_of host def ad)
        else if decide (y = x) then None else attrs_lookup st y).
  { intros y. unfold s8, s7.
    rewrite (attrs_lookup_with_node a _ (set_pos (node_pos ad))) by reflexivity.
    rewrite (attrs_lookup_with_node a _ (set_name (node_name ad))) by reflexivity.
    rewrite attrs_lookup_destroyed. unfold s5.
    rewrite attrs_lookup_rewire. unfold s4.
    rewrite attrs_lookup_with_inputs.
    destruct (decide (y = a)) as [->|Hya].
    - rewrite decide_False by auto.
      rewrite (attrs_lookup_Some _ _ _ Ha3). simpl. f_equal.
      unfold tk_of. rewrite Hplanes, Hud. reflexivity.
    - destruct (decide (y = x)) as [->|Hyx]; [reflexivity|].
      unfold attrs_lookup, s3, s2, s1, s0.
      rewrite !with_node_lookup_ne by auto. simpl.
      rewrite lookup_insert_ne by auto. reflexivity. }
  assert (Hnext : next_id s8 = S a).
  { unfold s8, s7, s5, s4, s3, s2, s1, s0. next_id_tac. reflexivity. }
  split; [exact Hnext|]. split; [|split].
  - intros y Hy. apply attrs_lookup_None.
    change (attrs_lookup s8 y = None). rewrite Hattrs.
    change (next_id s8 <= y)%nat in Hy. rewrite Hnext in Hy.
    rewrite decide_False by lia.
    destruct (decide (y = x)); [reflexivity|].
    apply attrs_lookup_None, Hfresh. unfold a in Hy. lia.
  - apply deg_ok_add_log. unfold s8, s7.
    apply deg_ok_with_node; [reflexivity|].
    apply deg_ok_with_node; [reflexivity|].
    apply deg_ok_destroyed. unfold s5. apply deg_ok_rewire.
    { intros d i Hin. apply elem_of_outputs_of in Hin as (dn & Hd & Hi).
      exists x, dn. auto. }
    unfold s4. apply deg_ok_with_inputs.
    { intros td Htd. rewrite Ha3 in Htd. injection Htd as <-. simpl.
      rewrite (right_id_L ∅ (∪)). apply (Hdeg x ad Hx). }
    unfold s3, s2, s1.
    apply deg_ok_with_node; [reflexivity|].
    apply deg_ok_with_node; [reflexivity|].
    apply deg_ok_with_node; [reflexivity|].
    intros y yd Hy.
    apply (deg_ok_created c TK_ARNOLD_NODE_TYPE (node_parent ad) def st Hdeg
             y yd). exact Hy.
  - exact Hattrs.
Qed.


(** ** Parameters through the two copies *)

Lemma parm_eta p :
  p = mkParm (parm_template p) (parm_raw p) (parm_keys p) (parm_locked p)
             (parm_menu_labels p).
Proof. destruct p; reflexivity. Qed.

(** [copied] by cases on the keyframes of the source, not on their
    list. *)
Lemma copied_eq host sp tp :
  copied host sp tp =
    if decide (parm_template sp = FolderSetParmTemplate) then tp
    else if decide (parm_keys sp = ∅) then
      if decide (parm_template sp = StringParmTemplate)
      then set_raw (parm_raw sp) tp
      else set_raw (parm_value host sp) tp
    else mkParm (parm_template tp) (parm_raw tp) (parm_keys sp ∪ parm_keys tp)
                (parm_locked tp) (parm_menu_labels tp).
Proof.
  unfold copied.
  destruct (decide (parm_template sp = FolderSetParmTemplate)); [reflexivity|].
  destruct (map_to_list (parm_keys sp)) as [|key keys] eqn:E.
  - apply map_to_list_empty_iff in E.
    rewrite (decide_True (P := parm_keys sp = ∅)) by exact E. reflexivity.
  - rewrite (decide_False (P := parm_keys sp = ∅))
      by (intros H; rewrite H, map_to_list_empty in E; discriminate E).
    rewrite <- E.
    pose proof (foldl_set_key_shape (map_to_list (parm_keys sp)) tp)
      as (H1 & H2 & H3 & H4 & H5).
    cbv zeta in H1, H2, H3, H4, H5.
    rewrite foldl_insert_map_to_list in H5.
    rewrite (parm_eta (foldl _ tp _)), H1, H2, H3, H4, H5. reflexivity.
Qed.

Lemma copied_idem host sp tp :
  copied host sp (copied host sp tp) = copied host sp tp.
Proof.
  rewrite !copied_eq.
  destruct (decide (parm_template sp = FolderSetParmTemplate)); [reflexivity|].
  destruct (decide (parm_keys sp = ∅)).
  - destruct (decide (parm_template sp = StringParmTemplate)); reflexivity.
  - simpl. f_equal. apply map_eq. intros i. rewrite !lookup_union.
    destruct (parm_keys sp !! i), (parm_keys tp !! i); reflexivity.
Qed.

(** A well-typed parameter copied onto a fresh one of its template: the
    copy has the keyframes and the value of the source and is well typed
    in turn. *)
Lemma copied_faithful host sp tp :
  well_typed sp = true ->
  parm_template sp <> FolderSetParmTemplate ->
  parm_template tp = parm_template sp ->
  parm_keys tp = ∅ ->
  well_typed tp = true ->
  parm_keys (copied host sp tp) = parm_keys sp /\
  well_typed (copied host sp tp) = true /\
  parm_value host (copied host sp tp) = parm_value host sp.
Proof.
  intros Hw Hnf Ht Hk Hwt. rewrite copied_eq.
  rewrite decide_False by exact Hnf.
  unfold well_typed in *.
  destruct (decide (parm_keys sp = ∅)) as [Hks|Hks].
  - destruct (decide (parm_template sp = StringParmTemplate)) as [Hs|Hs].
    + unfold parm_value. simpl. rewrite Hk, Hks, Ht. auto.
    + unfold parm_value. simpl. rewrite Hk, Hks, Ht.
      rewrite !decide_True by reflexivity.
      destruct (parm_template sp), (parm_raw sp);
        simpl in *; try discriminate; try congruence; auto.
  - unfold parm_value. simpl. rewrite Hk.
    assert (Hu : parm_keys sp ∪ ∅ = parm_keys sp).
    { apply map_eq. intros i. rewrite lookup_union, lookup_empty.
      destruct (parm_keys sp !! i); reflexivity. }
    rewrite Hu. rewrite !decide_False by exact Hks. auto.
Qed.

Lemma can_copy_plain host sp tp :
  well_typed sp = true ->
  parm_template tp = parm_template sp ->
  parm_locked tp = false ->
  can_copy host sp tp = true.
Proof.
  intros Hw Ht Hl. unfold can_copy, well_typed in *.
  destruct (decide (parm_template sp = FolderSetParmTemplate)); [reflexivity|].
  rewrite Hl. simpl.
  destruct (map_to_list (parm_keys sp)) as [|key keys] eqn:E; [|reflexivity].
  apply map_to_list_empty_iff in E.
  destruct (decide (parm_template sp = StringParmTemplate)) as [Hs|Hs].
  - rewrite Ht. destruct (parm_raw sp); try exact Hw;
      rewrite Hs in Hw; discriminate Hw.
  - unfold parm_value. rewrite decide_True by exact E. rewrite Ht.
    destruct (parm_template sp), (parm_raw sp);
      simpl in *; try discriminate; try congruence; auto.
Qed.

Lemma lookup_parm_elem ps name p :
  lookup_parm ps name = Some p -> name ∈ ps.*1.
Proof.
  induction ps as [|[k q] ps IH]; simpl; [discriminate|].
  destruct (String.eqb k name) eqn:E.
  - apply String.eqb_eq in E. subst k. intros _. apply elem_of_cons. auto.
  - intros H. apply elem_of_cons. auto.
Qed.

Lemma lookup_parm_In ps name p :
  lookup_parm ps name = Some p -> In (name, p) ps.
Proof.
  induction ps as [|[k q] ps IH]; simpl; [discriminate|].
  destruct (String.eqb k name) eqn:E.
  - apply String.eqb_eq in E. subst k. intros [= ->]. auto.
  - auto.
Qed.

(** The parameter of a name once the source has been copied over. *)
Lemma lookup_copy_loop host src (names : list string) tgt name :
  lookup_parm
    (foldl (fun tgt name =>
              match lookup_parm src name with
              | Some sp => update_parm tgt name (copied host sp)
              | None => tgt
              end) tgt names) name
  = if decide (name ∈ names)
    then match lookup_parm src name with
         | Some sp => copied host sp <$> lookup_parm tgt name
         | None => lookup_parm tgt name
         end
    else lookup_parm tgt name.
Proof.
  revert tgt. induction names as [|n names IH]; intros tgt; cbn [foldl].
  - rewrite decide_False by apply not_elem_of_nil. reflexivity.
  - rewrite IH. destruct (decide (n = name)) as [->|Hne].
    + rewrite (decide_True (P := name ∈ name :: names))
        by (apply elem_of_cons; auto).
      destruct (lookup_parm src name) as [sp|] eqn:Hs.
      * rewrite lookup_update_parm_eq.
        destruct (decide (name ∈ names)); [|reflexivity].
        destruct (lookup_parm tgt name); simpl; [|reflexivity].
        rewrite copied_idem. reflexivity.
      * destruct (decide (name ∈ names)); reflexivity.
    + assert (Ht : lookup_parm
                     match lookup_parm src n with
                     | Some sp => update_parm tgt n (copied host sp)
                     | None => tgt
                     end name = lookup_parm tgt name).
      { destruct (lookup_parm src n); [|reflexivity].
        apply lookup_update_parm_ne, Hne. }
      rewrite Ht.
      destruct (decide (name ∈ names)) as [Hin|Hin].
      * rewrite decide_True by (apply elem_of_cons; auto). reflexivity.
      * rewrite decide_False; [reflexivity|].
        intros [?|?]%elem_of_cons; congruence.
Qed.

Lemma lookup_copy_parms host src tgt name :
  lookup_parm (copy_parms host src tgt) name
  = match lookup_parm src name with
    | Some sp => copied host sp <$> lookup_parm tgt name
    | None => lookup_parm tgt name
    end.
Proof.
  unfold copy_parms. rewrite lookup_copy_loop.
  destruct (decide (name ∈ src.*1)) as [Hin|Hin]; [reflexivity|].
  destruct (lookup_parm src name) as [sp|] eqn:Hs; [|reflexivity].
  apply lookup_parm_elem in Hs. contradiction.
Qed.

(** The parameter of a name once the stored labels are restored. *)
Lemma lookup_restore_labels ud (planes : list Z) ps k :
  lookup_parm (restore_labels ud planes ps) k
  = if decide (k ∈ map TK_EXTRA_PLANES_NAME planes)
    then set_raw (match ud !! k with
                  | Some s => VStr s
                  | None => VNone
                  end) <$> lookup_parm ps k
    else lookup_parm ps k.
Proof.
  unfold restore_labels. revert ps.
  induction planes as [|i planes IH]; intros ps; cbn [foldl map].
  - rewrite decide_False by apply not_elem_of_nil. reflexivity.
  - rewrite IH. rewrite lookup_update_parm. unfold stored_label.
    destruct (String.eqb (TK_EXTRA_PLANES_NAME i) k) eqn:E.
    + apply String.eqb_eq in E. rewrite E.
      rewrite (decide_True (P := k ∈ k :: _)) by (apply elem_of_cons; auto).
      destruct (decide (k ∈ map TK_EXTRA_PLANES_NAME planes)); [|reflexivity].
      destruct (lookup_parm ps k); reflexivity.
    + apply String.eqb_neq in E.
      destruct (decide (k ∈ map TK_EXTRA_PLANES_NAME planes)) as [Hin|Hin].
      * rewrite decide_True by (apply elem_of_cons; auto). reflexivity.
      * rewrite decide_False; [reflexivity|].
        intros [?|?]%elem_of_cons; congruence.
Qed.

(** The user data that the stamp leaves alone, and the label it stores
    for a plane. *)
Lemma lookup_stamp_other host nd (planes : list Z) ud k :
  (forall i, In i planes -> TK_EXTRA_PLANES_NAME i <> k) ->
  stamp host nd planes ud !! k = ud !! k.
Proof.
  unfold stamp. revert ud.
  induction planes as [|i planes IH]; intros ud H; cbn [foldl]; [reflexivity|].
  rewrite IH by (intros j Hj; apply H; right; exact Hj).
  destruct (aov_label host nd i); [|reflexivity].
  apply lookup_insert_ne, H. left. reflexivity.
Qed.

Lemma aov_label_name host nd i j :
  TK_EXTRA_PLANES_NAME i = TK_EXTRA_PLANES_NAME j ->
  aov_label host nd i = aov_label host nd j.
Proof. unfold aov_label. intros ->. reflexivity. Qed.

Lemma lookup_stamp_label host nd (planes : list Z) ud i s :
  aov_label host nd i = Some s ->
  In i planes \/ ud !! TK_EXTRA_PLANES_NAME i = Some s ->
  stamp host nd planes ud !! TK_EXTRA_PLANES_NAME i = Some s.
Proof.
  unfold stamp. intros Hl. revert ud.
  induction planes as [|j planes IH]; intros ud H; cbn [foldl].
  - destruct H as [[]|H]. exact H.
  - apply IH.
    destruct (decide (TK_EXTRA_PLANES_NAME j = TK_EXTRA_PLANES_NAME i))
      as [E|E].
    + right. rewrite (aov_label_name host nd j i E), Hl, E.
      apply lookup_insert_eq.
    + destruct H as [[->|H]|H]; [congruence|left; exact H|].
      right. destruct (aov_label host nd j); [|exact H].
      rewrite lookup_insert_ne by exact E. exact H.
Qed.

(** [l[l.index(x)]] is [x]. *)
Lemma py_list_index_lookup (l : list string) x i :
  py_list_index l x = Some i -> l !! i = Some x.
Proof.
  revert i. induction l as [|y l IH]; intros i; simpl; [discriminate|].
  destruct (String.eqb y x) eqn:E.
  - apply String.eqb_eq in E. subst y. intros [= <-]. reflexivity.
  - destruct (py_list_index l x) as [j|]; simpl; [|discriminate].
    intros [= <-]. simpl. apply IH. reflexivity.
Qed.

Lemma py_index_list_index (l : list string) x i :
  py_list_index l x = Some i -> py_index l (VInt (Z.of_nat i)) = Ok x.
Proof.
  intros H. apply py_list_index_lookup in H. unfold py_index.
  assert (E : (Z.of_nat i <? 0)%Z = false) by (apply Z.ltb_ge; lia).
  rewrite E, E. rewrite Nat2Z.id, H. reflexivity.
Qed.

(** ** What the checks give *)

Lemma plain_lookup defs name p :
  plain defs = true -> lookup_parm defs name = Some p ->
  parm_locked p = false /\ parm_keys p = ∅ /\ well_typed p = true.
Proof.
  intros H Hp. apply lookup_parm_In in Hp. unfold plain in H.
  rewrite forallb_forall in H. specialize (H _ Hp). simpl in H.
  apply andb_prop in H as [H H3]. apply andb_prop in H as [H1 H2].
  apply negb_true_iff in H1. apply bool_decide_eq_true in H2. auto.
Qed.

Lemma conforms_lookup ps defs name p :
  conforms ps defs = true -> lookup_parm ps name = Some p ->
  exists t, lookup_parm defs name = Some t /\
            parm_template t = parm_template p.
Proof.
  intros H Hp. apply lookup_parm_In in Hp. unfold conforms in H.
  rewrite forallb_forall in H. specialize (H _ Hp). simpl in H.
  destruct (lookup_parm defs name) as [t|]; [|discriminate].
  apply bool_decide_eq_true in H. eauto.
Qed.

Lemma agree_lookup ps defs name p t :
  agree ps defs = true -> lookup_parm ps name = Some p ->
  lookup_parm defs name = Some t -> parm_template t = parm_template p.
Proof.
  intros H Hp Ht. apply lookup_parm_In in Hp. unfold agree in H.
  rewrite forallb_forall in H. specialize (H _ Hp). simpl in H.
  rewrite Ht in H. apply bool_decide_eq_true in H. exact H.
Qed.

Lemma covers_lookup native tk name t :
  covers native tk = true -> lookup_parm tk name = Some t ->
  is_tk_name name = false -> is_Some (lookup_parm native name).
Proof.
  intros H Ht Hn. apply lookup_parm_In in Ht. unfold covers in H.
  rewrite forallb_forall in H. specialize (H _ Ht). simpl in H.
  rewrite Hn in H. simpl in H.
  destruct (lookup_parm native name); [eauto|discriminate].
Qed.

Lemma well_typed_lookup ps name p :
  forallb (fun kp : string * Parm => well_typed kp.2) ps = true ->
  lookup_parm ps name = Some p -> well_typed p = true.
Proof.
  intros H Hp. apply lookup_parm_In in Hp.
  rewrite forallb_forall in H. exact (H _ Hp).
Qed.

Lemma all_nodes_lookup f st x nd :
  all_nodes f st = true -> nodes st !! x = Some nd -> f x nd = true.
Proof.
  intros H Hx. unfold all_nodes in H. rewrite forallb_forall in H.
  apply (H (x, nd)). apply list_elem_of_In, elem_of_map_to_list, Hx.
Qed.

Lemma lookup_select_profile_ne prof ps name :
  name <> TK_OUTPUT_PROFILE_PARM ->
  lookup_parm (select_profile prof ps) name = lookup_parm ps name.
Proof.
  intros H. unfold select_profile.
  destruct (lookup_parm ps TK_OUTPUT_PROFILE_PARM) as [pp|]; [|reflexivity].
  destruct (py_list_index (parm_menu_labels pp) prof); [|reflexivity].
  apply lookup_update_parm_ne. congruence.
Qed.

Lemma lookup_select_profile_eq prof ps pp index :
  lookup_parm ps TK_OUTPUT_PROFILE_PARM = Some pp ->
  py_list_index (parm_menu_labels pp) prof = Some index ->
  lookup_parm (select_profile prof ps) TK_OUTPUT_PROFILE_PARM
    = Some (set_raw (VInt (Z.of_nat index)) pp).
Proof.
  intros Hpp Hi. unfold select_profile. rewrite Hpp, Hi.
  rewrite lookup_update_parm_eq, Hpp. reflexivity.
Qed.

Lemma parm_value_set_raw host v q :
  parm_value host (set_raw v q)
  = if decide (parm_keys q = ∅)
    then match v with
         | VStr s => VStr (expand host s)
         | _ => v
         end
    else eval_keys host (parm_keys q).
Proof.
  unfold parm_value. simpl.
  destruct (decide (parm_keys q = ∅)); [destruct v|]; reflexivity.
Qed.

Lemma compatible_inv NT TT :
  compatible NT TT = true ->
  plain (nt_parms NT) = true /\ plain (nt_parms TT) = true /\
  agree (nt_parms NT) (nt_parms TT) = true /\
  covers (nt_parms NT) (nt_parms TT) = true /\
  lookup_parm (nt_parms NT) TK_OUTPUT_PROFILE_PARM = None /\
  (exists pp, lookup_parm (nt_parms TT) TK_OUTPUT_PROFILE_PARM = Some pp /\
              parm_template pp = MenuParmTemplate) /\
  (exists p, lookup_parm (nt_parms TT) TK_EXTRA_PLANE_COUNT_PARM = Some p /\
             parm_template p = IntParmTemplate).
Proof.
  unfold compatible. intros H.
  repeat (apply andb_prop in H as [H ?]).
  destruct (lookup_parm (nt_parms NT) TK_OUTPUT_PROFILE_PARM);
    [discriminate|].
  destruct (lookup_parm (nt_parms TT) TK_OUTPUT_PROFILE_PARM) as [pp|];
    [|discriminate].
  destruct (lookup_parm (nt_parms TT) TK_EXTRA_PLANE_COUNT_PARM) as [p|];
    [|discriminate].
  repeat match goal with
         | E : bool_decide _ = true |- _ => apply bool_decide_eq_true in E
         end.
  repeat split; eauto.
Qed.

Lemma label_settled_inv host ps i :
  label_settled host ps i = true ->
  exists lp s, lookup_parm ps (TK_EXTRA_PLANES_NAME i) = Some lp /\
               parm_template lp = StringParmTemplate /\
               parm_value host lp = VStr s /\ expand host s = s.
Proof.
  unfold label_settled.
  destruct (lookup_parm ps (TK_EXTRA_PLANES_NAME i)) as [lp|]; [|discriminate].
  intros [H1 H2]%andb_prop. apply bool_decide_eq_true in H1.
  destruct (parm_value host lp) as [| | |s] eqn:E; try discriminate H2.
  apply String.eqb_eq in H2. exists lp, s. auto.
Qed.

Lemma plane_name_not_key i :
  TK_EXTRA_PLANES_NAME i <> TK_OUTPUT_PROFILE_NAME_KEY.
Proof. intros E. cbn in E. discriminate E. Qed.

Lemma plane_name_not_profile i :
  TK_EXTRA_PLANES_NAME i <> TK_OUTPUT_PROFILE_PARM.
Proof. intros E. cbn in E. discriminate E. Qed.

Lemma plane_name_not_tk i : is_tk_name (TK_EXTRA_PLANES_NAME i) = false.
Proof. reflexivity. Qed.

(** A toolkit node that is well formed, with a profile of a name selected
    that the menu of its type offers, between two compatible types. *)
Section RoundTrip.
Context (host : Host) (NT TT : NodeTypeDef) (A : Node) (prof : string).
Hypothesis Hc : compatible NT TT = true.
Hypothesis Hwf : well_formed host TT A = true.
Hypothesis Hpc : profile_configured host TT A = true.
Hypothesis Hprof : selected_profile host A = Some prof.
Hypothesis Hname : prof <> "".

Lemma well_formed_inv :
  conforms (node_parms A) (nt_parms TT) = true /\
  forallb (fun kp : string * Parm => well_typed kp.2) (node_parms A) = true /\
  exists planes, plane_numbers host A = Some planes /\
    forall i, In i planes -> label_settled host (node_parms A) i = true.
Proof.
  unfold well_formed in Hwf.
  apply andb_prop in Hwf as [H H3]. apply andb_prop in H as [H1 H2].
  destruct (plane_numbers host A) as [planes|]; [|discriminate].
  rewrite forallb_forall in H3. eauto.
Qed.

(** The native counterpart of a parameter of the node. *)
Lemma native_parm name sp :
  lookup_parm (node_parms A) name = Some sp ->
  is_tk_name name = false ->
  exists tn t,
    lookup_parm (nt_parms NT) name = Some tn /\
    lookup_parm (nt_parms TT) name = Some t /\
    lookup_parm (copy_parms host (node_parms A) (nt_parms NT)) name
      = Some (copied host sp tn) /\
    parm_template tn = parm_template sp /\
    parm_template t = parm_template sp.
Proof.
  intros Hs Hn.
  destruct (compatible_inv _ _ Hc) as (HpN & HpT & Hag & Hcov & _).
  destruct well_formed_inv as (Hcf & Hwt & _).
  destruct (conforms_lookup _ _ _ _ Hcf Hs) as (t & Ht & Htt).
  destruct (covers_lookup _ _ _ _ Hcov Ht Hn) as [tn Htn].
  exists tn, t. rewrite lookup_copy_parms, Hs, Htn.
  pose proof (agree_lookup _ _ _ _ _ Hag Htn Ht). repeat split; congruence.
Qed.

(** Every parameter of the native node is well typed and of the template
    of the native type. *)
Lemma native_parm_typed name np :
  lookup_parm (copy_parms host (node_parms A) (nt_parms NT)) name = Some np ->
  exists tn, lookup_parm (nt_parms NT) name = Some tn /\
             parm_template np = parm_template tn /\
             well_typed np = true.
Proof.
  intros Hn.
  destruct (compatible_inv _ _ Hc) as (HpN & HpT & Hag & Hcov & _).
  destruct well_formed_inv as (Hcf & Hwt & _).
  rewrite lookup_copy_parms in Hn.
  destruct (lookup_parm (nt_parms NT) name) as [tn|] eqn:Htn;
    [|destruct (lookup_parm (node_parms A) name); discriminate].
  exists tn. split; [reflexivity|].
  destruct (plain_lookup _ _ _ HpN Htn) as (Hl & Hk & Hw).
  destruct (lookup_parm (node_parms A) name) as [sp|] eqn:Hs;
    [|injection Hn as <-; auto].
  injection Hn as <-.
  destruct (copied_shape host sp tn) as (H1 & _). split; [exact H1|].
  destruct (decide (parm_template sp = FolderSetParmTemplate)) as [Hf|Hf].
  - rewrite copied_eq, decide_True by exact Hf. exact Hw.
  - destruct (conforms_lookup _ _ _ _ Hcf Hs) as (t & Ht & Htt).
    pose proof (agree_lookup _ _ _ _ _ Hag Htn Ht) as Hnt.
    apply copied_faithful; try assumption; try congruence.
    exact (well_typed_lookup _ _ _ Hwt Hs).
Qed.

Lemma to_native_ok_well_formed : to_native_ok host NT A.
Proof.
  destruct (compatible_inv _ _ Hc) as (HpN & HpT & Hag & Hcov & _).
  destruct well_formed_inv as (Hcf & Hwt & planes & Hpl & Hlab).
  split; [|split].
  - intros name sp tp Hs Ht.
    destruct (conforms_lookup _ _ _ _ Hcf Hs) as (t & Htt & Htpl).
    pose proof (agree_lookup _ _ _ _ _ Hag Ht Htt) as Hnt.
    destruct (plain_lookup _ _ _ HpN Ht) as (Hl & _).
    apply can_copy_plain; [|congruence|exact Hl].
    exact (well_typed_lookup _ _ _ Hwt Hs).
  - rewrite Hprof. eauto.
  - exists planes. split; [exact Hpl|]. intros i Hi.
    destruct (label_settled_inv _ _ _ (Hlab i Hi)) as (lp & s & H1 & _ & H3 & _).
    unfold aov_label. rewrite H1, H3. eauto.
Qed.

Lemma count_parm :
  exists p, lookup_parm (node_parms A) TK_EXTRA_PLANE_COUNT_PARM = Some p /\
            parm_template p <> FolderSetParmTemplate.
Proof.
  destruct (compatible_inv _ _ Hc) as (_ & _ & _ & _ & _ & _ & p0 & Hp0 & Hi).
  destruct well_formed_inv as (_ & _ & planes & Hpl & _).
  unfold plane_numbers in Hpl.
  destruct (lookup_parm (node_parms A) TK_EXTRA_PLANE_COUNT_PARM) as [p|] eqn:Hp;
    [|discriminate].
  exists p. split; [reflexivity|].
  destruct (native_parm _ _ Hp eq_refl) as (tn & t & _ & Ht & _ & _ & Htt).
  congruence.
Qed.

(** The native node has the value and the keyframes of every parameter
    that is not the toolkit's own. *)
Lemma native_value name sp :
  lookup_parm (node_parms A) name = Some sp ->
  is_tk_name name = false ->
  parm_template sp <> FolderSetParmTemplate ->
  exists np t,
    lookup_parm (node_parms (native_of host NT A)) name = Some np /\
    lookup_parm (nt_parms TT) name = Some t /\
    parm_template np = parm_template sp /\
    parm_template t = parm_template sp /\
    parm_keys np = parm_keys sp /\
    well_typed np = true /\
    parm_value host np = parm_value host sp.
Proof.
  intros Hs Hn Hf.
  destruct (compatible_inv _ _ Hc) as (HpN & _).
  destruct well_formed_inv as (_ & Hwt & _).
  destruct (native_parm _ _ Hs Hn) as (tn & t & HN & HT & HB & Htn & Ht).
  destruct (plain_lookup _ _ _ HpN HN) as (_ & Hk & Hw).
  destruct (copied_faithful host sp tn (well_typed_lookup _ _ _ Hwt Hs)
              Hf Htn Hk Hw) as (K & W & V).
  destruct (copied_shape host sp tn) as (S1 & _).
  exists (copied host sp tn), t. cbn [native_of node_parms].
  repeat split; try assumption. congruence.
Qed.

Lemma native_of_planes :
  plane_numbers host (native_of host NT A) = plane_numbers host A.
Proof.
  destruct count_parm as (p & Hp & Hf).
  destruct (native_value _ _ Hp eq_refl Hf) as (np & _ & Hnp & _ & _ & _ & _ & _ & V).
  unfold plane_numbers. rewrite Hnp, Hp, V. reflexivity.
Qed.

Lemma native_of_stamp_key :
  node_user_data (native_of host NT A) !! TK_OUTPUT_PROFILE_NAME_KEY
    = Some prof.
Proof.
  cbn [native_of node_user_data]. rewrite Hprof.
  rewrite lookup_stamp_other by (intros i _; apply plane_name_not_key).
  apply lookup_singleton_eq.
Qed.

Lemma native_of_stamp_label planes i lp s :
  plane_numbers host A = Some planes -> In i planes ->
  lookup_parm (node_parms A) (TK_EXTRA_PLANES_NAME i) = Some lp ->
  parm_value host lp = VStr s ->
  node_user_data (native_of host NT A) !! TK_EXTRA_PLANES_NAME i = Some s.
Proof.
  intros Hpl Hi Hlp Hv. cbn [native_of node_user_data]. rewrite Hpl.
  apply lookup_stamp_label; [|left; exact Hi].
  unfold aov_label. rewrite Hlp, Hv. reflexivity.
Qed.

Lemma to_tk_ok_native_of : to_tk_ok host TT (native_of host NT A).
Proof.
  destruct (compatible_inv _ _ Hc)
    as (HpN & HpT & Hag & Hcov & HNp & (pp & Hpp & Hmenu) & _).
  destruct well_formed_inv as (Hcf & Hwt & planes & Hpl & Hlab).
  destruct (plain_lookup _ _ _ HpT Hpp) as (Hlpp & _).
  exists prof, pp, planes.
  split; [exact native_of_stamp_key|]. split; [exact Hname|].
  split; [exact Hpp|]. split; [exact Hlpp|].
  split; [rewrite Hmenu; discriminate|].
  split; [|split].
  - intros name np tp Hn Ht. cbn [native_of node_parms] in Hn.
    destruct (native_parm_typed _ _ Hn) as (tn & Htn & Htpl & Hw).
    pose proof (agree_lookup _ _ _ _ _ Hag Htn Ht) as Hnt.
    destruct (plain_lookup _ _ _ HpT Ht) as (Hl & _).
    apply can_copy_plain; [exact Hw|congruence|exact Hl].
  - rewrite native_of_planes. exact Hpl.
  - intros i Hi.
    destruct (label_settled_inv _ _ _ (Hlab i Hi)) as (lp & s & H1 & H2 & H3 & _).
    split.
    + rewrite (native_of_stamp_label planes i lp s Hpl Hi H1 H3). eauto.
    + destruct (conforms_lookup _ _ _ _ Hcf H1) as (t & Ht & Htt).
      destruct (plain_lookup _ _ _ HpT Ht) as (Hl & _).
      exists t. split; [exact Ht|]. unfold shape. rewrite Htt, H2, Hl.
      reflexivity.
Qed.

(** The parameters of the toolkit node that replaces the native node. *)
Lemma tk_of_parms planes :
  plane_numbers host A = Some planes ->
  node_parms (tk_of host TT (native_of host NT A))
  = restore_labels (node_user_data (native_of host NT A)) planes
      (copy_parms host (node_parms (native_of host NT A))
         (select_profile prof (nt_parms TT))).
Proof.
  intros Hpl. unfold tk_of. cbn [node_parms].
  rewrite native_of_planes, Hpl, native_of_stamp_key. reflexivity.
Qed.

(** Every parameter that is not the toolkit's own has its value again. *)
Lemma restored_parm name sp :
  lookup_parm (node_parms A) name = Some sp ->
  is_tk_name name = false ->
  parm_template sp <> FolderSetParmTemplate ->
  exists p',
    lookup_parm (node_parms (tk_of host TT (native_of host NT A))) name
      = Some p' /\
    parm_value host p' = parm_value host sp.
Proof.
  intros Hs Hn Hf.
  destruct (compatible_inv _ _ Hc) as (_ & HpT & _).
  destruct well_formed_inv as (_ & _ & planes & Hpl & Hlab).
  destruct (native_value _ _ Hs Hn Hf)
    as (np & t & HB & HT & Tn & Tt & K1 & W1 & V1).
  destruct (plain_lookup _ _ _ HpT HT) as (_ & Hk & Hw).
  assert (Hf' : parm_template np <> FolderSetParmTemplate) by congruence.
  assert (Htn : parm_template t = parm_template np) by congruence.
  destruct (copied_faithful host np t W1 Hf' Htn Hk Hw) as (K2 & W2 & V2).
  assert (Hne : name <> TK_OUTPUT_PROFILE_PARM).
  { intros ->. discriminate Hn. }
  rewrite (tk_of_parms planes Hpl), lookup_restore_labels, lookup_copy_parms.
  rewrite HB, (lookup_select_profile_ne _ _ _ Hne), HT. cbn [fmap option_fmap option_map].
  destruct (decide (name ∈ map TK_EXTRA_PLANES_NAME planes)) as [Hin|Hin].
  - apply list_elem_of_In, in_map_iff in Hin as (i & <- & Hi).
    destruct (label_settled_inv _ _ _ (Hlab i Hi)) as (lp & s & H1 & H2 & H3 & H4).
    rewrite Hs in H1. injection H1 as <-.
    rewrite (native_of_stamp_label planes i sp s Hpl Hi Hs H3).
    eexists. split; [reflexivity|].
    rewrite parm_value_set_raw, K2, K1, H4.
    destruct (decide (parm_keys sp = ∅)) as [E|E]; [congruence|].
    unfold parm_value. rewrite decide_False by exact E. reflexivity.
  - eexists. split; [reflexivity|]. congruence.
Qed.

Lemma tk_of_native_of_equivalent :
  equivalent host A (tk_of host TT (native_of host NT A)).
Proof.
  destruct (compatible_inv _ _ Hc)
    as (_ & HpT & _ & _ & HNp & (pp & Hpp & _) & _).
  destruct well_formed_inv as (_ & _ & planes & Hpl & Hlab).
  split; [reflexivity|]. split; [reflexivity|].
  split; [intros name p Hn Hp; exact (restored_parm name p Hp Hn)|].
  split; [|split].
  - destruct count_parm as (p & Hp & Hf).
    destruct (restored_parm _ _ Hp eq_refl Hf) as (p' & Hp' & V).
    unfold plane_numbers. rewrite Hp', Hp, V. reflexivity.
  - rewrite Hpl. intros i Hi.
    destruct (label_settled_inv _ _ _ (Hlab i Hi)) as (lp & s & H1 & H2 & _).
    assert (Hf : parm_template lp <> FolderSetParmTemplate)
      by (rewrite H2; discriminate).
    destruct (restored_parm _ _ H1 (plane_name_not_tk i) Hf) as (p' & Hp' & V).
    unfold aov_label. rewrite Hp', H1, V. reflexivity.
  - rewrite Hprof.
    unfold profile_configured in Hpc. rewrite Hprof, Hpp in Hpc.
    destruct (py_list_index (parm_menu_labels pp) prof) as [index|] eqn:Hi;
      [|discriminate].
    destruct (plain_lookup _ _ _ HpT Hpp) as (_ & Hk & _).
    unfold selected_profile.
    rewrite (tk_of_parms planes Hpl), lookup_restore_labels.
    rewrite decide_False.
    2:{ intros Hin. apply list_elem_of_In, in_map_iff in Hin as (i & E & _).
        exact (plane_name_not_profile i E). }
    rewrite lookup_copy_parms. cbn [native_of node_parms].
    rewrite lookup_copy_parms, HNp.
    rewrite (lookup_select_profile_eq _ _ _ _ Hpp Hi).
    destruct (lookup_parm (node_parms A) TK_OUTPUT_PROFILE_PARM);
      cbn [fmap option_fmap option_map];
      rewrite parm_value_set_raw, decide_True by exact Hk;
      cbn [set_raw parm_menu_labels];
      rewrite (py_index_list_index _ _ _ Hi); reflexivity.
Qed.

End RoundTrip.

(** ** The loops of the conversions *)

Lemma elem_of_instances ty st x :
  x ∈ instances ty st <->
  exists nd, nodes st !! x = Some nd /\ node_type nd = ty.
Proof.
  unfold instances. rewrite list_elem_of_fmap. split.
  - intros ([y nd] & -> & H). apply list_elem_of_filter in H as [H1 H2].
    apply elem_of_map_to_list in H2. eauto.
  - intros (nd & H1 & H2). exists (x, nd). split; [reflexivity|].
    apply list_elem_of_filter. split; [exact H2|].
    apply elem_of_map_to_list. exact H1.
Qed.

Lemma NoDup_instances ty st : NoDup (instances ty st).
Proof.
  unfold instances.
  apply (sublist_NoDup _ (map_to_list (nodes st)).*1).
  - apply NoDup_fst_map_to_list.
  - apply fmap_sublist, sublist_filter.
Qed.

Lemma attrs_lookup_lt st x A :
  fresh st -> attrs_lookup st x = Some A -> (x < next_id st)%nat.
Proof.
  intros Hf H. destruct (decide (x < next_id st)%nat) as [|Hge]; [assumption|].
  apply attrs_lookup_inv in H as (nd & H & _).
  rewrite (Hf x) in H by lia. discriminate H.
Qed.

Lemma attrs_type nd nd' : attrs nd = attrs nd' -> node_type nd = node_type nd'.
Proof. intros H. exact (f_equal node_type H). Qed.

(** The loop of [convert_to_regular_arnold_nodes] over toolkit nodes that
    can all be converted: the nodes of the list go, a native node comes
    for each, the others stay. *)
Lemma convert_to_regular_loop host NT c (L : list NodeId) st :
  node_types host HOU_ARNOLD_NODE_TYPE = Some NT ->
  (c <= nt_connectors NT)%nat ->
  NoDup L -> fresh st -> deg_ok c st ->
  (forall m, m ∈ L ->
     exists A, attrs_lookup st m = Some A /\ to_native_ok host NT A) ->
  exists st',
    for_each L (convert_to_regular_node host) st = (Ok tt, st') /\
    fresh st' /\ deg_ok c st' /\ (next_id st <= next_id st')%nat /\
    (forall x, (x < next_id st)%nat ->
       attrs_lookup st' x
         = if decide (x ∈ L) then None else attrs_lookup st x) /\
    (forall x, (next_id st <= x)%nat -> (x < next_id st')%nat ->
       exists m A, m ∈ L /\ attrs_lookup st m = Some A /\
                   attrs_lookup st' x = Some (native_of host NT A)) /\
    (forall m A, m ∈ L -> attrs_lookup st m = Some A ->
       exists x, (next_id st <= x)%nat /\ (x < next_id st')%nat /\
                 attrs_lookup st' x = Some (native_of host NT A)).
Proof.
  intros Hty Hc Hnd. revert st.
  induction Hnd as [|m L Hm HL IH]; intros st Hfresh Hdeg Hok.
  - exists st. split; [reflexivity|]. split; [exact Hfresh|].
    split; [exact Hdeg|]. split; [lia|]. split; [|split].
    + intros x _. rewrite decide_False by apply not_elem_of_nil. reflexivity.
    + intros x ? ?. lia.
    + intros m A Hin. apply not_elem_of_nil in Hin. contradiction.
  - destruct (Hok m) as (A & HA & Hcan & [prof Hp] & planes & Hpl & Hlab);
      [apply elem_of_cons; auto|].
    destruct (attrs_lookup_inv _ _ _ HA) as (nd & Hn & <-).
    destruct (convert_to_regular_node_run host NT c m nd prof planes st
                Hty Hn Hfresh Hdeg Hc Hcan Hp Hpl Hlab)
      as (st1 & Hrun & Hnext & Hfresh1 & Hdeg1 & Hattrs).
    assert (Hlt : forall m', m' ∈ m :: L -> (m' < next_id st)%nat).
    { intros m' Hin. destruct (Hok m' Hin) as (A' & HA' & _).
      exact (attrs_lookup_lt _ _ _ Hfresh HA'). }
    assert (Hsame : forall m', m' ∈ L ->
              attrs_lookup st1 m' = attrs_lookup st m').
    { intros m' Hin. rewrite Hattrs.
      assert (m' < next_id st)%nat by (apply Hlt, elem_of_cons; auto).
      rewrite decide_False by lia.
      rewrite decide_False by (intros ->; contradiction). reflexivity. }
    assert (Hnew : attrs_lookup st1 (next_id st)
                   = Some (native_of host NT (attrs nd))).
    { rewrite Hattrs, decide_True by reflexivity. reflexivity. }
    destruct (IH st1 Hfresh1 Hdeg1)
      as (st' & Hrun' & Hfresh' & Hdeg' & Hle' & Hframe' & Hnew' & Hconv').
    { intros m' Hin. rewrite (Hsame m' Hin). apply Hok, elem_of_cons; auto. }
    assert (HnotL : next_id st ∉ L).
    { intros Hin. assert (next_id st < next_id st)%nat; [|lia].
      apply Hlt, elem_of_cons; auto. }
    assert (Hkeep : attrs_lookup st' (next_id st)
                    = Some (native_of host NT (attrs nd))).
    { rewrite Hframe' by lia. rewrite decide_False by exact HnotL.
      exact Hnew. }
    exists st'. split.
    { cbn [for_each]. rewrite (bind_Ok _ _ _ _ _ Hrun). exact Hrun'. }
    split; [exact Hfresh'|]. split; [exact Hdeg'|]. split; [lia|].
    split; [|split].
    + intros x Hx. rewrite Hframe' by lia. rewrite Hattrs.
      rewrite (decide_False (P := x = next_id st)) by lia.
      destruct (decide (x ∈ L)) as [Hin|Hin].
      * rewrite decide_True by (apply elem_of_cons; auto). reflexivity.
      * destruct (decide (x = m)) as [->|Hne].
        -- rewrite decide_True by (apply elem_of_cons; auto). reflexivity.
        -- rewrite decide_False; [reflexivity|].
           intros [?|?]%elem_of_cons; contradiction.
    + intros x Hx1 Hx2. destruct (decide (x = next_id st)) as [->|Hne].
      * exists m, (attrs nd). split; [apply elem_of_cons; auto|]. auto.
      * destruct (Hnew' x) as (m' & A' & Hin & HA' & Hx'); [lia|lia|].
        exists m', A'. split; [apply elem_of_cons; auto|].
        rewrite <- (Hsame m' Hin). auto.
    + intros m' A' [->|Hin]%elem_of_cons HA'.
      * rewrite HA in HA'. injection HA' as <-.
        exists (next_id st). split; [lia|]. split; [lia|]. exact Hkeep.
      * rewrite <- (Hsame m' Hin) in HA'.
        destruct (Hconv' m' A' Hin HA') as (x & Hx1 & Hx2 & Hx3).
        exists x. split; [lia|]. auto.
Qed.

(** A native node without a profile name is left as it is, with a
    warning. *)
Lemma convert_back_node_unstamped host x nd st :
  nodes st !! x = Some nd -> unstamped nd ->
  convert_back_node host x st
    = (Ok tt, add_log LWarning (no_profile_warning (node_name nd)) st).
Proof.
  intros H Hud. unfold convert_back_node.
  rewrite (bind_Ok _ _ _ _ _ (hou_userDataDict_Some _ _ _ H)).
  destruct Hud as [Hud|Hud]; rewrite Hud;
    rewrite (bind_Ok _ _ _ _ _ (hou_name_Some _ _ _ H)); reflexivity.
Qed.

(** One turn of the loop of [convert_back_to_tk_arnold_nodes]. *)
Lemma convert_back_node_step host TT c x nd st :
  node_types host TK_ARNOLD_NODE_TYPE = Some TT ->
  (c <= nt_connectors TT)%nat ->
  nodes st !! x = Some nd -> fresh st -> deg_ok c st ->
  unstamped nd \/ to_tk_ok host TT nd ->
  exists st1,
    convert_back_node host x st = (Ok tt, st1) /\
    (next_id st <= next_id st1)%nat /\ fresh st1 /\ deg_ok c st1 /\
    (forall y, (y < next_id st)%nat -> y <> x ->
       attrs_lookup st1 y = attrs_lookup st y) /\
    (to_tk_ok host TT nd ->
       exists y, (next_id st <= y)%nat /\ (y < next_id st1)%nat /\
                 attrs_lookup st1 y = Some (tk_of host TT nd)).
Proof.
  intros Hty Hc Hn Hfresh Hdeg [Hun|Hok].
  - exists (add_log LWarning (no_profile_warning (node_name nd)) st).
    split; [exact (convert_back_node_unstamped host x nd st Hn Hun)|].
    split; [simpl; lia|]. split; [exact Hfresh|].
    split; [apply deg_ok_add_log, Hdeg|]. split; [reflexivity|].
    intros (prof & _ & _ & Hk & Hne & _). exfalso.
    destruct Hun as [Hun|Hun]; congruence.
  - destruct Hok as (prof & pp & planes & Hk & Hne & Hpp & Hl & Ht & Hcan
                     & Hpl & Hlab).
    destruct (convert_back_node_run host TT c x nd pp prof planes st
                Hty Hn Hfresh Hdeg Hc Hk Hne Hpp Hl Ht Hcan Hpl Hlab)
      as (st1 & Hrun & Hnext & Hfresh1 & Hdeg1 & Hattrs).
    exists st1. split; [exact Hrun|]. split; [lia|].
    split; [exact Hfresh1|]. split; [exact Hdeg1|]. split.
    + intros y Hy Hne'. rewrite Hattrs.
      rewrite decide_False by lia. rewrite decide_False by exact Hne'.
      reflexivity.
    + intros _. exists (next_id st). split; [lia|]. split; [lia|].
      rewrite Hattrs, decide_True by reflexivity. reflexivity.
Qed.

(** The loop of [convert_back_to_tk_arnold_nodes] over native nodes that
    bear no profile name or can be converted: a toolkit node comes for
    each that can, the nodes outside the list stay. *)
Lemma convert_back_loop host TT c (L : list NodeId) st :
  node_types host TK_ARNOLD_NODE_TYPE = Some TT ->
  (c <= nt_connectors TT)%nat ->
  NoDup L -> fresh st -> deg_ok c st ->
  (forall x, x ∈ L ->
     exists B, attrs_lookup st x = Some B /\
               (unstamped B \/ to_tk_ok host TT B)) ->
  exists st',
    for_each L (convert_back_node host) st = (Ok tt, st') /\
    fresh st' /\ deg_ok c st' /\ (next_id st <= next_id st')%nat /\
    (forall y, (y < next_id st)%nat -> y ∉ L ->
       attrs_lookup st' y = attrs_lookup st y) /\
    (forall x B, x ∈ L -> attrs_lookup st x = Some B ->
       to_tk_ok host TT B ->
       exists y, (next_id st <= y)%nat /\
                 attrs_lookup st' y = Some (tk_of host TT B)).
Proof.
  intros Hty Hc Hnd. revert st.
  induction Hnd as [|x L Hx HL IH]; intros st Hfresh Hdeg Hok.
  - exists st. split; [reflexivity|]. split; [exact Hfresh|].
    split; [exact Hdeg|]. split; [lia|]. split; [reflexivity|].
    intros x B Hin. apply not_elem_of_nil in Hin. contradiction.
  - destruct (Hok x) as (B & HB & HokB); [apply elem_of_cons; auto|].
    destruct (attrs_lookup_inv _ _ _ HB) as (nd & Hn & <-).
    destruct (convert_back_node_step host TT c x nd st
                Hty Hc Hn Hfresh Hdeg HokB)
      as (st1 & Hrun & Hle & Hfresh1 & Hdeg1 & Hframe & Hconv).
    assert (Hlt : forall x', x' ∈ x :: L -> (x' < next_id st)%nat).
    { intros x' Hin. destruct (Hok x' Hin) as (B' & HB' & _).
      exact (attrs_lookup_lt _ _ _ Hfresh HB'). }
    assert (Hsame : forall x', x' ∈ L ->
              attrs_lookup st1 x' = attrs_lookup st x').
    { intros x' Hin. apply Hframe; [apply Hlt, elem_of_cons; auto|].
      intros ->. contradiction. }
    destruct (IH st1 Hfresh1 Hdeg1)
      as (st' & Hrun' & Hfresh' & Hdeg' & Hle' & Hframe' & Hconv').
    { intros x' Hin. rewrite (Hsame x' Hin). apply Hok, elem_of_cons; auto. }
    exists st'. split.
    { cbn [for_each]. rewrite (bind_Ok _ _ _ _ _ Hrun). exact Hrun'. }
    split; [exact Hfresh'|]. split; [exact Hdeg'|]. split; [lia|]. split.
    + intros y Hy Hnin. apply not_elem_of_cons in Hnin as [Hne Hnin].
      rewrite Hframe' by (lia || exact Hnin). apply Hframe; assumption.
    + intros x' B' [->|Hin]%elem_of_cons HB' Hok'.
      * rewrite HB in HB'. injection HB' as <-.
        destruct (Hconv Hok') as (y & Hy1 & Hy2 & Hy3).
        exists y. split; [lia|]. rewrite Hframe'; [exact Hy3|exact Hy2|].
        intros Hin. assert (y < next_id st)%nat; [|lia].
        apply Hlt, elem_of_cons; auto.
      * rewrite <- (Hsame x' Hin) in HB'.
        destruct (Hconv' x' B' Hin HB' Hok') as (y & Hy1 & Hy2).
        exists y. split; [lia|]. exact Hy2.
Qed.

Lemma hou_instances_run host ty def st :
  node_types host ty = Some def ->
  hou_instances host ty st = (Ok (instances ty st), st).
Proof. intros H. unfold hou_instances. rewrite H. reflexivity. Qed.

(** [convert_to_regular_arnold_nodes] when every toolkit node can be
    converted: every node it leaves is a node that was there or the
    native node of a toolkit node, and every toolkit node has one. *)
Lemma convert_to_regular_arnold_nodes_run host NT TT c st :
  node_types host HOU_ARNOLD_NODE_TYPE = Some NT ->
  node_types host TK_ARNOLD_NODE_TYPE = Some TT ->
  (c <= nt_connectors NT)%nat ->
  fresh st -> deg_ok c st ->
  (forall m nd, nodes st !! m = Some nd ->
     node_type nd = TK_ARNOLD_NODE_TYPE -> to_native_ok host NT nd) ->
  exists st1,
    convert_to_regular_arnold_nodes host st = (Ok tt, st1) /\
    fresh st1 /\ deg_ok c st1 /\
    (forall x B, attrs_lookup st1 x = Some B ->
       attrs_lookup st x = Some B \/
       exists m nd, nodes st !! m = Some nd /\
                    node_type nd = TK_ARNOLD_NODE_TYPE /\
                    B = native_of host NT nd) /\
    (forall m nd, nodes st !! m = Some nd ->
       node_type nd = TK_ARNOLD_NODE_TYPE ->
       exists x, attrs_lookup st1 x = Some (native_of host NT nd)).
Proof.
  intros HN HT Hc Hfresh Hdeg Hok. unfold convert_to_regular_arnold_nodes.
  rewrite (bind_Ok _ _ _ _ _ (hou_instances_run host _ TT st HT)).
  destruct (instances TK_ARNOLD_NODE_TYPE st) as [|m0 L0] eqn:E.
  - exists (add_log LDebug "No Toolkit Arnold Nodes found for conversion." st).
    split; [reflexivity|]. split; [exact Hfresh|].
    split; [apply deg_ok_add_log, Hdeg|]. split; [auto|].
    intros m nd Hm Hty.
    assert (Hin : m ∈ instances TK_ARNOLD_NODE_TYPE st)
      by (apply elem_of_instances; eauto).
    rewrite E in Hin. apply not_elem_of_nil in Hin. contradiction.
  - rewrite <- E.
    destruct (convert_to_regular_loop host NT c
                (instances TK_ARNOLD_NODE_TYPE st) st HN Hc
                (NoDup_instances _ _) Hfresh Hdeg)
      as (st1 & Hrun & Hfresh1 & Hdeg1 & Hle & Hframe & Hnew & Hconv).
    { intros m (nd & Hm & Hty)%elem_of_instances.
      exists (attrs nd). split; [apply attrs_lookup_Some, Hm|].
      exact (Hok m nd Hm Hty). }
    exists st1. split; [exact Hrun|]. split; [exact Hfresh1|].
    split; [exact Hdeg1|]. split.
    + intros x B HB.
      pose proof (attrs_lookup_lt _ _ _ Hfresh1 HB) as Hx.
      destruct (decide (x < next_id st)%nat) as [Hlt|Hge].
      * left. rewrite (Hframe x Hlt) in HB.
        destruct (decide (x ∈ instances TK_ARNOLD_NODE_TYPE st));
          [discriminate HB|exact HB].
      * right. destruct (Hnew x) as (m & A & Hin & HA & Hx'); [lia|lia|].
        apply elem_of_instances in Hin as (nd & Hm & Hty).
        rewrite (attrs_lookup_Some _ _ _ Hm) in HA. injection HA as <-.
        exists m, nd. split; [exact Hm|]. split; [exact Hty|].
        rewrite HB in Hx'. injection Hx' as ->. reflexivity.
    + intros m nd Hm Hty.
      destruct (Hconv m (attrs nd)) as (x & _ & _ & Hx).
      * apply elem_of_instances; eauto.
      * apply attrs_lookup_Some, Hm.
      * exists x. exact Hx.
Qed.

(** [convert_back_to_tk_arnold_nodes] when every native node bears no
    profile name or can be converted: every one that can has its toolkit
    node. *)
Lemma convert_back_to_tk_arnold_nodes_run host NT TT c st :
  node_types host HOU_ARNOLD_NODE_TYPE = Some NT ->
  node_types host TK_ARNOLD_NODE_TYPE = Some TT ->
  (c <= nt_connectors TT)%nat ->
  fresh st -> deg_ok c st ->
  (forall x nd, nodes st !! x = Some nd ->
     node_type nd = HOU_ARNOLD_NODE_TYPE ->
     unstamped nd \/ to_tk_ok host TT nd) ->
  exists st2,
    convert_back_to_tk_arnold_nodes host st = (Ok tt, st2) /\
    fresh st2 /\ deg_ok c st2 /\
    (forall x nd, nodes st !! x = Some nd ->
       node_type nd = HOU_ARNOLD_NODE_TYPE -> to_tk_ok host TT nd ->
       exists y, attrs_lookup st2 y = Some (tk_of host TT nd)).
Proof.
  intros HN HT Hc Hfresh Hdeg Hok. unfold convert_back_to_tk_arnold_nodes.
  rewrite (bind_Ok _ _ _ _ _ (hou_instances_run host _ NT st HN)).
  destruct (instances HOU_ARNOLD_NODE_TYPE st) as [|x0 L0] eqn:E.
  - exists (add_log LDebug "No Arnold Nodes found for conversion." st).
    split; [reflexivity|]. split; [exact Hfresh|].
    split; [apply deg_ok_add_log, Hdeg|].
    intros x nd Hx Hty _.
    assert (Hin : x ∈ instances HOU_ARNOLD_NODE_TYPE st)
      by (apply elem_of_instances; eauto).
    rewrite E in Hin. apply not_elem_of_nil in Hin. contradiction.
  - rewrite <- E.
    destruct (convert_back_loop host TT c
                (instances HOU_ARNOLD_NODE_TYPE st) st HT Hc
                (NoDup_instances _ _) Hfresh Hdeg)
      as (st2 & Hrun & Hfresh2 & Hdeg2 & _ & _ & Hconv).
    { intros x (nd & Hx & Hty)%elem_of_instances.
      exists (attrs nd). split; [apply attrs_lookup_Some, Hx|].
      exact (Hok x nd Hx Hty). }
    exists st2. split; [exact Hrun|]. split; [exact Hfresh2|].
    split; [exact Hdeg2|].
    intros x nd Hx Hty Hnd.
    destruct (Hconv x (attrs nd)) as (y & _ & Hy).
    + apply elem_of_instances; eauto.
    + apply attrs_lookup_Some, Hx.
    + exact Hnd.
    + exists y. exact Hy.
Qed.

(** What the conversions ask of a node, they ask of its parameters and
    user data, not of its wiring. *)
Lemma unstamped_attrs nd nd' :
  attrs nd = attrs nd' -> unstamped nd -> unstamped nd'.
Proof.
  intros H. change (unstamped (attrs nd) -> unstamped (attrs nd')).
  rewrite H. auto.
Qed.

Lemma to_tk_ok_attrs host TT nd nd' :
  attrs nd = attrs nd' -> to_tk_ok host TT nd -> to_tk_ok host TT nd'.
Proof.
  intros H.
  change (to_tk_ok host TT (attrs nd) -> to_tk_ok host TT (attrs nd')).
  rewrite H. auto.
Qed.

Lemma selected_of_configured host TT nd :
  profile_configured host TT nd = true ->
  exists prof, selected_profile host nd = Some prof.
Proof.
  unfold profile_configured.
  destruct (selected_profile host nd) as [prof|]; [eauto|discriminate].
Qed.

Lemma fresh_all_nodes st :
  all_nodes (fun x _ => (x <? next_id st)%nat) st = true -> fresh st.
Proof.
  intros H x Hx. destruct (nodes st !! x) as [nd|] eqn:E; [|reflexivity].
  pose proof (all_nodes_lookup _ _ _ _ H E) as Hlt. simpl in Hlt.
  apply Nat.ltb_lt in Hlt. lia.
Qed.

Lemma deg_ok_all_nodes c st :
  all_nodes (fun _ nd => (size (node_inputs nd) <=? c)%nat) st = true ->
  deg_ok c st.
Proof.
  intros H x nd Hx. pose proof (all_nodes_lookup _ _ _ _ H Hx) as Hle.
  simpl in Hle. apply Nat.leb_le in Hle. exact Hle.
Qed.


Section Properties.
Context (host : Host) (app : App) (self : Handler).

(** ** _compute_output_path *)

Lemma readonly__get_output_profile node :
  readonly (_get_output_profile host self node).
Proof. unfold _get_output_profile, node_or_pwd. readonly_tac. Qed.

Lemma _get_hipfile_fields_run st :
  _get_hipfile_fields app st
    = (Ok (match get_template app "work_file_template" with
           | Some t => if validate app t (hip_path st)
                       then get_fields app t (hip_path st) else ∅
           | None => ∅
           end), st).
Proof.
  unfold _get_hipfile_fields, hou_hipFile_path, get_session, bind, ret.
  destruct (get_template app "work_file_template"); [|reflexivity].
  destruct (validate app t (hip_path st)); reflexivity.
Qed.

Lemma readonly__compute_output_path node template_name aov_name :
  readonly (_compute_output_path host app self node template_name aov_name).
Proof.
  unfold _compute_output_path.
  apply readonly_bind.
  { intros st. rewrite _get_hipfile_fields_run. reflexivity. }
  intros fields. destruct (decide (fields = ∅)); [auto with readonly|].
  apply readonly_bind; [apply readonly__get_output_profile|]. intros prof.
  readonly_tac.
Qed.

(** Whatever a computation bound after another returns, the
    continuation returned it. *)
Lemma bind_returns {A B} (m : M A) (k : A -> M B) st b st' :
  bind m k st = (Ok b, st') ->
  exists a st1, m st = (Ok a, st1) /\ k a st1 = (Ok b, st').
Proof.
  unfold bind. destruct (m st) as [[a|e] st1]; [eauto|discriminate].
Qed.

(** C3: [_compute_output_path] never touches the session; on a scene file
    the work-file template does not parse it raises the TankError that says
    the file is not a toolkit work file and so returns no path; a path it
    returns comes from a scene file the template parses and has forward
    slashes for all its separators. *)
Theorem compute_output_path_work_file :
  forall (node : NodeId) (template_name : string) (aov_name : Value)
         (st : Session),
    match _compute_output_path host app self node template_name aov_name st with
    | (Raise e, st') =>
        st' = st /\
        (is_work_file app (hip_path st) = false ->
         e = TankError NOT_A_WORK_FILE)
    | (Ok path, st') =>
        st' = st /\
        is_work_file app (hip_path st) = true /\
        only_forward_slashes host path
    end.
Proof.
  intros node template_name aov_name st.
  pose proof (readonly__compute_output_path node template_name aov_name st) as Hro.
  destruct (_compute_output_path host app self node template_name aov_name st)
    as [[path|e] st'] eqn:E; simpl in Hro; subst st'.
  - split; [reflexivity|].
    unfold _compute_output_path in E.
    rewrite (bind_Ok _ _ _ _ _ (_get_hipfile_fields_run st)) in E.
    unfold is_work_file.
    destruct (get_template app "work_file_template") as [t|];
      [destruct (validate app t (hip_path st))|].
    2,3: (destruct (decide (∅ = ∅)) as [_|Hne]; [discriminate E|congruence]).
    split; [reflexivity|].
    destruct (decide (get_fields app t (hip_path st) = ∅)); [discriminate E|].
    apply bind_returns in E as (prof & st1 & _ & E).
    destruct (prof_templates prof !! template_name); [|discriminate E].
    apply bind_returns in E as (name & st2 & _ & E).
    destruct (get_template_by_name app s) as [ot|]; [|discriminate E].
    destruct (apply_fields app ot _) as [err|p]; [discriminate E|].
    injection E as <- _. intros c. apply replace_char_slash.
  - split; [reflexivity|]. intros Hwf.
    unfold _compute_output_path in E.
    rewrite (bind_Ok _ _ _ _ _ (_get_hipfile_fields_run st)) in E.
    unfold is_work_file in Hwf.
    destruct (get_template app "work_file_template") as [t|];
      [rewrite Hwf in E|].
    all: destruct (decide (∅ = ∅)) as [_|Hne]; [|congruence].
    all: injection E as <-; reflexivity.
Qed.

(** ** _compute_and_set *)

(** Unlock, set, lock on a string parameter the node has. *)
Lemma unlock_set_lock_run n name s nd p st :
  nodes st !! n = Some nd ->
  lookup_parm (node_parms nd) name = Some p ->
  parm_template p = StringParmTemplate ->
  (r <- hou_parm n (VStr name) ;;
   parm_lock r false ;;;
   r <- hou_parm n (VStr name) ;;
   parm_set r (VStr s) ;;;
   r <- hou_parm n (VStr name) ;;
   parm_lock r true) st
    = (Ok tt, with_parm n name (written_locked (VStr s)) st).
Proof.
  intros H Hp Ht.
  rewrite (bind_Ok _ _ _ _ _ (hou_parm_Some _ _ _ _ _ H Hp)).
  rewrite (bind_Ok _ _ _ _ _ (parm_lock_run _ _ _ _ _ _ H Hp)).
  pose proof (with_parm_lookup n name (set_locked false) nd st H) as H1.
  assert (Hp1 : lookup_parm (node_parms (set_parms
                  (update_parm (node_parms nd) name (set_locked false)) nd))
                  name = Some (set_locked false p)).
  { simpl. rewrite lookup_update_parm_eq, Hp. reflexivity. }
  rewrite (bind_Ok _ _ _ _ _ (hou_parm_Some _ _ _ _ _ H1 Hp1)).
  rewrite (bind_Ok _ _ _ _ _
             (parm_set_run _ _ (VStr s) _ _ _ H1 Hp1 eq_refl
                ltac:(simpl; rewrite Ht; reflexivity))).
  rewrite with_parm_with_parm.
  pose proof (with_parm_lookup n name
                (fun p => set_raw (VStr s) (set_locked false p)) nd st H) as H2.
  assert (Hp2 : lookup_parm (node_parms (set_parms
                  (update_parm (node_parms nd) name
                     (fun p => set_raw (VStr s) (set_locked false p))) nd))
                  name = Some (set_raw (VStr s) (set_locked false p))).
  { simpl. rewrite lookup_update_parm_eq, Hp. reflexivity. }
  rewrite (bind_Ok _ _ _ _ _ (hou_parm_Some _ _ _ _ _ H2 Hp2)).
  rewrite (parm_lock_run _ _ _ _ _ _ H2 Hp2).
  rewrite with_parm_with_parm. reflexivity.
Qed.

Lemma _compute_and_set_error_run node parm_name template_name aov_name
    st nd p err :
  nodes st !! node = Some nd ->
  lookup_parm (node_parms nd) parm_name = Some p ->
  parm_template p = StringParmTemplate ->
  _compute_output_path host app self node template_name aov_name st
    = (Raise (TankError err), st) ->
  _compute_and_set host app self node parm_name template_name aov_name st
    = (Ok tt,
       with_parm node parm_name (written_locked (VStr ("ERROR: " +:+ err)))
         (add_log LWarning (node_name nd +:+ ": " +:+ err) st)).
Proof.
  intros H Hp Ht E. unfold _compute_and_set.
  assert (Htry :
    try_except (_compute_output_path host app self node template_name aov_name)
      (fun e => match e with
                | TankError err0 =>
                    Some (name <- hou_name node ;;
                          log_warning (name +:+ ": " +:+ err0) ;;;
                          ret ("ERROR: " +:+ err0))
                | _ => None
                end) st
    = (Ok ("ERROR: " +:+ err),
       add_log LWarning (node_name nd +:+ ": " +:+ err) st)).
  { unfold try_except. rewrite E.
    rewrite (bind_Ok _ _ _ _ _ (hou_name_Some _ _ _ H)). reflexivity. }
  rewrite (bind_Ok _ _ _ _ _ Htry).
  apply (unlock_set_lock_run node parm_name _ nd p); assumption.
Qed.

Lemma no_tank__compute_and_set node parm_name template_name aov_name :
  raises_only not_TankError
    (_compute_and_set host app self node parm_name template_name aov_name).
Proof.
  unfold _compute_and_set.
  apply raises_only_bind.
  - apply raises_only_try_except. intros e.
    destruct e; try exact I. no_tank_tac.
  - intros path. no_tank_tac.
Qed.

Lemma no_tank_update_parms node :
  raises_only not_TankError (update_parms host node).
Proof. unfold update_parms, node_or_pwd. no_tank_tac. Qed.

Lemma no_tank_reset_render_path node :
  raises_only not_TankError (reset_render_path host app self node).
Proof.
  unfold reset_render_path.
  pose proof no_tank__compute_and_set. pose proof no_tank_update_parms.
  assert (raises_only not_TankError (node_or_pwd node))
    by (unfold node_or_pwd; no_tank_tac).
  no_tank_tac.
Qed.

Lemma _compute_output_path_not_work_file node template_name aov_name st :
  is_work_file app (hip_path st) = false ->
  _compute_output_path host app self node template_name aov_name st
    = (Raise (TankError NOT_A_WORK_FILE), st).
Proof.
  intros Hwf. unfold _compute_output_path.
  rewrite (bind_Ok _ _ _ _ _ (_get_hipfile_fields_run st)).
  unfold is_work_file in Hwf.
  destruct (get_template app "work_file_template") as [t|];
    [rewrite Hwf|]; reflexivity.
Qed.

Ltac names_differ :=
  let E := fresh "E" in
  intros E; cbn in E; discriminate E.

Lemma keeps__compute_and_set n x v node parm_name template_name aov_name :
  parm_name <> x ->
  preserves (holds_locked n x v)
    (_compute_and_set host app self node parm_name template_name aov_name).
Proof.
  intros Hne. unfold _compute_and_set. apply preserves_bind.
  - apply preserves_try_except.
    + apply preserves_readonly, readonly__compute_output_path.
    + intros e h Hh. destruct e; try discriminate Hh.
      injection Hh as <-. apply preserves_bind.
      * apply preserves_readonly, readonly_hou_name.
      * intros name _ _ _. apply preserves_bind;
          [apply keeps_log_warning | intros; apply preserves_ret].
  - intros path _ _ _.
    apply keeps_hou_parm_bind; [exact Hne|]. intros r Hr.
    apply preserves_bind; [apply keeps_parm_lock, Hr|]. intros _ _ _ _.
    apply keeps_hou_parm_bind; [exact Hne|]. intros r' Hr'.
    apply preserves_bind; [apply keeps_parm_set, Hr'|]. intros _ _ _ _.
    apply keeps_hou_parm_bind; [exact Hne|]. intros r'' Hr''.
    apply keeps_parm_lock, Hr''.
Qed.

Lemma readonly__get_extra_plane_numbers node :
  readonly (_get_extra_plane_numbers host node).
Proof. unfold _get_extra_plane_numbers. readonly_tac. Qed.

(** [update_parms] writes native parameters only. *)
Lemma keeps_update_parms n x v node :
  String.prefix "sgtk_" x = true ->
  preserves (holds_locked n x v) (update_parms host node).
Proof.
  intros Hx. unfold update_parms.
  assert (Hcopy : forall nd p1 p2, String.prefix "sgtk_" p2 = false ->
    preserves (holds_locked n x v)
      (r2 <- hou_parm nd (VStr p2) ;;
       hou_getattr r2 ;;;
       r1 <- hou_parm nd (VStr p1) ;;
       s <- parm_unexpandedString r1 ;;
       parm_set r2 (VStr s))).
  { intros nd p1 p2 Hp2. apply keeps_hou_parm_bind; [congruence|].
    intros r2 Hr2.
    apply preserves_bind;
      [apply preserves_readonly, readonly_hou_getattr|]. intros _ _ _ _.
    apply preserves_bind;
      [apply preserves_readonly, readonly_hou_parm|]. intros r1 _ _ _.
    apply preserves_bind;
      [apply preserves_readonly, readonly_parm_unexpandedString|].
    intros s _ _ _. apply keeps_parm_set, Hr2. }
  apply preserves_bind;
    [apply preserves_readonly; destruct node; unfold node_or_pwd;
     auto with readonly|].
  intros nd _ _ _. apply preserves_bind.
  - apply preserves_for_each. intros [p1 p2] Hin. simpl in Hin.
    destruct Hin as [[= <- <-]|[[= <- <-]|[]]]; apply Hcopy; reflexivity.
  - intros _ _ _ _. apply preserves_bind;
      [apply preserves_readonly, readonly__get_extra_plane_numbers|].
    intros planes _ _ _. apply preserves_for_each. intros i _.
    apply Hcopy. reflexivity.
Qed.

(** Past the render templates, [reset_render_path] writes neither of their
    two parameters. *)
Lemma keeps_reset_render_path_rest n x v node :
  x = "sgtk_ass_diskfile" \/ x = "sgtk_ar_filename" ->
  preserves (holds_locked n x v)
    (plane_numbers <- _get_extra_plane_numbers host node ;;
     for_each plane_numbers (fun plane_number =>
       usefile_parm <-
         hou_parm node (VStr ("ar_aov_separate" +:+ pretty plane_number)) ;;
       usefile <- parm_eval host usefile_parm ;;
       if truthy usefile then
         for_each TK_EXTRA_PLANE_TEMPLATE_MAPPING (fun m =>
           let parm_name := replace_char "#" (pretty plane_number) (fst m) in
           label_parm <-
             hou_parm node (VStr (TK_EXTRA_PLANES_NAME plane_number)) ;;
           aov_name <- parm_eval host label_parm ;;
           _compute_and_set host app self node parm_name (snd m) aov_name)
       else ret tt) ;;;
     p <- hou_parm node (VStr NODE_OUTPUT_PATH_PARM) ;;
     path <- parm_unexpandedString p ;;
     p <- hou_parm node (VStr "sgtk_ar_picture") ;;
     parm_set p (VStr path) ;;;
     p <- hou_parm node (VStr "ar_picture") ;;
     parm_set p (VStr path) ;;;
     update_parms host (Some node)).
Proof.
  intros Hx.
  apply preserves_bind;
    [apply preserves_readonly, readonly__get_extra_plane_numbers|].
  intros planes _ _ _. apply preserves_bind.
  - apply preserves_for_each. intros i _.
    apply preserves_bind; [apply preserves_readonly, readonly_hou_parm|].
    intros r _ _ _.
    apply preserves_bind; [apply preserves_readonly, readonly_parm_eval|].
    intros usefile _ _ _. destruct (truthy usefile); [|apply preserves_ret].
    apply preserves_for_each. intros [pn tn] Hin. simpl in Hin.
    destruct Hin as [[= <- <-]|[]].
    apply preserves_bind; [apply preserves_readonly, readonly_hou_parm|].
    intros lp _ _ _.
    apply preserves_bind; [apply preserves_readonly, readonly_parm_eval|].
    intros aov _ _ _. apply keeps__compute_and_set.
    destruct Hx as [-> | ->]; names_differ.
  - intros _ _ _ _.
    apply preserves_bind; [apply preserves_readonly, readonly_hou_parm|].
    intros r _ _ _.
    apply preserves_bind;
      [apply preserves_readonly, readonly_parm_unexpandedString|].
    intros path _ _ _.
    apply keeps_hou_parm_bind; [destruct Hx as [-> | ->]; names_differ|].
    intros r1 Hr1.
    apply preserves_bind; [apply keeps_parm_set, Hr1|]. intros _ _ _ _.
    apply keeps_hou_parm_bind; [destruct Hx as [-> | ->]; names_differ|].
    intros r2 Hr2.
    apply preserves_bind; [apply keeps_parm_set, Hr2|]. intros _ _ _ _.
    apply keeps_update_parms. destruct Hx as [-> | ->]; reflexivity.
Qed.

Lemma holds_locked_written n name v nd p st :
  nodes st !! n = Some nd ->
  lookup_parm (node_parms nd) name = Some p ->
  holds_locked n name v (with_parm n name (written_locked v) st).
Proof.
  intros H Hp.
  exists (set_parms (update_parm (node_parms nd) name (written_locked v)) nd),
         (written_locked v p).
  rewrite (with_parm_lookup _ _ _ _ _ H). simpl.
  rewrite lookup_update_parm_eq, Hp. auto.
Qed.

(** On a scene file that is no work file, [reset_render_path] writes the
    error into the first render-template parameter and goes on to the
    second. *)
Lemma reset_render_path_goes_on n st nd p1 p2 :
  nodes st !! n = Some nd ->
  String.prefix "original0" (node_name nd) = false ->
  is_work_file app (hip_path st) = false ->
  lookup_parm (node_parms nd) "sgtk_ass_diskfile" = Some p1 ->
  parm_template p1 = StringParmTemplate ->
  lookup_parm (node_parms nd) "sgtk_ar_filename" = Some p2 ->
  parm_template p2 = StringParmTemplate ->
  let st' := snd (reset_render_path host app self (Some n) st) in
  holds_locked n "sgtk_ass_diskfile" (VStr ("ERROR: " +:+ NOT_A_WORK_FILE)) st' /\
  holds_locked n "sgtk_ar_filename" (VStr ("ERROR: " +:+ NOT_A_WORK_FILE)) st'.
Proof.
  intros H Hdup Hwf Hp1 Ht1 Hp2 Ht2.
  set (err := VStr ("ERROR: " +:+ NOT_A_WORK_FILE)).
  set (warn := node_name nd +:+ ": " +:+ NOT_A_WORK_FILE).
  set (st1 := with_parm n "sgtk_ass_diskfile" (written_locked err)
                (add_log LWarning warn st)).
  set (nd1 := set_parms (update_parm (node_parms nd) "sgtk_ass_diskfile"
                           (written_locked err)) nd).
  assert (H1 : nodes st1 !! n = Some nd1)
    by (apply (with_parm_lookup n _ _ nd (add_log LWarning warn st)), H).
  assert (Hp2' : lookup_parm (node_parms nd1) "sgtk_ar_filename" = Some p2).
  { simpl. rewrite lookup_update_parm_ne; [exact Hp2|discriminate]. }
  set (st2 := with_parm n "sgtk_ar_filename" (written_locked err)
                (add_log LWarning warn st1)).
  assert (Hhip1 : hip_path st1 = hip_path st).
  { unfold st1, with_parm. simpl. rewrite H. reflexivity. }
  assert (P1 : holds_locked n "sgtk_ass_diskfile" err st1).
  { apply (holds_locked_written n _ err nd p1 (add_log LWarning warn st));
      assumption. }
  assert (P2 : holds_locked n "sgtk_ar_filename" err st2).
  { apply (holds_locked_written n _ err nd1 p2 (add_log LWarning warn st1));
      assumption. }
  assert (P1' : holds_locked n "sgtk_ass_diskfile" err st2).
  { apply holds_locked_with_parm_ne; [discriminate|].
    apply holds_locked_add_log. exact P1. }
  intros st'. subst st'. unfold reset_render_path.
  rewrite (bind_Ok _ _ _ _ _ (node_or_pwd_run (Some n) st)). simpl node_or_pwd_of.
  rewrite (bind_Ok _ _ _ _ _ (hou_name_Some _ _ _ H)), Hdup.
  unfold TK_RENDER_TEMPLATE_MAPPING. cbn [for_each fst snd].
  assert (E1 : _compute_and_set host app self n "sgtk_ass_diskfile"
                 "output_ifd_template" VNone st = (Ok tt, st1)).
  { apply (_compute_and_set_error_run n _ _ _ st nd p1); try assumption.
    apply _compute_output_path_not_work_file, Hwf. }
  assert (E2 : _compute_and_set host app self n "sgtk_ar_filename"
                 "output_render_template" VNone st1 = (Ok tt, st2)).
  { assert (node_name nd1 = node_name nd) as Hn by reflexivity.
    unfold st2, warn. rewrite <- Hn.
    apply (_compute_and_set_error_run n _ _ _ st1 nd1 p2); try assumption.
    apply _compute_output_path_not_work_file. rewrite Hhip1. exact Hwf. }
  assert (E12 :
    (_compute_and_set host app self n "sgtk_ass_diskfile"
       "output_ifd_template" VNone ;;;
     _compute_and_set host app self n "sgtk_ar_filename"
       "output_render_template" VNone ;;; ret tt) st = (Ok tt, st2)).
  { rewrite (bind_Ok _ _ _ _ _ E1), (bind_Ok _ _ _ _ _ E2). reflexivity. }
  rewrite (bind_Ok _ _ _ _ _ E12).
  split; apply keeps_reset_render_path_rest; auto.
Qed.

(** C5: when computing the path fails with a TankError, [_compute_and_set]
    logs it, writes [ERROR: ] and the message into the parameter (unlock,
    set, lock) and returns; it never lets a TankError through, nor does
    [reset_render_path], which goes on to the parameters that remain: on a
    scene file that is no work file both render-template parameters end up
    holding the error, whatever happens afterwards. *)
Theorem compute_and_set_catches_TankError :
  (forall (node : NodeId) (parm_name template_name : string)
          (aov_name : Value) (st : Session) (nd : Node) (p : Parm)
          (err : string),
      nodes st !! node = Some nd ->
      lookup_parm (node_parms nd) parm_name = Some p ->
      parm_template p = StringParmTemplate ->
      fst (_compute_output_path host app self node template_name aov_name st)
        = Raise (TankError err) ->
      _compute_and_set host app self node parm_name template_name aov_name st
        = (Ok tt,
           with_parm node parm_name (written_locked (VStr ("ERROR: " +:+ err)))
             (add_log LWarning (node_name nd +:+ ": " +:+ err) st))) /\
  (forall (node : NodeId) (parm_name template_name : string)
          (aov_name : Value),
      raises_only not_TankError
        (_compute_and_set host app self node parm_name template_name aov_name)) /\
  (forall node : option NodeId,
      raises_only not_TankError (reset_render_path host app self node)) /\
  (forall (n : NodeId) (st : Session) (nd : Node) (p1 p2 : Parm),
      nodes st !! n = Some nd ->
      String.prefix "original0" (node_name nd) = false ->
      is_work_file app (hip_path st) = false ->
      lookup_parm (node_parms nd) "sgtk_ass_diskfile" = Some p1 ->
      parm_template p1 = StringParmTemplate ->
      lookup_parm (node_parms nd) "sgtk_ar_filename" = Some p2 ->
      parm_template p2 = StringParmTemplate ->
      let st' := snd (reset_render_path host app self (Some n) st) in
      holds_locked n "sgtk_ass_diskfile"
        (VStr ("ERROR: " +:+ NOT_A_WORK_FILE)) st' /\
      holds_locked n "sgtk_ar_filename"
        (VStr ("ERROR: " +:+ NOT_A_WORK_FILE)) st').
Proof.
  split; [|split; [|split]].
  - intros node parm_name template_name aov_name st nd p err H Hp Ht E.
    apply (_compute_and_set_error_run node _ _ _ st nd p); try assumption.
    pose proof (readonly__compute_output_path node template_name aov_name st)
      as Hro.
    destruct (_compute_output_path host app self node template_name aov_name st)
      as [o s1]. simpl in *. congruence.
  - apply no_tank__compute_and_set.
  - apply no_tank_reset_render_path.
  - apply reset_render_path_goes_on.
Qed.

(** ** get_output_path_menu *)

Lemma get_output_path_menu_on_pwd (node : option NodeId) (st : Session) :
  get_output_path_menu host app self node st
    = output_path_menu_of host app self (pwd st) st.
Proof. reflexivity. Qed.

(** C10: [get_output_path_menu] ignores its [node] argument: the guard
    [if not None] always holds, so the method works on the host's current
    node [hou.pwd()], whatever the caller supplied. *)
Theorem get_output_path_menu_ignores_node :
  py_not VNone = true /\
  forall (node node' : option NodeId) (st : Session),
    get_output_path_menu host app self node st
      = output_path_menu_of host app self (pwd st) st /\
    get_output_path_menu host app self node st
      = get_output_path_menu host app self node' st.
Proof.
  split; [reflexivity|].
  intros node node' st. split.
  - apply get_output_path_menu_on_pwd.
  - rewrite !get_output_path_menu_on_pwd. reflexivity.
Qed.

(** C2, at the input where the code departs from it: on a node whose
    initialized flag reads [True] (the first run), the method asks the node
    for the parameter named by the boolean [is_first_run] instead of the
    flag's name, the host refuses, and the call raises before the flag is
    written and before [reset_render_path]: the session is untouched, so no
    render path is recomputed and every later call fails the same way. *)
Theorem get_output_path_menu_first_run_raises :
  forall (node : option NodeId) (st : Session) (nd : Node) (p : Parm),
    nodes st !! pwd st = Some nd ->
    lookup_parm (node_parms nd) TK_INIT_PARM_NAME = Some p ->
    parm_value host p = VStr "True" ->
    get_output_path_menu host app self node st = (Raise TypeError, st).
Proof.
  intros node st nd p Hnd Hp Hv.
  rewrite get_output_path_menu_on_pwd. unfold output_path_menu_of.
  rewrite (bind_Ok _ _ _ _ _ (hou_parm_Some _ _ _ _ _ Hnd Hp)).
  rewrite (bind_Ok _ _ _ _ _ (parm_eval_Some _ _ _ _ _ _ Hnd Hp)).
  rewrite Hv. cbn [py_eq String.eqb Ascii.eqb Bool.eqb].
  apply bind_Raise. apply bind_Raise.
  apply (hou_parm_not_a_path _ _ _ _ Hnd).
Qed.

(** ** reset_render_path *)

(** C7: on a node whose name starts with the prefix the host gives a node
    it is duplicating ([original0]), [reset_render_path] returns at once:
    the session, and with it every parameter of the node, is as before. *)
Theorem reset_render_path_skips_duplicate :
  forall (node : option NodeId) (st : Session) (nd : Node),
    nodes st !! node_or_pwd_of node st = Some nd ->
    String.prefix "original0" (node_name nd) = true ->
    reset_render_path host app self node st = (Ok tt, st).
Proof.
  intros node st nd Hnd Hpre. unfold reset_render_path.
  rewrite (bind_Ok _ _ _ _ _ (node_or_pwd_run node st)).
  rewrite (bind_Ok _ _ _ _ _ (hou_name_Some _ _ _ Hnd)).
  rewrite Hpre. reflexivity.
Qed.

(** ** _copy_inputs *)

(** C4: when the source has more input connections than the target has
    input connectors, [_copy_inputs] raises [hou.InvalidInput] with a
    message naming both nodes and the session is as before (nothing is
    wired); otherwise it returns, and every input connection of the source
    is then on the target at the same slot index, the other slots of the
    target, the source and all other nodes being as they were. *)
Theorem copy_inputs_all_or_nothing :
  forall (source_node target_node : NodeId) (st : Session)
         (source target : Node),
    nodes st !! source_node = Some source ->
    nodes st !! target_node = Some target ->
    (node_connectors target < size (node_inputs source) ->
     _copy_inputs source_node target_node st
       = (Raise (InvalidInput
                   (not_enough_inputs (node_path source) (node_path target))),
          st)) /\
    (size (node_inputs source) <= node_connectors target ->
     exists st',
       _copy_inputs source_node target_node st = (Ok tt, st') /\
       (forall i up, wired st source_node i up -> wired st' target_node i up) /\
       (forall i up, node_inputs source !! i = None ->
                     wired st target_node i up -> wired st' target_node i up) /\
       (forall i up, wired st source_node i up -> wired st' source_node i up) /\
       (forall d, d <> target_node -> nodes st' !! d = nodes st !! d)).
Proof.
  intros source_node target_node st source target Hs Ht.
  rewrite (_copy_inputs_run _ _ _ _ _ Hs Ht). split.
  - intros Hlt. apply Nat.ltb_lt in Hlt. rewrite Hlt. reflexivity.
  - intros Hle. apply Nat.ltb_ge in Hle. rewrite Hle.
    eexists. split; [reflexivity|].
    assert (Hcopied : forall i up, wired st source_node i up ->
              wired (with_inputs target_node (fun m => node_inputs source ∪ m) st)
                    target_node i up).
    { intros i up (nd & Hnd & Hi). rewrite Hs in Hnd. injection Hnd as <-.
      eexists. split; [apply (with_inputs_lookup _ _ _ _ Ht)|]. simpl.
      apply lookup_union_Some_raw. left. exact Hi. }
    split; [exact Hcopied|]. split; [|split].
    + intros i up Hnone (nd & Hnd & Hi). rewrite Ht in Hnd.
      injection Hnd as <-.
      eexists. split; [apply (with_inputs_lookup _ _ _ _ Ht)|]. simpl.
      apply lookup_union_Some_raw. right. auto.
    + intros i up Hw. destruct (decide (source_node = target_node)) as [->|Hne].
      * apply Hcopied, Hw.
      * destruct Hw as (nd & Hnd & Hi). exists nd.
        rewrite with_inputs_lookup_ne by auto. auto.
    + intros d Hd. apply with_inputs_lookup_ne. auto.
Qed.

(** ** _move_outputs *)

(** C6, as amended: for a source node and a different target,
    [_move_outputs] returns, every slot that was wired to the source is
    then wired to the target at the same index, and no slot is wired to the
    source any more. *)
Theorem move_outputs_rewires :
  forall (source_node target_node : NodeId) (st : Session),
    is_Some (nodes st !! source_node) ->
    source_node <> target_node ->
    moves_outputs source_node target_node st.
Proof.
  intros source_node target_node st [nd Hnd] Hne. unfold moves_outputs.
  rewrite (_move_outputs_run _ _ _ _ Hnd). simpl.
  split; [reflexivity|]. split.
  - intros d i Hw. apply wired_rewire. left.
    destruct Hw as (dn & Hd & Hi).
    split; [apply elem_of_outputs_of; eauto|]. eauto.
  - apply elem_of_nil_inv. intros [d i] Hin.
    apply elem_of_outputs_of in Hin as (dn & Hd & Hi).
    assert (Hw : wired (rewire (outputs_of (nodes st) source_node)
                          target_node st) d i source_node)
      by (exists dn; auto).
    apply wired_rewire in Hw as [(_ & _ & Heq)|[Hnin Hw]].
    + congruence.
    + apply Hnin. apply elem_of_outputs_of. exact Hw.
Qed.

(** ** _copy_parm_values *)

(** The plain copy of a parameter that is no folder, no string and has no
    keyframes, when the target refuses the value. *)
Lemma copy_parm_value_mismatch target_node source_node name st
    source target sp tp :
  nodes st !! source_node = Some source ->
  lookup_parm (node_parms source) name = Some sp ->
  nodes st !! target_node = Some target ->
  lookup_parm (node_parms target) name = Some tp ->
  parm_template sp <> FolderSetParmTemplate ->
  parm_template sp <> StringParmTemplate ->
  parm_keys sp = ∅ ->
  parm_locked tp = false ->
  accepts (parm_template tp) (parm_value host sp) = false ->
  copy_parm_value host target_node (source_node, name) st
    = if String.prefix "lpre" name || String.prefix "lpost" name
      then (s <- lift (py_index ["hscript"; "python"] (parm_value host sp)) ;;
            parm_set (Some (target_node, name)) (VStr s)) st
      else (Raise TypeError, st).
Proof.
  intros Hs Hsp Ht Htp Hfolder Hstring Hkeys Hlock Hacc.
  unfold copy_parm_value.
  rewrite (bind_Ok _ _ _ _ _ (parm_parmTemplate_Some _ _ _ _ _ Hs Hsp)).
  rewrite decide_False by exact Hfolder.
  rewrite (bind_Ok _ _ _ _ _ (hou_parm_Some _ _ _ _ _ Ht Htp)).
  rewrite (bind_Ok _ _ _ _ _ (parm_keyframes_Some _ _ _ _ _ Hs Hsp)).
  rewrite Hkeys, map_to_list_empty.
  rewrite decide_False by exact Hstring.
  assert (Hplain :
    (v <- parm_eval host (Some (source_node, name)) ;;
     parm_set (Some (target_node, name)) v) st = (Raise TypeError, st)).
  { rewrite (bind_Ok _ _ _ _ _ (parm_eval_Some host _ _ _ _ _ Hs Hsp)).
    apply (parm_set_TypeError _ _ _ _ _ _ Ht Htp Hlock Hacc). }
  unfold try_except. rewrite Hplain. cbn [fst snd].
  destruct (String.prefix "lpre" name || String.prefix "lpost" name);
    cbv beta iota.
  - rewrite (bind_Ok _ _ _ _ _ (parm_eval_Some host _ _ _ _ _ Hs Hsp)).
    reflexivity.
  - reflexivity.
Qed.


(** ** convert_back_to_tk_arnold_nodes *)

Lemma attrs_user_data nd nd' :
  attrs nd' = attrs nd -> node_user_data nd' = node_user_data nd.
Proof. intros H. apply (f_equal node_user_data) in H. exact H. Qed.

Lemma attrs_name nd nd' :
  attrs nd' = attrs nd -> node_name nd' = node_name nd.
Proof. intros H. apply (f_equal node_name) in H. exact H. Qed.

(** A native node without a stored profile name: the loop body warns and
    is done. *)
Lemma convert_back_node_skips n nd st :
  nodes st !! n = Some nd ->
  node_user_data nd !! TK_OUTPUT_PROFILE_NAME_KEY = None ->
  convert_back_node host n st
    = (Ok tt, add_log LWarning (no_profile_warning (node_name nd)) st).
Proof.
  intros H Hud. unfold convert_back_node.
  rewrite (bind_Ok _ _ _ _ _ (hou_userDataDict_Some _ _ _ H)), Hud.
  rewrite (bind_Ok _ _ _ _ _ (hou_name_Some _ _ _ H)). reflexivity.
Qed.

(** Converting any node leaves a node without a stored profile name in
    place. *)
Lemma kept_convert_back_node n nd m :
  node_user_data nd !! TK_OUTPUT_PROFILE_NAME_KEY = None ->
  preserves (node_kept n nd) (convert_back_node host m).
Proof.
  intros Hud. unfold convert_back_node.
  apply preserves_bind_inv;
    [apply preserves_readonly, readonly_hou_userDataDict|].
  intros ud st st' HP E.
  assert (Hskip : preserves (node_kept n nd)
            (name <- hou_name m ;;
             log_warning ("Arnold node '" +:+ name
               +:+ "' does not have an output profile name. "
               +:+ "Can't convert to Tk Arnold node. Continuing."))).
  { apply preserves_bind; [apply preserves_readonly, readonly_hou_name|].
    intros name _ _ _. apply kept_log. }
  destruct (decide (m = n)) as [->|Hne].
  { destruct HP as [_ (nd' & Hn & Ha)].
    rewrite (hou_userDataDict_Some _ _ _ Hn) in E. injection E as <- _.
    rewrite (attrs_user_data _ _ Ha), Hud. exact Hskip. }
  destruct (ud !! TK_OUTPUT_PROFILE_NAME_KEY) as [profile|]; [|exact Hskip].
  destruct profile as [|c profile]; [exact Hskip|].
  apply preserves_bind; [apply preserves_readonly, readonly_hou_parent|].
  intros parent _ _ _.
  apply preserves_bind_inv; [apply kept_hou_createNode|].
  intros t st1 st1' HP1 E1.
  pose proof (hou_createNode_fresh _ _ _ _ _ _ _ _ HP1 E1) as Ht.
  apply preserves_bind.
  { apply preserves_try_except.
    - apply kept_hou_parm_bind; [exact Ht|]. intros r Hr.
      apply preserves_bind;
        [apply preserves_readonly, readonly_parm_menuLabels|].
      intros labels _ _ _.
      destruct (py_list_index labels _); [|apply preserves_raise].
      apply kept_parm_set, Hr.
    - intros e h Hh. destruct e; try discriminate Hh.
      injection Hh as <-. apply kept_log. }
  intros _ _ _ _.
  apply preserves_bind; [apply kept__copy_parm_values, Ht|].
  intros _ _ _ _.
  apply preserves_bind;
    [apply preserves_readonly, readonly__get_extra_plane_numbers|].
  intros planes _ _ _.
  apply preserves_bind.
  { apply preserves_for_each. intros i _.
    apply kept_hou_parm_bind; [exact Ht|]. intros r Hr.
    apply kept_parm_set, Hr. }
  intros _ _ _ _.
  apply preserves_bind; [apply kept__copy_inputs|]. intros _ _ _ _.
  apply preserves_bind; [apply kept__move_outputs|]. intros _ _ _ _.
  apply preserves_bind; [apply preserves_readonly, readonly_hou_name|].
  intros name _ _ _.
  apply preserves_bind; [apply preserves_readonly, readonly_hou_position|].
  intros pos _ _ _.
  apply preserves_bind; [apply kept_hou_destroy, Hne|]. intros _ _ _ _.
  apply preserves_bind; [apply kept_hou_setName, Ht|]. intros _ _ _ _.
  apply preserves_bind; [apply kept_hou_setPosition, Ht|]. intros _ _ _ _.
  apply kept_log.
Qed.

Lemma kept_convert_back_to_tk_arnold_nodes n nd :
  node_user_data nd !! TK_OUTPUT_PROFILE_NAME_KEY = None ->
  preserves (node_kept n nd) (convert_back_to_tk_arnold_nodes host).
Proof.
  intros Hud. unfold convert_back_to_tk_arnold_nodes.
  apply preserves_bind.
  { apply preserves_readonly. unfold hou_instances.
    destruct (node_types host HOU_ARNOLD_NODE_TYPE); readonly_tac. }
  intros l _ _ _. destruct l as [|x l]; [apply kept_log|].
  apply preserves_for_each. intros m _.
  apply kept_convert_back_node, Hud.
Qed.



End Properties.

(** * The theorems at work on the demo session *)

Lemma reset_render_path_skips_duplicate_witness :
  reset_render_path Demo.host Demo.app Demo.self (Some 1)
      (Demo.session "/proj/shot.v003.hip"
         (Demo.tk_node "original0_arnold1" Demo.tk_parms))
    = (Ok tt, Demo.session "/proj/shot.v003.hip"
                (Demo.tk_node "original0_arnold1" Demo.tk_parms)).
Proof.
  apply (reset_render_path_skips_duplicate Demo.host Demo.app Demo.self
           (Some 1) _ (Demo.tk_node "original0_arnold1" Demo.tk_parms));
    reflexivity.
Defined.

Lemma get_output_path_menu_first_run_raises_witness :
  get_output_path_menu Demo.host Demo.app Demo.self (Some 1)
      (Demo.session "/proj/shot.v003.hip" (Demo.tk_node "arnold1" Demo.first_run_parms))
    = (Raise TypeError,
       Demo.session "/proj/shot.v003.hip" (Demo.tk_node "arnold1" Demo.first_run_parms)).
Proof.
  apply (get_output_path_menu_first_run_raises Demo.host Demo.app Demo.self
           (Some 1) _ (Demo.tk_node "arnold1" Demo.first_run_parms)
           (Demo.str_parm "True")); reflexivity.
Defined.

(** [_compute_output_path] on a work file: the separators of the platform
    come back as forward slashes. *)
Example compute_output_path_demo :
  _compute_output_path Demo.host Demo.app Demo.self 1
      "output_render_template" VNone
      (Demo.session "/proj/shot.v003.hip" (Demo.tk_node "arnold1" Demo.tk_parms))
    = (Ok "C:/renders/render/arnold1",
       Demo.session "/proj/shot.v003.hip" (Demo.tk_node "arnold1" Demo.tk_parms)).
Proof. vm_compute. reflexivity. Qed.

Lemma compute_and_set_catches_TankError_witness :
  let st := Demo.session "/tmp/untitled.hip"
              (Demo.tk_node "arnold1" Demo.tk_parms) in
  _compute_and_set Demo.host Demo.app Demo.self 1
      "sgtk_ar_filename" "output_render_template" VNone st
    = (Ok tt,
       with_parm 1 "sgtk_ar_filename"
         (written_locked (VStr ("ERROR: " +:+ NOT_A_WORK_FILE)))
         (add_log LWarning ("arnold1: " +:+ NOT_A_WORK_FILE) st)) /\
  holds_locked 1 "sgtk_ass_diskfile" (VStr ("ERROR: " +:+ NOT_A_WORK_FILE))
    (snd (reset_render_path Demo.host Demo.app Demo.self (Some 1) st)) /\
  holds_locked 1 "sgtk_ar_filename" (VStr ("ERROR: " +:+ NOT_A_WORK_FILE))
    (snd (reset_render_path Demo.host Demo.app Demo.self (Some 1) st)).
Proof.
  intros st.
  destruct (compute_and_set_catches_TankError Demo.host Demo.app Demo.self)
    as (Hcatch & _ & _ & Hon).
  split.
  - apply (Hcatch 1 "sgtk_ar_filename" "output_render_template" VNone st
             (Demo.tk_node "arnold1" Demo.tk_parms) (Demo.str_parm ""));
      reflexivity.
  - apply (Hon 1 st (Demo.tk_node "arnold1" Demo.tk_parms)
             (Demo.str_parm "") (Demo.str_parm "")); reflexivity.
Defined.

Lemma copy_inputs_all_or_nothing_witness :
  _copy_inputs 1 2 (Demo.wired_session 1)
    = (Raise (InvalidInput (not_enough_inputs "/out/arnold1" "/out/ifd1")),
       Demo.wired_session 1) /\
  exists st',
    _copy_inputs 1 2 (Demo.wired_session 4) = (Ok tt, st') /\
    wired st' 2 0 3 /\ wired st' 2 2 4.
Proof.
  split.
  - destruct (copy_inputs_all_or_nothing 1 2 (Demo.wired_session 1)
                Demo.arnold1 (Demo.ifd1 1) eq_refl eq_refl) as [Hraise _].
    apply Hraise. vm_compute. lia.
  - destruct (copy_inputs_all_or_nothing 1 2 (Demo.wired_session 4)
                Demo.arnold1 (Demo.ifd1 4) eq_refl eq_refl) as [_ Hok].
    destruct Hok as (st' & Hrun & Hcopied & _); [vm_compute; lia|].
    exists st'. split; [exact Hrun|].
    split; apply Hcopied; exists Demo.arnold1; (split; reflexivity).
Defined.

Lemma move_outputs_rewires_witness :
  moves_outputs 1 2 (Demo.wired_session 4).
Proof.
  apply (move_outputs_rewires 1 2 (Demo.wired_session 4)).
  - exists Demo.arnold1. reflexivity.
  - discriminate.
Defined.

(** C6, as stated, at a source that is its own target: the slot of node 5
    that node 1 feeds is rewired to node 1 itself, so node 1 keeps its
    outward connection. *)
Lemma move_outputs_onto_itself :
  ~ moves_outputs 1 1 (Demo.wired_session 4).
Proof.
  unfold moves_outputs. intros (_ & _ & Hnone).
  vm_compute in Hnone. discriminate Hnone.
Qed.





(** * Further properties of the handler *)

(** ** The cache of profiles *)

Lemma with_log_with_log l1 l2 st :
  with_log l2 (with_log l1 st) = with_log (l1 ++ l2)%list st.
Proof. unfold with_log. simpl. rewrite app_assoc. reflexivity. Qed.

Lemma with_log_nil st : with_log [] st = st.
Proof. unfold with_log. rewrite app_nil_r. destruct st; reflexivity. Qed.

Lemma lookup_profile_app ps qs name :
  lookup_profile (ps ++ qs) name
  = match lookup_profile ps name with
    | Some p => Some p
    | None => lookup_profile qs name
    end.
Proof.
  induction ps as [|[k p] ps IH]; simpl; [reflexivity|].
  destruct (String.eqb k name); [reflexivity|exact IH].
Qed.

Lemma lookup_profile_None ps name :
  lookup_profile ps name = None <-> name ∉ ps.*1.
Proof.
  induction ps as [|[k p] ps IH]; simpl.
  - split; [intros _; apply not_elem_of_nil|reflexivity].
  - rewrite not_elem_of_cons. destruct (String.eqb k name) eqn:E.
    + apply String.eqb_eq in E. split; [discriminate|]. intros [H _].
      congruence.
    + apply String.eqb_neq in E. rewrite IH. split; [auto|tauto].
Qed.

(** The loop of [__init__], from any cache whose entries go by their own
    names. *)
Lemma cache_profiles_run cached profiles st :
  NoDup cached.*1 ->
  (forall k p, In (k, p) cached -> prof_name p = k) ->
  exists result msgs,
    cache_profiles cached profiles st = (Ok result, with_log msgs st) /\
    NoDup result.*1 /\
    (forall k p, In (k, p) result -> prof_name p = k) /\
    (forall name,
       lookup_profile result name
       = match lookup_profile cached name with
         | Some p => Some p
         | None => first_named name profiles
         end) /\
    (length (warnings msgs) + length result
     = length cached + length profiles)%nat.
Proof.
  revert cached st.
  induction profiles as [|q profiles IH]; intros cached st Hnd Hkey.
  - exists cached, []. rewrite with_log_nil. simpl.
    split; [reflexivity|]. split; [exact Hnd|]. split; [exact Hkey|].
    split; [|lia]. intros name. destruct (lookup_profile cached name); auto.
  - simpl. destruct (lookup_profile cached (prof_name q)) as [p0|] eqn:E.
    + set (w := "Found multiple output profiles named '"
                  +:+ prof_name q +:+ "' for the "
                  +:+ "Tk Arnold node! Only the first one will be available.").
      destruct (IH cached (add_log LWarning w st) Hnd Hkey)
        as (result & msgs & Hrun & H1 & H2 & H3 & H4).
      exists result, ((LWarning, w) :: msgs).
      split.
      { unfold bind, log_warning, modify. rewrite Hrun.
        change (add_log ?l ?m st) with (with_log [(l, m)] st).
        rewrite with_log_with_log. reflexivity. }
      split; [exact H1|]. split; [exact H2|]. split.
      * intros name. rewrite H3. unfold first_named. simpl.
        destruct (lookup_profile cached name) as [p|] eqn:En; [reflexivity|].
        destruct (String.eqb (prof_name q) name) eqn:Eq; [|reflexivity].
        apply String.eqb_eq in Eq. congruence.
      * simpl. simpl in H4. lia.
    + assert (Hnd' : NoDup (cached ++ [(prof_name q, q)])%list.*1).
      { rewrite fmap_app. apply NoDup_app. split; [exact Hnd|].
        split; [|apply NoDup_singleton].
        intros k Hk Hk'. apply list_elem_of_singleton in Hk'. simpl in Hk'.
        subst k. apply lookup_profile_None in E. contradiction. }
      assert (Hkey' : forall k p,
                In (k, p) (cached ++ [(prof_name q, q)])%list -> prof_name p = k).
      { intros k p [H|[H|[]]]%in_app_iff; [exact (Hkey k p H)|].
        injection H as <- <-. reflexivity. }
      set (w := "Caching arnold output profile: '"
                  +:+ prof_name q +:+ "'").
      destruct (IH (cached ++ [(prof_name q, q)])%list (add_log LDebug w st)
                  Hnd' Hkey')
        as (result & msgs & Hrun & H1 & H2 & H3 & H4).
      exists result, ((LDebug, w) :: msgs).
      split.
      { unfold bind, log_debug, modify. rewrite Hrun.
        change (add_log ?l ?m st) with (with_log [(l, m)] st).
        rewrite with_log_with_log. reflexivity. }
      split; [exact H1|]. split; [exact H2|]. split.
      * intros name. rewrite H3, lookup_profile_app. unfold first_named.
        simpl.
        destruct (lookup_profile cached name) as [p|] eqn:En; [reflexivity|].
        destruct (String.eqb (prof_name q) name); reflexivity.
      * rewrite length_app in H4. simpl in *. lia.
Qed.

(** X1: [__init__] never fails and touches nothing but the log; the
    handler it builds knows, under each name, the first profile of that
    name in the [output_profiles] setting, each name once; every profile
    it leaves out for its name being taken is reported by one warning. *)
Theorem init_caches_first_profile (app : App) (st : Session) :
  exists h msgs,
    __init__ app st = (Ok h, with_log msgs st) /\
    NoDup (_output_profiles h).*1 /\
    (forall name,
       lookup_profile (_output_profiles h) name
       = first_named name (output_profiles app)) /\
    (length (warnings msgs) + length (_output_profiles h)
     = length (output_profiles app))%nat.
Proof.
  destruct (cache_profiles_run [] (output_profiles app) st)
    as (result & msgs & Hrun & H1 & H2 & H3 & H4).
  { apply NoDup_nil_2. }
  { intros k p []. }
  exists (mkHandler result), msgs. split.
  { unfold __init__, bind. rewrite Hrun. reflexivity. }
  split; [exact H1|]. split; [exact H3|]. exact H4.
Qed.

(** ** The menu of profiles *)

Lemma menu_fold (names : list string) k (acc : list Value) :
  foldl (fun menu_labels (entry : nat * string) =>
           (menu_labels ++ [VInt (Z.of_nat (fst entry)); VStr (snd entry)])%list)
        acc (zip (seq k (length names)) names)
  = (acc ++ menu_items k names)%list.
Proof.
  revert k acc. induction names as [|name names IH]; intros k acc; simpl.
  - rewrite app_nil_r. reflexivity.
  - rewrite IH, <- app_assoc. reflexivity.
Qed.

Lemma length_menu_items k names :
  length (menu_items k names) = (2 * length names)%nat.
Proof.
  revert k. induction names as [|name names IH]; intros k; simpl;
    [reflexivity|]. rewrite IH. lia.
Qed.

Lemma lookup_menu_items k (names : list string) i :
  menu_items k names !! (2 * i)%nat
    = (fun _ => VInt (Z.of_nat (k + i))) <$> names !! i /\
  menu_items k names !! (2 * i + 1)%nat = VStr <$> names !! i.
Proof.
  revert k i. induction names as [|name names IH]; intros k i.
  - split; reflexivity.
  - destruct i as [|i].
    + simpl. rewrite Nat.add_0_r. split; reflexivity.
    + replace (2 * S i)%nat with (S (S (2 * i))) by lia.
      replace (S (S (2 * i)) + 1)%nat with (S (S (2 * i + 1))) by lia.
      assert (Hss : forall (x y : Value) l j,
                (x :: y :: l) !! S (S j) = l !! j) by reflexivity.
      cbn [menu_items]. rewrite !Hss.
      change ((name :: names) !! S i) with (names !! i).
      destruct (IH (S k) i) as [H1 H2].
      rewrite H1, H2. replace (S k + i)%nat with (k + S i)%nat by lia.
      split; reflexivity.
Qed.

Lemma menu_labels_of_items k names :
  menu_labels_of (menu_items k names) = names.
Proof.
  revert k. induction names as [|name names IH]; intros k; simpl;
    [reflexivity|]. rewrite IH. reflexivity.
Qed.

Lemma get_output_profile_menu_labels_items self :
  get_output_profile_menu_labels self
  = menu_items 0 (_output_profiles self).*1.
Proof.
  unfold get_output_profile_menu_labels, py_enumerate.
  exact (menu_fold _ 0 []).
Qed.

(** X2: the menu of [get_output_profile_menu_labels] has two items for
    every cached profile, in the order of the cache: the count of the
    profile, from 0, as the token and its name as the label. *)
Theorem output_profile_menu_layout (self : Handler) :
  let menu := get_output_profile_menu_labels self in
  let names := (_output_profiles self).*1 in
  length menu = (2 * length names)%nat /\
  (forall i : nat,
     menu !! (2 * i)%nat = (fun _ => VInt (Z.of_nat i)) <$> names !! i /\
     menu !! (2 * i + 1)%nat = VStr <$> names !! i) /\
  menu_labels_of menu = names.
Proof.
  cbv zeta. rewrite get_output_profile_menu_labels_items.
  split; [apply length_menu_items|].
  split; [|apply menu_labels_of_items].
  intros i. exact (lookup_menu_items 0 _ i).
Qed.

(** ** The profile of a node *)

Lemma py_index_nat {A} (l : list A) (i : nat) a :
  l !! i = Some a -> py_index l (VInt (Z.of_nat i)) = Ok a.
Proof.
  intros H. unfold py_index.
  assert (E : (Z.of_nat i <? 0)%Z = false) by (apply Z.ltb_ge; lia).
  rewrite E, E, Nat2Z.id, H. reflexivity.
Qed.

Lemma _get_output_profile_run host self node st nd p :
  nodes st !! node_or_pwd_of node st = Some nd ->
  lookup_parm (node_parms nd) TK_OUTPUT_PROFILE_PARM = Some p ->
  _get_output_profile host self node st
  = match py_index (parm_menu_labels p) (parm_value host p) with
    | Ok name => match lookup_profile (_output_profiles self) name with
                 | Some prof => (Ok prof, st)
                 | None => (Raise KeyError, st)
                 end
    | Raise e => (Raise e, st)
    end.
Proof.
  intros Hn Hp. unfold _get_output_profile.
  rewrite (bind_Ok _ _ _ _ _ (node_or_pwd_run node st)).
  rewrite (bind_Ok _ _ _ _ _ (hou_parm_Some _ _ _ _ _ Hn Hp)).
  rewrite (bind_Ok _ _ _ _ _ (parm_menuLabels_Some _ _ _ _ _ Hn Hp)).
  rewrite (bind_Ok _ _ _ _ _ (parm_eval_Some host _ _ _ _ _ Hn Hp)).
  unfold bind, lift.
  destruct (py_index (parm_menu_labels p) (parm_value host p)) as [name|e];
    [|reflexivity].
  destruct (lookup_profile (_output_profiles self) name); reflexivity.
Qed.

(** X3: for a handler built by [__init__] and a node whose profile menu
    is the one of [get_output_profile_menu_labels], [_get_output_profile]
    returns, for an index within the menu, the first profile of the
    setting that bears the selected name, and leaves the session as it
    is. *)
Theorem get_output_profile_of_menu (host : Host) (app : App)
    (st0 st1 : Session) (h : Handler) (node : option NodeId) (st : Session)
    (nd : Node) (p : Parm) (i : nat) (name : string) :
  __init__ app st0 = (Ok h, st1) ->
  nodes st !! node_or_pwd_of node st = Some nd ->
  lookup_parm (node_parms nd) TK_OUTPUT_PROFILE_PARM = Some p ->
  parm_menu_labels p = menu_labels_of (get_output_profile_menu_labels h) ->
  parm_value host p = VInt (Z.of_nat i) ->
  parm_menu_labels p !! i = Some name ->
  exists prof,
    _get_output_profile host h node st = (Ok prof, st) /\
    prof_name prof = name /\
    first_named name (output_profiles app) = Some prof.
Proof.
  intros Hinit Hn Hp Hmenu Hv Hi.
  destruct (cache_profiles_run [] (output_profiles app) st0)
    as (result & msgs & Hrun & H1 & H2 & H3 & _).
  { apply NoDup_nil_2. }
  { intros k q []. }
  unfold __init__, bind in Hinit. rewrite Hrun in Hinit.
  injection Hinit as <- _.
  rewrite get_output_profile_menu_labels_items, menu_labels_of_items in Hmenu.
  cbn [_output_profiles] in Hmenu.
  rewrite (_get_output_profile_run host _ node st nd p Hn Hp), Hv.
  rewrite (py_index_nat _ _ _ Hi). cbn [_output_profiles].
  rewrite H3. cbn [lookup_profile].
  destruct (first_named name (output_profiles app)) as [prof|] eqn:E.
  - exists prof. split; [reflexivity|]. split; [|reflexivity].
    apply find_some in E as [_ E]. apply String.eqb_eq in E. exact E.
  - exfalso. specialize (H3 name). cbn [lookup_profile] in H3.
    rewrite E in H3. apply lookup_profile_None in H3. apply H3.
    rewrite <- Hmenu. apply list_elem_of_lookup. eauto.
Qed.

(** X4: how [_get_output_profile] fails, each time leaving the session as
    it is: with an AttributeError on a node without the profile parameter,
    with an IndexError when the value of the parameter is an index outside
    its menu, and with a KeyError when the selected label is the name of
    no cached profile. *)
Theorem get_output_profile_errors (host : Host) (self : Handler)
    (node : option NodeId) (st : Session) (nd : Node) :
  nodes st !! node_or_pwd_of node st = Some nd ->
  (lookup_parm (node_parms nd) TK_OUTPUT_PROFILE_PARM = None ->
   _get_output_profile host self node st = (Raise AttributeError, st)) /\
  (forall p z,
     lookup_parm (node_parms nd) TK_OUTPUT_PROFILE_PARM = Some p ->
     parm_value host p = VInt z ->
     (z < - Z.of_nat (length (parm_menu_labels p))
      \/ Z.of_nat (length (parm_menu_labels p)) <= z)%Z ->
     _get_output_profile host self node st = (Raise IndexError, st)) /\
  (forall p name,
     lookup_parm (node_parms nd) TK_OUTPUT_PROFILE_PARM = Some p ->
     py_index (parm_menu_labels p) (parm_value host p) = Ok name ->
     lookup_profile (_output_profiles self) name = None ->
     _get_output_profile host self node st = (Raise KeyError, st)).
Proof.
  intros Hn. split; [|split].
  - intros Hp. unfold _get_output_profile.
    rewrite (bind_Ok _ _ _ _ _ (node_or_pwd_run node st)).
    rewrite (bind_Ok _ _ _ _ _ (hou_parm_run _ _ _ _ Hn)), Hp.
    reflexivity.
  - intros p z Hp Hv Hz.
    rewrite (_get_output_profile_run host self node st nd p Hn Hp), Hv.
    unfold py_index.
    destruct (z <? 0)%Z eqn:E.
    + apply Z.ltb_lt in E.
      destruct (z + Z.of_nat (length (parm_menu_labels p)) <? 0)%Z eqn:E';
        [reflexivity|].
      apply Z.ltb_ge in E'. lia.
    + rewrite E. apply Z.ltb_ge in E.
      rewrite lookup_ge_None_2 by lia. reflexivity.
  - intros p name Hp Hi Hk.
    rewrite (_get_output_profile_run host self node st nd p Hn Hp), Hi, Hk.
    reflexivity.
Qed.

(** ** The plane numbers *)

(** X5: [_get_extra_plane_numbers] returns the numbers from 1 to the count
    parameter in order, none for a count of zero or less, and leaves the
    session as it is; on a node without the count parameter it raises an
    AttributeError. *)
Theorem get_extra_plane_numbers_range (host : Host) (node : NodeId)
    (st : Session) (nd : Node) :
  nodes st !! node = Some nd ->
  (forall p k,
     lookup_parm (node_parms nd) TK_EXTRA_PLANE_COUNT_PARM = Some p ->
     parm_value host p = VInt k ->
     exists planes,
       _get_extra_plane_numbers host node st = (Ok planes, st) /\
       length planes = Z.to_nat k /\
       (forall i : nat, planes !! i
          = if decide (Z.of_nat i < k)%Z then Some (1 + Z.of_nat i)%Z
            else None)) /\
  (lookup_parm (node_parms nd) TK_EXTRA_PLANE_COUNT_PARM = None ->
   _get_extra_plane_numbers host node st = (Raise AttributeError, st)).
Proof.
  intros Hn. split.
  - intros p k Hp Hv. exists (seqZ 1 k). split; [|split].
    + apply (_get_extra_plane_numbers_run host node nd _ st Hn).
      unfold plane_numbers. rewrite Hp, Hv. reflexivity.
    + apply length_seqZ.
    + intros i. destruct (decide (Z.of_nat i < k)%Z).
      * apply lookup_seqZ_lt. assumption.
      * apply lookup_seqZ_ge. lia.
  - intros Hp. unfold _get_extra_plane_numbers.
    rewrite (bind_Ok _ _ _ _ _ (hou_parm_run _ _ _ _ Hn)), Hp.
    reflexivity.
Qed.

(** ** What a call that returned has done *)

Lemma the_node_Ok_inv n st nd st' :
  the_node n st = (Ok nd, st') -> st' = st /\ nodes st !! n = Some nd.
Proof.
  unfold the_node. destruct (nodes st !! n); [|discriminate].
  intros [= <- <-]. auto.
Qed.

Lemma hou_parm_Ok_inv n name st r st' :
  hou_parm n (VStr name) st = (Ok r, st') ->
  st' = st /\
  exists nd, nodes st !! n = Some nd /\
    r = match lookup_parm (node_parms nd) name with
        | Some _ => Some (n, name)
        | None => None
        end.
Proof.
  intros H. destruct (nodes st !! n) as [nd|] eqn:E.
  - rewrite (hou_parm_run _ _ _ _ E) in H. injection H as <- <-. eauto.
  - unfold hou_parm, bind, the_node in H. rewrite E in H. discriminate H.
Qed.

Lemma the_parm_Ok_inv r st p st' :
  the_parm r st = (Ok p, st') ->
  st' = st /\
  exists n name, r = Some (n, name) /\ parm_at st n name = Some p.
Proof.
  destruct r as [[n name]|]; [|discriminate].
  unfold the_parm, bind, the_node.
  destruct (nodes st !! n) as [nd|] eqn:En; [|discriminate].
  destruct (lookup_parm (node_parms nd) name) as [q|] eqn:E; [|discriminate].
  intros [= <- <-]. split; [reflexivity|]. exists n, name.
  split; [reflexivity|]. unfold parm_at. rewrite En. exact E.
Qed.

Lemma parm_at_Some st n name p :
  parm_at st n name = Some p ->
  exists nd, nodes st !! n = Some nd /\
             lookup_parm (node_parms nd) name = Some p.
Proof.
  unfold parm_at. destruct (nodes st !! n) as [nd|]; [eauto|discriminate].
Qed.

Lemma parm_at_lookup st n nd name :
  nodes st !! n = Some nd ->
  parm_at st n name = lookup_parm (node_parms nd) name.
Proof. unfold parm_at. intros ->. reflexivity. Qed.

Lemma parm_at_with_parm n x f st m y :
  parm_at (with_parm n x f st) m y
  = if decide (m = n /\ y = x) then f <$> parm_at st n x
    else parm_at st m y.
Proof.
  unfold parm_at at 1. destruct (decide (m = n)) as [->|Hne].
  - destruct (nodes st !! n) as [nd|] eqn:E.
    + rewrite (with_parm_lookup _ _ _ _ _ E). cbn [node_parms set_parms].
      rewrite lookup_update_parm, !(parm_at_lookup st n nd _ E).
      destruct (decide (y = x)) as [->|Hy].
      * rewrite String.eqb_refl, decide_True by auto. reflexivity.
      * rewrite decide_False by tauto.
        assert (Hxy : x <> y) by congruence.
        apply String.eqb_neq in Hxy. rewrite Hxy. reflexivity.
    + unfold with_parm. rewrite E. unfold parm_at. rewrite !E.
      destruct (decide (n = n /\ y = x)); reflexivity.
  - rewrite with_parm_lookup_ne by congruence.
    rewrite decide_False by tauto. reflexivity.
Qed.

Lemma parm_unexpandedString_Ok_inv r st s st' :
  parm_unexpandedString r st = (Ok s, st') ->
  st' = st /\
  exists n name p, r = Some (n, name) /\ parm_at st n name = Some p /\
                   parm_template p = StringParmTemplate /\
                   parm_raw p = VStr s.
Proof.
  unfold parm_unexpandedString. intros H.
  apply bind_returns in H as (p & st1 & Hp & H).
  apply the_parm_Ok_inv in Hp as (-> & n & name & -> & Hp).
  destruct (parm_template p) eqn:Et; try discriminate H.
  destruct (parm_raw p) eqn:Er; try discriminate H.
  injection H as <- <-. split; [reflexivity|]. exists n, name, p. auto.
Qed.

Lemma parm_eval_Ok_inv host r st v st' :
  parm_eval host r st = (Ok v, st') ->
  st' = st /\
  exists n name p, r = Some (n, name) /\ parm_at st n name = Some p /\
                   v = parm_value host p.
Proof.
  unfold parm_eval. intros H.
  apply bind_returns in H as (p & st1 & Hp & H).
  apply the_parm_Ok_inv in Hp as (-> & n & name & -> & Hp).
  injection H as <- <-. split; [reflexivity|]. exists n, name, p. auto.
Qed.

Lemma parm_set_Ok_inv r v st st' :
  parm_set r v st = (Ok tt, st') ->
  exists n name p, r = Some (n, name) /\ parm_at st n name = Some p /\
                   parm_locked p = false /\
                   accepts (parm_template p) v = true /\
                   st' = with_parm n name (set_raw v) st.
Proof.
  unfold parm_set. intros H.
  apply bind_returns in H as (p & st1 & Hp & H).
  apply the_parm_Ok_inv in Hp as (-> & n & name & -> & Hp).
  destruct (parm_locked p) eqn:El; [discriminate H|].
  destruct (accepts (parm_template p) v) eqn:Ea; [|discriminate H].
  destruct (parm_at_Some _ _ _ _ Hp) as (nd & Hn & _).
  rewrite (update_the_parm_run _ _ _ _ _ Hn) in H. injection H as <-.
  exists n, name, p. auto.
Qed.

Lemma parm_lock_Ok_inv r on st st' :
  parm_lock r on st = (Ok tt, st') ->
  exists n name p, r = Some (n, name) /\ parm_at st n name = Some p /\
                   st' = with_parm n name (set_locked on) st.
Proof.
  unfold parm_lock. intros H.
  apply bind_returns in H as (p & st1 & Hp & H).
  apply the_parm_Ok_inv in Hp as (-> & n & name & -> & Hp).
  destruct (parm_at_Some _ _ _ _ Hp) as (nd & Hn & _).
  rewrite (update_the_parm_run _ _ _ _ _ Hn) in H. injection H as <-.
  exists n, name, p. auto.
Qed.

Lemma hou_parm_Some_inv n name st n' name' st' :
  hou_parm n (VStr name) st = (Ok (Some (n', name')), st') ->
  st' = st /\ n' = n /\ name' = name.
Proof.
  intros H. apply hou_parm_Ok_inv in H as (-> & nd & _ & Hr).
  destruct (lookup_parm (node_parms nd) name); [|discriminate Hr].
  injection Hr as -> ->. auto.
Qed.

(** ** [update_parms] *)

Lemma update_parms_unfold host node :
  update_parms host node
  = (node <- node_or_pwd node ;;
     for_each TK_DEFAULT_UPDATE_PARM_MAPPING
       (fun m => copy_parm_of node (fst m) (snd m)) ;;;
     plane_numbers <- _get_extra_plane_numbers host node ;;
     for_each plane_numbers (fun plane_number =>
       copy_parm_of node
         ("sgtk_ar_aov_separate_file" +:+ pretty plane_number)
         ("ar_aov_separate_file" +:+ pretty plane_number))).
Proof. reflexivity. Qed.

Lemma copy_parm_of_inv n p1 p2 st st' :
  copy_parm_of n p1 p2 st = (Ok tt, st') ->
  exists s, raw_at st n p1 = Some (VStr s) /\
            is_Some (parm_at st n p2) /\
            st' = with_parm n p2 (set_raw (VStr s)) st.
Proof.
  unfold copy_parm_of. intros H.
  apply bind_returns in H as (r2 & s1 & H2 & H).
  apply bind_returns in H as ([] & s2 & Hg & H).
  apply bind_returns in H as (r1 & s3 & H1 & H).
  apply bind_returns in H as (s & s4 & Hs & H).
  destruct r2 as [[n2 x2]|]; [|discriminate Hg].
  apply hou_parm_Some_inv in H2 as (-> & -> & ->).
  injection Hg as <-.
  apply parm_unexpandedString_Ok_inv in Hs as (-> & n1 & x1 & p & -> & Hp & _ & Hr).
  apply hou_parm_Some_inv in H1 as (-> & -> & ->).
  apply parm_set_Ok_inv in H as (n' & x' & q & [= <- <-] & Hq & _ & _ & ->).
  exists s. split; [unfold raw_at; rewrite Hp; simpl; congruence|].
  split; [rewrite Hq; eauto|reflexivity].
Qed.

Lemma for_each_map {A B} (g : A -> B) (l : list A) (body : B -> M unit) :
  for_each (map g l) body = for_each l (fun a => body (g a)).
Proof.
  induction l as [|a l IH]; simpl; [reflexivity|]. rewrite IH. reflexivity.
Qed.

(** A loop of [copy_parm] over pairs whose sources are no targets and
    whose targets each have one source. *)
Lemma mirror_loop_inv n (pairs : list (string * string)) st st' :
  for_each pairs (fun m => copy_parm_of n (fst m) (snd m)) st = (Ok tt, st') ->
  (forall a b, a ∈ pairs.*1 -> b ∈ pairs.*2 -> a <> b) ->
  (forall a a' b, (a, b) ∈ pairs -> (a', b) ∈ pairs -> a = a') ->
  (forall m x, ~ (m = n /\ x ∈ pairs.*2) -> parm_at st' m x = parm_at st m x) /\
  (forall a b, (a, b) ∈ pairs ->
     exists s, raw_at st n a = Some (VStr s) /\
               raw_at st' n b = Some (VStr s)).
Proof.
  revert st. induction pairs as [|[p1 p2] rest IH]; intros st H Hsep Hfun.
  - injection H as <-. split; [reflexivity|].
    intros a b Hin. apply not_elem_of_nil in Hin. contradiction.
  - cbn [for_each] in H. apply bind_returns in H as ([] & s1 & H1 & H).
    cbn [fst snd] in H1.
    apply copy_parm_of_inv in H1 as (s & Hs & Ht & ->).
    assert (Hsep' : forall a b, a ∈ rest.*1 -> b ∈ rest.*2 -> a <> b).
    { intros a b Ha Hb.
      apply Hsep; rewrite fmap_cons; apply elem_of_cons; right; assumption. }
    assert (Hfun' : forall a a' b, (a, b) ∈ rest -> (a', b) ∈ rest -> a = a').
    { intros a a' b Ha Ha'.
      apply (Hfun a a' b); apply elem_of_cons; right; assumption. }
    destruct (IH _ H Hsep' Hfun') as [Hframe Hmirror].
    assert (Hsrc : forall a, a ∈ ((p1, p2) :: rest).*1 ->
              raw_at (with_parm n p2 (set_raw (VStr s)) st) n a = raw_at st n a).
    { intros a Ha. unfold raw_at. rewrite parm_at_with_parm.
      rewrite decide_False; [reflexivity|]. intros [_ ->].
      apply (Hsep p2 p2 Ha); [|reflexivity].
      rewrite fmap_cons. apply elem_of_cons. auto. }
    split.
    + intros m x Hx. rewrite Hframe.
      * rewrite parm_at_with_parm. rewrite decide_False; [reflexivity|].
        intros [-> ->]. apply Hx. split; [reflexivity|].
        rewrite fmap_cons. apply elem_of_cons. auto.
      * intros [-> Hin]. apply Hx. split; [reflexivity|].
        rewrite fmap_cons. apply elem_of_cons. auto.
    + assert (Hrest : forall a b, (a, b) ∈ rest ->
                exists s0, raw_at st n a = Some (VStr s0) /\
                           raw_at st' n b = Some (VStr s0)).
      { intros a b Hin. destruct (Hmirror a b Hin) as (s0 & Ha & Hb).
        exists s0. split; [|exact Hb]. rewrite <- Hsrc; [exact Ha|].
        rewrite fmap_cons. apply elem_of_cons. right.
        apply list_elem_of_fmap. exists (a, b). auto. }
      intros a b [[= -> ->]|Hin]%elem_of_cons; [|exact (Hrest a b Hin)].
      destruct (decide (p2 ∈ rest.*2)) as [Hin|Hnin].
      * apply list_elem_of_fmap in Hin as ([a' b'] & Hb' & Hin).
        cbn [snd] in Hb'. subst b'.
        assert (a' = p1) as ->.
        { apply (Hfun a' p1 p2); apply elem_of_cons; auto. }
        exact (Hrest p1 p2 Hin).
      * exists s. split; [exact Hs|]. unfold raw_at. rewrite Hframe by tauto.
        rewrite parm_at_with_parm, decide_True by auto.
        destruct Ht as [q ->]. reflexivity.
Qed.

Lemma planes_at_parm host st n :
  planes_at host st n
  = match parm_at st n TK_EXTRA_PLANE_COUNT_PARM with
    | Some p => match parm_value host p with
                | VInt k => Some (seqZ 1 k)
                | VBool b => Some (seqZ 1 (if b then 1 else 0))
                | _ => None
                end
    | None => None
    end.
Proof.
  unfold planes_at, parm_at, plane_numbers.
  destruct (nodes st !! n); reflexivity.
Qed.

Lemma _get_extra_plane_numbers_Ok_inv host n st planes st' :
  _get_extra_plane_numbers host n st = (Ok planes, st') ->
  st' = st /\ planes_at host st n = Some planes.
Proof.
  unfold _get_extra_plane_numbers. intros H.
  apply bind_returns in H as (r & s1 & Hr & H).
  apply bind_returns in H as (v & s2 & Hv & H).
  apply parm_eval_Ok_inv in Hv as (-> & n' & x & p & -> & Hp & ->).
  apply hou_parm_Some_inv in Hr as (-> & -> & ->).
  rewrite planes_at_parm, Hp.
  destruct (parm_value host p); try discriminate H;
    injection H as <- <-; auto.
Qed.

Lemma append_cancel (s a b : string) : s +:+ a = s +:+ b -> a = b.
Proof.
  induction s as [|c s IH]; simpl; intros H; [exact H|].
  injection H as H. exact (IH H).
Qed.

Lemma head_differs (c d : ascii) (s t : string) :
  c <> d -> String c s <> String d t.
Proof. intros H E. injection E as E _. contradiction. Qed.

Lemma update_pairs_sources planes a :
  a ∈ (update_pairs planes).*1 -> exists s, a = String "s" s.
Proof.
  unfold update_pairs. rewrite fmap_app, elem_of_app.
  intros [H|H].
  - cbn in H. repeat (apply elem_of_cons in H as [->|H]; [eauto|]).
    apply not_elem_of_nil in H. contradiction.
  - apply list_elem_of_fmap in H as ([a' b'] & -> & H).
    apply list_elem_of_In, in_map_iff in H as (i & [= <- <-] & _).
    cbn. eauto.
Qed.

Lemma update_pairs_targets planes b :
  b ∈ (update_pairs planes).*2 -> exists s, b = String "a" s.
Proof.
  unfold update_pairs. rewrite fmap_app, elem_of_app.
  intros [H|H].
  - cbn in H. repeat (apply elem_of_cons in H as [->|H]; [eauto|]).
    apply not_elem_of_nil in H. contradiction.
  - apply list_elem_of_fmap in H as ([a' b'] & -> & H).
    apply list_elem_of_In, in_map_iff in H as (i & [= <- <-] & _).
    cbn. eauto.
Qed.

Lemma update_pairs_separated planes a b :
  a ∈ (update_pairs planes).*1 -> b ∈ (update_pairs planes).*2 -> a <> b.
Proof.
  intros [s ->]%update_pairs_sources [t ->]%update_pairs_targets.
  apply head_differs. discriminate.
Qed.

Lemma update_pairs_functional planes a a' b :
  (a, b) ∈ update_pairs planes -> (a', b) ∈ update_pairs planes -> a = a'.
Proof.
  unfold update_pairs. rewrite !elem_of_app.
  assert (Hplane : forall x y,
            (x, y) ∈ map (fun plane_number : Z =>
                       ("sgtk_ar_aov_separate_file" +:+ pretty plane_number,
                        "ar_aov_separate_file" +:+ pretty plane_number)) planes ->
            exists i : Z, x = "sgtk_ar_aov_separate_file" +:+ pretty i /\
                          y = "ar_aov_separate_file" +:+ pretty i).
  { intros x y H. apply list_elem_of_In, in_map_iff in H as (i & [= <- <-] & _).
    eauto. }
  assert (Hdef : forall x y,
            (x, y) ∈ TK_DEFAULT_UPDATE_PARM_MAPPING ->
            (x = "sgtk_ass_diskfile" /\ y = "ar_ass_file") \/
            (x = "sgtk_ar_picture" /\ y = "ar_picture")).
  { intros x y H. unfold TK_DEFAULT_UPDATE_PARM_MAPPING in H.
    apply elem_of_cons in H as [[= -> ->]|H]; [auto|].
    apply elem_of_cons in H as [[= -> ->]|H]; [auto|].
    apply not_elem_of_nil in H. contradiction. }
  intros [H|H] [H'|H'].
  - apply Hdef in H as [[-> ->]|[-> ->]];
      apply Hdef in H' as [[-> E]|[-> E]];
      try reflexivity; discriminate E.
  - exfalso. apply Hplane in H' as (i & _ & ->).
    apply Hdef in H as [[_ E]|[_ E]]; cbn in E; discriminate E.
  - exfalso. apply Hplane in H as (i & _ & ->).
    apply Hdef in H' as [[_ E]|[_ E]]; cbn in E; discriminate E.
  - apply Hplane in H as (i & -> & ->). apply Hplane in H' as (j & -> & E).
    apply append_cancel, (inj pretty) in E. subst j. reflexivity.
Qed.

(** What [update_parms] has done when it returns. *)
Lemma update_parms_inv host node st st' :
  update_parms host node st = (Ok tt, st') ->
  exists planes,
    planes_at host st (node_or_pwd_of node st) = Some planes /\
    (forall m x,
       ~ (m = node_or_pwd_of node st /\ x ∈ (update_pairs planes).*2) ->
       parm_at st' m x = parm_at st m x) /\
    (forall a b, (a, b) ∈ update_pairs planes ->
       exists s, raw_at st (node_or_pwd_of node st) a = Some (VStr s) /\
                 raw_at st' (node_or_pwd_of node st) b = Some (VStr s)).
Proof.
  rewrite update_parms_unfold. intros H.
  rewrite (bind_Ok _ _ _ _ _ (node_or_pwd_run node st)) in H.
  set (n := node_or_pwd_of node st) in *.
  apply bind_returns in H as ([] & s1 & H1 & H).
  apply bind_returns in H as (planes & s2 & Hpl & H).
  apply _get_extra_plane_numbers_Ok_inv in Hpl as (-> & Hpl).
  exists planes.
  assert (Hall : for_each (update_pairs planes)
                   (fun m => copy_parm_of n (fst m) (snd m)) st = (Ok tt, st')).
  { unfold update_pairs. rewrite for_each_app.
    rewrite (bind_Ok _ _ _ _ _ H1), for_each_map. exact H. }
  destruct (mirror_loop_inv n _ st st' Hall
              (update_pairs_separated planes)
              (update_pairs_functional planes)) as [Hframe Hmirror].
  split; [|split; assumption].
  destruct (mirror_loop_inv n TK_DEFAULT_UPDATE_PARM_MAPPING st s1 H1)
    as [Hframe1 _].
  { intros a b Ha Hb.
    apply (update_pairs_separated []); unfold update_pairs;
      rewrite app_nil_r; assumption. }
  { intros a a' b Ha Ha'.
    apply (update_pairs_functional [] a a' b); unfold update_pairs;
      rewrite app_nil_r; assumption. }
  rewrite planes_at_parm in Hpl |- *. rewrite <- Hframe1; [exact Hpl|].
  intros [_ Hin]. cbn in Hin.
  repeat (apply elem_of_cons in Hin as [Hin|Hin]; [discriminate Hin|]).
  apply not_elem_of_nil in Hin. contradiction.
Qed.


(** ** [reset_render_path] *)

Lemma holds_locked_parm_at n x v st :
  holds_locked n x v st <->
  exists p, parm_at st n x = Some p /\ parm_raw p = v /\ parm_locked p = true.
Proof.
  unfold holds_locked, parm_at. split.
  - intros (nd & p & -> & Hp & Hr & Hl). eauto.
  - intros (p & Hp & Hr & Hl).
    destruct (nodes st !! n) as [nd|]; [|discriminate Hp]. eauto 6.
Qed.

Lemma hou_name_Ok_inv n st name st' :
  hou_name n st = (Ok name, st') ->
  st' = st /\ exists nd, nodes st !! n = Some nd /\ name = node_name nd.
Proof.
  unfold hou_name. intros H. apply bind_returns in H as (nd & s1 & Hn & H).
  apply the_node_Ok_inv in Hn as (-> & Hn). injection H as <- <-. eauto.
Qed.

Lemma preserves_Ok {A} (P : Session -> Prop) (m : M A) st a st' :
  preserves P m -> P st -> m st = (Ok a, st') -> P st'.
Proof. intros H HP E. specialize (H st HP). rewrite E in H. exact H. Qed.

(** When [_compute_and_set] returns, the parameter is locked. *)
Lemma _compute_and_set_locks host app self n parm_name template_name aov_name
    st st' :
  _compute_and_set host app self n parm_name template_name aov_name st
    = (Ok tt, st') ->
  exists v, holds_locked n parm_name v st'.
Proof.
  unfold _compute_and_set. intros H.
  apply bind_returns in H as (path & s1 & _ & H).
  apply bind_returns in H as (r1 & s2 & _ & H).
  apply bind_returns in H as ([] & s3 & _ & H).
  apply bind_returns in H as (r2 & s4 & _ & H).
  apply bind_returns in H as ([] & s5 & _ & H).
  apply bind_returns in H as (r3 & s6 & Hr & H).
  apply parm_lock_Ok_inv in H as (n' & x' & p & -> & Hp & ->).
  apply hou_parm_Some_inv in Hr as (-> & -> & ->).
  exists (parm_raw p). apply holds_locked_parm_at.
  exists (set_locked true p). rewrite parm_at_with_parm, decide_True by auto.
  rewrite Hp. auto.
Qed.

Lemma not_a_target planes x s :
  x = String "s" s -> ~ x ∈ (update_pairs planes).*2.
Proof.
  intros -> [t E]%update_pairs_targets. discriminate E.
Qed.

(** The end of [reset_render_path]: the output path onto the two picture
    parameters, then [update_parms]. *)
Lemma set_output_paths_inv host n st st' :
  (p <- hou_parm n (VStr NODE_OUTPUT_PATH_PARM) ;;
   path <- parm_unexpandedString p ;;
   p <- hou_parm n (VStr "sgtk_ar_picture") ;;
   parm_set p (VStr path) ;;;
   p <- hou_parm n (VStr "ar_picture") ;;
   parm_set p (VStr path) ;;;
   update_parms host (Some n)) st = (Ok tt, st') ->
  exists path,
    raw_at st' n NODE_OUTPUT_PATH_PARM = Some (VStr path) /\
    raw_at st' n "sgtk_ar_picture" = Some (VStr path) /\
    raw_at st' n "ar_picture" = Some (VStr path).
Proof.
  intros H.
  apply bind_returns in H as (r0 & s0 & Hr0 & H).
  apply bind_returns in H as (path & s1 & Hpath & H).
  apply bind_returns in H as (r1 & s2 & Hr1 & H).
  apply bind_returns in H as ([] & s3 & Hset1 & H).
  apply bind_returns in H as (r2 & s4 & Hr2 & H).
  apply bind_returns in H as ([] & s5 & Hset2 & H).
  apply parm_unexpandedString_Ok_inv in Hpath
    as (-> & n0 & x0 & p0 & -> & Hp0 & _ & Hraw).
  apply hou_parm_Some_inv in Hr0 as (-> & -> & ->).
  apply parm_set_Ok_inv in Hset1 as (n1 & x1 & p1 & -> & Hp1 & _ & _ & ->).
  apply hou_parm_Some_inv in Hr1 as (-> & -> & ->).
  apply parm_set_Ok_inv in Hset2 as (n2 & x2 & p2 & -> & Hp2 & _ & _ & ->).
  apply hou_parm_Some_inv in Hr2 as (-> & -> & ->).
  set (s4 := with_parm n "ar_picture" (set_raw (VStr path))
               (with_parm n "sgtk_ar_picture" (set_raw (VStr path)) st)) in *.
  assert (H0 : raw_at s4 n NODE_OUTPUT_PATH_PARM = Some (VStr path)).
  { unfold raw_at, s4. rewrite !parm_at_with_parm.
    rewrite !decide_False by (intros [_ E]; discriminate E).
    rewrite Hp0. simpl. congruence. }
  assert (H1 : raw_at s4 n "sgtk_ar_picture" = Some (VStr path)).
  { unfold raw_at, s4. rewrite !parm_at_with_parm.
    rewrite decide_False by (intros [_ E]; discriminate E).
    rewrite decide_True by auto. rewrite Hp1. reflexivity. }
  destruct (update_parms_inv host (Some n) s4 st' H)
    as (planes & _ & Hframe & Hmirror).
  cbn [node_or_pwd_of] in Hframe, Hmirror.
  exists path. unfold raw_at in *. split; [|split].
  - rewrite Hframe; [exact H0|].
    intros [_ Hin]. exact (not_a_target planes _ _ eq_refl Hin).
  - rewrite Hframe; [exact H1|].
    intros [_ Hin]. exact (not_a_target planes _ _ eq_refl Hin).
  - destruct (Hmirror "sgtk_ar_picture" "ar_picture") as (s & Hs & Ht).
    { unfold update_pairs. apply elem_of_app. left.
      unfold TK_DEFAULT_UPDATE_PARM_MAPPING.
      apply elem_of_cons. right. apply elem_of_cons. left. reflexivity. }
    rewrite Ht. rewrite H1 in Hs. symmetry. exact Hs.
Qed.

(** X7: when [reset_render_path] returns on a node that is not being
    duplicated, the two render path parameters [sgtk_ass_diskfile] and
    [sgtk_ar_filename] are locked, and the picture parameters
    [sgtk_ar_picture] and [ar_picture] hold the very string that the
    output path parameter holds. *)
Theorem reset_render_path_sets_picture (host : Host) (app : App)
    (self : Handler) (node : option NodeId) (st st' : Session) (nd : Node) :
  reset_render_path host app self node st = (Ok tt, st') ->
  nodes st !! node_or_pwd_of node st = Some nd ->
  String.prefix "original0" (node_name nd) = false ->
  exists path v,
    holds_locked (node_or_pwd_of node st) "sgtk_ar_filename" (VStr path) st' /\
    holds_locked (node_or_pwd_of node st) "sgtk_ass_diskfile" v st' /\
    raw_at st' (node_or_pwd_of node st) "sgtk_ar_picture" = Some (VStr path) /\
    raw_at st' (node_or_pwd_of node st) "ar_picture" = Some (VStr path).
Proof.
  intros H Hn Hname. unfold reset_render_path in H.
  rewrite (bind_Ok _ _ _ _ _ (node_or_pwd_run node st)) in H.
  set (n := node_or_pwd_of node st) in *.
  rewrite (bind_Ok _ _ _ _ _ (hou_name_Some _ _ _ Hn)), Hname in H.
  apply bind_returns in H as ([] & s1 & Hloop & Hrest).
  cbn [for_each TK_RENDER_TEMPLATE_MAPPING fst snd] in Hloop.
  apply bind_returns in Hloop as ([] & sa & Hcas1 & Hloop).
  apply bind_returns in Hloop as ([] & sb & Hcas2 & Hloop).
  injection Hloop as <-.
  destruct (_compute_and_set_locks _ _ _ _ _ _ _ _ _ Hcas1) as [v1 Hv1].
  destruct (_compute_and_set_locks _ _ _ _ _ _ _ _ _ Hcas2) as [v2 Hv2].
  assert (Hv1b : holds_locked n "sgtk_ass_diskfile" v1 sb).
  { apply (preserves_Ok _ _ sa tt sb
             (keeps__compute_and_set host app self n "sgtk_ass_diskfile" v1
                n "sgtk_ar_filename" "output_render_template" VNone
                ltac:(discriminate)) Hv1).
    exact Hcas2. }
  assert (Hv1' : holds_locked n "sgtk_ass_diskfile" v1 st').
  { apply (preserves_Ok _ _ sb tt st'
             (keeps_reset_render_path_rest host app self n
                "sgtk_ass_diskfile" v1 n ltac:(auto)) Hv1b).
    exact Hrest. }
  assert (Hv2' : holds_locked n "sgtk_ar_filename" v2 st').
  { apply (preserves_Ok _ _ sb tt st'
             (keeps_reset_render_path_rest host app self n
                "sgtk_ar_filename" v2 n ltac:(auto)) Hv2).
    exact Hrest. }
  apply bind_returns in Hrest as (planes & s2 & _ & Hrest).
  apply bind_returns in Hrest as ([] & s3 & _ & Htail).
  destruct (set_output_paths_inv host n s3 st' Htail)
    as (path & H0 & H1 & H2).
  exists path, v1. split; [|auto].
  apply holds_locked_parm_at in Hv2' as (p & Hp & Hr & Hl).
  apply holds_locked_parm_at. exists p. split; [exact Hp|]. split; [|exact Hl].
  unfold raw_at, NODE_OUTPUT_PATH_PARM in H0. rewrite Hp in H0.
  injection H0 as H0. exact H0.
Qed.

(** ** [get_output_path_menu] on an initialized node *)

(** The path of the scene file stays, whatever the handler does to the
    parameters. *)
Lemma hip_update_node h n f :
  preserves (fun s => hip_path s = h) (update_node n f).
Proof.
  unfold update_node.
  apply preserves_bind; [apply preserves_readonly, readonly_the_node|].
  intros nd _ _ _. apply preserves_modify. intros st H. exact H.
Qed.

Lemma hip_update_the_parm h r f :
  preserves (fun s => hip_path s = h) (update_the_parm r f).
Proof.
  destruct r as [[n name]|]; [apply hip_update_node|apply preserves_raise].
Qed.

Lemma hip_parm_set h r v : preserves (fun s => hip_path s = h) (parm_set r v).
Proof.
  unfold parm_set.
  apply preserves_bind; [apply preserves_readonly, readonly_the_parm|].
  intros p _ _ _. destruct (parm_locked p); [apply preserves_raise|].
  destruct (accepts _ _); [|apply preserves_raise].
  apply hip_update_the_parm.
Qed.

Lemma hip_parm_lock h r on :
  preserves (fun s => hip_path s = h) (parm_lock r on).
Proof.
  unfold parm_lock.
  apply preserves_bind; [apply preserves_readonly, readonly_the_parm|].
  intros p _ _ _. apply hip_update_the_parm.
Qed.

Lemma hip__compute_and_set host app self h node parm_name template_name
    aov_name :
  preserves (fun s => hip_path s = h)
    (_compute_and_set host app self node parm_name template_name aov_name).
Proof.
  unfold _compute_and_set. apply preserves_bind.
  - apply preserves_try_except.
    + apply preserves_readonly, readonly__compute_output_path.
    + intros e k Hk. destruct e; try discriminate Hk.
      injection Hk as <-. apply preserves_bind.
      * apply preserves_readonly, readonly_hou_name.
      * intros name _ _ _. apply preserves_bind;
          [|intros; apply preserves_ret].
        apply preserves_modify. intros st H. exact H.
  - intros path _ _ _.
    apply preserves_bind; [apply preserves_readonly, readonly_hou_parm|].
    intros r _ _ _. apply preserves_bind; [apply hip_parm_lock|].
    intros _ _ _ _.
    apply preserves_bind; [apply preserves_readonly, readonly_hou_parm|].
    intros r' _ _ _. apply preserves_bind; [apply hip_parm_set|].
    intros _ _ _ _.
    apply preserves_bind; [apply preserves_readonly, readonly_hou_parm|].
    intros r'' _ _ _. apply hip_parm_lock.
Qed.

Lemma hip_copy_parm_of h n p1 p2 :
  preserves (fun s => hip_path s = h) (copy_parm_of n p1 p2).
Proof.
  unfold copy_parm_of.
  apply preserves_bind; [apply preserves_readonly, readonly_hou_parm|].
  intros r2 _ _ _.
  apply preserves_bind; [apply preserves_readonly, readonly_hou_getattr|].
  intros _ _ _ _.
  apply preserves_bind; [apply preserves_readonly, readonly_hou_parm|].
  intros r1 _ _ _.
  apply preserves_bind;
    [apply preserves_readonly, readonly_parm_unexpandedString|].
  intros s _ _ _. apply hip_parm_set.
Qed.

Lemma readonly_node_or_pwd node : readonly (node_or_pwd node).
Proof. intros st. rewrite node_or_pwd_run. reflexivity. Qed.

Lemma hip_update_parms host h node :
  preserves (fun s => hip_path s = h) (update_parms host node).
Proof.
  rewrite update_parms_unfold.
  apply preserves_bind; [apply preserves_readonly, readonly_node_or_pwd|].
  intros n _ _ _. apply preserves_bind.
  - apply preserves_for_each. intros m _. apply hip_copy_parm_of.
  - intros _ _ _ _. apply preserves_bind;
      [apply preserves_readonly, readonly__get_extra_plane_numbers|].
    intros planes _ _ _. apply preserves_for_each. intros i _.
    apply hip_copy_parm_of.
Qed.

Lemma hip_reset_render_path host app self h node :
  preserves (fun s => hip_path s = h) (reset_render_path host app self node).
Proof.
  unfold reset_render_path.
  apply preserves_bind; [apply preserves_readonly, readonly_node_or_pwd|].
  intros n _ _ _.
  apply preserves_bind; [apply preserves_readonly, readonly_hou_name|].
  intros name _ _ _. destruct (String.prefix "original0" name);
    [apply preserves_ret|].
  apply preserves_bind.
  { apply preserves_for_each. intros m _. apply hip__compute_and_set. }
  intros _ _ _ _. apply preserves_bind;
    [apply preserves_readonly, readonly__get_extra_plane_numbers|].
  intros planes _ _ _. apply preserves_bind.
  - apply preserves_for_each. intros i _.
    apply preserves_bind; [apply preserves_readonly, readonly_hou_parm|].
    intros r _ _ _.
    apply preserves_bind; [apply preserves_readonly, readonly_parm_eval|].
    intros usefile _ _ _. destruct (truthy usefile); [|apply preserves_ret].
    apply preserves_for_each. intros m _.
    apply preserves_bind; [apply preserves_readonly, readonly_hou_parm|].
    intros lp _ _ _.
    apply preserves_bind; [apply preserves_readonly, readonly_parm_eval|].
    intros aov _ _ _. apply hip__compute_and_set.
  - intros _ _ _ _.
    apply preserves_bind; [apply preserves_readonly, readonly_hou_parm|].
    intros r _ _ _.
    apply preserves_bind;
      [apply preserves_readonly, readonly_parm_unexpandedString|].
    intros path _ _ _.
    apply preserves_bind; [apply preserves_readonly, readonly_hou_parm|].
    intros r1 _ _ _. apply preserves_bind; [apply hip_parm_set|].
    intros _ _ _ _.
    apply preserves_bind; [apply preserves_readonly, readonly_hou_parm|].
    intros r2 _ _ _. apply preserves_bind; [apply hip_parm_set|].
    intros _ _ _ _. apply hip_update_parms.
Qed.

Lemma hou_hipFile_path_run st : hou_hipFile_path st = (Ok (hip_path st), st).
Proof. reflexivity. Qed.

(** X8: on an initialized node whose cached scene path is the current
    one, [get_output_path_menu] recomputes nothing: the session is as it
    was, and the menu is the cached output path under the token [sgtk],
    followed by the two mplay entries. *)
Theorem get_output_path_menu_cached (host : Host) (app : App)
    (self : Handler) (node : option NodeId) (st : Session) (nd : Node)
    (pi ph po : Parm) (path : string) :
  nodes st !! pwd st = Some nd ->
  lookup_parm (node_parms nd) TK_INIT_PARM_NAME = Some pi ->
  py_eq (parm_value host pi) (VStr "True") = false ->
  lookup_parm (node_parms nd) TK_HIP_PATH_PARM_NAME = Some ph ->
  py_eq (VStr (hip_path st)) (parm_value host ph) = true ->
  lookup_parm (node_parms nd) NODE_OUTPUT_PATH_PARM = Some po ->
  parm_template po = StringParmTemplate ->
  parm_raw po = VStr path ->
  get_output_path_menu host app self node st
  = (Ok ["sgtk"; path; "ip"; "mplay (interactive)";
         "md"; "mplay (non-interactive)"], st).
Proof.
  intros Hn Hi Hfirst Hh Hsame Ho Ht Hr.
  rewrite get_output_path_menu_on_pwd. unfold output_path_menu_of.
  rewrite (bind_Ok _ _ _ _ _ (hou_parm_Some _ _ _ _ _ Hn Hi)).
  rewrite (bind_Ok _ _ _ _ _ (parm_eval_Some host _ _ _ _ _ Hn Hi)).
  rewrite Hfirst. cbv beta iota zeta.
  rewrite (bind_Ok _ _ _ tt st) by reflexivity.
  rewrite (bind_Ok _ _ _ _ _ (hou_hipFile_path_run st)).
  rewrite (bind_Ok _ _ _ _ _ (hou_parm_Some _ _ _ _ _ Hn Hh)).
  rewrite (bind_Ok _ _ _ _ _ (parm_eval_Some host _ _ _ _ _ Hn Hh)).
  rewrite Hsame. cbn [negb orb].
  rewrite (bind_Ok _ _ _ tt st) by reflexivity.
  rewrite (bind_Ok _ _ _ _ _ (hou_parm_Some _ _ _ _ _ Hn Ho)).
  rewrite (bind_Ok _ _ _ _ _
             (parm_unexpandedString_Some _ _ _ _ _ _ Hn Ho Ht Hr)).
  reflexivity.
Qed.

(** X9: when [get_output_path_menu] returns on a node whose cached scene
    path is not the current one, the render paths have been reset and the
    cache parameter holds the current scene path; the menu shows the
    output path as the node then holds it. *)
Theorem get_output_path_menu_refreshes (host : Host) (app : App)
    (self : Handler) (node : option NodeId) (st st' : Session) (nd : Node)
    (ph : Parm) (menu : list string) :
  get_output_path_menu host app self node st = (Ok menu, st') ->
  nodes st !! pwd st = Some nd ->
  lookup_parm (node_parms nd) TK_HIP_PATH_PARM_NAME = Some ph ->
  py_eq (VStr (hip_path st)) (parm_value host ph) = false ->
  exists s1 path,
    reset_render_path host app self (Some (pwd st)) st = (Ok tt, s1) /\
    st' = with_parm (pwd st) TK_HIP_PATH_PARM_NAME
            (set_raw (VStr (hip_path st))) s1 /\
    raw_at st' (pwd st) TK_HIP_PATH_PARM_NAME = Some (VStr (hip_path st)) /\
    raw_at st' (pwd st) NODE_OUTPUT_PATH_PARM = Some (VStr path) /\
    menu = ["sgtk"; path; "ip"; "mplay (interactive)";
            "md"; "mplay (non-interactive)"].
Proof.
  intros H Hn Hh Hchanged.
  rewrite get_output_path_menu_on_pwd in H. unfold output_path_menu_of in H.
  set (n := pwd st) in *.
  apply bind_returns in H as (ri & s0 & Hri & H).
  apply bind_returns in H as (init & s0' & Hinit & H).
  apply parm_eval_Ok_inv in Hinit as (-> & ni & xi & pi & -> & Hpi & ->).
  apply hou_parm_Some_inv in Hri as (-> & -> & ->).
  destruct (py_eq (parm_value host pi) (VStr "True")) eqn:Hfirst.
  { exfalso. apply bind_returns in H as ([] & s1 & H & _).
    apply bind_returns in H as (r & s2 & H & _).
    rewrite (hou_parm_not_a_path _ _ _ _ Hn) in H. discriminate H. }
  cbv beta iota zeta in H.
  rewrite (bind_Ok _ _ _ tt st) in H by reflexivity.
  rewrite (bind_Ok _ _ _ _ _ (hou_hipFile_path_run st)) in H.
  rewrite (bind_Ok _ _ _ _ _ (hou_parm_Some _ _ _ _ _ Hn Hh)) in H.
  rewrite (bind_Ok _ _ _ _ _ (parm_eval_Some host _ _ _ _ _ Hn Hh)) in H.
  rewrite Hchanged in H. cbn [negb orb] in H.
  apply bind_returns in H as ([] & s3 & Hreset & H).
  apply bind_returns in Hreset as ([] & s1 & Hreset & Hstore).
  apply bind_returns in Hstore as (rh & s1' & Hrh & Hstore).
  assert (Hhip : hip_path s1 = hip_path st).
  { apply (preserves_Ok _ _ st tt s1
             (hip_reset_render_path host app self (hip_path st) (Some n))
             eq_refl Hreset). }
  apply hou_parm_Ok_inv in Hrh as (-> & nd1 & Hn1 & ->).
  rewrite (bind_Ok _ _ _ _ _ (hou_hipFile_path_run s1)), Hhip in Hstore.
  apply parm_set_Ok_inv in Hstore as (n' & x' & p' & Hr & Hp' & _ & _ & ->).
  destruct (lookup_parm (node_parms nd1) TK_HIP_PATH_PARM_NAME);
    [|discriminate Hr].
  injection Hr as <- <-.
  apply bind_returns in H as (ro & s4 & Hro & H).
  apply bind_returns in H as (path & s5 & Hpath & H).
  apply parm_unexpandedString_Ok_inv in Hpath
    as (-> & no & xo & po & -> & Hpo & _ & Hraw).
  apply hou_parm_Some_inv in Hro as (-> & -> & ->).
  injection H as <- <-.
  exists s1, path. split; [exact Hreset|]. split; [reflexivity|].
  split; [|split; [|reflexivity]].
  - unfold raw_at. rewrite parm_at_with_parm, decide_True by auto.
    rewrite Hp'. reflexivity.
  - unfold raw_at. rewrite Hpo. simpl. congruence.
Qed.


(** ** [_copy_parm_values] with names to exclude *)

Lemma name_in_ObjStr name (names : list string) :
  name_in name (map ObjStr names) = true <-> name ∈ names.
Proof.
  unfold name_in. induction names as [|y names IH]; simpl.
  - split; [discriminate|]. intros H. apply not_elem_of_nil in H. contradiction.
  - rewrite elem_of_cons, orb_true_iff, IH, String.eqb_eq. tauto.
Qed.

Lemma filter_refs s (excl : list PyObj) (names : list string) :
  filter (fun parm : ParmRef => name_in (snd parm) excl = false)
         (map (fun name => (s, name)) names)
  = map (fun name => (s, name))
        (filter (fun name => name_in name excl = false) names).
Proof.
  induction names as [|x names IH]; [reflexivity|]. cbn [map].
  destruct (name_in x excl) eqn:E.
  - rewrite !filter_cons_False by (cbn [snd]; rewrite E; discriminate).
    exact IH.
  - rewrite !filter_cons_True by (cbn [snd]; exact E).
    cbn [map]. rewrite IH. reflexivity.
Qed.

(** The loop of [_copy_parm_values] over names that can all be copied. *)
Lemma copy_loop_run_on host s t snd_ (names : list string) tnd st :
  s <> t ->
  nodes st !! s = Some snd_ ->
  nodes st !! t = Some tnd ->
  (forall name, In name names ->
                is_Some (lookup_parm (node_parms snd_) name)) ->
  (forall name sp tp, In name names ->
     lookup_parm (node_parms snd_) name = Some sp ->
     lookup_parm (node_parms tnd) name = Some tp ->
     can_copy host sp tp = true) ->
  for_each (map (fun name => (s, name)) names) (copy_parm_value host t) st
    = (Ok tt,
       with_node t
         (fun nd =>
            set_parms
              (foldl (fun tgt name =>
                        match lookup_parm (node_parms snd_) name with
                        | Some sp => update_parm tgt name (copied host sp)
                        | None => tgt
                        end) (node_parms nd) names) nd) st).
Proof.
  intros Hne. revert tnd st.
  induction names as [|name names IH]; intros tnd st Hs Ht Hin Hall.
  - simpl. rewrite with_node_id; [reflexivity|].
    intros nd _. apply set_parms_same.
  - simpl. destruct (Hin name) as [sp Hsp]; [left; reflexivity|].
    rewrite (bind_Ok _ _ _ _ _
               (copy_parm_value_ok host s t name snd_ tnd sp st Hs Hsp Ht
                  (fun tp Htp => Hall name sp tp (or_introl eq_refl) Hsp Htp))).
    rewrite with_parm_as_node.
    erewrite IH.
    + rewrite with_node_with_node. f_equal.
      apply with_node_ext. intros nd _. simpl. rewrite Hsp. reflexivity.
    + rewrite with_node_lookup_ne by auto. exact Hs.
    + apply (with_node_lookup _ _ _ _ Ht).
    + intros name' Hin'. apply Hin. right. exact Hin'.
    + cbn [node_parms set_parms]. intros name' sp' tp' Hin' Hs' Ht'.
      rewrite lookup_update_parm in Ht'.
      destruct (String.eqb name name') eqn:E.
      * destruct (lookup_parm (node_parms tnd) name) as [tp|] eqn:Htp;
          [|discriminate Ht'].
        injection Ht' as <-. apply String.eqb_eq in E. subst name'.
        destruct (copied_shape host sp tp) as (H1 & H2 & _).
        rewrite (can_copy_shape _ _ _ _ H1 H2).
        apply (Hall name sp' tp); auto. right. exact Hin'.
      * apply (Hall name' sp' tp'); auto. right. exact Hin'.
Qed.


(** ** The wiring through a conversion *)

Lemma wired_with_node a f st d i up :
  (forall nd, node_inputs (f nd) = node_inputs nd) ->
  wired (with_node a f st) d i up <-> wired st d i up.
Proof.
  intros Hf. unfold wired. destruct (decide (d = a)) as [->|Hne].
  - destruct (nodes st !! a) as [nd|] eqn:E.
    + rewrite (with_node_lookup _ _ _ _ E). split.
      * intros (nd' & [= <-] & H). rewrite Hf in H. eauto.
      * intros (nd' & [= <-] & H). exists (f nd). rewrite Hf. auto.
    + assert (with_node a f st = st) as ->
        by (unfold with_node; rewrite E; reflexivity).
      rewrite E. reflexivity.
  - rewrite with_node_lookup_ne by congruence. reflexivity.
Qed.

Lemma wired_destroyed m st d i up :
  wired (destroyed m st) d i up <-> d <> m /\ up <> m /\ wired st d i up.
Proof.
  unfold wired, destroyed. cbn [nodes set_nodes]. rewrite lookup_fmap.
  destruct (decide (d = m)) as [->|Hne].
  - rewrite lookup_delete_eq. split.
    + intros (nd & H & _). discriminate H.
    + intros (H & _). congruence.
  - rewrite lookup_delete_ne by congruence. split.
    + intros (nd' & H & Hi). destruct (nodes st !! d) as [nd|]; [|discriminate H].
      injection H as <-. cbn [unwire node_inputs set_inputs] in Hi.
      apply map_lookup_filter_Some in Hi as [Hi Hup]. cbn [snd] in Hup.
      split; [exact Hne|]. split; [exact Hup|]. eauto.
    + intros (_ & Hup & nd & -> & Hi). exists (unwire m nd).
      split; [reflexivity|]. cbn [unwire node_inputs set_inputs].
      apply map_lookup_filter_Some. auto.
Qed.

Lemma wired_with_inputs n f st d i up :
  wired (with_inputs n f st) d i up <->
  if decide (d = n)
  then exists nd, nodes st !! n = Some nd /\ f (node_inputs nd) !! i = Some up
  else wired st d i up.
Proof.
  unfold wired. destruct (decide (d = n)) as [->|Hne].
  - destruct (nodes st !! n) as [nd|] eqn:E.
    + rewrite (with_inputs_lookup _ _ _ _ E). split.
      * intros (nd' & [= <-] & H). eauto.
      * intros (nd' & [= <-] & H). eexists. split; [reflexivity|]. exact H.
    + assert (with_inputs n f st = st) as ->
        by (unfold with_inputs; rewrite E; reflexivity).
      rewrite E. split; intros (nd & H & _); discriminate H.
  - rewrite with_inputs_lookup_ne by congruence. reflexivity.
Qed.

Lemma wired_functional st d i up up' :
  wired st d i up -> wired st d i up' -> up = up'.
Proof. intros (nd & H1 & H2) (nd' & H1' & H2'). congruence. Qed.

(** The wiring once [a], which had no inputs, has taken the place of
    [m]. *)
Lemma wired_replaced m a nd A st d i up :
  m <> a ->
  nodes st !! m = Some nd ->
  nodes st !! a = Some A ->
  node_inputs A = ∅ ->
  wired (replaced m a nd st) d i up <->
  d <> m /\
  exists up0, wired st (if decide (d = a) then m else d) i up0 /\
              up = renamed m a up0.
Proof.
  intros Hma Hm Ha HA. unfold replaced. cbv zeta.
  set (s4 := with_inputs a (fun j => node_inputs nd ∪ j) st).
  assert (H4 : forall u, wired s4 d i u <->
                         wired st (if decide (d = a) then m else d) i u).
  { intros u. unfold s4. rewrite wired_with_inputs.
    destruct (decide (d = a)) as [->|Hd]; [|reflexivity].
    unfold wired. rewrite Ha, Hm. split.
    - intros (nd' & [= <-] & H). rewrite HA, (right_id_L ∅ (∪)) in H. eauto.
    - intros (nd' & [= <-] & H). exists A. split; [reflexivity|].
      rewrite HA, (right_id_L ∅ (∪)). exact H. }
  rewrite !wired_with_node by reflexivity.
  rewrite wired_destroyed, wired_rewire, elem_of_outputs_of.
  fold (wired s4 d i m). unfold renamed. split.
  - intros (Hd & Hup & [(Hw & _ & ->)|(Hn & Hw)]).
    + split; [exact Hd|]. exists m. rewrite <- H4.
      rewrite decide_True by reflexivity. auto.
    + split; [exact Hd|]. exists up. rewrite <- H4.
      rewrite decide_False by exact Hup. auto.
  - intros (Hd & up0 & Hw & ->). apply H4 in Hw. split; [exact Hd|].
    destruct (decide (up0 = m)) as [->|Hne].
    + split; [congruence|]. left. split; [exact Hw|]. split; [|reflexivity].
      destruct Hw as (x & -> & _). eauto.
    + split; [exact Hne|]. right. split; [|exact Hw].
      intros Hw'. apply Hne. exact (wired_functional _ _ _ _ _ Hw Hw').
Qed.

(** The end of both conversions: the inputs copied, the outputs moved,
    the old node destroyed, its name and position given to the new
    node. *)
Lemma replace_node_run m a nd A st (pre post : string) :
  m <> a ->
  nodes st !! m = Some nd ->
  nodes st !! a = Some A ->
  (size (node_inputs nd) <= node_connectors A)%nat ->
  (_copy_inputs m a ;;;
   _move_outputs m a ;;;
   name <- hou_name m ;;
   pos <- hou_position m ;;
   hou_destroy m ;;;
   hou_setName a name ;;;
   hou_setPosition a pos ;;;
   log_debug (pre +:+ name +:+ post)) st
  = (Ok tt, add_log LDebug (pre +:+ node_name nd +:+ post)
              (replaced m a nd st)).
Proof.
  intros Hma Hm Ha Hsize.
  assert (Hguard : (node_connectors A <? size (node_inputs nd))%nat = false)
    by (apply Nat.ltb_ge; exact Hsize).
  assert (Hcopy : _copy_inputs m a st
            = (Ok tt, with_inputs a (fun i => node_inputs nd ∪ i) st)).
  { rewrite (_copy_inputs_run m a _ _ st Hm Ha), Hguard. reflexivity. }
  rewrite (bind_Ok _ _ _ _ _ Hcopy).
  set (s4 := with_inputs a _ st).
  assert (Hm4 : nodes s4 !! m = Some nd)
    by (unfold s4; rewrite with_inputs_lookup_ne by auto; exact Hm).
  rewrite (bind_Ok _ _ _ _ _ (_move_outputs_run m a nd s4 Hm4)).
  set (s5 := rewire _ a s4).
  assert (Hm5 : attrs_lookup s5 m = Some (attrs nd)).
  { unfold s5. rewrite attrs_lookup_rewire. apply attrs_lookup_Some, Hm4. }
  rewrite (bind_Ok _ _ _ _ _ (hou_name_attrs s5 m _ Hm5)).
  rewrite (bind_Ok _ _ _ _ _ (hou_position_attrs s5 m _ Hm5)).
  rewrite (bind_Ok _ _ _ _ _ (hou_destroy_run s5 m ltac:(rewrite Hm5; eauto))).
  cbn [attrs node_name node_pos set_inputs].
  assert (Ha5 : is_Some (attrs_lookup s5 a)).
  { unfold s5, s4. rewrite attrs_lookup_rewire, attrs_lookup_with_inputs.
    rewrite (attrs_lookup_Some _ _ _ Ha). eauto. }
  assert (Ha6 : is_Some (attrs_lookup (destroyed m s5) a)).
  { rewrite attrs_lookup_destroyed, decide_False by auto. exact Ha5. }
  unfold hou_setName, hou_setPosition.
  rewrite (bind_Ok _ _ _ _ _ (update_node_attrs _ a _ Ha6)).
  set (s7 := with_node a _ (destroyed m s5)).
  assert (Ha7 : is_Some (attrs_lookup s7 a)).
  { unfold s7.
    rewrite (attrs_lookup_with_node a _ (set_name (node_name nd))) by reflexivity.
    rewrite decide_True by reflexivity. destruct Ha6 as [B ->]. simpl. eauto. }
  rewrite (bind_Ok _ _ _ _ _ (update_node_attrs _ a _ Ha7)).
  reflexivity.
Qed.

(** [convert_to_regular_node] up to the point where the native node
    takes the place of the toolkit node. *)
Lemma convert_to_regular_node_state host def m nd prof planes st :
  node_types host HOU_ARNOLD_NODE_TYPE = Some def ->
  nodes st !! m = Some nd ->
  fresh st ->
  (size (node_inputs nd) <= nt_connectors def)%nat ->
  all_can_copy host (node_parms nd) (nt_parms def) ->
  selected_profile host nd = Some prof ->
  plane_numbers host nd = Some planes ->
  (forall i, In i planes -> is_Some (aov_label host nd i)) ->
  exists s3 A,
    convert_to_regular_node host m st
      = (Ok tt,
         add_log LDebug
           ("Converted: Tk Arnold node '" +:+ node_name nd
              +:+ "' to Arnold node.")
           (replaced m (next_id st) nd s3)) /\
    nodes s3 !! m = Some nd /\
    nodes s3 !! next_id st = Some A /\
    node_inputs A = ∅ /\
    (forall x, x <> next_id st -> nodes s3 !! x = nodes st !! x).
Proof.
  intros Hreg Hm Hfresh Hsize Hcan Hprof Hplanes Hlabels.
  cut (forall P : Outcome unit * Session -> Prop,
         (forall s3 A,
            nodes s3 !! m = Some nd ->
            nodes s3 !! next_id st = Some A ->
            node_inputs A = ∅ ->
            (forall x, x <> next_id st -> nodes s3 !! x = nodes st !! x) ->
            P (Ok tt,
               add_log LDebug
                 ("Converted: Tk Arnold node '" +:+ node_name nd
                    +:+ "' to Arnold node.")
                 (replaced m (next_id st) nd s3))) ->
         P (convert_to_regular_node host m st)).
  { intros Hcps. apply Hcps. intros s3 A H1 H2 H3 H4. exists s3, A. auto. }
  intros P HP.
  set (a := next_id st) in *.
  assert (Hma : m <> a).
  { intros ->. rewrite (Hfresh a) in Hm by (unfold a; lia). discriminate. }
  unfold convert_to_regular_node.
  rewrite (bind_Ok _ _ _ _ _ (hou_parent_Some _ _ _ Hm)).
  rewrite (bind_Ok _ _ _ _ _ (hou_createNode_run host _ _ _ st Hreg)).
  fold a.
  set (s0 := created HOU_ARNOLD_NODE_TYPE (node_parent nd) def st).
  set (nd0 := mkNode HOU_ARNOLD_NODE_TYPE (HOU_ARNOLD_NODE_TYPE +:+ pretty a)
                     (node_parent nd) origin (nt_parms def) ∅ ∅
                     (nt_connectors def)).
  assert (Ha0 : nodes s0 !! a = Some nd0) by apply created_lookup.
  assert (Hm0 : nodes s0 !! m = Some nd)
    by (unfold s0; rewrite created_lookup_ne by exact Hma; exact Hm).
  rewrite (bind_Ok _ _ _ _ _ (hou_parms_run _ _ _ Hm0)).
  rewrite (bind_Ok _ _ _ _ _
             (_copy_parm_values_run host m a (Some (map ObjParm _)) nd nd0 s0
                Hma Hm0 Ha0 (fun name => name_in_ObjParm name _) Hcan)).
  set (s1 := with_node a _ s0).
  assert (Hm1 : nodes s1 !! m = Some nd)
    by (unfold s1; rewrite with_node_lookup_ne by auto; exact Hm0).
  rewrite (read_selected_profile host m nd prof s1 _ Hm1 Hprof).
  assert (Ha1 : nodes s1 !! a
            = Some (set_parms (copy_parms host (node_parms nd) (node_parms nd0))
                              nd0))
    by (unfold s1; rewrite (with_node_lookup a _ nd0 s0 Ha0); reflexivity).
  rewrite (bind_Ok _ _ _ _ _
             (hou_setUserData_run a TK_OUTPUT_PROFILE_NAME_KEY prof s1
                ltac:(rewrite (attrs_lookup_Some _ _ _ Ha1); eauto))).
  set (s2 := with_node a _ s1).
  assert (Ha2 : nodes s2 !! a
            = Some (set_user_data {[TK_OUTPUT_PROFILE_NAME_KEY := prof]}
                      (set_parms (copy_parms host (node_parms nd) (nt_parms def))
                                 nd0))).
  { unfold s2. rewrite (with_node_lookup a _ _ s1 Ha1). simpl.
    rewrite insert_empty. reflexivity. }
  assert (Hm2 : nodes s2 !! m = Some nd)
    by (unfold s2; rewrite with_node_lookup_ne by auto; exact Hm1).
  rewrite (bind_Ok _ _ _ _ _
             (_get_extra_plane_numbers_run host m nd planes s2 Hm2 Hplanes)).
  rewrite (bind_Ok _ _ _ _ _
             (stamp_loop_run host m a nd planes s2 Hma Hm2
                ltac:(rewrite (attrs_lookup_Some _ _ _ Ha2); eauto) Hlabels)).
  set (s3 := with_node a _ s2).
  assert (Ha3 : nodes s3 !! a
            = Some (mkNode HOU_ARNOLD_NODE_TYPE
                      (HOU_ARNOLD_NODE_TYPE +:+ pretty a) (node_parent nd) origin
                      (copy_parms host (node_parms nd) (nt_parms def))
                      (stamp host nd planes {[TK_OUTPUT_PROFILE_NAME_KEY := prof]})
                      ∅ (nt_connectors def))).
  { unfold s3. rewrite (with_node_lookup a _ _ s2 Ha2). reflexivity. }
  assert (Hm3 : nodes s3 !! m = Some nd)
    by (unfold s3; rewrite with_node_lookup_ne by auto; exact Hm2).
  rewrite (replace_node_run m a nd _ s3 "Converted: Tk Arnold node '"
             "' to Arnold node." Hma Hm3 Ha3 Hsize).
  apply (HP s3 _ Hm3 Ha3 eq_refl).
  intros x Hx. unfold s3, s2, s1, s0.
  rewrite !with_node_lookup_ne by auto. apply created_lookup_ne. exact Hx.
Qed.

Lemma wired_add_log lvl msg st d i up :
  wired (add_log lvl msg st) d i up <-> wired st d i up.
Proof. reflexivity. Qed.

(** The wiring of the session once a new node [a], bare of inputs, has
    taken the place of [m], in terms of the wiring before the new node
    was made. *)
Lemma wired_replaced_fresh m nd A st s3 d i up :
  nodes st !! m = Some nd ->
  fresh st ->
  nodes s3 !! m = Some nd ->
  nodes s3 !! next_id st = Some A ->
  node_inputs A = ∅ ->
  (forall x, x <> next_id st -> nodes s3 !! x = nodes st !! x) ->
  wired (replaced m (next_id st) nd s3) d i up <->
  exists d0 up0, wired st d0 i up0 /\
                 d = renamed m (next_id st) d0 /\
                 up = renamed m (next_id st) up0.
Proof.
  intros Hm Hfresh Hm3 Ha3 HA Hsame.
  set (a := next_id st) in *.
  assert (Hma : m <> a).
  { intros ->. rewrite (Hfresh a) in Hm by (unfold a; lia). discriminate. }
  assert (Hw : forall x j u, x <> a -> wired s3 x j u <-> wired st x j u).
  { intros x j u Hx. unfold wired. rewrite (Hsame x Hx). reflexivity. }
  assert (Hna : forall j u, ~ wired st a j u).
  { intros j u (x & Hx & _). rewrite (Hfresh a) in Hx by (unfold a; lia).
    discriminate Hx. }
  rewrite (wired_replaced m a nd A s3 d i up Hma Hm3 Ha3 HA). split.
  - intros (Hd & up0 & Hup0 & ->).
    exists (if decide (d = a) then m else d), up0.
    split; [|split; [|reflexivity]].
    + apply Hw; [|exact Hup0]. destruct (decide (d = a)); congruence.
    + unfold renamed. destruct (decide (d = a)) as [->|Hda].
      * rewrite decide_True by reflexivity. reflexivity.
      * rewrite decide_False by exact Hd. reflexivity.
  - intros (d0 & up0 & Hup0 & -> & ->).
    assert (Hd0 : d0 <> a) by (intros ->; exact (Hna _ _ Hup0)).
    destruct (decide (d0 = m)) as [->|Hd0m].
    + assert (E : renamed m a m = a)
        by (unfold renamed; rewrite decide_True by reflexivity; reflexivity).
      rewrite E. split; [congruence|]. exists up0.
      rewrite decide_True by reflexivity.
      split; [|reflexivity]. apply Hw; assumption.
    + assert (E : renamed m a d0 = d0)
        by (unfold renamed; rewrite decide_False by exact Hd0m; reflexivity).
      rewrite E. split; [exact Hd0m|]. exists up0.
      rewrite decide_False by exact Hd0.
      split; [|reflexivity]. apply Hw; assumption.
Qed.

(** X11: the loop body of [convert_to_regular_arnold_nodes] keeps the
    wiring of the network: the native node stands where the toolkit node
    stood.  With the id of the toolkit node renamed to the id of the new
    node, the connections after the conversion are exactly the connections
    before it, slot by slot. *)
Theorem convert_to_regular_node_keeps_wiring (host : Host)
    (NT : NodeTypeDef) (m : NodeId) (nd : Node) (st : Session) :
  node_types host HOU_ARNOLD_NODE_TYPE = Some NT ->
  nodes st !! m = Some nd ->
  fresh st ->
  (size (node_inputs nd) <= nt_connectors NT)%nat ->
  to_native_ok host NT nd ->
  exists st',
    convert_to_regular_node host m st = (Ok tt, st') /\
    forall d i up,
      wired st' d i up <->
      exists d0 up0, wired st d0 i up0 /\
                     d = renamed m (next_id st) d0 /\
                     up = renamed m (next_id st) up0.
Proof.
  intros Hreg Hm Hfresh Hsize (Hcan & [prof Hprof] & planes & Hpl & Hlab).
  destruct (convert_to_regular_node_state host NT m nd prof planes st
              Hreg Hm Hfresh Hsize Hcan Hprof Hpl Hlab)
    as (s3 & A & Hrun & Hm3 & Ha3 & HA & Hsame).
  eexists. split; [exact Hrun|]. intros d i up.
  rewrite wired_add_log.
  exact (wired_replaced_fresh m nd A st s3 d i up Hm Hfresh Hm3 Ha3 HA Hsame).
Qed.

(** ** The log through the conversions *)

Lemma log_with_node n f st : log (with_node n f st) = log st.
Proof. unfold with_node. destruct (nodes st !! n); reflexivity. Qed.

Lemma log_with_inputs n f st : log (with_inputs n f st) = log st.
Proof. unfold with_inputs. destruct (nodes st !! n); reflexivity. Qed.

Lemma log_rewire l t st : log (rewire l t st) = log st.
Proof.
  unfold rewire. revert st. induction l as [|c l IH]; intros st; simpl.
  - reflexivity.
  - rewrite IH. apply log_with_inputs.
Qed.

Lemma log_replaced m a nd st : log (replaced m a nd st) = log st.
Proof.
  unfold replaced. rewrite !log_with_node.
  change (log (rewire (outputs_of
                 (nodes (with_inputs a (fun i => node_inputs nd ∪ i) st)) m) a
                 (with_inputs a (fun i => node_inputs nd ∪ i) st)) = log st).
  rewrite log_rewire. apply log_with_inputs.
Qed.

(** Selecting the stored profile on the new toolkit node, with what it
    logs; the parameter has to take the index only when the menu has the
    name. *)
Lemma select_profile_run_log t td pp prof st :
  nodes st !! t = Some td ->
  lookup_parm (node_parms td) TK_OUTPUT_PROFILE_PARM = Some pp ->
  (is_Some (py_list_index (parm_menu_labels pp) prof) ->
   parm_locked pp = false /\ parm_template pp <> StringParmTemplate) ->
  try_except
    (output_profile_parm <- hou_parm t (VStr TK_OUTPUT_PROFILE_PARM) ;;
     labels <- parm_menuLabels output_profile_parm ;;
     match py_list_index labels prof with
     | None => raise ValueError
     | Some output_profile_index =>
         parm_set output_profile_parm (VInt (Z.of_nat output_profile_index))
     end)
    (fun e =>
       match e with
       | ValueError =>
           Some (log_warning ("No output profile found named: " +:+ prof))
       | _ => None
       end) st
  = (Ok tt,
     with_node t (fun nd => set_parms (select_profile prof (node_parms nd)) nd)
       (with_log (profile_warnings pp prof) st)).
Proof.
  intros Ht Hpp Hok. unfold try_except, profile_warnings.
  destruct (py_list_index (parm_menu_labels pp) prof) as [index|] eqn:Ei.
  - destruct (Hok ltac:(eauto)) as [Hlock Htmpl].
    assert (Hset :
      (output_profile_parm <- hou_parm t (VStr TK_OUTPUT_PROFILE_PARM) ;;
       labels <- parm_menuLabels output_profile_parm ;;
       match py_list_index labels prof with
       | None => raise ValueError
       | Some output_profile_index =>
           parm_set output_profile_parm (VInt (Z.of_nat output_profile_index))
       end) st
      = (Ok tt, with_parm t TK_OUTPUT_PROFILE_PARM
                  (set_raw (VInt (Z.of_nat index))) st)).
    { rewrite (bind_Ok _ _ _ _ _ (hou_parm_Some _ _ _ _ _ Ht Hpp)).
      rewrite (bind_Ok _ _ _ _ _ (parm_menuLabels_Some _ _ _ _ _ Ht Hpp)).
      rewrite Ei. apply (parm_set_run _ _ _ _ _ _ Ht Hpp Hlock).
      destruct (parm_template pp); simpl; congruence. }
    rewrite Hset. f_equal. unfold with_log. rewrite app_nil_r.
    replace (mkSession (nodes st) (next_id st) (hip_path st) (pwd st) (log st))
      with st by (destruct st; reflexivity).
    rewrite with_parm_as_node. apply with_node_ext. intros nd Hnd.
    rewrite Ht in Hnd. injection Hnd as <-.
    unfold select_profile. rewrite Hpp, Ei. reflexivity.
  - assert (Hset :
      (output_profile_parm <- hou_parm t (VStr TK_OUTPUT_PROFILE_PARM) ;;
       labels <- parm_menuLabels output_profile_parm ;;
       match py_list_index labels prof with
       | None => raise ValueError
       | Some output_profile_index =>
           parm_set output_profile_parm (VInt (Z.of_nat output_profile_index))
       end) st
      = (Raise ValueError, st)).
    { rewrite (bind_Ok _ _ _ _ _ (hou_parm_Some _ _ _ _ _ Ht Hpp)).
      rewrite (bind_Ok _ _ _ _ _ (parm_menuLabels_Some _ _ _ _ _ Ht Hpp)).
      rewrite Ei. reflexivity. }
    rewrite Hset. unfold log_warning, modify. f_equal.
    rewrite with_node_id; [reflexivity|].
    intros nd Hnd. simpl in Hnd. rewrite Ht in Hnd. injection Hnd as <-.
    unfold select_profile. rewrite Hpp, Ei. apply set_parms_same.
Qed.

(** [convert_back_node] up to the point where the toolkit node takes the
    place of the native node. *)
Lemma convert_back_node_state host def x ad pp prof planes st :
  node_types host TK_ARNOLD_NODE_TYPE = Some def ->
  nodes st !! x = Some ad ->
  fresh st ->
  (size (node_inputs ad) <= nt_connectors def)%nat ->
  node_user_data ad !! TK_OUTPUT_PROFILE_NAME_KEY = Some prof ->
  prof <> "" ->
  lookup_parm (nt_parms def) TK_OUTPUT_PROFILE_PARM = Some pp ->
  (is_Some (py_list_index (parm_menu_labels pp) prof) ->
   parm_locked pp = false /\ parm_template pp <> StringParmTemplate) ->
  all_can_copy host (node_parms ad) (nt_parms def) ->
  plane_numbers host ad = Some planes ->
  labels_restorable (node_user_data ad) planes (nt_parms def) ->
  exists s3 A,
    convert_back_node host x st
      = (Ok tt,
         add_log LDebug
           ("Converted: Arnold node '" +:+ node_name ad
              +:+ "' to TK Arnold node.")
           (replaced x (next_id st) ad s3)) /\
    nodes s3 !! x = Some ad /\
    nodes s3 !! next_id st = Some A /\
    node_inputs A = ∅ /\
    (forall y, y <> next_id st -> nodes s3 !! y = nodes st !! y) /\
    log s3 = (log st ++ profile_warnings pp prof)%list /\
    node_type A = TK_ARNOLD_NODE_TYPE /\
    node_parms A
      = restore_labels (node_user_data ad) planes
          (copy_parms host (node_parms ad)
             (select_profile prof (nt_parms def))).
Proof.
  intros Hreg Hx Hfresh Hsize Hud Hne Hpp Hsel0 Hcan Hplanes Hlabels.
  cut (forall P : Outcome unit * Session -> Prop,
         (forall s3 A,
            nodes s3 !! x = Some ad ->
            nodes s3 !! next_id st = Some A ->
            node_inputs A = ∅ ->
            (forall y, y <> next_id st -> nodes s3 !! y = nodes st !! y) ->
            log s3 = (log st ++ profile_warnings pp prof)%list ->
            node_type A = TK_ARNOLD_NODE_TYPE ->
            node_parms A
              = restore_labels (node_user_data ad) planes
                  (copy_parms host (node_parms ad)
                     (select_profile prof (nt_parms def))) ->
            P (Ok tt,
               add_log LDebug
                 ("Converted: Arnold node '" +:+ node_name ad
                    +:+ "' to TK Arnold node.")
                 (replaced x (next_id st) ad s3))) ->
         P (convert_back_node host x st)).
  { intros Hcps. apply Hcps. intros s3 A H1 H2 H3 H4 H5 H6 H7. exists s3, A.
    split; [reflexivity|]. split; [exact H1|]. split; [exact H2|].
    split; [exact H3|]. split; [exact H4|]. split; [exact H5|].
    split; [exact H6|exact H7]. }
  intros P HP.
  set (a := next_id st) in *.
  assert (Hxa : x <> a).
  { intros ->. rewrite (Hfresh a) in Hx by (unfold a; lia). discriminate. }
  unfold convert_back_node.
  rewrite (bind_Ok _ _ _ _ _ (hou_userDataDict_Some _ _ _ Hx)), Hud.
  destruct prof as [|ch prof]; [congruence|].
  set (name := String ch prof) in *.
  rewrite (bind_Ok _ _ _ _ _ (hou_parent_Some _ _ _ Hx)).
  rewrite (bind_Ok _ _ _ _ _ (hou_createNode_run host _ _ _ st Hreg)).
  fold a.
  set (s0 := created TK_ARNOLD_NODE_TYPE (node_parent ad) def st).
  set (nd0 := mkNode TK_ARNOLD_NODE_TYPE (TK_ARNOLD_NODE_TYPE +:+ pretty a)
                     (node_parent ad) origin (nt_parms def) ∅ ∅
                     (nt_connectors def)).
  assert (Ha0 : nodes s0 !! a = Some nd0) by apply created_lookup.
  assert (Hx0 : nodes s0 !! x = Some ad)
    by (unfold s0; rewrite created_lookup_ne by exact Hxa; exact Hx).
  rewrite (bind_Ok _ _ _ _ _
             (select_profile_run_log a nd0 pp name s0 Ha0 Hpp Hsel0)).
  set (msgs := profile_warnings pp name).
  set (s1 := with_node a _ (with_log msgs s0)).
  assert (Ha1 : nodes s1 !! a
            = Some (set_parms (select_profile name (nt_parms def)) nd0)).
  { unfold s1. rewrite (with_node_lookup a _ nd0 (with_log msgs s0) Ha0).
    reflexivity. }
  assert (Hx1 : nodes s1 !! x = Some ad)
    by (unfold s1; rewrite with_node_lookup_ne by auto; exact Hx0).
  assert (Hcan1 : all_can_copy host (node_parms ad)
                    (node_parms (set_parms (select_profile name (nt_parms def))
                                           nd0))).
  { simpl. eapply all_can_copy_same_shape; [|exact Hcan].
    apply same_shape_select_profile. }
  rewrite (bind_Ok _ _ _ _ _
             (_copy_parm_values_run host x a (Some []) ad _ s1 Hxa Hx1 Ha1
                (fun _ => eq_refl) Hcan1)).
  set (s2 := with_node a _ s1).
  assert (Ha2 : nodes s2 !! a
            = Some (set_parms
                      (copy_parms host (node_parms ad)
                         (select_profile name (nt_parms def))) nd0)).
  { unfold s2. rewrite (with_node_lookup a _ _ s1 Ha1). reflexivity. }
  assert (Hx2 : nodes s2 !! x = Some ad)
    by (unfold s2; rewrite with_node_lookup_ne by auto; exact Hx1).
  rewrite (bind_Ok _ _ _ _ _
             (_get_extra_plane_numbers_run host x ad planes s2 Hx2 Hplanes)).
  assert (Hl2 : labels_restorable (node_user_data ad) planes
                  (node_parms (set_parms
                      (copy_parms host (node_parms ad)
                         (select_profile name (nt_parms def))) nd0))).
  { simpl. eapply labels_restorable_same_shape; [|exact Hlabels].
    eapply same_shape_trans;
      [apply same_shape_select_profile | apply same_shape_copy_parms]. }
  rewrite (bind_Ok _ _ _ _ _
             (restore_loop_run a (node_user_data ad) planes _ s2 Ha2 Hl2)).
  set (s3 := with_node a _ s2).
  assert (Ha3 : nodes s3 !! a
            = Some (mkNode TK_ARNOLD_NODE_TYPE
                      (TK_ARNOLD_NODE_TYPE +:+ pretty a) (node_parent ad) origin
                      (restore_labels (node_user_data ad) planes
                         (copy_parms host (node_parms ad)
                            (select_profile name (nt_parms def))))
                      ∅ ∅ (nt_connectors def))).
  { unfold s3. rewrite (with_node_lookup a _ _ s2 Ha2). reflexivity. }
  assert (Hx3 : nodes s3 !! x = Some ad)
    by (unfold s3; rewrite with_node_lookup_ne by auto; exact Hx2).
  rewrite (replace_node_run x a ad _ s3 "Converted: Arnold node '"
             "' to TK Arnold node." Hxa Hx3 Ha3 Hsize).
  apply (HP s3 _ Hx3 Ha3 eq_refl).
  - intros y Hy. unfold s3, s2, s1.
    rewrite !with_node_lookup_ne by auto.
    change (nodes s0 !! y = nodes st !! y).
    apply created_lookup_ne. exact Hy.
  - unfold s3, s2, s1. rewrite !log_with_node. reflexivity.
  - reflexivity.
  - reflexivity.
Qed.

(** X12: the loop body of [convert_back_to_tk_arnold_nodes], on a native
    node that bears a profile name, keeps the wiring of the network: the
    toolkit node stands where the native node stood.  With the id of the
    native node renamed to the id of the new node, the connections after
    the conversion are exactly the connections before it, slot by slot. *)
Theorem convert_back_node_keeps_wiring (host : Host)
    (TT : NodeTypeDef) (x : NodeId) (ad : Node) (st : Session) :
  node_types host TK_ARNOLD_NODE_TYPE = Some TT ->
  nodes st !! x = Some ad ->
  fresh st ->
  (size (node_inputs ad) <= nt_connectors TT)%nat ->
  to_tk_ok host TT ad ->
  exists st',
    convert_back_node host x st = (Ok tt, st') /\
    forall d i up,
      wired st' d i up <->
      exists d0 up0, wired st d0 i up0 /\
                     d = renamed x (next_id st) d0 /\
                     up = renamed x (next_id st) up0.
Proof.
  intros Hreg Hx Hfresh Hsize
    (prof & pp & planes & Hud & Hne & Hpp & Hlock & Htmpl & Hcan & Hpl & Hlab).
  destruct (convert_back_node_state host TT x ad pp prof planes st
              Hreg Hx Hfresh Hsize Hud Hne Hpp (fun _ => conj Hlock Htmpl)
              Hcan Hpl Hlab)
    as (s3 & A & Hrun & Hx3 & Ha3 & HA & Hsame & _).
  eexists. split; [exact Hrun|]. intros d i up.
  rewrite wired_add_log.
  exact (wired_replaced_fresh x ad A st s3 d i up Hx Hfresh Hx3 Ha3 HA Hsame).
Qed.

Lemma instances_add_log ty lvl msg st :
  instances ty (add_log lvl msg st) = instances ty st.
Proof. reflexivity. Qed.

(** X13: [convert_to_regular_arnold_nodes], when every toolkit node can
    be converted, leaves no toolkit node in the session: the call
    returns, and [get_all_tk_arnold_nodes] called next returns the empty
    list. *)
Theorem convert_to_regular_leaves_no_tk_node (host : Host)
    (NT TT : NodeTypeDef) (st : Session) :
  node_types host HOU_ARNOLD_NODE_TYPE = Some NT ->
  node_types host TK_ARNOLD_NODE_TYPE = Some TT ->
  fresh st ->
  deg_ok (nt_connectors NT) st ->
  (forall m nd, nodes st !! m = Some nd ->
     node_type nd = TK_ARNOLD_NODE_TYPE -> to_native_ok host NT nd) ->
  exists st1,
    convert_to_regular_arnold_nodes host st = (Ok tt, st1) /\
    get_all_tk_arnold_nodes host st1 = (Ok [], st1).
Proof.
  intros HN HT Hfresh Hdeg Hok.
  unfold convert_to_regular_arnold_nodes, get_all_tk_arnold_nodes.
  rewrite (bind_Ok _ _ _ _ _ (hou_instances_run host _ TT st HT)).
  destruct (instances TK_ARNOLD_NODE_TYPE st) as [|m0 L0] eqn:E.
  - eexists. split; [reflexivity|].
    rewrite (hou_instances_run host _ TT _ HT), instances_add_log, E.
    reflexivity.
  - rewrite <- E.
    destruct (convert_to_regular_loop host NT (nt_connectors NT)
                (instances TK_ARNOLD_NODE_TYPE st) st HN (Nat.le_refl _)
                (NoDup_instances _ _) Hfresh Hdeg)
      as (st1 & Hrun & Hfresh1 & _ & _ & Hframe & Hnew & _).
    { intros m (nd & Hm & Hty)%elem_of_instances.
      exists (attrs nd). split; [apply attrs_lookup_Some, Hm|].
      exact (Hok m nd Hm Hty). }
    exists st1. split; [exact Hrun|].
    rewrite (hou_instances_run host _ TT _ HT). do 2 f_equal.
    apply elem_of_nil_inv. intros x (nd & Hx & Hty)%elem_of_instances.
    pose proof (attrs_lookup_Some _ _ _ Hx) as HB.
    pose proof (attrs_lookup_lt _ _ _ Hfresh1 HB) as Hlt1.
    destruct (decide (x < next_id st)%nat) as [Hlt|Hge].
    + rewrite (Hframe x Hlt) in HB.
      destruct (decide (x ∈ instances TK_ARNOLD_NODE_TYPE st)) as [|Hnin];
        [discriminate HB|].
      apply Hnin. apply attrs_lookup_inv in HB as (nd0 & Hx0 & Hnd0).
      apply elem_of_instances. exists nd0. split; [exact Hx0|].
      change (node_type (attrs nd0) = TK_ARNOLD_NODE_TYPE).
      rewrite Hnd0. exact Hty.
    + destruct (Hnew x) as (m & A & _ & _ & Hx'); [lia|lia|].
      rewrite HB in Hx'.
      pose proof (f_equal (fmap node_type) Hx') as Hty'.
      cbn in Hty'. rewrite Hty in Hty'. discriminate Hty'.
Qed.

(** The loop of [convert_back_to_tk_arnold_nodes]: a native node that is
    there in the end was there from the start, and bears no profile name
    if the loop has met it. *)
Lemma convert_back_loop_left host TT c (L : list NodeId) st :
  node_types host TK_ARNOLD_NODE_TYPE = Some TT ->
  (c <= nt_connectors TT)%nat ->
  NoDup L -> fresh st -> deg_ok c st ->
  (forall x, x ∈ L ->
     exists B, attrs_lookup st x = Some B /\
               (unstamped B \/ to_tk_ok host TT B)) ->
  exists st',
    for_each L (convert_back_node host) st = (Ok tt, st') /\
    forall y nd, nodes st' !! y = Some nd ->
      node_type nd = HOU_ARNOLD_NODE_TYPE ->
      attrs_lookup st y = Some (attrs nd) /\ (y ∈ L -> unstamped nd).
Proof.
  intros Hty Hc Hnd. revert st.
  induction Hnd as [|x L Hx HL IH]; intros st Hfresh Hdeg Hok.
  - exists st. split; [reflexivity|]. intros y nd Hy _.
    split; [apply attrs_lookup_Some, Hy|].
    intros Hin. apply not_elem_of_nil in Hin. contradiction.
  - destruct (Hok x) as (B & HB & HokB); [apply elem_of_cons; auto|].
    destruct (attrs_lookup_inv _ _ _ HB) as (xd & Hn & <-).
    assert (Hlt : forall x', x' ∈ x :: L -> (x' < next_id st)%nat).
    { intros x' Hin. destruct (Hok x' Hin) as (B' & HB' & _).
      exact (attrs_lookup_lt _ _ _ Hfresh HB'). }
    destruct HokB as [Hun|Htk].
    + pose proof (convert_back_node_unstamped host x xd st Hn Hun) as Hrun.
      set (st1 := add_log LWarning (no_profile_warning (node_name xd)) st)
        in *.
      destruct (IH st1) as (st' & Hrun' & Hleft).
      { exact Hfresh. }
      { apply deg_ok_add_log, Hdeg. }
      { intros x' Hin. apply (Hok x'), elem_of_cons; auto. }
      exists st'. split.
      { cbn [for_each]. rewrite (bind_Ok _ _ _ _ _ Hrun). exact Hrun'. }
      intros y nd Hy Hnty. destruct (Hleft y nd Hy Hnty) as [H1 H2].
      split; [exact H1|].
      intros [->|Hin]%elem_of_cons; [|exact (H2 Hin)].
      change (attrs_lookup st x = Some (attrs nd)) in H1.
      rewrite (attrs_lookup_Some _ _ _ Hn) in H1.
      assert (H1' : attrs xd = attrs nd) by congruence.
      exact (unstamped_attrs _ _ H1' Hun).
    + destruct Htk as (prof & pp & planes & Hk & Hne & Hpp & Hl & Ht & Hcan
                       & Hpl & Hlab).
      destruct (convert_back_node_run host TT c x xd pp prof planes st
                  Hty Hn Hfresh Hdeg Hc Hk Hne Hpp Hl Ht Hcan Hpl Hlab)
        as (st1 & Hrun & Hnext & Hfresh1 & Hdeg1 & Hattrs).
      destruct (IH st1 Hfresh1 Hdeg1) as (st' & Hrun' & Hleft).
      { intros x' Hin. rewrite Hattrs.
        assert (x' < next_id st)%nat by (apply Hlt, elem_of_cons; auto).
        rewrite decide_False by lia.
        rewrite decide_False by (intros ->; contradiction).
        apply (Hok x'), elem_of_cons; auto. }
      exists st'. split.
      { cbn [for_each]. rewrite (bind_Ok _ _ _ _ _ Hrun). exact Hrun'. }
      intros y nd Hy Hnty. destruct (Hleft y nd Hy Hnty) as [H1 H2].
      rewrite Hattrs in H1.
      destruct (decide (y = next_id st)) as [->|Hya].
      { pose proof (f_equal (fmap node_type) H1) as Hty'.
        cbn in Hty'. rewrite Hnty in Hty'. discriminate Hty'. }
      destruct (decide (y = x)) as [->|Hyx]; [discriminate H1|].
      split; [exact H1|].
      intros [->|Hin]%elem_of_cons; [contradiction|exact (H2 Hin)].
Qed.

(** X14: [convert_back_to_tk_arnold_nodes], when every native node that
    bears a profile name can be converted, leaves no such node: the call
    returns, and every native node of the session it leaves was there
    before, the same but for its wiring, and bears no profile name. *)
Theorem convert_back_leaves_unstamped (host : Host)
    (NT TT : NodeTypeDef) (st : Session) :
  node_types host HOU_ARNOLD_NODE_TYPE = Some NT ->
  node_types host TK_ARNOLD_NODE_TYPE = Some TT ->
  fresh st ->
  deg_ok (nt_connectors TT) st ->
  (forall x nd, nodes st !! x = Some nd ->
     node_type nd = HOU_ARNOLD_NODE_TYPE ->
     unstamped nd \/ to_tk_ok host TT nd) ->
  exists st2,
    convert_back_to_tk_arnold_nodes host st = (Ok tt, st2) /\
    forall y nd, nodes st2 !! y = Some nd ->
      node_type nd = HOU_ARNOLD_NODE_TYPE ->
      attrs_lookup st y = Some (attrs nd) /\ unstamped nd.
Proof.
  intros HN HT Hfresh Hdeg Hok. unfold convert_back_to_tk_arnold_nodes.
  rewrite (bind_Ok _ _ _ _ _ (hou_instances_run host _ NT st HN)).
  destruct (instances HOU_ARNOLD_NODE_TYPE st) as [|x0 L0] eqn:E.
  - eexists. split; [reflexivity|]. intros y nd Hy Hnty.
    exfalso. change (nodes st !! y = Some nd) in Hy.
    assert (Hin : y ∈ instances HOU_ARNOLD_NODE_TYPE st)
      by (apply elem_of_instances; eauto).
    rewrite E in Hin. apply not_elem_of_nil in Hin. contradiction.
  - rewrite <- E.
    destruct (convert_back_loop_left host TT (nt_connectors TT)
                (instances HOU_ARNOLD_NODE_TYPE st) st HT (Nat.le_refl _)
                (NoDup_instances _ _) Hfresh Hdeg)
      as (st2 & Hrun & Hleft).
    { intros x (nd & Hx & Hty)%elem_of_instances.
      exists (attrs nd). split; [apply attrs_lookup_Some, Hx|].
      exact (Hok x nd Hx Hty). }
    exists st2. split; [exact Hrun|]. intros y nd Hy Hnty.
    destruct (Hleft y nd Hy Hnty) as [H1 H2]. split; [exact H1|].
    apply H2. apply attrs_lookup_inv in H1 as (nd0 & Hy0 & Hnd0).
    apply elem_of_instances. exists nd0. split; [exact Hy0|].
    change (node_type (attrs nd0) = HOU_ARNOLD_NODE_TYPE).
    rewrite Hnd0. exact Hnty.
Qed.

(** ** The plane number in the name of a parameter *)

Lemma append_nil_r (s : string) : s +:+ "" = s.
Proof.
  induction s as [|c s IH]; [reflexivity|]. exact (f_equal (String c) IH).
Qed.

Lemma append_assoc (a b c : string) : (a +:+ b) +:+ c = a +:+ (b +:+ c).
Proof.
  induction a as [|x a IH]; [reflexivity|]. exact (f_equal (String x) IH).
Qed.

Lemma append_not_nil (a b : string) : b <> "" -> a +:+ b <> "".
Proof. destruct a; simpl; [auto|discriminate]. Qed.

(** A run of digits is read to its end. *)
Lemma findall_digits_run (d run : string) :
  all_digits d = true -> run +:+ d <> "" ->
  findall_digits d run = [run +:+ d].
Proof.
  revert run. induction d as [|c d IH]; intros run Hd Hne; simpl in *.
  - rewrite append_nil_r in *. destruct run; [congruence|reflexivity].
  - apply andb_prop in Hd as [Hc Hd]. rewrite Hc.
    rewrite (IH _ Hd).
    + rewrite append_assoc. reflexivity.
    + rewrite append_assoc. apply append_not_nil. discriminate.
Qed.

(** What comes before the first digit is passed over. *)
Lemma findall_digits_prefix (pre s : string) :
  no_digit pre = true ->
  findall_digits (pre +:+ s) "" = findall_digits s "".
Proof.
  induction pre as [|c pre IH]; intros Hp; simpl in *; [reflexivity|].
  apply andb_prop in Hp as [Hc Hp]. apply negb_true_iff in Hc.
  rewrite Hc. apply IH, Hp.
Qed.

Lemma findall_digits_none (s : string) :
  no_digit s = true -> findall_digits s "" = [].
Proof.
  intros H. rewrite <- (append_nil_r s). rewrite (findall_digits_prefix s "" H).
  reflexivity.
Qed.

Lemma is_digit_pretty_N_char (x : N) : is_digit (pretty_N_char x) = true.
Proof.
  destruct x as [|p]; [reflexivity|].
  do 4 (try (destruct p as [p|p|]; try reflexivity)).
Qed.

Lemma all_digits_pretty_N_go (x : N) (s : string) :
  all_digits s = true -> all_digits (pretty_N_go x s) = true.
Proof.
  revert s. induction x as [x IH] using (well_founded_induction N.lt_wf_0).
  intros s Hs. destruct (decide (x = 0%N)) as [->|Hx].
  - rewrite pretty_N_go_0. exact Hs.
  - rewrite pretty_N_go_step by lia. apply IH.
    + apply N.div_lt; lia.
    + simpl. rewrite is_digit_pretty_N_char. exact Hs.
Qed.

Lemma pretty_N_go_not_nil (x : N) (s : string) :
  s <> "" -> pretty_N_go x s <> "".
Proof.
  revert s. induction x as [x IH] using (well_founded_induction N.lt_wf_0).
  intros s Hs. destruct (decide (x = 0%N)) as [->|Hx].
  - rewrite pretty_N_go_0. exact Hs.
  - rewrite pretty_N_go_step by lia. apply IH.
    + apply N.div_lt; lia.
    + discriminate.
Qed.

(** A plane number is printed in digits. *)
Lemma pretty_plane_number (k : Z) :
  (0 <= k)%Z -> all_digits (pretty k) = true /\ pretty k <> "".
Proof.
  intros Hk. destruct k as [|p|p]; [split; [reflexivity|discriminate]| |lia].
  change (pretty (Z.pos p)) with (pretty_N_go (N.pos p) "").
  split; [apply all_digits_pretty_N_go; reflexivity|].
  rewrite pretty_N_go_step by lia. apply pretty_N_go_not_nil. discriminate.
Qed.

(** The plane number that [use_file_plane] reads off a parameter name
    that ends in it. *)
Lemma plane_number_of_name (pre : string) (k : Z) :
  no_digit pre = true -> (0 <= k)%Z ->
  py_index (findall_digits (pre +:+ pretty k) "") (VInt (-1)) = Ok (pretty k).
Proof.
  intros Hp Hk. destruct (pretty_plane_number k Hk) as [Hd Hne].
  rewrite (findall_digits_prefix pre _ Hp).
  rewrite (findall_digits_run _ "" Hd) by exact Hne. reflexivity.
Qed.

Lemma parm_name_run n nd name p st :
  nodes st !! n = Some nd ->
  lookup_parm (node_parms nd) name = Some p ->
  parm_name (n, name) st = (Ok name, st).
Proof.
  intros H Hp. unfold parm_name.
  rewrite (bind_Ok _ _ _ _ _ (the_parm_Some _ _ _ _ _ H Hp)). reflexivity.
Qed.

(** X15: [use_file_plane] called for a plane whose checkbox
    [ar_aov_separate<N>] is unchecked: the plane number is read off the
    end of the name of the parameter in [kwargs], and the path parameter
    [sgtk_ar_aov_separate_file<N>] of that plane, locked or not before,
    is left holding [Disabled] and locked; nothing else of the session
    changes. *)
Theorem use_file_plane_unchecked (host : Host) (app : App) (self : Handler)
    (n : NodeId) (nd : Node) (pre : string) (k : Z) (kp cp pp : Parm)
    (st : Session) :
  no_digit pre = true ->
  (0 <= k)%Z ->
  nodes st !! n = Some nd ->
  lookup_parm (node_parms nd) (pre +:+ pretty k) = Some kp ->
  lookup_parm (node_parms nd) ("ar_aov_separate" +:+ pretty k) = Some cp ->
  truthy (parm_value host cp) = false ->
  lookup_parm (node_parms nd) ("sgtk_ar_aov_separate_file" +:+ pretty k)
    = Some pp ->
  parm_template pp = StringParmTemplate ->
  use_file_plane host app self (Some n) (Some (n, pre +:+ pretty k)) st
    = (Ok tt,
       with_parm n ("sgtk_ar_aov_separate_file" +:+ pretty k)
                 (written_locked (VStr "Disabled")) st).
Proof.
  intros Hpre Hk Hn Hkp Hcp Hfalse Hpp Htmpl. unfold use_file_plane.
  cbv iota.
  rewrite (bind_Ok (lift (Ok n)) _ st n st eq_refl).
  rewrite (bind_Ok (lift (Ok (n, pre +:+ pretty k))) _ st _ st eq_refl).
  rewrite (bind_Ok _ _ _ _ _ (parm_name_run _ _ _ _ _ Hn Hkp)).
  rewrite (bind_Ok _ _ st (pretty k) st)
    by (unfold lift; rewrite (plane_number_of_name pre k Hpre Hk);
        reflexivity).
  rewrite (bind_Ok _ _ _ _ _ (hou_parm_Some _ _ _ _ _ Hn Hcp)).
  rewrite (bind_Ok _ _ _ _ _ (parm_eval_Some host _ _ _ _ _ Hn Hcp)).
  rewrite Hfalse.
  set (name := "sgtk_ar_aov_separate_file" +:+ pretty k) in *.
  rewrite (bind_Ok _ _ _ _ _ (hou_parm_Some _ _ _ _ _ Hn Hpp)).
  rewrite (bind_Ok _ _ _ _ _ (parm_lock_run _ _ _ _ _ _ Hn Hpp)).
  pose proof (with_parm_lookup n name (set_locked false) nd st Hn) as H1.
  assert (Hp1 : lookup_parm (node_parms (set_parms
                  (update_parm (node_parms nd) name (set_locked false)) nd))
                  name = Some (set_locked false pp))
    by (simpl; rewrite lookup_update_parm_eq, Hpp; reflexivity).
  rewrite (bind_Ok _ _ _ _ _
             (parm_set_run _ _ (VStr "Disabled") _ _ _ H1 Hp1 eq_refl
                ltac:(simpl; rewrite Htmpl; reflexivity))).
  rewrite with_parm_with_parm.
  pose proof (with_parm_lookup n name
                (fun p => set_raw (VStr "Disabled") (set_locked false p))
                nd st Hn) as H2.
  assert (Hp2 : lookup_parm (node_parms (set_parms
                  (update_parm (node_parms nd) name
                     (fun p => set_raw (VStr "Disabled") (set_locked false p)))
                  nd)) name
                = Some (set_raw (VStr "Disabled") (set_locked false pp)))
    by (simpl; rewrite lookup_update_parm_eq, Hpp; reflexivity).
  rewrite (parm_lock_run _ _ true _ _ _ H2 Hp2).
  rewrite with_parm_with_parm. reflexivity.
Qed.

(** X16: [use_file_plane] called with a parameter whose name has no
    digit in it finds no plane number: it raises [IndexError] and leaves
    the session as it was. *)
Theorem use_file_plane_no_plane_number (host : Host) (app : App)
    (self : Handler) (n : NodeId) (nd : Node) (name : string) (kp : Parm)
    (st : Session) :
  no_digit name = true ->
  nodes st !! n = Some nd ->
  lookup_parm (node_parms nd) name = Some kp ->
  use_file_plane host app self (Some n) (Some (n, name)) st
    = (Raise IndexError, st).
Proof.
  intros Hname Hn Hkp. unfold use_file_plane.
  cbv iota.
  rewrite (bind_Ok (lift (Ok n)) _ st n st eq_refl).
  rewrite (bind_Ok (lift (Ok (n, name))) _ st _ st eq_refl).
  rewrite (bind_Ok _ _ _ _ _ (parm_name_run _ _ _ _ _ Hn Hkp)).
  rewrite (findall_digits_none name Hname). reflexivity.
Qed.

(** What is at an id once [a] has taken the place of [m], wiring
    apart. *)
Lemma attrs_lookup_replaced m a nd st y :
  attrs_lookup (replaced m a nd st) y
    = if decide (y = a)
      then (fun A => set_pos (node_pos nd) (set_name (node_name nd) A))
             <$> (if decide (a = m) then None else attrs_lookup st a)
      else if decide (y = m) then None else attrs_lookup st y.
Proof.
  unfold replaced.
  rewrite (attrs_lookup_with_node a _ (set_pos (node_pos nd))) by reflexivity.
  rewrite (attrs_lookup_with_node a _ (set_name (node_name nd))) by reflexivity.
  rewrite attrs_lookup_destroyed.
  rewrite attrs_lookup_rewire, attrs_lookup_with_inputs.
  destruct (decide (y = a)) as [->|Hya]; [|reflexivity].
  destruct (decide (a = m)); [reflexivity|].
  destruct (attrs_lookup st a); reflexivity.
Qed.

(** X17: the loop body of [convert_back_to_tk_arnold_nodes] on a native
    node whose stored profile name is not in the menu of the toolkit
    node type any more: the node is converted all the same.  A warning
    that names the profile and the message of the conversion are all it
    logs, the native node is gone, and the toolkit node that bears its
    name has the profile parameter as its type defines it. *)
Theorem convert_back_profile_not_offered (host : Host) (TT : NodeTypeDef)
    (x : NodeId) (ad : Node) (prof : string) (pp : Parm) (planes : list Z)
    (st : Session) :
  node_types host TK_ARNOLD_NODE_TYPE = Some TT ->
  nodes st !! x = Some ad ->
  fresh st ->
  (size (node_inputs ad) <= nt_connectors TT)%nat ->
  node_user_data ad !! TK_OUTPUT_PROFILE_NAME_KEY = Some prof ->
  prof <> "" ->
  lookup_parm (nt_parms TT) TK_OUTPUT_PROFILE_PARM = Some pp ->
  py_list_index (parm_menu_labels pp) prof = None ->
  lookup_parm (node_parms ad) TK_OUTPUT_PROFILE_PARM = None ->
  all_can_copy host (node_parms ad) (nt_parms TT) ->
  plane_numbers host ad = Some planes ->
  labels_restorable (node_user_data ad) planes (nt_parms TT) ->
  exists st',
    convert_back_node host x st = (Ok tt, st') /\
    log st'
      = (log st ++
         [(LWarning, "No output profile found named: " +:+ prof);
          (LDebug, "Converted: Arnold node '" +:+ node_name ad
                     +:+ "' to TK Arnold node.")])%list /\
    nodes st' !! x = None /\
    exists td,
      nodes st' !! next_id st = Some td /\
      node_type td = TK_ARNOLD_NODE_TYPE /\
      node_name td = node_name ad /\
      lookup_parm (node_parms td) TK_OUTPUT_PROFILE_PARM = Some pp.
Proof.
  intros Hreg Hx Hfresh Hsize Hud Hne Hpp Hidx Hnone Hcan Hpl Hlab.
  assert (Hxa : x <> next_id st).
  { intros E. rewrite E, (Hfresh (next_id st)) in Hx by lia. discriminate. }
  destruct (convert_back_node_state host TT x ad pp prof planes st
              Hreg Hx Hfresh Hsize Hud Hne Hpp
              ltac:(rewrite Hidx; intros [? ?]; discriminate)
              Hcan Hpl Hlab)
    as (s3 & A & Hrun & Hx3 & Ha3 & HA & Hsame & Hlog & Hty & Hparms).
  eexists. split; [exact Hrun|]. split; [|split].
  - cbn [log add_log]. rewrite log_replaced, Hlog.
    unfold profile_warnings. rewrite Hidx, <- app_assoc. reflexivity.
  - apply attrs_lookup_None.
    change (attrs_lookup (replaced x (next_id st) ad s3) x = None).
    rewrite attrs_lookup_replaced.
    rewrite decide_False by exact Hxa. rewrite decide_True by reflexivity.
    reflexivity.
  - pose proof (attrs_lookup_replaced x (next_id st) ad s3 (next_id st)) as Hat.
    rewrite decide_True in Hat by reflexivity.
    rewrite decide_False in Hat by auto.
    rewrite (attrs_lookup_Some _ _ _ Ha3) in Hat.
    cbn [fmap option_fmap option_map] in Hat.
    apply attrs_lookup_inv in Hat as (td & Htd & Hattrs).
    exists td. split; [exact Htd|].
    split; [|split].
    + change (node_type (attrs td) = TK_ARNOLD_NODE_TYPE).
      rewrite Hattrs. exact Hty.
    + change (node_name (attrs td) = node_name ad).
      rewrite Hattrs. reflexivity.
    + change (lookup_parm (node_parms (attrs td)) TK_OUTPUT_PROFILE_PARM
                = Some pp).
      rewrite Hattrs. cbn [node_parms set_pos set_name attrs set_inputs].
      rewrite Hparms, lookup_restore_labels.
      rewrite decide_False.
      * rewrite lookup_copy_parms, Hnone.
        unfold select_profile. rewrite Hpp, Hidx. exact Hpp.
      * intros Hin. apply list_elem_of_fmap in Hin as (i & Hi & _).
        exact (plane_name_not_profile i (eq_sym Hi)).
Qed.

(** A check, parameter by parameter, that a copy goes through. *)
Lemma all_can_copy_check host src tgt :
  forallb (fun kp : string * Parm =>
             match lookup_parm tgt kp.1 with
             | Some tp => can_copy host kp.2 tp
             | None => true
             end) src = true ->
  all_can_copy host src tgt.
Proof.
  intros H name sp tp Hs Ht. rewrite forallb_forall in H.
  specialize (H (name, sp) (lookup_parm_In _ _ _ Hs)). simpl in H.
  rewrite Ht in H. exact H.
Qed.

(** X18: [_get_rendered_files] on a node whose profile and render
    template resolve: it takes the unexpanded string of the output path
    parameter; when the render template recognizes that path it returns
    the paths the toolkit finds for the fields of the path, the sequence
    and eye keys skipped, and leaves the session as it was; when the
    template does not, it raises nothing: it returns the empty list and
    logs one error that names the node and the path. *)
Theorem get_rendered_files_validates (host : Host) (app : App)
    (self : Handler)
    (paths_from_template :
       Template app -> gmap string Value -> list string -> list string)
    (n : NodeId) (nd : Node) (p op : Parm) (path pname tname : string)
    (prof : Profile) (T : Template app) (st : Session) :
  nodes st !! n = Some nd ->
  lookup_parm (node_parms nd) NODE_OUTPUT_PATH_PARM = Some p ->
  parm_template p = StringParmTemplate ->
  parm_raw p = VStr path ->
  lookup_parm (node_parms nd) TK_OUTPUT_PROFILE_PARM = Some op ->
  py_index (parm_menu_labels op) (parm_value host op) = Ok pname ->
  lookup_profile (_output_profiles self) pname = Some prof ->
  prof_templates prof !! "output_render_template" = Some tname ->
  get_template_by_name app tname = Some T ->
  _get_rendered_files host app self paths_from_template n st
    = if validate app T path
      then (Ok (paths_from_template T (get_fields app T path) ["SEQ"; "eye"]),
            st)
      else (Ok [],
            add_log LError
              ("Unable to validate files on disk for node " +:+ node_name nd
                 +:+ ".The path '" +:+ path
                 +:+ "' is not recognized by Shotgun.") st).
Proof.
  intros Hn Hp Ht Hr Hop Hidx Hprof Htn HT.
  unfold _get_rendered_files, _get_render_path.
  rewrite (bind_Ok _ _ st path st).
  2:{ rewrite (bind_Ok _ _ _ _ _ (hou_parm_Some _ _ _ _ _ Hn Hp)).
      exact (parm_unexpandedString_Some _ _ _ _ _ _ Hn Hp Ht Hr). }
  rewrite (bind_Ok _ _ st prof st).
  2:{ rewrite (_get_output_profile_run host self (Some n) st nd op Hn Hop).
      rewrite Hidx, Hprof. reflexivity. }
  rewrite Htn, HT.
  destruct (validate app T path); cbn [negb]; [reflexivity|].
  rewrite (bind_Ok _ _ _ _ _ (hou_name_Some _ _ _ Hn)). reflexivity.
Qed.
(** ** The further properties at work on the demo sessions *)

Lemma get_output_profile_of_menu_witness :
  exists prof,
    _get_output_profile Demo.host Demo.self (Some 1)
      (Demo.session "/proj/shot.v003.hip"
         (Demo.tk_node "arnold1" Demo.tk_parms))
    = (Ok prof, Demo.session "/proj/shot.v003.hip"
                  (Demo.tk_node "arnold1" Demo.tk_parms)) /\
    prof_name prof = "Exr" /\
    first_named "Exr" (output_profiles Demo.app) = Some prof.
Proof.
  apply (get_output_profile_of_menu Demo.host Demo.app
           (Demo.session "" (Demo.tk_node "arnold1" Demo.tk_parms))
           (snd (__init__ Demo.app
                   (Demo.session "" (Demo.tk_node "arnold1" Demo.tk_parms))))
           Demo.self (Some 1) _
           (Demo.tk_node "arnold1" Demo.tk_parms)
           (Demo.menu_parm 0 ["Exr"; "Jpeg"]) 0 "Exr");
    reflexivity.
Defined.

Lemma get_output_profile_errors_witness :
  _get_output_profile Demo.host Demo.self (Some 1) Demo.script_session
    = (Raise AttributeError, Demo.script_session) /\
  _get_output_profile Demo.host Demo.self (Some 1)
    (Demo.profile_only 5 ["Exr"; "Jpeg"])
    = (Raise IndexError, Demo.profile_only 5 ["Exr"; "Jpeg"]) /\
  _get_output_profile Demo.host Demo.self (Some 1)
    (Demo.profile_only 1 ["Exr"; "Tiff"])
    = (Raise KeyError, Demo.profile_only 1 ["Exr"; "Tiff"]).
Proof.
  split; [|split].
  - apply (get_output_profile_errors Demo.host Demo.self (Some 1)
             Demo.script_session Demo.indexed); reflexivity.
  - apply (get_output_profile_errors Demo.host Demo.self (Some 1)
             (Demo.profile_only 5 ["Exr"; "Jpeg"]) _ eq_refl)
      with (p := Demo.menu_parm 5 ["Exr"; "Jpeg"]) (z := 5%Z);
      [reflexivity|reflexivity|simpl; lia].
  - apply (get_output_profile_errors Demo.host Demo.self (Some 1)
             (Demo.profile_only 1 ["Exr"; "Tiff"]) _ eq_refl)
      with (p := Demo.menu_parm 1 ["Exr"; "Tiff"]) (name := "Tiff");
      reflexivity.
Defined.

Lemma get_extra_plane_numbers_range_witness :
  (exists planes,
     _get_extra_plane_numbers Demo.host 1 Demo.round_session
       = (Ok planes, Demo.round_session) /\
     length planes = 1%nat /\
     forall i : nat, planes !! i
       = if decide (Z.of_nat i < 1)%Z then Some (1 + Z.of_nat i)%Z
         else None) /\
  _get_extra_plane_numbers Demo.host 1 Demo.script_session
    = (Raise AttributeError, Demo.script_session).
Proof.
  split.
  - apply (get_extra_plane_numbers_range Demo.host 1 Demo.round_session
             Demo.beauty eq_refl)
      with (p := Demo.int_parm 1) (k := 1%Z); reflexivity.
  - apply (get_extra_plane_numbers_range Demo.host 1 Demo.script_session
             Demo.indexed eq_refl). reflexivity.
Defined.


Lemma reset_render_path_sets_picture_witness :
  exists path v,
    holds_locked 1 "sgtk_ar_filename" (VStr path)
      (snd (reset_render_path Demo.host Demo.app Demo.self (Some 1)
              (Demo.session "/proj/shot.v003.hip"
                 (Demo.tk_node "arnold1" Demo.tk_parms)))) /\
    holds_locked 1 "sgtk_ass_diskfile" v
      (snd (reset_render_path Demo.host Demo.app Demo.self (Some 1)
              (Demo.session "/proj/shot.v003.hip"
                 (Demo.tk_node "arnold1" Demo.tk_parms)))) /\
    raw_at (snd (reset_render_path Demo.host Demo.app Demo.self (Some 1)
                   (Demo.session "/proj/shot.v003.hip"
                      (Demo.tk_node "arnold1" Demo.tk_parms))))
           1 "sgtk_ar_picture" = Some (VStr path) /\
    raw_at (snd (reset_render_path Demo.host Demo.app Demo.self (Some 1)
                   (Demo.session "/proj/shot.v003.hip"
                      (Demo.tk_node "arnold1" Demo.tk_parms))))
           1 "ar_picture" = Some (VStr path).
Proof.
  apply (reset_render_path_sets_picture Demo.host Demo.app Demo.self (Some 1)
           (Demo.session "/proj/shot.v003.hip"
              (Demo.tk_node "arnold1" Demo.tk_parms)) _
           (Demo.tk_node "arnold1" Demo.tk_parms)).
  - vm_compute. reflexivity.
  - reflexivity.
  - reflexivity.
Defined.

Lemma get_output_path_menu_cached_witness :
  get_output_path_menu Demo.host Demo.app Demo.self None
    (Demo.session "/proj/shot.v003.hip"
       (Demo.tk_node "arnold1" Demo.cached_parms))
  = (Ok ["sgtk"; ""; "ip"; "mplay (interactive)";
         "md"; "mplay (non-interactive)"],
     Demo.session "/proj/shot.v003.hip"
       (Demo.tk_node "arnold1" Demo.cached_parms)).
Proof.
  apply (get_output_path_menu_cached Demo.host Demo.app Demo.self None _
           (Demo.tk_node "arnold1" Demo.cached_parms)
           (Demo.str_parm "False") (Demo.str_parm "/proj/shot.v003.hip")
           (Demo.str_parm "") "");
    reflexivity.
Defined.

Lemma get_output_path_menu_refreshes_witness :
  exists s1 path,
    reset_render_path Demo.host Demo.app Demo.self (Some 1)
      (Demo.session "/proj/shot.v003.hip"
         (Demo.tk_node "arnold1" Demo.tk_parms)) = (Ok tt, s1) /\
    snd (get_output_path_menu Demo.host Demo.app Demo.self None
           (Demo.session "/proj/shot.v003.hip"
              (Demo.tk_node "arnold1" Demo.tk_parms)))
      = with_parm 1 TK_HIP_PATH_PARM_NAME
          (set_raw (VStr "/proj/shot.v003.hip")) s1 /\
    raw_at (snd (get_output_path_menu Demo.host Demo.app Demo.self None
                   (Demo.session "/proj/shot.v003.hip"
                      (Demo.tk_node "arnold1" Demo.tk_parms))))
           1 TK_HIP_PATH_PARM_NAME = Some (VStr "/proj/shot.v003.hip") /\
    raw_at (snd (get_output_path_menu Demo.host Demo.app Demo.self None
                   (Demo.session "/proj/shot.v003.hip"
                      (Demo.tk_node "arnold1" Demo.tk_parms))))
           1 NODE_OUTPUT_PATH_PARM = Some (VStr path) /\
    ["sgtk"; "C:/renders/render/arnold1"; "ip"; "mplay (interactive)";
     "md"; "mplay (non-interactive)"]
      = ["sgtk"; path; "ip"; "mplay (interactive)";
         "md"; "mplay (non-interactive)"].
Proof.
  apply (get_output_path_menu_refreshes Demo.host Demo.app Demo.self None
           (Demo.session "/proj/shot.v003.hip"
              (Demo.tk_node "arnold1" Demo.tk_parms)) _
           (Demo.tk_node "arnold1" Demo.tk_parms) (Demo.str_parm "")).
  - vm_compute. reflexivity.
  - reflexivity.
  - reflexivity.
  - reflexivity.
Defined.


Lemma convert_to_regular_node_keeps_wiring_witness :
  exists st',
    convert_to_regular_node Demo.host 1 (Demo.wired_session 4) = (Ok tt, st') /\
    forall d i up,
      wired st' d i up <->
      exists d0 up0, wired (Demo.wired_session 4) d0 i up0 /\
                     d = renamed 1 6 d0 /\ up = renamed 1 6 up0.
Proof.
  apply (convert_to_regular_node_keeps_wiring Demo.host
           (mkNodeTypeDef Demo.native_parms 4) 1 Demo.arnold1).
  - reflexivity.
  - reflexivity.
  - apply fresh_all_nodes. vm_compute. reflexivity.
  - vm_compute. lia.
  - apply (to_native_ok_well_formed Demo.host (mkNodeTypeDef Demo.native_parms 4)
             (mkNodeTypeDef Demo.tk_parms 4) Demo.arnold1 "Exr");
      vm_compute; reflexivity.
Defined.

Lemma convert_back_node_keeps_wiring_witness :
  exists st',
    convert_back_node Demo.host 6
        (snd (convert_to_regular_node Demo.host 1 (Demo.wired_session 4)))
      = (Ok tt, st') /\
    forall d i up,
      wired st' d i up <->
      exists d0 up0,
        wired (snd (convert_to_regular_node Demo.host 1 (Demo.wired_session 4)))
              d0 i up0 /\
        d = renamed 6 7 d0 /\ up = renamed 6 7 up0.
Proof.
  apply (convert_back_node_keeps_wiring Demo.host
           (mkNodeTypeDef Demo.tk_parms 4) 6
           (set_inputs {[ 0%nat := 3; 2%nat := 4 ]}
              (native_of Demo.host (mkNodeTypeDef Demo.native_parms 4)
                         Demo.arnold1))).
  - reflexivity.
  - vm_compute. reflexivity.
  - apply fresh_all_nodes. vm_compute. reflexivity.
  - vm_compute. lia.
  - apply (to_tk_ok_attrs Demo.host (mkNodeTypeDef Demo.tk_parms 4)
             (native_of Demo.host (mkNodeTypeDef Demo.native_parms 4)
                        Demo.arnold1)); [reflexivity|].
    apply (to_tk_ok_native_of Demo.host (mkNodeTypeDef Demo.native_parms 4)
             (mkNodeTypeDef Demo.tk_parms 4) Demo.arnold1 "Exr");
      try (vm_compute; reflexivity); discriminate.
Defined.

Lemma convert_to_regular_leaves_no_tk_node_witness :
  exists st1,
    convert_to_regular_arnold_nodes Demo.host Demo.round_session
      = (Ok tt, st1) /\
    get_all_tk_arnold_nodes Demo.host st1 = (Ok [], st1).
Proof.
  apply (convert_to_regular_leaves_no_tk_node Demo.host
           (mkNodeTypeDef Demo.native_parms 4)
           (mkNodeTypeDef Demo.tk_parms 4)).
  - reflexivity.
  - reflexivity.
  - apply fresh_all_nodes. vm_compute. reflexivity.
  - apply deg_ok_all_nodes. vm_compute. reflexivity.
  - intros m nd Hm Hty.
    assert (H : all_nodes
                  (round_trip_ready Demo.host (mkNodeTypeDef Demo.tk_parms 4))
                  Demo.round_session = true) by (vm_compute; reflexivity).
    apply (all_nodes_lookup _ _ _ _ H) in Hm. unfold round_trip_ready in Hm.
    rewrite Hty in Hm. simpl in Hm.
    apply andb_prop in Hm as [Hm _]. apply andb_prop in Hm as [H1 H2].
    destruct (selected_of_configured _ _ _ H2) as [prof Hprof].
    apply (to_native_ok_well_formed Demo.host
             (mkNodeTypeDef Demo.native_parms 4)
             (mkNodeTypeDef Demo.tk_parms 4) nd prof);
      [vm_compute; reflexivity | exact H1 | exact Hprof].
Defined.

Lemma convert_back_leaves_unstamped_witness :
  exists st2,
    convert_back_to_tk_arnold_nodes Demo.host
        (snd (convert_to_regular_arnold_nodes Demo.host Demo.round_session))
      = (Ok tt, st2) /\
    forall y nd, nodes st2 !! y = Some nd ->
      node_type nd = HOU_ARNOLD_NODE_TYPE ->
      attrs_lookup
        (snd (convert_to_regular_arnold_nodes Demo.host Demo.round_session)) y
        = Some (attrs nd) /\
      unstamped nd.
Proof.
  apply (convert_back_leaves_unstamped Demo.host
           (mkNodeTypeDef Demo.native_parms 4)
           (mkNodeTypeDef Demo.tk_parms 4)).
  - reflexivity.
  - reflexivity.
  - apply fresh_all_nodes. vm_compute. reflexivity.
  - apply deg_ok_all_nodes. vm_compute. reflexivity.
  - intros x nd Hx Hty.
    assert (H : all_nodes
                  (fun x nd =>
                     bool_decide
                       (node_user_data nd !! TK_OUTPUT_PROFILE_NAME_KEY = None)
                     || (x =? 3)%nat)
                  (snd (convert_to_regular_arnold_nodes Demo.host
                          Demo.round_session)) = true)
      by (vm_compute; reflexivity).
    pose proof (all_nodes_lookup _ _ _ _ H Hx) as Hc. simpl in Hc.
    apply orb_prop in Hc as [Hc|Hc].
    + left. left. apply bool_decide_eq_true in Hc. exact Hc.
    + right. apply Nat.eqb_eq in Hc. subst x.
      assert (Hn : nodes (snd (convert_to_regular_arnold_nodes Demo.host
                                 Demo.round_session)) !! 3
                = Some (set_inputs {[ 0%nat := 2 ]}
                          (native_of Demo.host
                             (mkNodeTypeDef Demo.native_parms 4) Demo.beauty)))
        by (vm_compute; reflexivity).
      rewrite Hn in Hx.
      assert (Hnd : set_inputs {[ 0%nat := 2 ]}
                      (native_of Demo.host
                         (mkNodeTypeDef Demo.native_parms 4) Demo.beauty) = nd)
        by congruence.
      rewrite <- Hnd.
      apply (to_tk_ok_attrs Demo.host (mkNodeTypeDef Demo.tk_parms 4)
               (native_of Demo.host (mkNodeTypeDef Demo.native_parms 4)
                          Demo.beauty)); [reflexivity|].
      apply (to_tk_ok_native_of Demo.host (mkNodeTypeDef Demo.native_parms 4)
               (mkNodeTypeDef Demo.tk_parms 4) Demo.beauty "Jpeg");
        try (vm_compute; reflexivity); discriminate.
Defined.

Lemma use_file_plane_unchecked_witness :
  use_file_plane Demo.host Demo.app Demo.self (Some 1)
      (Some (1, "ar_aov_separate" +:+ pretty 1%Z))
      (Demo.session "/proj/shot.v003.hip" (Demo.tk_node "arnold1" Demo.tk_parms))
    = (Ok tt,
       with_parm 1 ("sgtk_ar_aov_separate_file" +:+ pretty 1%Z)
         (written_locked (VStr "Disabled"))
         (Demo.session "/proj/shot.v003.hip"
            (Demo.tk_node "arnold1" Demo.tk_parms))).
Proof.
  apply (use_file_plane_unchecked Demo.host Demo.app Demo.self 1
           (Demo.tk_node "arnold1" Demo.tk_parms) "ar_aov_separate" 1%Z
           (mkParm ToggleParmTemplate (VInt 0) ∅ false [])
           (mkParm ToggleParmTemplate (VInt 0) ∅ false [])
           (Demo.str_parm "")).
  - reflexivity.
  - lia.
  - reflexivity.
  - vm_compute. reflexivity.
  - vm_compute. reflexivity.
  - reflexivity.
  - vm_compute. reflexivity.
  - reflexivity.
Defined.

Lemma use_file_plane_no_plane_number_witness :
  use_file_plane Demo.host Demo.app Demo.self (Some 1)
      (Some (1, "sgtk_output_profile"))
      (Demo.session "/proj/shot.v003.hip" (Demo.tk_node "arnold1" Demo.tk_parms))
    = (Raise IndexError,
       Demo.session "/proj/shot.v003.hip"
         (Demo.tk_node "arnold1" Demo.tk_parms)).
Proof.
  apply (use_file_plane_no_plane_number Demo.host Demo.app Demo.self 1
           (Demo.tk_node "arnold1" Demo.tk_parms) "sgtk_output_profile"
           (Demo.menu_parm 0 ["Exr"; "Jpeg"])).
  - reflexivity.
  - reflexivity.
  - reflexivity.
Defined.

Lemma convert_back_profile_not_offered_witness :
  exists st',
    convert_back_node Demo.host 1
        (Demo.session "/proj/shot.v003.hip"
           (mkNode "ifd" "ifd1" "/out" origin Demo.native_parms
                   {[ "tk_output_profile_name" := "Tiff" ]} ∅ 4))
      = (Ok tt, st') /\
    log st'
      = [(LWarning, "No output profile found named: Tiff");
         (LDebug, "Converted: Arnold node 'ifd1' to TK Arnold node.")] /\
    nodes st' !! 1 = None /\
    exists td,
      nodes st' !! 2 = Some td /\
      node_type td = TK_ARNOLD_NODE_TYPE /\
      node_name td = "ifd1" /\
      lookup_parm (node_parms td) TK_OUTPUT_PROFILE_PARM
        = Some (Demo.menu_parm 0 ["Exr"; "Jpeg"]).
Proof.
  apply (convert_back_profile_not_offered Demo.host
           (mkNodeTypeDef Demo.tk_parms 4) 1
           (mkNode "ifd" "ifd1" "/out" origin Demo.native_parms
                   {[ "tk_output_profile_name" := "Tiff" ]} ∅ 4)
           "Tiff" (Demo.menu_parm 0 ["Exr"; "Jpeg"]) []).
  - reflexivity.
  - reflexivity.
  - apply fresh_all_nodes. vm_compute. reflexivity.
  - vm_compute. lia.
  - vm_compute. reflexivity.
  - discriminate.
  - reflexivity.
  - reflexivity.
  - reflexivity.
  - apply all_can_copy_check. vm_compute. reflexivity.
  - vm_compute. reflexivity.
  - intros i [].
Defined.

Lemma get_rendered_files_validates_witness :
  _get_rendered_files Demo.host Demo.app Demo.self
      (fun t _ skip => t :: skip) 1
      (Demo.session "/proj/shot.v003.hip" (Demo.tk_node "arnold1" Demo.tk_parms))
    = if validate Demo.app ("render" : Template Demo.app) ""
      then (Ok (("render" : string) :: ["SEQ"; "eye"]),
            Demo.session "/proj/shot.v003.hip"
              (Demo.tk_node "arnold1" Demo.tk_parms))
      else (Ok [],
            add_log LError
              ("Unable to validate files on disk for node "
                 +:+ node_name (Demo.tk_node "arnold1" Demo.tk_parms)
                 +:+ ".The path '" +:+ ""
                 +:+ "' is not recognized by Shotgun.")
              (Demo.session "/proj/shot.v003.hip"
                 (Demo.tk_node "arnold1" Demo.tk_parms))).
Proof.
  apply (get_rendered_files_validates Demo.host Demo.app Demo.self
           (fun t _ skip => t :: skip) 1
           (Demo.tk_node "arnold1" Demo.tk_parms)
           (Demo.str_parm "") (Demo.menu_parm 0 ["Exr"; "Jpeg"])
           "" "Exr" "render" Demo.exr).
  - reflexivity.
  - reflexivity.
  - reflexivity.
  - reflexivity.
  - reflexivity.
  - reflexivity.
  - reflexivity.
  - reflexivity.
  - reflexivity.
Defined.
